(* ===== verification/_CoqProject ===== *)
-Q . S2P
Prelude.v
Utf8.v
GoStd.v
GoFloat.v
Defaults.v
Config.v
Validator.v
Settings.v
World.v
Trace.v
RefWorld.v
GoTime.v
JsonSyntax.v
Queue.v
Json.v
JsonTypes.v
Dlq.v
Consumer.v
Registry.v
Worker.v
Delivery.v
System.v
Throttler.v
ThrottlerLoop.v
Ingestion.v
Health.v
HealthLoop.v
Logger.v
Bootstrap.v
Main.v
Witnesses.v
