(* ===== verification/Prelude.v ===== *)
(** * Verification of the distributed log ingestion and processing pipeline

    ** The program

    Three processes share one Redis server.  [cmd/ingestion] accepts log events
    over HTTP and appends each, as a JSON job, to the stream of the partition its
    service hashes to; an adaptive throttler refuses requests when the queue is
    overloaded.  [cmd/worker] reads one partition through a consumer group,
    processes jobs concurrently behind a deduplicating processor, acknowledges
    them, retries failures by appending them again, sends jobs whose retries are
    used up to a dead letter stream, and reclaims messages of workers that died.
    [cmd/control_plane] holds a lock and watches the heartbeats of the workers.

    ** How it is modelled

    Go functions without effects are Rocq functions.  Functions with effects are
    programs ([prog], World.v): trees of calls ([cmd]: Redis commands, clock,
    random numbers, context, timers) with panics and fuel exhaustion as outcomes.
    What the calls do is not ours: [World] is any machine that executes them, and
    [RedisLaws] states the documented behaviour of Redis and of the go-redis
    client on the stored data ([Db]: streams with consumer groups and pending
    lists, strings with expiry, hashes).  A command can fail before or after it was
    executed, and the client may repeat it when an answer is lost: the laws allow
    both, so the theorems hold with such failures.  RefWorld.v is an executable
    world with a script of failures that satisfies the laws; the witnesses run on
    it.  The log of a run ([trace], Trace.v) keeps each call with its answer:
    theorems about time speak of the clock readings in it ([clocks]), and theorems
    about errors of the failed command in it ([failed_xlen], ...).  Goroutines interleave call by call, as step relations: those of
    a worker ([wstep], Worker.v), any number of workers, crashes and other clients
    ([sstep], System.v), the updater of the throttler with its readers and [Stop]
    ([tstep], ThrottlerLoop.v), and the checks of a health probe with their channels
    and timeout ([cstep], HealthLoop.v).  [int] and [int64] are 64-bit and wrap, [float64] is
    binary64, durations are nanoseconds, strings are bytes.

    ** Files

    - Prelude: machine integers, results, tactics, the hint database [golog].
    - Utf8, GoStd, GoFloat, GoTime: what the code uses of the Go library:
      UTF-8 validity, strconv, strings, durations, errors (wrapping, [errors.Is],
      [errors.As]), binary64, [strconv.ParseFloat], [time.ParseDuration],
      RFC 3339 times.
    - JsonSyntax, Json: encoding/json: parser and printer of values, string
      escapes, shortest floats, decoding into structs (case folding of names,
      null, omitempty), for LogEvent, JobEnvelope and DLQEntry; instance [GoCodec]
      of the interface [Codec] of Queue.v and its laws.
    - JsonTypes: what every decoded value satisfies, whatever the text.
    - Defaults, Config, Validator: internal/config: every constant, struct, default,
      variable and check; [valid_config] is the specification of [Validate].
      Settings: the table of environment variables, the specification of [Load].
    - World, RefWorld: calls, programs, the data model and laws of Redis.  Trace:
      programs call by call, with the log of their calls.
    - Queue: pkg/models, internal/queue/types.go, message.go, producer.go.
    - Dlq: internal/queue/dlq.go.  Consumer: internal/queue/consumer.go.
    - Registry: internal/registry (registry.go, types.go, control_plane.go).
    - Worker: internal/worker.  The end of a job is two steps, as in the deferred
      function of the code: [activeJobs] goes down, then the permit is released
      ([GRelease]).  [w_read] is history: the messages the worker has read, so that
      a job can be traced to the message it came from.  Delivery: the calls of the worker's goroutines
      followed one by one, and why they acknowledge.  System: an abstract queue
      (Module [Abstract]) and the workers of a group as its refinement.
    - Throttler, Ingestion: internal/ingestion.  ThrottlerLoop: [NewThrottler],
      [Start], [Stop] and the goroutine of the adaptive throttler.
    - Health: internal/health.  HealthLoop: [CheckAll] with its goroutines.  Logger: internal/observability/logger.go.
    - Bootstrap: internal/bootstrap.
    - Main: the [run] functions of cmd/*/main.go, internal/ingestion/server.go.
    - Witnesses: every theorem with hypotheses applied to concrete data, and runs
      that show defects.

    Definitions keep the names of the Go functions; methods of a type are in a
    [Module] or [Section] of the component, the receiver's fields are section
    variables.

    ** What is proved

    - No job is lost on the way in: [Enqueue_correct], [EnqueueBatch_correct],
      [ingestion_end_to_end] (status codes tell what was
      stored, in which stream, and that every consumer group will be given it).
    - No job is lost on the way out: [Consume_correct], [Retry_requeue],
      [Retry_dead], [ReclaimStale_correct] (also termination of its cursor loop),
      [processMessage_no_loss], [Send_Get], [Requeue_no_loss], and under every
      interleaving of the worker's goroutines [acks_justified].  Where that stops:
      [dedup_drops_failed].
    - The queue as a whole: [system_refines_queue] (any number of workers, started
      and killed at any time, behave as an abstract queue whose messages are
      undelivered, pending or done) and [at_least_once], its consequence for the
      messages: a message is only done after a processor returned for the job in
      its own entry of the stream and, on a failure, after its next attempt became a
      message or the retries were used up.
    - The wire format round trips: [job_json_roundtrip], and [GoCodecLaws] for
      dead letters; and decoding is type safe, so that what came in can be sent on:
      [decoded_typed].
    - Concurrency of the worker under every interleaving: [concurrency_bound],
      [drained].  Of the throttler: [reads_not_older_than_stamp], [Stop_quiesces],
      [Stop_returns].  Of the health probe: [CheckAll_correct], [CheckAll_returns].
    - Configuration: [Validate_correct], [Load_correct], [Validate_reports_all].
    - Throttling, health, registry, logging, wiring: [Decision_fail_open],
      [computeRetryAfter_bounds], [updateMetrics_correct], [HandleReady_correct],
      [Register_GetWorker], [Heartbeat_refreshes], [reconcile_sound],
      [acquireLock_exclusive], [reclaim_exclusive], [backoff_capped],
      [context_logged], [SetupPartitions_correct], [worker_boot_ready].
    - Defects of the code, as theorems about what it does: [dedup_drops_failed]
      (with the run [dedup_loses_job]),
      [standby_never_leads], [Start_never_fails], [depth_ignores_acks],
      [throttler_env_ignored], [pending_nogroup_is_error], [Requeue_nil_panics],
      [log_level_case_mismatch], [nan_score_accepted], [renew_race_two_leaders],
      [release_race_deletes_other], [nested_job_poison], [offset_day_accepted],
      [dlq_partition_clash_accepted], [reclaim_batch_default_mismatch].

    ** Fuel

    [ReclaimStale] takes fuel; one more than the number of pending messages is
    proved enough.  The JSON parser, the escapes and [ParseDuration] compute their
    fuel from the length of the text and are proved never to run out.  The loops
    of the control plane run until a signal: their fuel counts turns, and nothing
    is claimed of a run that needs more.  The loops of the worker are steps of a
    relation and need none.

    ** What is not modelled

    Redis and go-redis (assumed through the laws), net/http and slog (sockets,
    timeouts, rendering of log records), pgx (the ping of the Postgres checker is a
    parameter), the operating system (signals, exit codes), log lines other than
    the access log and Logger.v, the texts of JSON errors, constructors that only
    store their arguments (the receivers' fields are section variables), the
    ready channel and the counter getters of the worker, the helpers of the
    integration tests, and the files without code (metrics, tracing, storage,
    validation).

    ** Plan

    Next: monotonicity of the throttling score and bounds on the jitter in
    binary64, several control planes as one system with the races of renewal and
    release that Witnesses.v shows on runs, and the remaining operations of the
    dead letter queue as refinements of an abstract one. *)
From stdpp Require Export base list gmap strings pretty fin_maps.
From Stdlib Require Export ZArith Lia.
From Stdlib Require Ascii.
Export Ascii.AsciiSyntax.
Delimit Scope char_scope with char.

#[global] Open Scope Z_scope.

(** ** Machine integers *)

(** Go's [int] and [int64] are 64-bit two's complement on the platforms the
    services are built for; arithmetic wraps around. *)
Definition min_int64 : Z := - 2 ^ 63.

Definition max_int64 : Z := 2 ^ 63 - 1.

Definition wrap64 (z : Z) : Z := (z + 2 ^ 63) mod 2 ^ 64 - 2 ^ 63.

Definition wrap32u (z : Z) : Z := z mod 2 ^ 32.

Definition is_int64 (z : Z) : Prop := min_int64 <= z <= max_int64.

#[global] Instance is_int64_dec z : Decision (is_int64 z).
Proof. unfold is_int64. apply _. Defined.

Lemma wrap64_range z : is_int64 (wrap64 z).
Proof.
  unfold is_int64, wrap64, min_int64, max_int64.
  pose proof (Z.mod_pos_bound (z + 2 ^ 63) (2 ^ 64) ltac:(lia)). lia.
Qed.

Lemma wrap64_id z : is_int64 z -> wrap64 z = z.
Proof.
  unfold is_int64, wrap64, min_int64, max_int64. intros ?.
  rewrite Z.mod_small by lia. lia.
Qed.

(** ** Results *)

(** A Go call that returns [(T, error)]: the code under verification always
    returns a zero [T] beside a non-nil error, except where a definition
    says otherwise (then it returns the tuple). *)
Inductive res (E A : Type) : Type :=
| Ok (a : A)
| Err (e : E).
Arguments Ok {E A} a.
Arguments Err {E A} e.

Definition is_ok {E A} (r : res E A) : bool :=
  match r with Ok _ => true | Err _ => false end.

Definition res_bind {E A B} (r : res E A) (f : A -> res E B) : res E B :=
  match r with Ok a => f a | Err e => Err e end.

#[global] Instance res_eq_dec {E A} `{EqDecision E, EqDecision A} : EqDecision (res E A).
Proof. solve_decision. Defined.

(** ** Tactics *)

(** Split every [match] and [if] of the goal, keeping the equations, and
    clean up with [simplify_eq]. *)
Ltac split_matches :=
  repeat (case_match; simplify_eq/=).

(** Turn boolean comparisons on [Z] in the context into propositions. *)
Ltac reflect_Z :=
  repeat match goal with
  | H : (_ <? _) = true |- _ => apply Z.ltb_lt in H
  | H : (_ <? _) = false |- _ => apply Z.ltb_ge in H
  | H : (_ <=? _) = true |- _ => apply Z.leb_le in H
  | H : (_ <=? _) = false |- _ => apply Z.leb_gt in H
  | H : (_ =? _) = true |- _ => apply Z.eqb_eq in H
  | H : (_ =? _) = false |- _ => apply Z.eqb_neq in H
  | H : (_ || _) = false |- _ => apply orb_false_iff in H; destruct H
  | H : (_ && _) = true |- _ => apply andb_true_iff in H; destruct H
  end.

Ltac int64 := unfold is_int64, min_int64, max_int64 in *; lia.

Create HintDb golog discriminated.
#[export] Hint Resolve wrap64_range : golog.

(** ** Strings *)

Lemma append_cons c (s1 s2 : string) : String c s1 +:+ s2 = String c (s1 +:+ s2).
Proof. reflexivity. Qed.

Lemma append_assoc (s1 s2 s3 : string) : (s1 +:+ s2) +:+ s3 = s1 +:+ (s2 +:+ s3).
Proof. induction s1 as [|c s1 IH]; [done|]. by rewrite !append_cons, IH. Qed.

Lemma append_nil_r (s : string) : s +:+ "" = s.
Proof. induction s as [|c s IH]; [done|]. by rewrite append_cons, IH. Qed.

Lemma length_append (s1 s2 : string) :
  String.length (s1 +:+ s2) = (String.length s1 + String.length s2)%nat.
Proof. induction s1 as [|c s1 IH]; [done|]. rewrite append_cons. simpl. by rewrite IH. Qed.

(** ** Lists *)

Lemma list_filter_none {A} (P : A -> Prop) `{forall x, Decision (P x)} (l : list A) :
  (forall x, x ∈ l -> ~ P x) -> filter P l = [].
Proof.
  induction l as [|x l IH]; [done|]. intros Hl. rewrite filter_cons, decide_False by (apply Hl; set_solver).
  apply IH. set_solver.
Qed.

Lemma list_filter_all {A} (P : A -> Prop) `{forall x, Decision (P x)} (l : list A) :
  (forall x, x ∈ l -> P x) -> filter P l = l.
Proof.
  induction l as [|x l IH]; intros Hp; [done|]. rewrite filter_cons, decide_True by (apply Hp; left).
  f_equal. apply IH. intros y Hy. apply Hp. by right.
Qed.
