(* ===== verification/Utf8.v ===== *)
(** * UTF-8 (package unicode/utf8)

    The byte sequences that encode one code point, validity of a byte string,
    and its closure properties. *)
From S2P Require Import Prelude.

Definition byte_val (c : Ascii.ascii) : Z := Z.of_N (Ascii.N_of_ascii c).

Definition in_bytes (lo hi : Z) (c : Ascii.ascii) : bool :=
  (lo <=? byte_val c) && (byte_val c <=? hi).

Definition is_ascii (c : Ascii.ascii) : bool := byte_val c <? 128.

Definition cont (c : Ascii.ascii) : bool := in_bytes 128 191 c.

(** Accepted second bytes after the first byte of a 3-byte sequence: no
    overlong forms, no surrogates. *)
Definition lead3 (a b : Ascii.ascii) : bool :=
  (in_bytes 224 224 a && in_bytes 160 191 b) ||
  (in_bytes 237 237 a && in_bytes 128 159 b) ||
  ((in_bytes 225 236 a || in_bytes 238 239 a) && cont b).

(** The same for 4-byte sequences: nothing past U+10FFFF. *)
Definition lead4 (a b : Ascii.ascii) : bool :=
  (in_bytes 240 240 a && in_bytes 144 191 b) ||
  (in_bytes 244 244 a && in_bytes 128 143 b) ||
  (in_bytes 241 243 a && cont b).

(** The bytes of the first code point of [s], and the rest; [None] when [s]
    does not start with a valid sequence. *)
Definition rune_chunk (s : string) : option (string * string) :=
  match s with
  | "" => None
  | String a s1 =>
      if is_ascii a then Some (String a "", s1)
      else match s1 with
      | "" => None
      | String b s2 =>
          if in_bytes 194 223 a && cont b then Some (String a (String b ""), s2)
          else match s2 with
          | "" => None
          | String c s3 =>
              if lead3 a b && cont c then Some (String a (String b (String c "")), s3)
              else match s3 with
              | "" => None
              | String d s4 =>
                  if lead4 a b && cont c && cont d
                  then Some (String a (String b (String c (String d ""))), s4)
                  else None
              end
          end
      end
  end.

(** Validity, by code points.  Every chunk has at least one byte: the length of
    the string is enough fuel. *)
Fixpoint valid_fuel (n : nat) (s : string) : bool :=
  match s with
  | "" => true
  | _ =>
      match n with
      | O => false
      | S n' => match rune_chunk s with Some (_, r) => valid_fuel n' r | None => false end
      end
  end.

Definition valid_utf8 (s : string) : bool := valid_fuel (String.length s) s.

(** ** Facts *)

Lemma rune_chunk_app s ch r : rune_chunk s = Some (ch, r) -> s = ch +:+ r.
Proof.
  unfold rune_chunk. intros H.
  repeat (case_match; simplify_eq/=; try reflexivity).
Qed.

Lemma rune_chunk_length s ch r :
  rune_chunk s = Some (ch, r) -> (String.length r < String.length s)%nat.
Proof.
  unfold rune_chunk. intros H. repeat (case_match; simplify_eq/=; try lia).
Qed.

(** A chunk is recognised whatever follows it. *)
Lemma rune_chunk_extend s ch r t :
  rune_chunk s = Some (ch, r) -> rune_chunk (s +:+ t) = Some (ch, r +:+ t).
Proof.
  unfold rune_chunk. intros H.
  destruct s as [|a s1]; [done|]. rewrite append_cons.
  destruct (is_ascii a); [by simplify_eq|].
  destruct s1 as [|b s2]; [done|]. rewrite append_cons.
  destruct (in_bytes 194 223 a && cont b); [by simplify_eq|].
  destruct s2 as [|c s3]; [done|]. rewrite append_cons.
  destruct (lead3 a b && cont c); [by simplify_eq|].
  destruct s3 as [|d s4]; [done|]. rewrite append_cons.
  destruct (lead4 a b && cont c && cont d); by simplify_eq.
Qed.

Lemma valid_fuel_enough n s :
  (String.length s <= n)%nat -> valid_fuel n s = valid_utf8 s.
Proof.
  unfold valid_utf8. intros Hn. remember (String.length s) as k eqn:Hk.
  assert (String.length s <= k)%nat as Hk' by lia. clear Hk.
  revert k s Hn Hk'. induction n as [|n IH]; intros k [|c s] Hn Hk; simpl in Hk; try lia;
    [by destruct k..|].
  destruct k as [|k]; [lia|]. cbn [valid_fuel].
  destruct (rune_chunk (String c s)) as [[ch r]|] eqn:E; [|done].
  apply rune_chunk_length in E. simpl in E. rewrite (IH (String.length r)) by lia.
  symmetry. rewrite <-(IH k r) by lia. apply IH; lia.
Qed.

Lemma valid_utf8_chunk s ch r :
  rune_chunk s = Some (ch, r) -> valid_utf8 s = valid_utf8 r.
Proof.
  intros H. pose proof (rune_chunk_length _ _ _ H) as Hl.
  destruct s as [|c s]; [done|]. unfold valid_utf8 at 1. cbn [String.length valid_fuel].
  rewrite H. apply valid_fuel_enough. simpl in Hl. lia.
Qed.

Lemma valid_utf8_inv c s :
  valid_utf8 (String c s) = true ->
  exists ch r, rune_chunk (String c s) = Some (ch, r) /\ valid_utf8 r = true.
Proof.
  intros H. destruct (rune_chunk (String c s)) as [[ch r]|] eqn:E.
  - exists ch, r. split; [done|]. by rewrite <-(valid_utf8_chunk _ _ _ E).
  - unfold valid_utf8 in H. cbn [String.length valid_fuel] in H. by rewrite E in H.
Qed.

(** Induction over the code points of a valid string. *)
Lemma valid_utf8_ind (P : string -> Prop) :
  P "" ->
  (forall s ch r, rune_chunk s = Some (ch, r) -> valid_utf8 r = true -> P r -> P s) ->
  forall s, valid_utf8 s = true -> P s.
Proof.
  intros Hnil Hstep s. remember (String.length s) as n eqn:Hn.
  revert s Hn. induction n as [n IH] using lt_wf_ind. intros [|c s] Hn Hv; [done|].
  destruct (valid_utf8_inv c s Hv) as (ch & r & E & Hr).
  eapply Hstep; [done..|]. eapply IH; [|done|done].
  apply rune_chunk_length in E. lia.
Qed.

Lemma valid_utf8_append s t :
  valid_utf8 s = true -> valid_utf8 t = true -> valid_utf8 (s +:+ t) = true.
Proof.
  intros Hs Ht. revert s Hs. apply valid_utf8_ind; [done|].
  intros s ch r E _ IH. by rewrite (valid_utf8_chunk _ _ _ (rune_chunk_extend _ _ _ t E)).
Qed.

Fixpoint all_ascii (s : string) : bool :=
  match s with "" => true | String c s' => is_ascii c && all_ascii s' end.

Lemma all_ascii_valid s : all_ascii s = true -> valid_utf8 s = true.
Proof.
  induction s as [|c s IH]; [done|]. simpl. intros [Hc Hs]%andb_true_iff.
  rewrite (valid_utf8_chunk _ (String c "") s); [auto|]. simpl. by rewrite Hc.
Qed.

Lemma all_ascii_append s t : all_ascii (s +:+ t) = all_ascii s && all_ascii t.
Proof.
  induction s as [|c s IH]; [done|]. rewrite append_cons. simpl. by rewrite IH, andb_assoc.
Qed.

(** Decimal numbers are ASCII. *)
Lemma pretty_N_go_ascii (x : N) s : all_ascii s = true -> all_ascii (pretty_N_go x s) = true.
Proof.
  revert s. induction (N.lt_wf_0 x) as [x _ IH]; intros s Hs.
  destruct (decide (x = 0)%N) as [->|Hne]; [by rewrite pretty_N_go_0|].
  rewrite pretty_N_go_step by lia. apply IH; [apply N.div_lt; lia|]. simpl. rewrite Hs.
  assert (x mod 10 < 10)%N as Hd by (apply N.mod_lt; lia).
  generalize dependent (x mod 10)%N. intros d Hd.
  assert (d = 0 \/ d = 1 \/ d = 2 \/ d = 3 \/ d = 4 \/ d = 5 \/ d = 6 \/ d = 7 \/ d = 8 \/ d = 9)%N
    as Hc by lia.
  destruct_or!; subst; reflexivity.
Qed.

Lemma pretty_Z_ascii (z : Z) : all_ascii (pretty z) = true.
Proof.
  assert (forall n : N, all_ascii (pretty n) = true) as HN.
  { intros n. unfold pretty, pretty_N. destruct (decide _); [done|]. by apply pretty_N_go_ascii. }
  unfold pretty, pretty_Z. destruct z as [|p|p]; [done|apply (HN (N.pos p))|].
  rewrite all_ascii_append. apply (HN (N.pos p)).
Qed.

#[export] Hint Resolve valid_utf8_append all_ascii_valid pretty_Z_ascii : golog.
