(* ===== verification/GoStd.v ===== *)
(** * The parts of the Go standard library the services use

    [strconv], [strings], [fmt] verbs, [time.Duration] and [errors], on byte
    strings.  Every function is executable. *)
From S2P Require Import Prelude.

(** ** package strconv *)
Module Strconv.

(** The two ways a number is refused ([strconv.ErrSyntax], [strconv.ErrRange]). *)
Inductive num_error := ErrSyntax | ErrRange.

#[global] Instance num_error_eq_dec : EqDecision num_error.
Proof. solve_decision. Defined.

Definition Itoa (z : Z) : string := pretty z.

Definition digit_val (c : Ascii.ascii) : option Z :=
  let n := Z.of_N (Ascii.N_of_ascii c) - 48 in
  if (0 <=? n) && (n <=? 9) then Some n else None.

(** The loop of [ParseUint(s, 10, 64)]: [n] is the value read so far, the
    range error is reported as soon as the value leaves 64 bits. *)
Fixpoint parse_uint_loop (n : Z) (s : string) : res num_error Z :=
  match s with
  | "" => Ok n
  | String c s' =>
      match digit_val c with
      | None => Err ErrSyntax
      | Some d =>
          if 2 ^ 64 / 10 + 1 <=? n then Err ErrRange
          else if 2 ^ 64 <=? n * 10 + d then Err ErrRange
          else parse_uint_loop (n * 10 + d) s'
      end
  end.

Definition ParseUint (s : string) : res num_error Z :=
  match s with "" => Err ErrSyntax | _ => parse_uint_loop 0 s end.

(** [ParseInt(s, 10, 64)]: an optional sign, then digits. *)
Definition ParseInt (s : string) : res num_error Z :=
  match s with
  | "" => Err ErrSyntax
  | String c s' =>
      let '(neg, s0) :=
        if Ascii.eqb c "+"%char then (false, s')
        else if Ascii.eqb c "-"%char then (true, s')
        else (false, s) in
      match ParseUint s0 with
      | Err e => Err e
      | Ok un =>
          if negb neg && (2 ^ 63 <=? un) then Err ErrRange
          else if neg && (2 ^ 63 <? un) then Err ErrRange
          else Ok (if neg then - un else un)
      end
  end.

(** [int] has 64 bits: [Atoi] accepts exactly what [ParseInt(s, 10, 0)] does. *)
Definition Atoi (s : string) : res num_error Z := ParseInt s.

Definition ParseBool (s : string) : option bool :=
  if bool_decide (s ∈ ["1"; "t"; "T"; "TRUE"; "true"; "True"]) then Some true
  else if bool_decide (s ∈ ["0"; "f"; "F"; "FALSE"; "false"; "False"]) then Some false
  else None.

Lemma parse_uint_loop_range n s z :
  0 <= n < 2 ^ 64 -> parse_uint_loop n s = Ok z -> 0 <= z < 2 ^ 64.
Proof.
  revert n. induction s as [|c s IH]; simpl; intros n Hn H; [by simplify_eq|].
  unfold digit_val in H. split_matches; reflect_Z.
  eapply IH; [|done]. lia.
Qed.

Lemma ParseInt_range s z : ParseInt s = Ok z -> is_int64 z.
Proof.
  unfold ParseInt, ParseUint. intros H.
  destruct s as [|c s]; [done|].
  destruct (if Ascii.eqb c "+"%char then _ else _) as [neg s0] eqn:Hs.
  destruct s0 as [|c0 s0]; [done|].
  destruct (parse_uint_loop 0 (String c0 s0)) as [un|] eqn:Hu; [|done].
  apply parse_uint_loop_range in Hu; [|lia].
  destruct neg; simpl in H; split_matches; reflect_Z; int64.
Qed.

Lemma digit_val_pretty d :
  (d < 10)%N -> digit_val (pretty_N_char d) = Some (Z.of_N d).
Proof.
  intros Hd.
  assert (d = 0 \/ d = 1 \/ d = 2 \/ d = 3 \/ d = 4 \/ d = 5 \/ d = 6 \/ d = 7 \/ d = 8 \/ d = 9)%N
    as Hc by lia.
  destruct_or!; subst; reflexivity.
Qed.

(** Reading the digits [pretty] prints continues with the printed number. *)
Lemma parse_uint_loop_pretty (x : N) s :
  (Z.of_N x < 2 ^ 64) ->
  parse_uint_loop 0 (pretty_N_go x s) = parse_uint_loop (Z.of_N x) s.
Proof.
  revert s. induction (N.lt_wf_0 x) as [x _ IH]; intros s Hx.
  destruct (decide (x = 0)%N) as [->|Hne]; [by rewrite pretty_N_go_0|].
  rewrite pretty_N_go_step by lia.
  assert (x / 10 < x)%N by (apply N.div_lt; lia).
  assert (x mod 10 < 10)%N by (apply N.mod_lt; lia).
  assert (exists q r, Z.of_N (x / 10) = q /\ Z.of_N (x mod 10) = r /\
    Z.of_N x = q * 10 + r /\ 0 <= r) as (q & r & Hq & Hr & Hdm & Hr0).
  { eexists _, _. repeat split; [|apply N2Z.is_nonneg].
    pose proof (N.div_mod x 10 ltac:(lia)). lia. }
  rewrite IH by lia. cbn [parse_uint_loop]. rewrite digit_val_pretty, Hq, Hr by done.
  change (2 ^ 64 / 10 + 1) with 1844674407370955162. rewrite <-Hdm.
  clear - Hx Hdm Hr0.
  rewrite (proj2 (Z.leb_gt _ q)) by lia. by rewrite (proj2 (Z.leb_gt _ _)) by lia.
Qed.

Lemma pretty_N_go_nonempty (x : N) c s : exists c' s', pretty_N_go x (String c s) = String c' s'.
Proof.
  revert c s. induction (N.lt_wf_0 x) as [x _ IH]; intros c s.
  destruct (decide (x = 0)%N) as [->|Hne]; [rewrite pretty_N_go_0; eauto|].
  rewrite pretty_N_go_step by lia. apply IH. apply N.div_lt; lia.
Qed.

Lemma ParseUint_pretty (x : N) : Z.of_N x < 2 ^ 64 -> ParseUint (pretty x) = Ok (Z.of_N x).
Proof.
  intros Hx. unfold ParseUint, pretty, pretty_N.
  destruct (decide (x = 0)%N) as [->|Hne]; [reflexivity|].
  rewrite pretty_N_go_step by lia.
  destruct (pretty_N_go_nonempty (x / 10) (pretty_N_char (x mod 10)) "") as (c&s&E).
  rewrite E, <-E, <-pretty_N_go_step by lia. by rewrite parse_uint_loop_pretty.
Qed.

(** The first character of a printed natural number is a digit. *)
Lemma pretty_N_head (x : N) :
  exists c s, (pretty x : string) = String c s /\ is_Some (digit_val c).
Proof.
  destruct (pretty x : string) as [|c s] eqn:E.
  { unfold pretty, pretty_N in E. destruct (decide _); [done|].
    rewrite pretty_N_go_step in E by lia.
    destruct (pretty_N_go_nonempty (x / 10) (pretty_N_char (x mod 10)) "") as (?&?&E').
    congruence. }
  eexists _, _. split; [done|]. destruct (digit_val c) eqn:Hd; [done|exfalso].
  revert E. unfold pretty, pretty_N. destruct (decide _) as [|Hne]; [by intros [= <- <-]|].
  intros E.
  assert (forall n s0, (exists c0 s1, s0 = String c0 s1 /\ is_Some (digit_val c0)) ->
    exists c0 s1, pretty_N_go n s0 = String c0 s1 /\ is_Some (digit_val c0)) as Hgo.
  { intros n. induction (N.lt_wf_0 n) as [n _ IH]; intros s0 Hs0.
    destruct (decide (n = 0)%N) as [->|]; [by rewrite pretty_N_go_0|].
    rewrite pretty_N_go_step by lia. apply IH; [apply N.div_lt; lia|].
    eexists _, _. split; [done|]. rewrite digit_val_pretty; [eauto|apply N.mod_lt; lia]. }
  rewrite pretty_N_go_step in E by lia.
  destruct (Hgo (x / 10)%N (String (pretty_N_char (x mod 10)) "")) as (c0&s1&E'&Hc0).
  { eexists _, _. split; [done|]. rewrite digit_val_pretty; [eauto|apply N.mod_lt; lia]. }
  rewrite E in E'. simplify_eq. rewrite Hd in Hc0. by destruct Hc0.
Qed.

Lemma ParseInt_Itoa z : is_int64 z -> ParseInt (Itoa z) = Ok z.
Proof.
  intros Hz. unfold Itoa, pretty, pretty_Z.
  destruct z as [|p|p]; [reflexivity| |].
  - change (pretty p) with (pretty (N.pos p)).
    destruct (pretty_N_head (N.pos p)) as (c&s&E&Hc). unfold ParseInt. rewrite E.
    assert (Ascii.eqb c "+"%char = false) as ->.
    { destruct (Ascii.eqb_spec c "+"%char); [subst; by destruct Hc|done]. }
    assert (Ascii.eqb c "-"%char = false) as ->.
    { destruct (Ascii.eqb_spec c "-"%char); [subst; by destruct Hc|done]. }
    rewrite <-E, ParseUint_pretty by (simpl; int64).
    simpl. rewrite (proj2 (Z.leb_gt _ _)) by int64. done.
  - change ("-" +:+ pretty p) with (String "-" (pretty (N.pos p))).
    unfold ParseInt. cbn -[ParseUint pretty Z.pow].
    rewrite ParseUint_pretty by (simpl; int64).
    simpl. rewrite (proj2 (Z.ltb_ge _ _)) by int64. done.
Qed.

(** The digits of a non-negative number contain no dash. *)
Lemma Itoa_no_dash z c : 0 <= z -> c ∈ String.list_ascii_of_string (Itoa z) -> c <> "-"%char.
Proof.
  assert (forall (x : N) s, (forall c, c ∈ String.list_ascii_of_string s -> c <> "-"%char) ->
    forall c, c ∈ String.list_ascii_of_string (pretty_N_go x s) -> c <> "-"%char) as Hgo.
  { intros x. induction (N.lt_wf_0 x) as [x _ IH]; intros s Hs.
    destruct (decide (x = 0)%N) as [->|Hne]; [by rewrite pretty_N_go_0|].
    rewrite pretty_N_go_step by lia. apply IH; [apply N.div_lt; lia|].
    intros c' [->|Hc]%elem_of_cons; [|by apply Hs]. intros Hd.
    assert (is_Some (digit_val (pretty_N_char (x mod 10)))) as [v Hv].
    { rewrite digit_val_pretty; [eauto|apply N.mod_lt; lia]. }
    by rewrite Hd in Hv. }
  intros Hz. unfold Itoa, pretty, pretty_Z. destruct z as [|p|p]; [|..|lia].
  - intros Hc Heq. subst. simpl in Hc. set_solver.
  - change (pretty p) with (pretty (N.pos p)). unfold pretty, pretty_N. rewrite decide_False by lia.
    apply Hgo. intros c' Hc'. simpl in Hc'. set_solver.
Qed.

#[global] Instance Itoa_inj : Inj (=) (=) Itoa.
Proof. unfold Itoa. apply _. Qed.

End Strconv.

(** ** package strings *)
Module Strings.

(** [strings.Split(s, sep)] for a separator of one byte: always at least one part. *)
Fixpoint Split (s : string) (sep : Ascii.ascii) : list string :=
  match s with
  | "" => [""]
  | String c s' =>
      if Ascii.eqb c sep then "" :: Split s' sep
      else match Split s' sep with
           | p :: ps => String c p :: ps
           | [] => [String c ""]
           end
  end.

Fixpoint Contains (s sub : string) : bool :=
  String.prefix sub s || match s with "" => false | String _ s' => Contains s' sub end.

(** [strings.ToLower] as far as a comparison with an ASCII string can see:
    ASCII letters, and the two code points outside ASCII whose lower case is an
    ASCII letter (U+0130 and U+212A).  Every other rune of more than one byte
    has a lower case of more than one byte, and is left alone here. *)
Definition lower_ascii (c : Ascii.ascii) : Ascii.ascii :=
  let n := Ascii.N_of_ascii c in
  if (65 <=? n)%N && (n <=? 90)%N then Ascii.ascii_of_N (n + 32) else c.

Fixpoint ToLower (s : string) : string :=
  match s with
  | "" => ""
  | String "196" (String "176" s') => String "i" (ToLower s')
  | String "226" (String "132" (String "170" s')) => String "k" (ToLower s')
  | String c s' => String (lower_ascii c) (ToLower s')
  end.

Fixpoint Join (sep : string) (l : list string) : string :=
  match l with
  | [] => ""
  | [x] => x
  | x :: l' => x +:+ sep +:+ Join sep l'
  end.

(** The part before the first separator. *)
Lemma Split_head (p q : string) sep :
  (forall c, c ∈ String.list_ascii_of_string p -> c <> sep) ->
  exists l, Split (p +:+ String sep q) sep = p :: l.
Proof.
  induction p as [|c p IH]; intros Hp.
  - change ("" +:+ String sep q) with (String sep q). simpl.
    rewrite Ascii.eqb_refl. eauto.
  - rewrite append_cons. simpl. destruct (Ascii.eqb_spec c sep) as [->|_].
    { exfalso. apply (Hp sep); [simpl; left|done]. }
    destruct IH as [l ->]; [|eauto]. intros c' Hc'. apply Hp. simpl. by right.
Qed.

End Strings.

(** ** package time: durations *)
Module Time.

(** [time.Duration]: an [int64] count of nanoseconds. *)
Definition Nanosecond : Z := 1.

Definition Microsecond : Z := 1000 * Nanosecond.

Definition Millisecond : Z := 1000 * Microsecond.

Definition Second : Z := 1000 * Millisecond.

Definition Minute : Z := 60 * Second.

Definition Hour : Z := 60 * Minute.

Definition digit_char (d : Z) : Ascii.ascii := Ascii.ascii_of_N (Z.to_N (48 + d)).

(** [fmtFrac]: the fraction [v / 10^prec] without trailing zeros, and the rest of [v]. *)
Fixpoint fmtFrac (prec : nat) (v : Z) (print : bool) (acc : string) : Z * string :=
  match prec with
  | O => (v, if print then String "." acc else acc)
  | S n =>
      let digit := v mod 10 in
      let print' := print || negb (digit =? 0) in
      fmtFrac n (v / 10) print' (if print' then String (digit_char digit) acc else acc)
  end.

(** [Duration.String]. *)
Definition DurationString (d : Z) : string :=
  let u := Z.abs d in
  let sign := if d <? 0 then "-" else "" in
  if u =? 0 then "0s"
  else if u <? Second then
    let '(prec, unit) :=
      if u <? Microsecond then (0%nat, "ns")
      else if u <? Millisecond then (3%nat, String "194" (String "181" "s"))
      else (6%nat, "ms") in
    let '(v, frac) := fmtFrac prec u false "" in
    sign +:+ Strconv.Itoa v +:+ frac +:+ unit
  else
    let '(v, frac) := fmtFrac 9 u false "" in
    let secs := Strconv.Itoa (v mod 60) +:+ frac +:+ "s" in
    let mins := v / 60 in
    if mins =? 0 then sign +:+ secs
    else
      let ms := Strconv.Itoa (mins mod 60) +:+ "m" +:+ secs in
      let hours := mins / 60 in
      if hours =? 0 then sign +:+ ms
      else sign +:+ Strconv.Itoa hours +:+ "h" +:+ ms.

(** [t.Sub(u)] of two instants in nanoseconds: saturates at the [int64] bounds. *)
Definition Sub (t u : Z) : Z := Z.max min_int64 (Z.min max_int64 (t - u)).

Lemma Sub_range t u : is_int64 (Sub t u).
Proof. unfold Sub. int64. Qed.

Lemma Sub_exact t u : is_int64 (t - u) -> Sub t u = t - u.
Proof. unfold Sub. int64. Qed.

(** The Unix time of an instant: [t.Unix()]. *)
Lemma Unix_range ns : is_int64 ns -> is_int64 (ns / Second).
Proof.
  unfold Second, Millisecond, Microsecond, Nanosecond, is_int64, min_int64, max_int64.
  intros. Z.to_euclidean_division_equations. lia.
Qed.

Example duration_string_1 : DurationString (90 * Minute + 500 * Millisecond) = "1h30m0.5s".
Proof. reflexivity. Qed.

Example duration_string_2 : DurationString (1500 * Microsecond) = "1.5ms".
Proof. reflexivity. Qed.

Example duration_string_3 : DurationString (- (3 * Second)) = "-3s".
Proof. reflexivity. Qed.

End Time.

#[export] Hint Resolve Time.Unix_range Time.Sub_range : golog.

(** ** package errors, and the error values of the services *)
Module Errors.

(** Error values.  [ErrorString] is [errors.New] and [fmt.Errorf] without
    [%w]; [WrapError] is [fmt.Errorf] with [%w], its first argument the whole
    message.  The next four are the sentinels and the struct the code compares
    errors with; [RedisError] is any other error of the Redis client (a reply
    of the server or a transport failure), with its text. *)
Inductive error : Type :=
| ErrorString (msg : string)
| WrapError (msg : string) (err : error)
| ErrCircuitOpen
| ErrValidationFailed
| ErrRateLimited (RetryAfter : Z)
| ContextCanceled
| ContextDeadlineExceeded
| RedisNil
| RedisError (msg : string).

#[global] Instance error_eq_dec : EqDecision error.
Proof. solve_decision. Defined.

(** [err.Error()]. *)
Definition Error (e : error) : string :=
  match e with
  | ErrorString m => m
  | WrapError m _ => m
  | ErrCircuitOpen => "queue saturated, system overloaded"
  | ErrValidationFailed => "log event validation failed"
  | ErrRateLimited d => "rate limited - retry after " +:+ Time.DurationString d
  | ContextCanceled => "context canceled"
  | ContextDeadlineExceeded => "context deadline exceeded"
  | RedisNil => "redis: nil"
  | RedisError m => m
  end.

(** [fmt.Errorf("<prefix>: %w", err)], the only shape in which the code wraps. *)
Definition Wrapf (prefix : string) (e : error) : error :=
  WrapError (prefix +:+ ": " +:+ Error e) e.

(** [errors.Is]: the chain of wrapped errors contains the target. *)
Fixpoint Is (e target : error) : bool :=
  bool_decide (e = target) || match e with WrapError _ e' => Is e' target | _ => false end.

(** [errors.As] at type [*ErrRateLimited]. *)
Fixpoint AsRateLimited (e : error) : option Z :=
  match e with
  | ErrRateLimited d => Some d
  | WrapError _ e' => AsRateLimited e'
  | _ => None
  end.

Lemma Is_Wrapf p e target : Is e target = true -> Is (Wrapf p e) target = true.
Proof. unfold Wrapf. simpl. intros ->. apply orb_true_r. Qed.

Lemma AsRateLimited_Wrapf p e : AsRateLimited (Wrapf p e) = AsRateLimited e.
Proof. reflexivity. Qed.

(** An error that is none of the service's own. *)
Fixpoint foreign (e : error) : bool :=
  match e with
  | WrapError _ e' => foreign e'
  | ErrCircuitOpen | ErrValidationFailed | ErrRateLimited _ => false
  | _ => true
  end.

Lemma foreign_spec e : foreign e = true ->
  AsRateLimited e = None /\ Is e ErrCircuitOpen = false /\ Is e ErrValidationFailed = false.
Proof. by induction e. Qed.

End Errors.

Abbreviation error := Errors.error.
