(* ===== verification/GoFloat.v ===== *)
(** * IEEE 754 binary64 arithmetic, and the parsers that need it

    Go's [float64] as [SpecFloat.spec_float] at precision 53 and maximal
    exponent 1024: every operation is correctly rounded (to nearest, ties to
    even), computed on integers.  On top of it: [strconv.ParseFloat],
    [time.ParseDuration], the verb [%.2f], and the conversions between integers
    and floats. *)
From Stdlib Require Import SpecFloat.
From S2P Require Import Prelude GoStd.

Abbreviation float64 := spec_float.

Module F64.

Definition prec : Z := 53.

Definition emax : Z := 1024.

Definition add (x y : float64) : float64 := SFadd prec emax x y.

Definition sub (x y : float64) : float64 := SFsub prec emax x y.

Definition mul (x y : float64) : float64 := SFmul prec emax x y.

Definition div (x y : float64) : float64 := SFdiv prec emax x y.

Definition ltb (x y : float64) : bool := SFltb x y.

Definition leb (x y : float64) : bool := SFleb x y.

(** [x > y] and [x <= y] of Go are false when an operand is NaN, so they are
    not each other's negation. *)
Definition gtb (x y : float64) : bool := SFltb y x.

#[global] Instance float64_eq_dec : EqDecision float64.
Proof. solve_decision. Defined.

(** [float64(n)] for an integer [n]. *)
Definition of_Z (n : Z) : float64 := binary_normalize prec emax n 0 false.

(** The correctly rounded quotient [n / d], for [0 <= n]: how a decimal
    literal or a parsed decimal becomes a [float64]. *)
Definition of_ratio (n : Z) (d : positive) : float64 :=
  match n with
  | Zpos _ =>
      let '(q, e, l) := SFdiv_core_binary prec emax n 0 (Zpos d) 0 in
      binary_round_aux prec emax false q e l
  | _ => S754_zero false
  end.

(** The integer part, rounded towards zero; [None] for NaN and infinities. *)
Definition trunc (f : float64) : option Z :=
  match f with
  | S754_zero _ => Some 0
  | S754_finite s m e =>
      let a := if 0 <=? e then Zpos m * 2 ^ e else Zpos m / 2 ^ (- e) in
      Some (if s then - a else a)
  | _ => None
  end.

(** [int64(f)].  When the integer part does not fit, the result is
    implementation-specific (Go specification, "Conversions between numeric
    types"): [oob] gives it. *)
Definition to_int64 (oob : float64 -> Z) (f : float64) : Z :=
  match trunc f with
  | Some z => if bool_decide (is_int64 z) then z else oob f
  | None => oob f
  end.

Lemma to_int64_range oob f : (forall x, is_int64 (oob x)) -> is_int64 (to_int64 oob f).
Proof. intros Hoob. unfold to_int64. destruct (trunc f); [case_bool_decide|]; auto. Qed.

(** The verb [%.2f]. *)
Definition pad2 (n : Z) : string := (if n <? 10 then "0" else "") +:+ Strconv.Itoa n.

Definition fmt_2f (f : float64) : string :=
  match f with
  | S754_nan => "NaN"
  | S754_infinity s => if s then "-Inf" else "+Inf"
  | S754_zero s => (if s then "-" else "") +:+ "0.00"
  | S754_finite s m e =>
      let cents :=
        if 0 <=? e then Zpos m * 2 ^ e * 100
        else
          let d := 2 ^ (- e) in
          let q := Zpos m * 100 / d in
          let r := Zpos m * 100 mod d in
          if (d <? 2 * r) || ((d =? 2 * r) && Z.odd q) then q + 1 else q in
      (if s then "-" else "") +:+ Strconv.Itoa (cents / 100) +:+ "." +:+ pad2 (cents mod 100)
  end.

End F64.

(** ** strconv.ParseFloat(s, 64) *)
Module ParseFloat.

Definition lower (c : Ascii.ascii) : Ascii.ascii := Strings.lower_ascii c.

(** The value of a digit in base 10 or 16. *)
Definition digit (hex : bool) (c : Ascii.ascii) : option Z :=
  match Strconv.digit_val c with
  | Some d => Some d
  | None =>
      let n := Z.of_N (Ascii.N_of_ascii (lower c)) in
      if hex && (97 <=? n) && (n <=? 102) then Some (n - 87) else None
  end.

(** [special]: infinities and NaN, ignoring case. *)
Definition special (s : string) : option float64 :=
  let l := Strings.ToLower s in
  if bool_decide (l ∈ ["inf"; "infinity"; "+inf"; "+infinity"]) then Some (S754_infinity false)
  else if bool_decide (l ∈ ["-inf"; "-infinity"]) then Some (S754_infinity true)
  else if bool_decide (l = "nan") then Some S754_nan
  else None.

(** The mantissa loop of [readFloat]: value of all digits, digits after the
    point, whether a digit was seen, and the rest. *)
Fixpoint mantissa (hex : bool) (s : string) (sawdot sawdigits : bool) (m nfrac : Z)
    : Z * Z * bool * string :=
  match s with
  | "" => (m, nfrac, sawdigits, "")
  | String c s' =>
      if Ascii.eqb c "_" then mantissa hex s' sawdot sawdigits m nfrac
      else if Ascii.eqb c "." then
        if sawdot then (m, nfrac, sawdigits, s) else mantissa hex s' true sawdigits m nfrac
      else match digit hex c with
           | Some d =>
               mantissa hex s' sawdot true (m * (if hex then 16 else 10) + d)
                 (if sawdot then nfrac + 1 else nfrac)
           | None => (m, nfrac, sawdigits, s)
           end
  end.

(** The exponent digits: accumulation stops growing at 10000. *)
Fixpoint exponent (s : string) (e : Z) : option Z :=
  match s with
  | "" => Some e
  | String c s' =>
      if Ascii.eqb c "_" then exponent s' e
      else match Strconv.digit_val c with
           | Some d => exponent s' (if e <? 10000 then e * 10 + d else e)
           | None => None
           end
  end.

(** [underscoreOK]: an underscore stands between digits (or after a base prefix). *)
Inductive saw_kind := SawBegin | SawDigit | SawUnderscore | SawOther.

Fixpoint underscore_loop (hex : bool) (saw : saw_kind) (s : string) : bool :=
  match s with
  | "" => match saw with SawUnderscore => false | _ => true end
  | String c s' =>
      match digit hex c with
      | Some _ => underscore_loop hex SawDigit s'
      | None =>
          if Ascii.eqb c "_" then
            match saw with SawDigit => underscore_loop hex SawUnderscore s' | _ => false end
          else match saw with
               | SawUnderscore => false
               | _ => underscore_loop hex SawOther s'
               end
      end
  end.

(** [s] here is without its sign. *)
Definition underscoreOK (s : string) : bool :=
  match s with
  | String "0" (String c s') =>
      let l := lower c in
      if Ascii.eqb l "x" then underscore_loop true SawDigit s'
      else if Ascii.eqb l "b" || Ascii.eqb l "o" then underscore_loop false SawDigit s'
      else underscore_loop false SawBegin s
  | _ => underscore_loop false SawBegin s
  end.

Definition has_underscore (s : string) : bool :=
  bool_decide ("_"%char ∈ String.list_ascii_of_string s).

Definition value (hex : bool) (m e nfrac : Z) : float64 :=
  if hex then binary_normalize F64.prec F64.emax m (e - 4 * nfrac) false
  else
    let e10 := e - nfrac in
    if 0 <=? e10 then F64.of_Z (m * 10 ^ e10)
    else F64.of_ratio m (Z.to_pos (10 ^ (- e10))).

(** Unsigned part of [readFloat], then rounding; [None] is a syntax or range error. *)
Definition parse_unsigned (s : string) : option float64 :=
  let '(hex, body) :=
    match s with
    | String "0" (String c s') => if Ascii.eqb (lower c) "x" then (true, s') else (false, s)
    | _ => (false, s)
    end in
  let '(m, nfrac, sawdigits, rest) := mantissa hex body false false 0 0 in
  if negb sawdigits then None
  else
    let exp :=
      match rest with
      | "" => if hex then None else Some 0
      | String c rest' =>
          if Ascii.eqb (lower c) (if hex then "p" else "e") then
            let '(neg, ds) :=
              match rest' with
              | String "+" r => (false, r)
              | String "-" r => (true, r)
              | _ => (false, rest')
              end in
            match ds with
            | String d _ =>
                match Strconv.digit_val d with
                | Some _ => (fun e : Z => if neg then - e else e) <$> exponent ds 0
                | None => None
                end
            | "" => None
            end
          else None
      end in
    match exp with
    | None => None
    | Some e =>
        if has_underscore s && negb (underscoreOK s) then None
        else match value hex m e nfrac with
             | S754_infinity _ => None
             | f => Some f
             end
    end.

Definition ParseFloat (s : string) : option float64 :=
  match special s with
  | Some f => Some f
  | None =>
      match s with
      | String "+" s' => parse_unsigned s'
      | String "-" s' => SFopp <$> parse_unsigned s'
      | _ => parse_unsigned s
      end
  end.

Example parse_1_5 : ParseFloat "1.5" = Some (F64.of_ratio 3 2).
Proof. vm_compute. reflexivity. Qed.

Example parse_tenth : ParseFloat "1e-1" = Some (F64.of_ratio 1 10).
Proof. vm_compute. reflexivity. Qed.

Example parse_hex : ParseFloat "-0x1.8p1" = Some (SFopp (F64.of_Z 3)).
Proof. vm_compute. reflexivity. Qed.

Example parse_bad : ParseFloat "1.5x" = None.
Proof. vm_compute. reflexivity. Qed.

Example parse_underscore : ParseFloat "1_23.50_0_0e+1_2" = Some (F64.of_Z 123500000000000).
Proof. vm_compute. reflexivity. Qed.

Example parse_range : ParseFloat "1e309" = None.
Proof. vm_compute. reflexivity. Qed.

End ParseFloat.

(** ** time.ParseDuration *)
Module ParseDuration.

(** [leadingInt]: fails when the value passes [2^63]. *)
Fixpoint leadingInt (x : Z) (s : string) : option (Z * string) :=
  match s with
  | "" => Some (x, "")
  | String c s' =>
      match Strconv.digit_val c with
      | None => Some (x, s)
      | Some d =>
          if 2 ^ 63 / 10 <? x then None
          else if 2 ^ 63 <? x * 10 + d then None
          else leadingInt (x * 10 + d) s'
      end
  end.

(** [leadingFraction]: digits past the capacity of an [int64] are skipped. *)
Fixpoint leadingFraction (x : Z) (scale : float64) (overflow : bool) (s : string)
    : Z * float64 * string :=
  match s with
  | "" => (x, scale, "")
  | String c s' =>
      match Strconv.digit_val c with
      | None => (x, scale, s)
      | Some d =>
          if overflow then leadingFraction x scale true s'
          else if (2 ^ 63 - 1) / 10 <? x then leadingFraction x scale true s'
          else if 2 ^ 63 <? x * 10 + d then leadingFraction x scale true s'
          else leadingFraction (x * 10 + d) (F64.mul scale (F64.of_Z 10)) false s'
      end
  end.

(** The unit: everything up to the next digit or point. *)
Fixpoint take_unit (s : string) : string * string :=
  match s with
  | "" => ("", "")
  | String c s' =>
      match Strconv.digit_val c with
      | Some _ => ("", s)
      | None =>
          if Ascii.eqb c "." then ("", s)
          else let '(u, r) := take_unit s' in (String c u, r)
      end
  end.

Definition unitMap (u : string) : option Z :=
  if bool_decide (u = "ns") then Some Time.Nanosecond
  else if bool_decide (u ∈ ["us"; String "194" (String "181" "s"); String "206" (String "188" "s")])
  then Some Time.Microsecond
  else if bool_decide (u = "ms") then Some Time.Millisecond
  else if bool_decide (u = "s") then Some Time.Second
  else if bool_decide (u = "m") then Some Time.Minute
  else if bool_decide (u = "h") then Some Time.Hour
  else None.

Definition is_start (s : string) : bool :=
  match s with
  | "" => false
  | String c _ => Ascii.eqb c "." || (if Strconv.digit_val c is Some _ then true else false)
  end.

(** One pass of the loop: a number with an optional fraction, then a unit.
    The fraction of a unit is at most [3.6e12], so its conversion to [uint64]
    is always in range. *)
Definition component (s : string) : option (Z * string) :=
  if negb (is_start s) then None
  else
    match leadingInt 0 s with
    | None => None
    | Some (v, s1) =>
        let pre := negb (String.length s =? String.length s1)%nat in
        let '(f, scale, s2, post) :=
          match s1 with
          | String "." s1' =>
              let '(f, scale, r) := leadingFraction 0 (F64.of_Z 1) false s1' in
              (f, scale, r, negb (String.length s1' =? String.length r)%nat)
          | _ => (0, F64.of_Z 1, s1, false)
          end in
        if negb pre && negb post then None
        else
          let '(u, s3) := take_unit s2 in
          if bool_decide (u = "") then None
          else
            match unitMap u with
            | None => None
            | Some unit =>
                if 2 ^ 63 / unit <? v then None
                else
                  let v1 := v * unit in
                  let v2 :=
                    if 0 <? f then
                      v1 + default 0 (F64.trunc
                             (F64.mul (F64.of_Z f) (F64.div (F64.of_Z unit) scale)))
                    else v1 in
                  if 2 ^ 63 <? v2 then None else Some (v2, s3)
            end
    end.

(** The loop over components.  Each consumes at least one byte, so the length
    of the string is enough fuel. *)
Fixpoint components (fuel : nat) (d : Z) (s : string) : option Z :=
  match s with
  | "" => Some d
  | _ =>
      match fuel with
      | O => None
      | S fuel' =>
          match component s with
          | None => None
          | Some (v, s') =>
              if 2 ^ 63 <? d + v then None else components fuel' (d + v) s'
          end
      end
  end.

Definition ParseDuration (s : string) : option Z :=
  let '(neg, s1) :=
    match s with
    | String "-" r => (true, r)
    | String "+" r => (false, r)
    | _ => (false, s)
    end in
  if bool_decide (s1 = "0") then Some 0
  else if bool_decide (s1 = "") then None
  else
    match components (String.length s1) 0 s1 with
    | None => None
    | Some d =>
        if neg then Some (- d)
        else if 2 ^ 63 - 1 <? d then None
        else Some d
    end.

Example parse_100ms : ParseDuration "100ms" = Some (100 * Time.Millisecond).
Proof. vm_compute. reflexivity. Qed.

Example parse_1h30m : ParseDuration "1h30m0.5s" = Some (90 * Time.Minute + 500 * Time.Millisecond).
Proof. vm_compute. reflexivity. Qed.

Example parse_no_unit : ParseDuration "100" = None.
Proof. vm_compute. reflexivity. Qed.

Example parse_fraction : ParseDuration "-1.5h" = Some (- (90 * Time.Minute)).
Proof. vm_compute. reflexivity. Qed.

Lemma leadingInt_length x s v r :
  leadingInt x s = Some (v, r) -> (String.length r <= String.length s)%nat.
Proof.
  revert x. induction s as [|c s IH]; simpl; intros x H; [by simplify_eq|].
  split_matches; try lia. apply IH in H. lia.
Qed.

Lemma leadingFraction_length x sc o s v sc' r :
  leadingFraction x sc o s = (v, sc', r) -> (String.length r <= String.length s)%nat.
Proof.
  revert x sc o. induction s as [|c s IH]; simpl; intros x sc o H; [by simplify_eq|].
  split_matches; try lia; apply IH in H; lia.
Qed.

Lemma take_unit_length s u r :
  take_unit s = (u, r) -> String.length s = (String.length u + String.length r)%nat.
Proof.
  revert u r. induction s as [|c s IH]; simpl; intros u r H; [by simplify_eq|].
  destruct (Strconv.digit_val c); [by simplify_eq|].
  destruct (Ascii.eqb c "."); [by simplify_eq|].
  destruct (take_unit s) as [u0 r0] eqn:E. simplify_eq. specialize (IH _ _ eq_refl). simpl. lia.
Qed.

(** Each pass consumes at least one byte. *)
Lemma component_progress s v r :
  component s = Some (v, r) -> (String.length r < String.length s)%nat.
Proof.
  unfold component. intros H.
  destruct (negb (is_start s)); [done|].
  destruct (leadingInt 0 s) as [[v0 s1]|] eqn:Hi; [|done].
  apply leadingInt_length in Hi.
  destruct (match s1 with String "." _ => _ | _ => _ end) as [[[f scale] s2] post] eqn:Hf.
  assert (String.length s2 <= String.length s1)%nat as Hs2.
  { destruct s1 as [|c s1]; [by simplify_eq|].
    destruct (Ascii.eqb_spec c "."%char) as [->|Hc].
    - destruct (leadingFraction _ _ _ s1) as [[f0 sc0] r0] eqn:Hl.
      apply leadingFraction_length in Hl. simplify_eq. simpl. lia.
    - assert ((0, F64.of_Z 1, String c s1, false) = (f, scale, s2, post)) as E.
      { rewrite <-Hf. clear -Hc. destruct c as [[] [] [] [] [] [] [] []]; done. }
      by simplify_eq. }
  destruct (negb _ && negb post); [done|].
  destruct (take_unit s2) as [u s3] eqn:Hu. apply take_unit_length in Hu.
  case_bool_decide as Hne; [done|].
  assert (1 <= String.length u)%nat by (destruct u; [done|simpl; lia]).
  split_matches; lia.
Qed.

(** The fuel of [ParseDuration] is enough: more fuel gives the same answer. *)
Lemma components_fuel n1 n2 d s :
  (String.length s <= n1)%nat -> (String.length s <= n2)%nat ->
  components n1 d s = components n2 d s.
Proof.
  revert n2 d s. induction n1 as [|n1 IH]; intros n2 d [|c s] H1 H2; simpl in H1, H2;
    try lia; [by destruct n2..|].
  destruct n2 as [|n2]; [lia|]. cbn [components].
  destruct (component (String c s)) as [[v s']|] eqn:Hc; [|done].
  apply component_progress in Hc. simpl in Hc.
  destruct (2 ^ 63 <? d + v); [done|]. apply IH; lia.
Qed.

End ParseDuration.
