(* ===== verification/Defaults.v ===== *)
(** * The default constants: [internal/config/defaults.go] *)
From S2P Require Import Prelude GoStd GoFloat.
Import Time.

Definition DefaultEnvironment : string := "development".

(** ** Ingestion defaults *)
Definition DefaultEnableCircuitBreaker : bool := true.

Definition DefaultMaxQueueDepth : Z := 1000.

(** ** Throttler defaults *)
Definition DefaultThrottlerEnabled : bool := true.

Definition DefaultThrottlerSoftDepthLimit : Z := 100.

Definition DefaultThrottlerHardDepthLimit : Z := 5000.

Definition DefaultThrottlerMaxMessageAge : Z := 30 * Second.

Definition DefaultThrottlerCriticalMessageAge : Z := 60 * Second.

Definition DefaultThrottlerRateLimitScore : float64 := F64.of_Z 1.

Definition DefaultThrottlerCircuitOpenScore : float64 := F64.of_ratio 3 2.

Definition DefaultThrottlerMetricsUpdateInterval : Z := 500 * Millisecond.

Definition DefaultThrottlerEstimatedDrainRate : float64 := F64.of_Z 100.

Definition DefaultThrottlerMinRetryAfter : Z := 1 * Second.

Definition DefaultThrottlerMaxRetryAfter : Z := 30 * Second.

(** ** Registry defaults *)
Definition DefaultRegistryHeartbeatInterval : Z := 10 * Second.

Definition DefaultRegistryDeadThreshold : Z := 30 * Second.

Definition DefaultRegistryPollInterval : Z := 15 * Second.

Definition DefaultRegistryControlPlanePoll : Z := 15 * Second.

Definition DefaultRegistryLockTTL : Z := 60 * Second.

(** ** Worker defaults *)
Definition DefaultWorkerConcurrency : Z := 2.

Definition DefaultWorkerPollInterval : Z := 100 * Millisecond.

Definition DefaultWorkerBatchSize : Z := 10.

Definition DefaultWorkerProcessTimeout : Z := 30 * Second.

Definition DefaultWorkerMaxRetries : Z := 3.

Definition DefaultWorkerBackoffMinDelay : Z := 500 * Millisecond.

Definition DefaultWorkerBackoffMaxDelay : Z := 5 * Second.

Definition DefaultWorkerHealthPort : string := "8081".

Definition DefaultWorkerReclaimInterval : Z := 30 * Second.

Definition DefaultWorkerReclaimIdleTime : Z := 60 * Second.

Definition DefaultWorkerReclaimBatchSize : Z := 100.

Definition DefaultWorkerDedupTTL : Z := 1 * Hour.

(** ** Server defaults *)
Definition DefaultServerHost : string := "0.0.0.0".

Definition DefaultServerPort : string := "8080".

Definition DefaultReadTimeout : Z := 10 * Second.

Definition DefaultWriteTimeout : Z := 10 * Second.

Definition DefaultIdleTimeout : Z := 30 * Second.

Definition DefaultShutdownTimeout : Z := 30 * Second.

(** ** Redis defaults *)
Definition DefaultRedisHost : string := "localhost".

Definition DefaultRedisPort : string := "6379".

Definition DefaultRedisDB : Z := 0.

Definition DefaultRedisPoolSize : Z := 10.

Definition DefaultRedisMinIdleConns : Z := 5.

Definition DefaultRedisConnMaxIdle : Z := 5 * Minute.

(** ** Queue defaults *)
Definition DefaultQueueBaseStreamName : string := "logs:ingest".

Definition DefaultQueueBaseConsumerGroup : string := "log-workers".

Definition DefaultQueueRedisMaxRetries : Z := 3.

Definition DefaultQueueMaxLen : Z := 10000.

Definition DefaultQueueDLQStreamName : string := "logs:dlq".

Definition DefaultQueueDLQMaxLen : Z := 1000.

Definition DefaultQueuePartitionCount : Z := 2.

Definition DefaultQueueParitionID : Z := 0.

(** ** Postgres defaults *)
Definition DefaultPostgresHost : string := "localhost".

Definition DefaultPostgresPort : string := "5432".

Definition DefaultPostgresDB : string := "logdb".

Definition DefaultPostgresUser : string := "postgres".

Definition DefaultPostgresPassword : string := "postgres".

Definition DefaultPostgresSSLMode : string := "disable".

Definition DefaultPostgresMaxConns : Z := 25.

Definition DefaultPostgresMinConns : Z := 5.

Definition DefaultPostgresMaxConnLife : Z := 1 * Hour.

Definition DefaultPostgresMaxConnIdle : Z := 30 * Minute.

(** ** Observability defaults *)
Definition DefaultLogLevel : string := "info".

Definition DefaultLogFormat : string := "json".

Definition DefaultMetricsEnabled : bool := true.

Definition DefaultMetricsPort : string := "9090".

Definition DefaultTracingEnabled : bool := false.

Definition DefaultTracingSampleRate : float64 := F64.of_ratio 1 10.

Definition DefaultHealthCheckTimeout : Z := 5 * Second.
