(* ===== verification/Config.v ===== *)
(** * Configuration: [internal/config] (config.go, defaults.go, loader.go)

    One module per configuration struct, with the source's field names; the
    defaults; and the loader, which overrides each field from one environment
    variable.  [getenv] is [os.Getenv]: the empty string for an unset variable. *)
From S2P Require Import Prelude GoStd GoFloat Defaults.
From Stdlib Require Import SpecFloat.
Import Time.

(** ** Structs (config.go) *)
Module ThrottlerConfig.
Record t := mk {
  Enabled : bool;
  SoftDepthLimit : Z;
  HardDepthLimit : Z;
  MaxMessageAge : Z;
  CriticalMessageAge : Z;
  RateLimitScore : float64;
  CircuitOpenScore : float64;
  MetricsUpdateInterval : Z;
  EstimatedDrainRate : float64;
  MinRetryAfter : Z;
  MaxRetryAfter : Z;
}.
End ThrottlerConfig.

Module IngestionConfig.
Record t := mk {
  EnableCircuitBreaker : bool;
  MaxQueueDepth : Z;
  Throttler : ThrottlerConfig.t;
}.
End IngestionConfig.

Module RegistryConfig.
Record t := mk {
  HeartbeatInterval : Z;
  DeadThreshold : Z;
  PollInterval : Z;
  ControlPlanePoll : Z;
  LockTTL : Z;
}.
End RegistryConfig.

Module WorkerConfig.
Record t := mk {
  Concurrency : Z;
  PollInterval : Z;
  BatchSize : Z;
  ProcessingTimeout : Z;
  JobMaxRetries : Z;
  BackoffMinDelay : Z;
  BackoffMaxDelay : Z;
  HealthPort : string;
  ReclaimInterval : Z;
  ReclaimIdleTime : Z;
  ReclaimBatchSize : Z;
  DedupTTL : Z;
}.
End WorkerConfig.

Module ServerConfig.
Record t := mk {
  Host : string;
  Port : string;
  ReadTimeout : Z;
  WriteTimeout : Z;
  IdleTimeout : Z;
  ShutdownTimeout : Z;
}.
End ServerConfig.

Module QueueConfig.
Record t := mk {
  BaseStreamName : string;
  BaseConsumerGroup : string;
  RedisMaxRetries : Z;
  MaxLen : Z;
  DLQStreamName : string;
  DLQMaxLen : Z;
  PartitionCount : Z;
  PartitionID : Z;
}.
End QueueConfig.

Module RedisClientConfig.
Record t := mk {
  Host : string;
  Port : string;
  Password : string;
  DB : Z;
  PoolSize : Z;
  MinIdleConns : Z;
  ConnMaxIdleTime : Z;
}.
End RedisClientConfig.

Module PostgresClientConfig.
Record t := mk {
  Host : string;
  Port : string;
  Database : string;
  User : string;
  Password : string;
  SSLMode : string;
  MaxConns : Z;
  MinConns : Z;
  MaxConnLifetime : Z;
  MaxConnIdleTime : Z;
}.
End PostgresClientConfig.

Module ObservabilityConfig.
Record t := mk {
  LogLevel : string;
  LogFormat : string;
  MetricsEnabled : bool;
  MetricsPort : string;
  TracingEnabled : bool;
  TracingSampleRate : float64;
  HealthCheckTimeout : Z;
}.
End ObservabilityConfig.

Module Config.
Record t := mk {
  Environment : string;
  Ingestion : IngestionConfig.t;
  Worker : WorkerConfig.t;
  Registry : RegistryConfig.t;
  Throttler : ThrottlerConfig.t;
  Server : ServerConfig.t;
  Redis : RedisClientConfig.t;
  Queue : QueueConfig.t;
  Postgres : PostgresClientConfig.t;
  Observability : ObservabilityConfig.t;
}.
End Config.

(** *** Addresses *)
Definition ServerAddr (c : Config.t) : string :=
  ServerConfig.Host (Config.Server c) +:+ ":" +:+ ServerConfig.Port (Config.Server c).

Definition RedisAddr (c : Config.t) : string :=
  RedisClientConfig.Host (Config.Redis c) +:+ ":" +:+ RedisClientConfig.Port (Config.Redis c).

Definition PostgresDSN (c : Config.t) : string :=
  let p := Config.Postgres c in
  "host=" +:+ PostgresClientConfig.Host p +:+
  " port=" +:+ PostgresClientConfig.Port p +:+
  " user=" +:+ PostgresClientConfig.User p +:+
  " password=" +:+ PostgresClientConfig.Password p +:+
  " dbname=" +:+ PostgresClientConfig.Database p +:+
  " sslmode=" +:+ PostgresClientConfig.SSLMode p.

Definition MetricsAddr (c : Config.t) : string :=
  ":" +:+ ObservabilityConfig.MetricsPort (Config.Observability c).

(** ** Defaults (defaults.go) *)
Definition default_server : ServerConfig.t := {|
  ServerConfig.Host := DefaultServerHost;
  ServerConfig.Port := DefaultServerPort;
  ServerConfig.ReadTimeout := DefaultReadTimeout;
  ServerConfig.WriteTimeout := DefaultWriteTimeout;
  ServerConfig.IdleTimeout := DefaultIdleTimeout;
  ServerConfig.ShutdownTimeout := DefaultShutdownTimeout |}.

Definition default_redis : RedisClientConfig.t := {|
  RedisClientConfig.Host := DefaultRedisHost;
  RedisClientConfig.Port := DefaultRedisPort;
  RedisClientConfig.Password := "";
  RedisClientConfig.DB := DefaultRedisDB;
  RedisClientConfig.PoolSize := DefaultRedisPoolSize;
  RedisClientConfig.MinIdleConns := DefaultRedisMinIdleConns;
  RedisClientConfig.ConnMaxIdleTime := DefaultRedisConnMaxIdle |}.

Definition default_queue : QueueConfig.t := {|
  QueueConfig.BaseStreamName := DefaultQueueBaseStreamName;
  QueueConfig.BaseConsumerGroup := DefaultQueueBaseConsumerGroup;
  QueueConfig.RedisMaxRetries := DefaultQueueRedisMaxRetries;
  QueueConfig.MaxLen := DefaultQueueMaxLen;
  QueueConfig.DLQStreamName := DefaultQueueDLQStreamName;
  QueueConfig.DLQMaxLen := DefaultQueueDLQMaxLen;
  QueueConfig.PartitionCount := DefaultQueuePartitionCount;
  QueueConfig.PartitionID := DefaultQueueParitionID |}.

Definition default_postgres : PostgresClientConfig.t := {|
  PostgresClientConfig.Host := DefaultPostgresHost;
  PostgresClientConfig.Port := DefaultPostgresPort;
  PostgresClientConfig.Database := DefaultPostgresDB;
  PostgresClientConfig.User := DefaultPostgresUser;
  PostgresClientConfig.Password := DefaultPostgresPassword;
  PostgresClientConfig.SSLMode := DefaultPostgresSSLMode;
  PostgresClientConfig.MaxConns := DefaultPostgresMaxConns;
  PostgresClientConfig.MinConns := DefaultPostgresMinConns;
  PostgresClientConfig.MaxConnLifetime := DefaultPostgresMaxConnLife;
  PostgresClientConfig.MaxConnIdleTime := DefaultPostgresMaxConnIdle |}.

Definition default_throttler : ThrottlerConfig.t := {|
  ThrottlerConfig.Enabled := DefaultThrottlerEnabled;
  ThrottlerConfig.SoftDepthLimit := DefaultThrottlerSoftDepthLimit;
  ThrottlerConfig.HardDepthLimit := DefaultThrottlerHardDepthLimit;
  ThrottlerConfig.MaxMessageAge := DefaultThrottlerMaxMessageAge;
  ThrottlerConfig.CriticalMessageAge := DefaultThrottlerCriticalMessageAge;
  ThrottlerConfig.RateLimitScore := DefaultThrottlerRateLimitScore;
  ThrottlerConfig.CircuitOpenScore := DefaultThrottlerCircuitOpenScore;
  ThrottlerConfig.MetricsUpdateInterval := DefaultThrottlerMetricsUpdateInterval;
  ThrottlerConfig.EstimatedDrainRate := DefaultThrottlerEstimatedDrainRate;
  ThrottlerConfig.MinRetryAfter := DefaultThrottlerMinRetryAfter;
  ThrottlerConfig.MaxRetryAfter := DefaultThrottlerMaxRetryAfter |}.

Definition default_ingestion : IngestionConfig.t := {|
  IngestionConfig.EnableCircuitBreaker := DefaultEnableCircuitBreaker;
  IngestionConfig.MaxQueueDepth := DefaultMaxQueueDepth;
  IngestionConfig.Throttler := default_throttler |}.

(** [GetDefaults] uses [DefaultWorkerBatchSize] for both [BatchSize] and
    [ReclaimBatchSize]. *)
Definition default_worker : WorkerConfig.t := {|
  WorkerConfig.Concurrency := DefaultWorkerConcurrency;
  WorkerConfig.PollInterval := DefaultWorkerPollInterval;
  WorkerConfig.BatchSize := DefaultWorkerBatchSize;
  WorkerConfig.ProcessingTimeout := DefaultWorkerProcessTimeout;
  WorkerConfig.JobMaxRetries := DefaultWorkerMaxRetries;
  WorkerConfig.BackoffMinDelay := DefaultWorkerBackoffMinDelay;
  WorkerConfig.BackoffMaxDelay := DefaultWorkerBackoffMaxDelay;
  WorkerConfig.HealthPort := DefaultWorkerHealthPort;
  WorkerConfig.ReclaimInterval := DefaultWorkerReclaimInterval;
  WorkerConfig.ReclaimIdleTime := DefaultWorkerReclaimIdleTime;
  WorkerConfig.ReclaimBatchSize := DefaultWorkerBatchSize;
  WorkerConfig.DedupTTL := DefaultWorkerDedupTTL |}.

Definition default_observability : ObservabilityConfig.t := {|
  ObservabilityConfig.LogLevel := DefaultLogLevel;
  ObservabilityConfig.LogFormat := DefaultLogFormat;
  ObservabilityConfig.MetricsEnabled := DefaultMetricsEnabled;
  ObservabilityConfig.MetricsPort := DefaultMetricsPort;
  ObservabilityConfig.TracingEnabled := DefaultTracingEnabled;
  ObservabilityConfig.TracingSampleRate := DefaultTracingSampleRate;
  ObservabilityConfig.HealthCheckTimeout := DefaultHealthCheckTimeout |}.

Definition default_registry : RegistryConfig.t := {|
  RegistryConfig.HeartbeatInterval := DefaultRegistryHeartbeatInterval;
  RegistryConfig.DeadThreshold := DefaultRegistryDeadThreshold;
  RegistryConfig.PollInterval := DefaultRegistryPollInterval;
  RegistryConfig.ControlPlanePoll := DefaultRegistryControlPlanePoll;
  RegistryConfig.LockTTL := DefaultRegistryLockTTL |}.

Definition GetDefaults : Config.t := {|
  Config.Environment := DefaultEnvironment;
  Config.Server := default_server;
  Config.Redis := default_redis;
  Config.Queue := default_queue;
  Config.Postgres := default_postgres;
  Config.Ingestion := default_ingestion;
  Config.Worker := default_worker;
  Config.Observability := default_observability;
  Config.Throttler := default_throttler;
  Config.Registry := default_registry |}.

(** ** Loader (loader.go) *)
Section Loader.
Context (getenv : string -> string).

Definition GetEnv (key defaultValue : string) : string :=
  if bool_decide (getenv key = "") then defaultValue else getenv key.

Definition GetIntEnv (key : string) (defaultValue : Z) : Z :=
  if bool_decide (getenv key = "") then defaultValue
  else match Strconv.Atoi (getenv key) with Ok v => v | Err _ => defaultValue end.

Definition GetInt64Env (key : string) (defaultValue : Z) : Z :=
  if bool_decide (getenv key = "") then defaultValue
  else match Strconv.ParseInt (getenv key) with Ok v => v | Err _ => defaultValue end.

Definition GetBoolEnv (key : string) (defaultValue : bool) : bool :=
  if bool_decide (getenv key = "") then defaultValue
  else default defaultValue (Strconv.ParseBool (getenv key)).

Definition GetFloat64Env (key : string) (defaultValue : float64) : float64 :=
  if bool_decide (getenv key = "") then defaultValue
  else default defaultValue (ParseFloat.ParseFloat (getenv key)).

Definition GetDurationEnv (key : string) (defaultValue : Z) : Z :=
  if bool_decide (getenv key = "") then defaultValue
  else default defaultValue (ParseDuration.ParseDuration (getenv key)).

Definition loadIngestionThrottler (cfg : ThrottlerConfig.t) : ThrottlerConfig.t := {|
  ThrottlerConfig.Enabled := GetBoolEnv "INGESTION_THROTTLER_ENABLED" (ThrottlerConfig.Enabled cfg);
  ThrottlerConfig.SoftDepthLimit := GetInt64Env "INGESTION_THROTTLER_SOFT_DEPTH" (ThrottlerConfig.SoftDepthLimit cfg);
  ThrottlerConfig.HardDepthLimit := GetInt64Env "INGESTION_THROTTLER_HARD_DEPTH" (ThrottlerConfig.HardDepthLimit cfg);
  ThrottlerConfig.MaxMessageAge := GetDurationEnv "INGESTION_THROTTLER_MAX_AGE" (ThrottlerConfig.MaxMessageAge cfg);
  ThrottlerConfig.CriticalMessageAge := GetDurationEnv "INGESTION_THROTTLER_CRITICAL_AGE" (ThrottlerConfig.CriticalMessageAge cfg);
  ThrottlerConfig.RateLimitScore := GetFloat64Env "INGESTION_THROTTLER_RATE_LIMIT_SCORE" (ThrottlerConfig.RateLimitScore cfg);
  ThrottlerConfig.CircuitOpenScore := GetFloat64Env "INGESTION_THROTTLER_CIRCUIT_SCORE" (ThrottlerConfig.CircuitOpenScore cfg);
  ThrottlerConfig.MetricsUpdateInterval := GetDurationEnv "INGESTION_THROTTLER_UPDATE_INTERVAL" (ThrottlerConfig.MetricsUpdateInterval cfg);
  ThrottlerConfig.EstimatedDrainRate := GetFloat64Env "INGESTION_THROTTLER_DRAIN_RATE" (ThrottlerConfig.EstimatedDrainRate cfg);
  ThrottlerConfig.MinRetryAfter := GetDurationEnv "INGESTION_THROTTLER_MIN_RETRY" (ThrottlerConfig.MinRetryAfter cfg);
  ThrottlerConfig.MaxRetryAfter := GetDurationEnv "INGESTION_THROTTLER_MAX_RETRY" (ThrottlerConfig.MaxRetryAfter cfg) |}.

Definition loadIngestionConfig (cfg : IngestionConfig.t) : IngestionConfig.t := {|
  IngestionConfig.EnableCircuitBreaker := GetBoolEnv "INGESTION_ENABLE_CIRCUIT_BREAKER" (IngestionConfig.EnableCircuitBreaker cfg);
  IngestionConfig.MaxQueueDepth := GetInt64Env "INGESTION_MAX_QUEUE_DEPTH" (IngestionConfig.MaxQueueDepth cfg);
  IngestionConfig.Throttler := loadIngestionThrottler (IngestionConfig.Throttler cfg) |}.

Definition loadWorkerConfig (cfg : WorkerConfig.t) : WorkerConfig.t := {|
  WorkerConfig.Concurrency := GetIntEnv "WORKER_CONCURRENCY" (WorkerConfig.Concurrency cfg);
  WorkerConfig.PollInterval := GetDurationEnv "WORKER_POLL_INTERVAL" (WorkerConfig.PollInterval cfg);
  WorkerConfig.BatchSize := GetIntEnv "WORKER_BATCH_SIZE" (WorkerConfig.BatchSize cfg);
  WorkerConfig.ProcessingTimeout := GetDurationEnv "WORKER_PROCESSING_TIMEOUT" (WorkerConfig.ProcessingTimeout cfg);
  WorkerConfig.JobMaxRetries := GetIntEnv "WORKER_MAX_RETRIES" (WorkerConfig.JobMaxRetries cfg);
  WorkerConfig.BackoffMinDelay := GetDurationEnv "WORKER_BACKOFF_MIN_DELAY" (WorkerConfig.BackoffMinDelay cfg);
  WorkerConfig.BackoffMaxDelay := GetDurationEnv "WORKER_BACKOFF_MAX_DELAY" (WorkerConfig.BackoffMaxDelay cfg);
  WorkerConfig.HealthPort := GetEnv "WORKER_HEALTH_PORT" (WorkerConfig.HealthPort cfg);
  WorkerConfig.ReclaimInterval := GetDurationEnv "WORKER_RECLAIM_INTERVAL" (WorkerConfig.ReclaimInterval cfg);
  WorkerConfig.ReclaimIdleTime := GetDurationEnv "WORKER_RECLAIM_IDLE_TIME" (WorkerConfig.ReclaimIdleTime cfg);
  WorkerConfig.ReclaimBatchSize := GetIntEnv "WORKER_RECLAIM_BATCH_SIZE" (WorkerConfig.ReclaimBatchSize cfg);
  WorkerConfig.DedupTTL := GetDurationEnv "WORKER_DEDUP_TTL" (WorkerConfig.DedupTTL cfg) |}.

Definition loadServerConfig (cfg : ServerConfig.t) : ServerConfig.t := {|
  ServerConfig.Host := GetEnv "SERVER_HOST" (ServerConfig.Host cfg);
  ServerConfig.Port := GetEnv "SERVER_PORT" (ServerConfig.Port cfg);
  ServerConfig.ReadTimeout := GetDurationEnv "SERVER_READ_TIMEOUT" (ServerConfig.ReadTimeout cfg);
  ServerConfig.WriteTimeout := GetDurationEnv "SERVER_WRITE_TIMEOUT" (ServerConfig.WriteTimeout cfg);
  ServerConfig.IdleTimeout := GetDurationEnv "SERVER_IDLE_TIMEOUT" (ServerConfig.IdleTimeout cfg);
  ServerConfig.ShutdownTimeout := GetDurationEnv "SERVER_SHUTDOWN_TIMEOUT" (ServerConfig.ShutdownTimeout cfg) |}.

Definition loadRedisConfig (cfg : RedisClientConfig.t) : RedisClientConfig.t := {|
  RedisClientConfig.Host := GetEnv "REDIS_HOST" (RedisClientConfig.Host cfg);
  RedisClientConfig.Port := GetEnv "REDIS_PORT" (RedisClientConfig.Port cfg);
  RedisClientConfig.Password := GetEnv "REDIS_PASSWORD" (RedisClientConfig.Password cfg);
  RedisClientConfig.DB := GetIntEnv "REDIS_DB" (RedisClientConfig.DB cfg);
  RedisClientConfig.PoolSize := GetIntEnv "REDIS_POOL_SIZE" (RedisClientConfig.PoolSize cfg);
  RedisClientConfig.MinIdleConns := GetIntEnv "REDIS_MIN_IDLE_CONNS" (RedisClientConfig.MinIdleConns cfg);
  RedisClientConfig.ConnMaxIdleTime := GetDurationEnv "REDIS_CONN_MAX_IDLE_TIME" (RedisClientConfig.ConnMaxIdleTime cfg) |}.

Definition loadQueueConfig (cfg : QueueConfig.t) : QueueConfig.t := {|
  QueueConfig.BaseStreamName := GetEnv "QUEUE_STREAM_NAME" (QueueConfig.BaseStreamName cfg);
  QueueConfig.BaseConsumerGroup := GetEnv "QUEUE_CONSUMER_GROUP" (QueueConfig.BaseConsumerGroup cfg);
  QueueConfig.RedisMaxRetries := GetIntEnv "QUEUE_REDIS_MAX_RETRIES" (QueueConfig.RedisMaxRetries cfg);
  QueueConfig.MaxLen := GetInt64Env "QUEUE_MAX_LEN" (QueueConfig.MaxLen cfg);
  QueueConfig.DLQStreamName := GetEnv "QUEUE_DLQ_STREAM_NAME" (QueueConfig.DLQStreamName cfg);
  QueueConfig.DLQMaxLen := GetInt64Env "QUEUE_DLQ_MAX_LEN" (QueueConfig.DLQMaxLen cfg);
  QueueConfig.PartitionCount := GetIntEnv "QUEUE_PARTITION_COUNT" (QueueConfig.PartitionCount cfg);
  QueueConfig.PartitionID := GetIntEnv "QUEUE_PARTITION_ID" (QueueConfig.PartitionID cfg) |}.

Definition loadPostgresConfig (cfg : PostgresClientConfig.t) : PostgresClientConfig.t := {|
  PostgresClientConfig.Host := GetEnv "POSTGRES_HOST" (PostgresClientConfig.Host cfg);
  PostgresClientConfig.Port := GetEnv "POSTGRES_PORT" (PostgresClientConfig.Port cfg);
  PostgresClientConfig.Database := GetEnv "POSTGRES_DB" (PostgresClientConfig.Database cfg);
  PostgresClientConfig.User := GetEnv "POSTGRES_USER" (PostgresClientConfig.User cfg);
  PostgresClientConfig.Password := GetEnv "POSTGRES_PASSWORD" (PostgresClientConfig.Password cfg);
  PostgresClientConfig.SSLMode := GetEnv "POSTGRES_SSLMODE" (PostgresClientConfig.SSLMode cfg);
  PostgresClientConfig.MaxConns := GetIntEnv "POSTGRES_MAX_CONNS" (PostgresClientConfig.MaxConns cfg);
  PostgresClientConfig.MinConns := GetIntEnv "POSTGRES_MIN_CONNS" (PostgresClientConfig.MinConns cfg);
  PostgresClientConfig.MaxConnLifetime := GetDurationEnv "POSTGRES_MAX_CONN_LIFETIME" (PostgresClientConfig.MaxConnLifetime cfg);
  PostgresClientConfig.MaxConnIdleTime := GetDurationEnv "POSTGRES_MAX_CONN_IDLE_TIME" (PostgresClientConfig.MaxConnIdleTime cfg) |}.

Definition loadObservabilityConfig (cfg : ObservabilityConfig.t) : ObservabilityConfig.t := {|
  ObservabilityConfig.LogLevel := GetEnv "LOG_LEVEL" (ObservabilityConfig.LogLevel cfg);
  ObservabilityConfig.LogFormat := GetEnv "LOG_FORMAT" (ObservabilityConfig.LogFormat cfg);
  ObservabilityConfig.MetricsEnabled := GetBoolEnv "METRICS_ENABLED" (ObservabilityConfig.MetricsEnabled cfg);
  ObservabilityConfig.MetricsPort := GetEnv "METRICS_PORT" (ObservabilityConfig.MetricsPort cfg);
  ObservabilityConfig.TracingEnabled := GetBoolEnv "TRACING_ENABLED" (ObservabilityConfig.TracingEnabled cfg);
  ObservabilityConfig.TracingSampleRate := GetFloat64Env "TRACING_SAMPLE_RATE" (ObservabilityConfig.TracingSampleRate cfg);
  ObservabilityConfig.HealthCheckTimeout := GetDurationEnv "HEALTH_CHECK_TIMEOUT" (ObservabilityConfig.HealthCheckTimeout cfg) |}.

Definition loadThrottlerConfig (cfg : ThrottlerConfig.t) : ThrottlerConfig.t := {|
  ThrottlerConfig.Enabled := GetBoolEnv "THROTTLER_ENABLED" (ThrottlerConfig.Enabled cfg);
  ThrottlerConfig.SoftDepthLimit := GetInt64Env "THROTTLER_SOFT_DEPTH_LIMIT" (ThrottlerConfig.SoftDepthLimit cfg);
  ThrottlerConfig.HardDepthLimit := GetInt64Env "THROTTLER_HARD_DEPTH_LIMIT" (ThrottlerConfig.HardDepthLimit cfg);
  ThrottlerConfig.MaxMessageAge := GetDurationEnv "THROTTLER_MAX_MESSAGE_AGE" (ThrottlerConfig.MaxMessageAge cfg);
  ThrottlerConfig.CriticalMessageAge := GetDurationEnv "THROTTLER_CRITICAL_MESSAGE_AGE" (ThrottlerConfig.CriticalMessageAge cfg);
  ThrottlerConfig.RateLimitScore := GetFloat64Env "THROTTLER_RATE_LIMIT_SCORE" (ThrottlerConfig.RateLimitScore cfg);
  ThrottlerConfig.CircuitOpenScore := GetFloat64Env "THROTTLER_CIRCUIT_OPEN_SCORE" (ThrottlerConfig.CircuitOpenScore cfg);
  ThrottlerConfig.MetricsUpdateInterval := GetDurationEnv "THROTTLER_METRICS_UPDATE_INTERVAL" (ThrottlerConfig.MetricsUpdateInterval cfg);
  ThrottlerConfig.EstimatedDrainRate := GetFloat64Env "THROTTLER_ESTIMATED_DRAIN_RATE" (ThrottlerConfig.EstimatedDrainRate cfg);
  ThrottlerConfig.MinRetryAfter := GetDurationEnv "THROTTLER_MIN_RETRY_AFTER" (ThrottlerConfig.MinRetryAfter cfg);
  ThrottlerConfig.MaxRetryAfter := GetDurationEnv "THROTTLER_MAX_RETRY_AFTER" (ThrottlerConfig.MaxRetryAfter cfg) |}.

Definition loadRegistryConfig (cfg : RegistryConfig.t) : RegistryConfig.t := {|
  RegistryConfig.HeartbeatInterval := GetDurationEnv "REGISTRY_HEARTBEAT_INTERVAL" (RegistryConfig.HeartbeatInterval cfg);
  RegistryConfig.DeadThreshold := GetDurationEnv "REGISTRY_DEAD_THRESHOLD" (RegistryConfig.DeadThreshold cfg);
  RegistryConfig.PollInterval := GetDurationEnv "REGISTRY_POLL_INTERVAL" (RegistryConfig.PollInterval cfg);
  RegistryConfig.ControlPlanePoll := GetDurationEnv "REGISTRY_CONTROL_PLANE_POLL" (RegistryConfig.ControlPlanePoll cfg);
  RegistryConfig.LockTTL := GetDurationEnv "REGISTRY_LOCK_TTL" (RegistryConfig.LockTTL cfg) |}.

(** The overrides of [Load], before validation. *)
Definition loadFrom (cfg : Config.t) : Config.t := {|
  Config.Environment := GetEnv "ENVIRONMENT" (Config.Environment cfg);
  Config.Ingestion := loadIngestionConfig (Config.Ingestion cfg);
  Config.Worker := loadWorkerConfig (Config.Worker cfg);
  Config.Server := loadServerConfig (Config.Server cfg);
  Config.Redis := loadRedisConfig (Config.Redis cfg);
  Config.Queue := loadQueueConfig (Config.Queue cfg);
  Config.Postgres := loadPostgresConfig (Config.Postgres cfg);
  Config.Observability := loadObservabilityConfig (Config.Observability cfg);
  Config.Registry := loadRegistryConfig (Config.Registry cfg);
  Config.Throttler := loadThrottlerConfig (Config.Throttler cfg) |}.

End Loader.
