(* ===== verification/Validator.v ===== *)
(** * Configuration validation: [internal/config/validator.go] and [Load]

    Every check of the source, in its order, with its message; [combineErrors]
    and [formatErrors] build the text a failing start-up prints.  The
    specification is [valid_config], the conjunction of constraints that the
    rest of the system relies on; [Validate] is proved to decide it. *)
From S2P Require Import Prelude GoStd GoFloat Defaults Config.
From Stdlib Require Import SpecFloat.
Import Errors.

(** ** The checks *)

(** [if cond { errs = append(errs, fmt.Errorf(msg)) }] *)
Definition check (cond : bool) (msg : string) : list error :=
  if cond then [ErrorString msg] else [].

Definition newline : string := String "010" "".

(** [combineErrors]: nil for no error, the error itself for one, else one
    error whose text joins them. *)
Definition combineErrors (errs : list error) : option error :=
  match errs with
  | [] => None
  | [e] => Some e
  | _ => Some (ErrorString (Strings.Join "; " (Error <$> errs)))
  end.

Fixpoint error_lines (errs : list error) : string :=
  match errs with
  | [] => ""
  | e :: errs' => "  - " +:+ Error e +:+ newline +:+ error_lines errs'
  end.

Definition formatErrors (errs : list error) : error :=
  ErrorString ("configuration validation failed:" +:+ newline +:+ error_lines errs).

Fixpoint contains (slice : list string) (item : string) : bool :=
  match slice with
  | [] => false
  | s :: slice' => if bool_decide (s = item) then true else contains slice' item
  end.

(** [port, err := strconv.Atoi(s); err != nil || port < 1 || port > 65535] *)
Definition bad_port (s : string) : bool :=
  match Strconv.Atoi s with
  | Err _ => true
  | Ok port => (port <? 1) || (65535 <? port)
  end.

(** The shared shape of the port checks: required, then in range. *)
Definition port_check (s required range : string) : list error :=
  if bool_decide (s = "") then [ErrorString required]
  else check (bad_port s) (range +:+ s).

Definition fmt_strings (l : list string) : string := "[" +:+ Strings.Join " " l +:+ "]".

Definition validateServer (cfg : ServerConfig.t) : option error :=
  combineErrors (
    port_check (ServerConfig.Port cfg) "port is required" "port must be between 1 and 65535, got: " ++
    check (ServerConfig.ReadTimeout cfg <=? 0) "read timeout must be positive" ++
    check (ServerConfig.WriteTimeout cfg <=? 0) "write timeout must be positive" ++
    check (ServerConfig.ShutdownTimeout cfg <=? 0) "shutdown timeout must be positive").

Definition validateRedis (cfg : RedisClientConfig.t) : option error :=
  combineErrors (
    check (bool_decide (RedisClientConfig.Host cfg = "")) "host is required" ++
    port_check (RedisClientConfig.Port cfg) "port is required" "port must be between 1 and 65535, got: " ++
    check ((RedisClientConfig.DB cfg <? 0) || (15 <? RedisClientConfig.DB cfg))
      ("db must be between 0 and 15, got: " +:+ Strconv.Itoa (RedisClientConfig.DB cfg)) ++
    check (RedisClientConfig.PoolSize cfg <=? 0) "pool size must be positive").

Definition validateQueue (cfg : QueueConfig.t) : option error :=
  combineErrors (
    check (bool_decide (QueueConfig.BaseStreamName cfg = "")) "stream name is required" ++
    check (bool_decide (QueueConfig.BaseConsumerGroup cfg = "")) "consumer group is required" ++
    check (QueueConfig.RedisMaxRetries cfg <=? 0) "max retries must be positive" ++
    check (QueueConfig.MaxLen cfg <=? 0) "max length must be positive" ++
    check (bool_decide (QueueConfig.DLQStreamName cfg = "")) "DLQ stream name is required" ++
    check (QueueConfig.DLQMaxLen cfg <=? 0) "DLQ max length must be positive" ++
    check (bool_decide (QueueConfig.DLQStreamName cfg = QueueConfig.BaseStreamName cfg))
      "DLQ stream name must be different from main stream" ++
    check (QueueConfig.PartitionCount cfg <=? 0) "partition count must be positive" ++
    check ((QueueConfig.PartitionID cfg <? 0) || (QueueConfig.PartitionCount cfg <=? QueueConfig.PartitionID cfg))
      ("partition ID " +:+ Strconv.Itoa (QueueConfig.PartitionID cfg) +:+ " out of range [0, " +:+
       Strconv.Itoa (QueueConfig.PartitionCount cfg) +:+ ")")).

Definition validSSLModes : list string := ["disable"; "require"; "verify-ca"; "verify-full"].

Definition validatePostgres (cfg : PostgresClientConfig.t) : option error :=
  combineErrors (
    check (bool_decide (PostgresClientConfig.Host cfg = "")) "host is required" ++
    port_check (PostgresClientConfig.Port cfg) "port is required" "port must be between 1 and 65535, got: " ++
    check (bool_decide (PostgresClientConfig.Database cfg = "")) "database name is required" ++
    check (bool_decide (PostgresClientConfig.User cfg = "")) "user is required" ++
    check (negb (contains validSSLModes (PostgresClientConfig.SSLMode cfg)))
      ("ssl mode must be one of " +:+ fmt_strings validSSLModes +:+ ", got: " +:+ PostgresClientConfig.SSLMode cfg) ++
    check (PostgresClientConfig.MaxConns cfg <=? 0) "max connections must be positive" ++
    check (PostgresClientConfig.MinConns cfg <? 0) "min connections cannot be negative" ++
    check (PostgresClientConfig.MaxConns cfg <? PostgresClientConfig.MinConns cfg)
      ("min connections (" +:+ Strconv.Itoa (PostgresClientConfig.MinConns cfg) +:+
       ") cannot exceed max connections (" +:+ Strconv.Itoa (PostgresClientConfig.MaxConns cfg) +:+ ")")).

Definition validateWorker (cfg : WorkerConfig.t) : option error :=
  combineErrors (
    (if WorkerConfig.Concurrency cfg <=? 0 then [ErrorString "concurrency must be positive"]
     else check (1000 <? WorkerConfig.Concurrency cfg)
            ("concurrency cannot exceed 1000, got: " +:+ Strconv.Itoa (WorkerConfig.Concurrency cfg))) ++
    check (WorkerConfig.PollInterval cfg <=? 0) "poll interval must be positive" ++
    check (WorkerConfig.BatchSize cfg <=? 0) "batch size must be positive" ++
    check (WorkerConfig.ProcessingTimeout cfg <=? 0) "processing timeout must be positive" ++
    check (WorkerConfig.JobMaxRetries cfg <? 0) "max retries cannot be negative" ++
    check (WorkerConfig.BackoffMinDelay cfg <=? 0) "backoff min delay must be positive" ++
    check (WorkerConfig.BackoffMaxDelay cfg <=? 0) "backoff max delay must be positive" ++
    check (WorkerConfig.BackoffMaxDelay cfg <? WorkerConfig.BackoffMinDelay cfg)
      ("backoff min delay (" +:+ Time.DurationString (WorkerConfig.BackoffMinDelay cfg) +:+
       ") cannot exceed max delay (" +:+ Time.DurationString (WorkerConfig.BackoffMaxDelay cfg) +:+ ")") ++
    check (bool_decide (WorkerConfig.HealthPort cfg = "")) "health port is required" ++
    check (WorkerConfig.ReclaimInterval cfg <=? 0) "reclaim interval must be positive" ++
    check (WorkerConfig.ReclaimIdleTime cfg <=? 0) "reclaim idle time must be positive" ++
    check (WorkerConfig.ReclaimIdleTime cfg <? WorkerConfig.ReclaimInterval cfg)
      ("reclaim idle time (" +:+ Time.DurationString (WorkerConfig.ReclaimIdleTime cfg) +:+
       ") must be >= reclaim interval (" +:+ Time.DurationString (WorkerConfig.ReclaimInterval cfg) +:+
       "), ideally 2-3x") ++
    check (WorkerConfig.ReclaimBatchSize cfg <=? 0) "reclaim batch size must be positive" ++
    check (WorkerConfig.DedupTTL cfg <=? 0) "deduplication TTL must be positive").

Definition validateIngestion (cfg : IngestionConfig.t) : option error :=
  combineErrors (
    check (IngestionConfig.MaxQueueDepth cfg <? 0) "max queue depth cannot be negative").

Definition validLogLevels : list string := ["debug"; "info"; "warn"; "error"].

Definition validLogFormats : list string := ["json"; "text"].

Definition validateObservability (cfg : ObservabilityConfig.t) : option error :=
  combineErrors (
    check (negb (contains validLogLevels (Strings.ToLower (ObservabilityConfig.LogLevel cfg))))
      ("log level must be one of " +:+ fmt_strings validLogLevels +:+ ", got: " +:+ ObservabilityConfig.LogLevel cfg) ++
    check (negb (contains validLogFormats (Strings.ToLower (ObservabilityConfig.LogFormat cfg))))
      ("log format must be one of " +:+ fmt_strings validLogFormats +:+ ", got: " +:+ ObservabilityConfig.LogFormat cfg) ++
    (if ObservabilityConfig.MetricsEnabled cfg then
       port_check (ObservabilityConfig.MetricsPort cfg)
         "metrics port is required when metrics are enabled"
         "metrics port must be between 1 and 65535, got: "
     else []) ++
    (if ObservabilityConfig.TracingEnabled cfg then
       check (F64.ltb (ObservabilityConfig.TracingSampleRate cfg) (F64.of_Z 0) ||
              F64.gtb (ObservabilityConfig.TracingSampleRate cfg) (F64.of_Z 1))
         ("tracing sample rate must be between 0.0 and 1.0, got: " +:+
          F64.fmt_2f (ObservabilityConfig.TracingSampleRate cfg))
     else []) ++
    check (ObservabilityConfig.HealthCheckTimeout cfg <=? 0) "health check timeout must be positive").

Definition validateThrottler (cfg : ThrottlerConfig.t) : option error :=
  if negb (ThrottlerConfig.Enabled cfg) then None
  else combineErrors (
    check (ThrottlerConfig.SoftDepthLimit cfg <=? 0) "throttler soft depth limit must be positive" ++
    check (ThrottlerConfig.HardDepthLimit cfg <=? 0) "throttler hard depth limit must be positive" ++
    check (ThrottlerConfig.HardDepthLimit cfg <=? ThrottlerConfig.SoftDepthLimit cfg)
      "throttler hard depth limit must be greater than soft depth limit" ++
    check (ThrottlerConfig.MaxMessageAge cfg <=? 0) "throttler max message age must be positive" ++
    check (ThrottlerConfig.CriticalMessageAge cfg <=? ThrottlerConfig.MaxMessageAge cfg)
      "throttler critical message age must be greater than max message age" ++
    check (F64.leb (ThrottlerConfig.RateLimitScore cfg) (F64.of_Z 0))
      "throttler rate limit score must be positive" ++
    check (F64.leb (ThrottlerConfig.CircuitOpenScore cfg) (ThrottlerConfig.RateLimitScore cfg))
      "throttler circuit open score must be greater than rate limit score" ++
    check (ThrottlerConfig.MetricsUpdateInterval cfg <=? 0) "throttler metrics update interval must be positive" ++
    check (F64.leb (ThrottlerConfig.EstimatedDrainRate cfg) (F64.of_Z 0))
      "throttler estimated drain rate must be positive" ++
    check (ThrottlerConfig.MinRetryAfter cfg <=? 0) "throttler min retry after must be positive" ++
    check (ThrottlerConfig.MaxRetryAfter cfg <=? ThrottlerConfig.MinRetryAfter cfg)
      "throttler max retry after must be greater than min retry after").

Definition validateRegistry (cfg : RegistryConfig.t) : option error :=
  combineErrors (
    check (RegistryConfig.HeartbeatInterval cfg <=? 0) "registry heartbeat interval must be positive" ++
    check (RegistryConfig.DeadThreshold cfg <=? RegistryConfig.HeartbeatInterval cfg)
      "registry dead threshold must be greater than heartbeat interval" ++
    check (RegistryConfig.PollInterval cfg <=? 0) "registry poll interval must be positive" ++
    check (RegistryConfig.ControlPlanePoll cfg <=? 0) "registry control plane poll interval must be positive" ++
    check (RegistryConfig.LockTTL cfg <=? RegistryConfig.ControlPlanePoll cfg)
      "registry lock TTL must be greater than control plane poll interval").

(** [if err := v(&cfg.X); err != nil { errs = append(errs, fmt.Errorf("<p>: %w", err)) }] *)
Definition section_error (prefix : string) (o : option error) : list error :=
  match o with None => [] | Some e => [Wrapf prefix e] end.

Definition bare_error (o : option error) : list error :=
  match o with None => [] | Some e => [e] end.

(** The errors [Validate] collects, in order.  The throttler it validates is
    [cfg.Ingestion.Throttler]; [cfg.Throttler] is not looked at. *)
Definition validation_errors (cfg : Config.t) : list error :=
  section_error "server config" (validateServer (Config.Server cfg)) ++
  section_error "redis config" (validateRedis (Config.Redis cfg)) ++
  section_error "queue config" (validateQueue (Config.Queue cfg)) ++
  section_error "postgres config" (validatePostgres (Config.Postgres cfg)) ++
  section_error "ingestion config" (validateIngestion (Config.Ingestion cfg)) ++
  section_error "worker config" (validateWorker (Config.Worker cfg)) ++
  section_error "observability config" (validateObservability (Config.Observability cfg)) ++
  bare_error (validateThrottler (IngestionConfig.Throttler (Config.Ingestion cfg))) ++
  bare_error (validateRegistry (Config.Registry cfg)).

Definition Validate (cfg : Config.t) : option error :=
  match validation_errors cfg with
  | [] => None
  | errs => Some (formatErrors errs)
  end.

(** [Load]: defaults, overridden from the environment, then validated. *)
Definition Load (getenv : string -> string) : res error Config.t :=
  let cfg := loadFrom getenv GetDefaults in
  match Validate cfg with
  | Some e => Err (Wrapf "invalid configuration" e)
  | None => Ok cfg
  end.

Example load_defaults : Load (fun _ => "") = Ok GetDefaults.
Proof. vm_compute. reflexivity. Qed.

(** ** Specification: the constraints on a configuration *)

Definition valid_port (s : string) : Prop :=
  exists n, Strconv.Atoi s = Ok n /\ 1 <= n <= 65535.

Definition valid_server (c : ServerConfig.t) : Prop :=
  valid_port (ServerConfig.Port c) /\ 0 < ServerConfig.ReadTimeout c /\
  0 < ServerConfig.WriteTimeout c /\ 0 < ServerConfig.ShutdownTimeout c.

Definition valid_redis (c : RedisClientConfig.t) : Prop :=
  RedisClientConfig.Host c <> "" /\ valid_port (RedisClientConfig.Port c) /\
  0 <= RedisClientConfig.DB c <= 15 /\ 0 < RedisClientConfig.PoolSize c.

Definition valid_queue (c : QueueConfig.t) : Prop :=
  QueueConfig.BaseStreamName c <> "" /\ QueueConfig.BaseConsumerGroup c <> "" /\
  0 < QueueConfig.RedisMaxRetries c /\ 0 < QueueConfig.MaxLen c /\
  QueueConfig.DLQStreamName c <> "" /\ 0 < QueueConfig.DLQMaxLen c /\
  QueueConfig.DLQStreamName c <> QueueConfig.BaseStreamName c /\
  0 <= QueueConfig.PartitionID c < QueueConfig.PartitionCount c.

Definition valid_postgres (c : PostgresClientConfig.t) : Prop :=
  PostgresClientConfig.Host c <> "" /\ valid_port (PostgresClientConfig.Port c) /\
  PostgresClientConfig.Database c <> "" /\ PostgresClientConfig.User c <> "" /\
  PostgresClientConfig.SSLMode c ∈ validSSLModes /\
  0 < PostgresClientConfig.MaxConns c /\
  0 <= PostgresClientConfig.MinConns c <= PostgresClientConfig.MaxConns c.

Definition valid_worker (c : WorkerConfig.t) : Prop :=
  0 < WorkerConfig.Concurrency c <= 1000 /\ 0 < WorkerConfig.PollInterval c /\
  0 < WorkerConfig.BatchSize c /\ 0 < WorkerConfig.ProcessingTimeout c /\
  0 <= WorkerConfig.JobMaxRetries c /\
  0 < WorkerConfig.BackoffMinDelay c <= WorkerConfig.BackoffMaxDelay c /\
  WorkerConfig.HealthPort c <> "" /\
  0 < WorkerConfig.ReclaimInterval c <= WorkerConfig.ReclaimIdleTime c /\
  0 < WorkerConfig.ReclaimBatchSize c /\ 0 < WorkerConfig.DedupTTL c.

Definition valid_ingestion (c : IngestionConfig.t) : Prop :=
  0 <= IngestionConfig.MaxQueueDepth c.

Definition valid_observability (c : ObservabilityConfig.t) : Prop :=
  Strings.ToLower (ObservabilityConfig.LogLevel c) ∈ validLogLevels /\
  Strings.ToLower (ObservabilityConfig.LogFormat c) ∈ validLogFormats /\
  (ObservabilityConfig.MetricsEnabled c = true -> valid_port (ObservabilityConfig.MetricsPort c)) /\
  (ObservabilityConfig.TracingEnabled c = true ->
     F64.ltb (ObservabilityConfig.TracingSampleRate c) (F64.of_Z 0) = false /\
     F64.gtb (ObservabilityConfig.TracingSampleRate c) (F64.of_Z 1) = false) /\
  0 < ObservabilityConfig.HealthCheckTimeout c.

(** Float constraints are stated as the code tests them: a NaN score fails
    neither test (see [nan_score_accepted]). *)
Definition valid_throttler (c : ThrottlerConfig.t) : Prop :=
  ThrottlerConfig.Enabled c = true ->
  0 < ThrottlerConfig.SoftDepthLimit c < ThrottlerConfig.HardDepthLimit c /\
  0 < ThrottlerConfig.MaxMessageAge c < ThrottlerConfig.CriticalMessageAge c /\
  F64.leb (ThrottlerConfig.RateLimitScore c) (F64.of_Z 0) = false /\
  F64.leb (ThrottlerConfig.CircuitOpenScore c) (ThrottlerConfig.RateLimitScore c) = false /\
  0 < ThrottlerConfig.MetricsUpdateInterval c /\
  F64.leb (ThrottlerConfig.EstimatedDrainRate c) (F64.of_Z 0) = false /\
  0 < ThrottlerConfig.MinRetryAfter c < ThrottlerConfig.MaxRetryAfter c.

Definition valid_registry (c : RegistryConfig.t) : Prop :=
  0 < RegistryConfig.HeartbeatInterval c < RegistryConfig.DeadThreshold c /\
  0 < RegistryConfig.PollInterval c /\
  0 < RegistryConfig.ControlPlanePoll c < RegistryConfig.LockTTL c.

Record valid_config (cfg : Config.t) : Prop := {
  vc_server : valid_server (Config.Server cfg);
  vc_redis : valid_redis (Config.Redis cfg);
  vc_queue : valid_queue (Config.Queue cfg);
  vc_postgres : valid_postgres (Config.Postgres cfg);
  vc_ingestion : valid_ingestion (Config.Ingestion cfg);
  vc_worker : valid_worker (Config.Worker cfg);
  vc_observability : valid_observability (Config.Observability cfg);
  vc_throttler : valid_throttler (IngestionConfig.Throttler (Config.Ingestion cfg));
  vc_registry : valid_registry (Config.Registry cfg);
}.

(** ** Lemmas on the building blocks *)

Lemma combineErrors_None errs : combineErrors errs = None <-> errs = [].
Proof. destruct errs as [|e [|e' errs]]; naive_solver. Qed.

Lemma check_nil c m : check c m = [] <-> c = false.
Proof. destruct c; naive_solver. Qed.

Lemma section_error_nil p o : section_error p o = [] <-> o = None.
Proof. destruct o; naive_solver. Qed.

Lemma bare_error_nil o : bare_error o = [] <-> o = None.
Proof. destruct o; naive_solver. Qed.

Lemma bad_port_false s : bad_port s = false <-> valid_port s.
Proof.
  unfold bad_port, valid_port. destruct (Strconv.Atoi s) as [n|e] eqn:E.
  - rewrite orb_false_iff, !Z.ltb_ge. split; [intros; exists n; split; [done|lia]|].
    intros (n' & [= <-] & ?). lia.
  - split; [done|]. by intros (n & ? & _).
Qed.

Lemma port_check_nil s m1 m2 : port_check s m1 m2 = [] <-> valid_port s.
Proof.
  unfold port_check. case_bool_decide as H.
  - subst. split; [done|]. intros (n & Hn & _). vm_compute in Hn. done.
  - by rewrite check_nil, bad_port_false.
Qed.

Lemma contains_elem l x : contains l x = true <-> x ∈ l.
Proof.
  induction l as [|y l IH]; simpl; [by rewrite elem_of_nil|]. rewrite elem_of_cons.
  case_bool_decide as H; [naive_solver|]. rewrite IH. naive_solver.
Qed.

Lemma negb_contains l x : negb (contains l x) = false <-> x ∈ l.
Proof. by rewrite negb_false_iff, contains_elem. Qed.

Lemma if_list_nil {A} (b : bool) (l : list A) : (if b then l else []) = [] <-> (b = true -> l = []).
Proof. destruct b; naive_solver. Qed.

Lemma bool_decide_false `{Decision P} : bool_decide P = false <-> ~ P.
Proof. split; [apply bool_decide_eq_false_1|apply bool_decide_eq_false_2]. Qed.

(** Reduce an equation between a list of checks and [[]] to the constraints. *)
Ltac solve_checks :=
  rewrite ?combineErrors_None, ?app_nil;
  rewrite ?check_nil, ?port_check_nil, ?negb_contains, ?if_list_nil, ?bool_decide_false,
    ?orb_false_iff, ?Z.leb_gt, ?Z.ltb_ge, ?check_nil, ?port_check_nil, ?orb_false_iff.

Lemma validateServer_None c : validateServer c = None <-> valid_server c.
Proof. unfold validateServer, valid_server. by solve_checks. Qed.

Lemma validateRedis_None c : validateRedis c = None <-> valid_redis c.
Proof. unfold validateRedis, valid_redis. by solve_checks. Qed.

Lemma validateQueue_None c : validateQueue c = None <-> valid_queue c.
Proof.
  unfold validateQueue, valid_queue. solve_checks.
  split; intros; destruct_and!; repeat split; try done; lia.
Qed.

Lemma validatePostgres_None c : validatePostgres c = None <-> valid_postgres c.
Proof.
  unfold validatePostgres, valid_postgres. by solve_checks.
Qed.

Lemma validateWorker_None c : validateWorker c = None <-> valid_worker c.
Proof.
  unfold validateWorker, valid_worker. solve_checks.
  assert ((if WorkerConfig.Concurrency c <=? 0 then [ErrorString "concurrency must be positive"]
     else check (1000 <? WorkerConfig.Concurrency c)
            ("concurrency cannot exceed 1000, got: " +:+ Strconv.Itoa (WorkerConfig.Concurrency c))) = []
    <-> 0 < WorkerConfig.Concurrency c <= 1000) as ->.
  { destruct (Z.leb_spec (WorkerConfig.Concurrency c) 0); [split; [done|lia]|].
    rewrite check_nil, Z.ltb_ge. lia. }
  split; intros; destruct_and!; repeat split; try done; lia.
Qed.

Lemma validateIngestion_None c : validateIngestion c = None <-> valid_ingestion c.
Proof. unfold validateIngestion, valid_ingestion. by solve_checks. Qed.

Lemma validateObservability_None c : validateObservability c = None <-> valid_observability c.
Proof. unfold validateObservability, valid_observability. by solve_checks. Qed.

Lemma validateThrottler_None c : validateThrottler c = None <-> valid_throttler c.
Proof.
  unfold validateThrottler, valid_throttler.
  destruct (ThrottlerConfig.Enabled c); simpl; [|naive_solver]. solve_checks.
  split; [intros; destruct_and!; repeat split; try done; lia|].
  intros H. specialize (H eq_refl). destruct_and!. repeat split; try done; lia.
Qed.

Lemma validateRegistry_None c : validateRegistry c = None <-> valid_registry c.
Proof.
  unfold validateRegistry, valid_registry. solve_checks.
  split; intros; destruct_and!; repeat split; try done; lia.
Qed.

Lemma validation_errors_nil cfg : validation_errors cfg = [] <-> valid_config cfg.
Proof.
  unfold validation_errors.
  rewrite !app_nil, !section_error_nil, !bare_error_nil,
    validateServer_None, validateRedis_None, validateQueue_None, validatePostgres_None,
    validateIngestion_None, validateWorker_None, validateObservability_None,
    validateThrottler_None, validateRegistry_None.
  split; [intros; destruct_and!; by constructor|by intros []].
Qed.

(** ** What [Validate] and [Load] guarantee *)

(** C18: [Validate] returns nil exactly for the configurations that satisfy
    every constraint of [valid_config]: it is sound (a configuration the
    services start with has, among others, a partition id inside the partition
    range, a positive retry budget and positive intervals) and complete (no
    such configuration is refused). *)
Theorem Validate_correct cfg : Validate cfg = None <-> valid_config cfg.
Proof.
  rewrite <-validation_errors_nil. unfold Validate.
  destruct (validation_errors cfg); naive_solver.
Qed.

Lemma prefix_append (p s : string) : String.prefix p (p +:+ s) = true.
Proof.
  induction p as [|c p IH]; [by destruct s|]. rewrite append_cons. simpl.
  by destruct (Ascii.ascii_dec c c).
Qed.

Lemma Contains_append_r (s t u : string) :
  Strings.Contains s t = true -> Strings.Contains (u +:+ s) t = true.
Proof.
  intros H. induction u as [|c u IH]; [done|]. rewrite append_cons. simpl.
  rewrite IH. apply orb_true_r.
Qed.

Lemma Contains_prefix (s t : string) : Strings.Contains (t +:+ s) t = true.
Proof.
  pose proof (prefix_append t s) as H. destruct (t +:+ s); cbn [Strings.Contains]; by rewrite H.
Qed.

Lemma Contains_refl (s : string) : Strings.Contains s s = true.
Proof. pose proof (Contains_prefix "" s) as H. by rewrite append_nil_r in H. Qed.

Lemma error_lines_contains e errs :
  e ∈ errs -> Strings.Contains (error_lines errs) (Error e) = true.
Proof.
  induction errs as [|e' errs IH]; [set_solver|]. intros [->|Hin]%elem_of_cons.
  - cbn [error_lines]. apply Contains_append_r, Contains_prefix.
  - cbn [error_lines]. do 3 apply Contains_append_r. auto.
Qed.

Lemma Join_contains sep e l :
  e ∈ l -> Strings.Contains (Strings.Join sep l) e = true.
Proof.
  induction l as [|x l IH]; [set_solver|]. intros [->|Hin]%elem_of_cons.
  - destruct l; [apply Contains_refl|apply Contains_prefix].
  - destruct l as [|y l]; [set_solver|]. cbn [Strings.Join]. do 2 apply Contains_append_r. auto.
Qed.

(** The combined error of a section mentions each of its errors. *)
Lemma combineErrors_reports errs e e' :
  combineErrors errs = Some e -> e' ∈ errs -> Strings.Contains (Error e) (Error e') = true.
Proof.
  destruct errs as [|e1 [|e2 errs]]; intros H Hin; [done| |].
  - apply list_elem_of_singleton in Hin. simplify_eq/=. apply Contains_refl.
  - apply (f_equal (from_option Error "")) in H. cbn [combineErrors from_option Error] in H.
    rewrite <-H. apply Join_contains, list_elem_of_fmap. eauto.
Qed.

(** [Validate] reports all the errors it found: the text of the error it
    returns contains the text of the error of every failing section. *)
Theorem Validate_reports_all cfg e e' :
  Validate cfg = Some e -> e' ∈ validation_errors cfg ->
  Strings.Contains (Error e) (Error e') = true.
Proof.
  unfold Validate. destruct (validation_errors cfg) as [|e1 errs] eqn:HE; [done|].
  intros [= <-] Hin. unfold formatErrors. cbn [Error].
  do 2 apply Contains_append_r. by apply error_lines_contains.
Qed.

Definition bad_worker_env (k : string) : string :=
  if bool_decide (k = "WORKER_CONCURRENCY") then "0"
  else if bool_decide (k = "QUEUE_PARTITION_ID") then "7"
  else "".

Lemma Validate_reports_all_witness :
  Strings.Contains
    (Error (formatErrors (validation_errors (loadFrom bad_worker_env GetDefaults))))
    (Error (Wrapf "worker config" (ErrorString "concurrency must be positive"))) = true.
Proof.
  apply (Validate_reports_all (loadFrom bad_worker_env GetDefaults)).
  - vm_compute. reflexivity.
  - apply (bool_decide_eq_true_1 _). vm_compute. reflexivity.
Defined.

(** ** Fields the loader fills and nobody reads *)

(** The variables [THROTTLER_*] have no effect on the throttling that
    runs: two environments that agree on every other variable give the same
    ingestion configuration (the one [SetupThrottler] uses) and the same
    validation verdict. *)
Theorem throttler_env_ignored getenv1 getenv2 :
  (forall k, String.prefix "THROTTLER_" k = false -> getenv1 k = getenv2 k) ->
  Config.Ingestion (loadFrom getenv1 GetDefaults) = Config.Ingestion (loadFrom getenv2 GetDefaults) /\
  Validate (loadFrom getenv1 GetDefaults) = Validate (loadFrom getenv2 GetDefaults).
Proof.
  intros Hag.
  assert (Config.Ingestion (loadFrom getenv1 GetDefaults) = Config.Ingestion (loadFrom getenv2 GetDefaults))
    as HI.
  { cbn [loadFrom Config.Ingestion]. unfold loadIngestionConfig, loadIngestionThrottler,
      GetBoolEnv, GetInt64Env, GetDurationEnv, GetFloat64Env.
    rewrite !Hag by reflexivity. reflexivity. }
  split; [exact HI|].
  unfold Validate, validation_errors. rewrite HI. cbn [loadFrom Config.Server Config.Redis
    Config.Queue Config.Postgres Config.Worker Config.Observability Config.Registry].
  unfold loadServerConfig, loadRedisConfig, loadQueueConfig, loadPostgresConfig, loadWorkerConfig,
    loadObservabilityConfig, loadRegistryConfig, GetEnv, GetIntEnv, GetBoolEnv, GetInt64Env,
    GetDurationEnv, GetFloat64Env.
  rewrite !Hag by reflexivity. reflexivity.
Qed.

Lemma throttler_env_ignored_witness :
  let env1 := fun _ : string => "" in
  let env2 := fun k => if bool_decide (k = "THROTTLER_SOFT_DEPTH_LIMIT") then "-1" else "" in
  Config.Ingestion (loadFrom env1 GetDefaults) = Config.Ingestion (loadFrom env2 GetDefaults) /\
  Validate (loadFrom env1 GetDefaults) = Validate (loadFrom env2 GetDefaults).
Proof.
  intros env1 env2. apply (throttler_env_ignored env1 env2).
  intros k Hk. unfold env1, env2. case_bool_decide as E; [|reflexivity].
  subst k. vm_compute in Hk. discriminate.
Defined.

(** [GetDefaults] gives [ReclaimBatchSize] the value of
    [DefaultWorkerBatchSize]; the constant declared for it,
    [DefaultWorkerReclaimBatchSize], is a different number and is never used. *)
Theorem reclaim_batch_default_mismatch :
  WorkerConfig.ReclaimBatchSize (Config.Worker GetDefaults) = DefaultWorkerBatchSize /\
  WorkerConfig.ReclaimBatchSize (Config.Worker GetDefaults) <> DefaultWorkerReclaimBatchSize.
Proof. split; [reflexivity|]. vm_compute. discriminate. Qed.

(** A NaN score passes validation: with [INGESTION_THROTTLER_CIRCUIT_SCORE=NaN]
    the service starts although the circuit-open score is not greater than the
    rate-limit score. *)
Theorem nan_score_accepted :
  exists getenv cfg, Load getenv = Ok cfg /\
    F64.gtb (ThrottlerConfig.CircuitOpenScore (IngestionConfig.Throttler (Config.Ingestion cfg)))
            (ThrottlerConfig.RateLimitScore (IngestionConfig.Throttler (Config.Ingestion cfg))) = false.
Proof.
  exists (fun k => if bool_decide (k = "INGESTION_THROTTLER_CIRCUIT_SCORE") then "NaN" else "").
  eexists. split; [vm_compute; reflexivity|]. vm_compute. reflexivity.
Qed.

(** The check that keeps the dead letter queue apart from the main queue
    compares it with the base name, which is not the name of a stream: a
    configuration whose dead letter stream is the stream of partition 0 is
    accepted. *)
Theorem dlq_partition_clash_accepted :
  exists getenv cfg, Load getenv = Ok cfg /\
    QueueConfig.DLQStreamName (Config.Queue cfg) =
      QueueConfig.BaseStreamName (Config.Queue cfg) +:+ ":partition:0".
Proof.
  exists (fun k => if bool_decide (k = "QUEUE_DLQ_STREAM_NAME") then "logs:ingest:partition:0" else "").
  eexists. split; [vm_compute; reflexivity|]. vm_compute. reflexivity.
Qed.
