(* ===== verification/Settings.v ===== *)
(** * What an environment means: the specification of [config.Load]

    The table of the environment variables of the services: the name of each, how
    its text is read, the field of the configuration it sets and the value of that
    field when it is unset or cannot be read.  [Load] is proved to return the one
    configuration the table describes, or to fail when that configuration breaks a
    constraint of [valid_config]. *)
From S2P Require Import Prelude GoStd GoFloat Defaults Config Validator.
Import Time Errors.

(** ** The table *)

(** How a text is read. *)
Definition text (s : string) : option string := Some s.

Definition int (s : string) : option Z :=
  match Strconv.Atoi s with Ok n => Some n | Err _ => None end.

Definition int64 (s : string) : option Z :=
  match Strconv.ParseInt s with Ok n => Some n | Err _ => None end.

Definition flag (s : string) : option bool := Strconv.ParseBool s.

Definition float (s : string) : option float64 := ParseFloat.ParseFloat s.

Definition duration (s : string) : option Z := ParseDuration.ParseDuration s.

(** A variable: its name, the reading of its text, its field, its default. *)
Inductive env_var :=
| EnvVar {A : Type} (name : string) (read : string -> option A) (field : Config.t -> A) (fallback : A).

(** The field has the value of its variable in the environment. *)
Definition from_env (getenv : string -> string) (c : Config.t) (v : env_var) : Prop :=
  match v with
  | EnvVar name read field fallback =>
      field c = match getenv name with
                | EmptyString => fallback
                | s => default fallback (read s)
                end
  end.

Definition server_variables : list env_var := [
  EnvVar "SERVER_HOST" text (ServerConfig.Host ∘ Config.Server) "0.0.0.0";
  EnvVar "SERVER_PORT" text (ServerConfig.Port ∘ Config.Server) "8080";
  EnvVar "SERVER_READ_TIMEOUT" duration (ServerConfig.ReadTimeout ∘ Config.Server) (10 * Second);
  EnvVar "SERVER_WRITE_TIMEOUT" duration (ServerConfig.WriteTimeout ∘ Config.Server) (10 * Second);
  EnvVar "SERVER_IDLE_TIMEOUT" duration (ServerConfig.IdleTimeout ∘ Config.Server) (30 * Second);
  EnvVar "SERVER_SHUTDOWN_TIMEOUT" duration (ServerConfig.ShutdownTimeout ∘ Config.Server) (30 * Second)].

Definition redis_variables : list env_var := [
  EnvVar "REDIS_HOST" text (RedisClientConfig.Host ∘ Config.Redis) "localhost";
  EnvVar "REDIS_PORT" text (RedisClientConfig.Port ∘ Config.Redis) "6379";
  EnvVar "REDIS_PASSWORD" text (RedisClientConfig.Password ∘ Config.Redis) "";
  EnvVar "REDIS_DB" int (RedisClientConfig.DB ∘ Config.Redis) 0;
  EnvVar "REDIS_POOL_SIZE" int (RedisClientConfig.PoolSize ∘ Config.Redis) 10;
  EnvVar "REDIS_MIN_IDLE_CONNS" int (RedisClientConfig.MinIdleConns ∘ Config.Redis) 5;
  EnvVar "REDIS_CONN_MAX_IDLE_TIME" duration (RedisClientConfig.ConnMaxIdleTime ∘ Config.Redis) (5 * Minute)].

Definition queue_variables : list env_var := [
  EnvVar "QUEUE_STREAM_NAME" text (QueueConfig.BaseStreamName ∘ Config.Queue) "logs:ingest";
  EnvVar "QUEUE_CONSUMER_GROUP" text (QueueConfig.BaseConsumerGroup ∘ Config.Queue) "log-workers";
  EnvVar "QUEUE_REDIS_MAX_RETRIES" int (QueueConfig.RedisMaxRetries ∘ Config.Queue) 3;
  EnvVar "QUEUE_MAX_LEN" int64 (QueueConfig.MaxLen ∘ Config.Queue) 10000;
  EnvVar "QUEUE_DLQ_STREAM_NAME" text (QueueConfig.DLQStreamName ∘ Config.Queue) "logs:dlq";
  EnvVar "QUEUE_DLQ_MAX_LEN" int64 (QueueConfig.DLQMaxLen ∘ Config.Queue) 1000;
  EnvVar "QUEUE_PARTITION_COUNT" int (QueueConfig.PartitionCount ∘ Config.Queue) 2;
  EnvVar "QUEUE_PARTITION_ID" int (QueueConfig.PartitionID ∘ Config.Queue) 0].

Definition postgres_variables : list env_var := [
  EnvVar "POSTGRES_HOST" text (PostgresClientConfig.Host ∘ Config.Postgres) "localhost";
  EnvVar "POSTGRES_PORT" text (PostgresClientConfig.Port ∘ Config.Postgres) "5432";
  EnvVar "POSTGRES_DB" text (PostgresClientConfig.Database ∘ Config.Postgres) "logdb";
  EnvVar "POSTGRES_USER" text (PostgresClientConfig.User ∘ Config.Postgres) "postgres";
  EnvVar "POSTGRES_PASSWORD" text (PostgresClientConfig.Password ∘ Config.Postgres) "postgres";
  EnvVar "POSTGRES_SSLMODE" text (PostgresClientConfig.SSLMode ∘ Config.Postgres) "disable";
  EnvVar "POSTGRES_MAX_CONNS" int (PostgresClientConfig.MaxConns ∘ Config.Postgres) 25;
  EnvVar "POSTGRES_MIN_CONNS" int (PostgresClientConfig.MinConns ∘ Config.Postgres) 5;
  EnvVar "POSTGRES_MAX_CONN_LIFETIME" duration (PostgresClientConfig.MaxConnLifetime ∘ Config.Postgres) (1 * Hour);
  EnvVar "POSTGRES_MAX_CONN_IDLE_TIME" duration (PostgresClientConfig.MaxConnIdleTime ∘ Config.Postgres) (30 * Minute)].

Definition ingestion_variables : list env_var := [
  EnvVar "INGESTION_ENABLE_CIRCUIT_BREAKER" flag (IngestionConfig.EnableCircuitBreaker ∘ Config.Ingestion) true;
  EnvVar "INGESTION_MAX_QUEUE_DEPTH" int64 (IngestionConfig.MaxQueueDepth ∘ Config.Ingestion) 1000].

Definition ingestion_throttler_variables : list env_var := [
  EnvVar "INGESTION_THROTTLER_ENABLED" flag (ThrottlerConfig.Enabled ∘ IngestionConfig.Throttler ∘ Config.Ingestion) true;
  EnvVar "INGESTION_THROTTLER_SOFT_DEPTH" int64 (ThrottlerConfig.SoftDepthLimit ∘ IngestionConfig.Throttler ∘ Config.Ingestion) 100;
  EnvVar "INGESTION_THROTTLER_HARD_DEPTH" int64 (ThrottlerConfig.HardDepthLimit ∘ IngestionConfig.Throttler ∘ Config.Ingestion) 5000;
  EnvVar "INGESTION_THROTTLER_MAX_AGE" duration (ThrottlerConfig.MaxMessageAge ∘ IngestionConfig.Throttler ∘ Config.Ingestion) (30 * Second);
  EnvVar "INGESTION_THROTTLER_CRITICAL_AGE" duration (ThrottlerConfig.CriticalMessageAge ∘ IngestionConfig.Throttler ∘ Config.Ingestion) (60 * Second);
  EnvVar "INGESTION_THROTTLER_RATE_LIMIT_SCORE" float (ThrottlerConfig.RateLimitScore ∘ IngestionConfig.Throttler ∘ Config.Ingestion) (F64.of_Z 1);
  EnvVar "INGESTION_THROTTLER_CIRCUIT_SCORE" float (ThrottlerConfig.CircuitOpenScore ∘ IngestionConfig.Throttler ∘ Config.Ingestion) (F64.of_ratio 3 2);
  EnvVar "INGESTION_THROTTLER_UPDATE_INTERVAL" duration (ThrottlerConfig.MetricsUpdateInterval ∘ IngestionConfig.Throttler ∘ Config.Ingestion) (500 * Millisecond);
  EnvVar "INGESTION_THROTTLER_DRAIN_RATE" float (ThrottlerConfig.EstimatedDrainRate ∘ IngestionConfig.Throttler ∘ Config.Ingestion) (F64.of_Z 100);
  EnvVar "INGESTION_THROTTLER_MIN_RETRY" duration (ThrottlerConfig.MinRetryAfter ∘ IngestionConfig.Throttler ∘ Config.Ingestion) (1 * Second);
  EnvVar "INGESTION_THROTTLER_MAX_RETRY" duration (ThrottlerConfig.MaxRetryAfter ∘ IngestionConfig.Throttler ∘ Config.Ingestion) (30 * Second)].

Definition worker_variables : list env_var := [
  EnvVar "WORKER_CONCURRENCY" int (WorkerConfig.Concurrency ∘ Config.Worker) 2;
  EnvVar "WORKER_POLL_INTERVAL" duration (WorkerConfig.PollInterval ∘ Config.Worker) (100 * Millisecond);
  EnvVar "WORKER_BATCH_SIZE" int (WorkerConfig.BatchSize ∘ Config.Worker) 10;
  EnvVar "WORKER_PROCESSING_TIMEOUT" duration (WorkerConfig.ProcessingTimeout ∘ Config.Worker) (30 * Second);
  EnvVar "WORKER_MAX_RETRIES" int (WorkerConfig.JobMaxRetries ∘ Config.Worker) 3;
  EnvVar "WORKER_BACKOFF_MIN_DELAY" duration (WorkerConfig.BackoffMinDelay ∘ Config.Worker) (500 * Millisecond);
  EnvVar "WORKER_BACKOFF_MAX_DELAY" duration (WorkerConfig.BackoffMaxDelay ∘ Config.Worker) (5 * Second);
  EnvVar "WORKER_HEALTH_PORT" text (WorkerConfig.HealthPort ∘ Config.Worker) "8081";
  EnvVar "WORKER_RECLAIM_INTERVAL" duration (WorkerConfig.ReclaimInterval ∘ Config.Worker) (30 * Second);
  EnvVar "WORKER_RECLAIM_IDLE_TIME" duration (WorkerConfig.ReclaimIdleTime ∘ Config.Worker) (60 * Second);
  EnvVar "WORKER_RECLAIM_BATCH_SIZE" int (WorkerConfig.ReclaimBatchSize ∘ Config.Worker) 10;
  EnvVar "WORKER_DEDUP_TTL" duration (WorkerConfig.DedupTTL ∘ Config.Worker) (1 * Hour)].

Definition observability_variables : list env_var := [
  EnvVar "LOG_LEVEL" text (ObservabilityConfig.LogLevel ∘ Config.Observability) "info";
  EnvVar "LOG_FORMAT" text (ObservabilityConfig.LogFormat ∘ Config.Observability) "json";
  EnvVar "METRICS_ENABLED" flag (ObservabilityConfig.MetricsEnabled ∘ Config.Observability) true;
  EnvVar "METRICS_PORT" text (ObservabilityConfig.MetricsPort ∘ Config.Observability) "9090";
  EnvVar "TRACING_ENABLED" flag (ObservabilityConfig.TracingEnabled ∘ Config.Observability) false;
  EnvVar "TRACING_SAMPLE_RATE" float (ObservabilityConfig.TracingSampleRate ∘ Config.Observability) (F64.of_ratio 1 10);
  EnvVar "HEALTH_CHECK_TIMEOUT" duration (ObservabilityConfig.HealthCheckTimeout ∘ Config.Observability) (5 * Second)].

Definition throttler_variables : list env_var := [
  EnvVar "THROTTLER_ENABLED" flag (ThrottlerConfig.Enabled ∘ Config.Throttler) true;
  EnvVar "THROTTLER_SOFT_DEPTH_LIMIT" int64 (ThrottlerConfig.SoftDepthLimit ∘ Config.Throttler) 100;
  EnvVar "THROTTLER_HARD_DEPTH_LIMIT" int64 (ThrottlerConfig.HardDepthLimit ∘ Config.Throttler) 5000;
  EnvVar "THROTTLER_MAX_MESSAGE_AGE" duration (ThrottlerConfig.MaxMessageAge ∘ Config.Throttler) (30 * Second);
  EnvVar "THROTTLER_CRITICAL_MESSAGE_AGE" duration (ThrottlerConfig.CriticalMessageAge ∘ Config.Throttler) (60 * Second);
  EnvVar "THROTTLER_RATE_LIMIT_SCORE" float (ThrottlerConfig.RateLimitScore ∘ Config.Throttler) (F64.of_Z 1);
  EnvVar "THROTTLER_CIRCUIT_OPEN_SCORE" float (ThrottlerConfig.CircuitOpenScore ∘ Config.Throttler) (F64.of_ratio 3 2);
  EnvVar "THROTTLER_METRICS_UPDATE_INTERVAL" duration (ThrottlerConfig.MetricsUpdateInterval ∘ Config.Throttler) (500 * Millisecond);
  EnvVar "THROTTLER_ESTIMATED_DRAIN_RATE" float (ThrottlerConfig.EstimatedDrainRate ∘ Config.Throttler) (F64.of_Z 100);
  EnvVar "THROTTLER_MIN_RETRY_AFTER" duration (ThrottlerConfig.MinRetryAfter ∘ Config.Throttler) (1 * Second);
  EnvVar "THROTTLER_MAX_RETRY_AFTER" duration (ThrottlerConfig.MaxRetryAfter ∘ Config.Throttler) (30 * Second)].

Definition registry_variables : list env_var := [
  EnvVar "REGISTRY_HEARTBEAT_INTERVAL" duration (RegistryConfig.HeartbeatInterval ∘ Config.Registry) (10 * Second);
  EnvVar "REGISTRY_DEAD_THRESHOLD" duration (RegistryConfig.DeadThreshold ∘ Config.Registry) (30 * Second);
  EnvVar "REGISTRY_POLL_INTERVAL" duration (RegistryConfig.PollInterval ∘ Config.Registry) (15 * Second);
  EnvVar "REGISTRY_CONTROL_PLANE_POLL" duration (RegistryConfig.ControlPlanePoll ∘ Config.Registry) (15 * Second);
  EnvVar "REGISTRY_LOCK_TTL" duration (RegistryConfig.LockTTL ∘ Config.Registry) (60 * Second)].

Definition variables : list env_var :=
  EnvVar "ENVIRONMENT" text Config.Environment "development" ::
  server_variables ++ redis_variables ++ queue_variables ++ postgres_variables ++ ingestion_variables ++
  ingestion_throttler_variables ++ worker_variables ++ observability_variables ++ throttler_variables ++
  registry_variables.

(** ** The loader reads the table *)

(** One lemma per getter, in the form of a row of the table. *)
Section Getters.
Context (getenv : string -> string) (name : string).

Lemma GetEnv_row d : GetEnv getenv name d = match getenv name with EmptyString => d | s => default d (text s) end.
Proof. unfold GetEnv. case_bool_decide as He; [by rewrite He|]. by destruct (getenv name). Qed.

Lemma GetIntEnv_row d : GetIntEnv getenv name d = match getenv name with EmptyString => d | s => default d (int s) end.
Proof.
  unfold GetIntEnv, int. case_bool_decide as He; [by rewrite He|].
  destruct (getenv name) as [|a s]; [done|]. by destruct (Strconv.Atoi _).
Qed.

Lemma GetInt64Env_row d :
  GetInt64Env getenv name d = match getenv name with EmptyString => d | s => default d (int64 s) end.
Proof.
  unfold GetInt64Env, int64. case_bool_decide as He; [by rewrite He|].
  destruct (getenv name) as [|a s]; [done|]. by destruct (Strconv.ParseInt _).
Qed.

Lemma GetBoolEnv_row d : GetBoolEnv getenv name d = match getenv name with EmptyString => d | s => default d (flag s) end.
Proof. unfold GetBoolEnv. case_bool_decide as He; [by rewrite He|]. by destruct (getenv name). Qed.

Lemma GetFloat64Env_row d :
  GetFloat64Env getenv name d = match getenv name with EmptyString => d | s => default d (float s) end.
Proof. unfold GetFloat64Env. case_bool_decide as He; [by rewrite He|]. by destruct (getenv name). Qed.

Lemma GetDurationEnv_row d :
  GetDurationEnv getenv name d = match getenv name with EmptyString => d | s => default d (duration s) end.
Proof. unfold GetDurationEnv. case_bool_decide as He; [by rewrite He|]. by destruct (getenv name). Qed.

End Getters.

Ltac row := first [apply GetEnv_row | apply GetIntEnv_row | apply GetInt64Env_row | apply GetBoolEnv_row
  | apply GetFloat64Env_row | apply GetDurationEnv_row].

(** What the loader builds has every value of the table. *)
Lemma loadFrom_rows getenv : Forall (from_env getenv (loadFrom getenv GetDefaults)) variables.
Proof. repeat (apply Forall_cons; split; [row|]). apply Forall_nil, I. Qed.

(** The table leaves no field open. *)
Lemma rows_determine getenv c1 c2 :
  Forall (from_env getenv c1) variables -> Forall (from_env getenv c2) variables -> c1 = c2.
Proof.
  destruct c1 as [? [? ? []] [] [] [] [] [] [] [] []], c2 as [? [? ? []] [] [] [] [] [] [] [] []].
  intros Hc1 Hc2. unfold variables in *. cbn [app from_env] in *.
  unfold server_variables, redis_variables, queue_variables, postgres_variables, ingestion_variables,
    ingestion_throttler_variables, worker_variables, observability_variables, throttler_variables,
    registry_variables in *. cbn [app] in *.
  repeat (apply Forall_cons in Hc1 as [Hv1 Hc1]; apply Forall_cons in Hc2 as [Hv2 Hc2];
    pose proof (eq_trans Hv1 (eq_sym Hv2)) as Hv; clear Hv1 Hv2; cbn in Hv; subst).
  reflexivity.
Qed.

(** C19: the environment determines the configuration: exactly one configuration
    has, in every field, the value the table of variables gives it - the text of
    its variable read as its type, or its default when the variable is unset or its
    text is not one - and [Load] returns that configuration when it satisfies
    [valid_config] and fails, naming the configuration invalid, when it does not. *)
Theorem Load_correct getenv : exists c,
  Forall (from_env getenv c) variables /\ (forall c', Forall (from_env getenv c') variables -> c' = c) /\
  ((valid_config c /\ Load getenv = Ok c) \/
   (~ valid_config c /\ exists e, Load getenv = Err (Wrapf "invalid configuration" e))).
Proof.
  exists (loadFrom getenv GetDefaults). pose proof (loadFrom_rows getenv) as Hrows.
  split; [exact Hrows|]. split; [intros c' Hc'; by apply (rows_determine getenv)|].
  rewrite <-validation_errors_nil. unfold Load, Validate.
  destruct (validation_errors _); [by left|right]. split; [done|by eexists].
Qed.
