(* ===== verification/World.v ===== *)
(** * The outside world: Redis through go-redis, the clock, uuid, rand, contexts

    The services talk to code that is not in this repository.  A handler of
    the repository is a program [prog A]: a tree whose nodes are the calls it
    makes to the outside ([cmd], one constructor per call the code uses) and
    whose leaves are its results.  The outside itself is a parameter: a type of
    worlds with a function [exec] that answers one call.  What the services rely
    on is stated by the class [RedisLaws], in the terms of the Redis
    documentation (streams with consumer groups, string keys with a time to
    live, hashes).

    A program can be [run] to completion by one client, and it can be
    interleaved with other clients call by call (see [step]). *)
From S2P Require Import Prelude Utf8 GoStd GoFloat.

(** ** Data exchanged with Redis *)

(** [redis.XMessage]; the values of a stream entry are strings. *)
Record XMessage := mkMsg { ID : string; Values : gmap string string }.

(** [redis.XAddArgs] (the fields the code sets). *)
Record XAddArgs := mkXAddArgs {
  xa_Stream : string;
  xa_MaxLen : Z;
  xa_Approx : bool;
  xa_ID : string;
  xa_Values : gmap string string;
}.

(** [redis.XPending]: count, smallest and greatest pending ids. *)
Record XPendingInfo := mkPending { xp_Count : Z; xp_Lower : string; xp_Higher : string }.

#[global] Instance XMessage_eq_dec : EqDecision XMessage.
Proof. solve_decision. Defined.

(** ** Calls to the outside *)
Inductive cmd : Type -> Type :=
| XAdd (a : XAddArgs) : cmd (res error string)
| XAddPipe (l : list XAddArgs) : cmd (res error (list string))
| XLen (stream : string) : cmd (res error Z)
| XReadGroup (group consumer stream : string) (count block : Z)
    : cmd (res error (list (string * list XMessage)))
| XAck (stream group id : string) : cmd (res error Z)
| XAutoClaim (stream group consumer : string) (minIdle : Z) (start : string) (count : Z)
    : cmd (res error (list XMessage * string))
| XPending (stream group : string) : cmd (res error XPendingInfo)
| XRange (stream start stop : string) : cmd (res error (list XMessage))
| XDel (stream id : string) : cmd (res error Z)
| XGroupCreateMkStream (stream group start : string) : cmd (res error unit)
| SetNX (key value : string) (ttl : Z) : cmd (res error bool)
| Get (key : string) : cmd (res error string)
| Expire (key : string) (ttl : Z) : cmd (res error bool)
| Del (key : string) : cmd (res error Z)
| HSet (key : string) (fields : list (string * string)) : cmd (res error Z)
| HGetAll (key : string) : cmd (res error (gmap string string))
| Keys (pattern : string) : cmd (res error (list string))
| Ping : cmd (res error unit)
(** [time.Now()], in nanoseconds since the Unix epoch. *)
| Now : cmd Z
(** [uuid.New().String()] *)
| NewUUID : cmd string
(** [rand.Float64()] *)
| RandFloat64 : cmd float64
(** a non-blocking look at [ctx.Done()]: [Some ctx.Err()] when it is closed *)
| CtxDone : cmd (option error)
(** a [select] between a timer or a ticker and [ctx.Done()]: [None] when the time
    has come, [Some ctx.Err()] when the context is done first *)
| Sleep (d : Z) : cmd (option error)
(** a [select] between tickers of the given periods and [ctx.Done()]: the index
    of the ticker that fires, [None] when the context is done *)
| Select (periods : list Z) : cmd (option nat).

(** ** Programs *)
Inductive prog (A : Type) : Type :=
| Return (a : A)
| Call {B : Type} (c : cmd B) (k : B -> prog A)
| Panic (msg : string)
| OutOfFuel.
Arguments Return {A} a.
Arguments Call {A B} c k.
Arguments Panic {A} msg.
Arguments OutOfFuel {A}.

Fixpoint bind {A B} (p : prog A) (f : A -> prog B) : prog B :=
  match p with
  | Return a => f a
  | Call c k => Call c (fun b => bind (k b) f)
  | Panic m => Panic m
  | OutOfFuel => OutOfFuel
  end.

Definition call {B} (c : cmd B) : prog B := Call c Return.

Declare Scope prog_scope.
Delimit Scope prog_scope with prog.
Notation "x <- p ;; q" := (bind p (fun x => q))
  (at level 100, p at next level, right associativity) : prog_scope.
Notation "'let*' pat := p 'in' q" := (bind p (fun x => match x with pat => q end))
  (at level 10, pat pattern, q at level 200) : prog_scope.
Notation "p ;;; q" := (bind p (fun _ => q)) (at level 100, right associativity) : prog_scope.
#[global] Open Scope prog_scope.

(** The result of running a program: a value, a panic, or fuel exhausted. *)
Inductive outcome (A : Type) : Type :=
| Val (a : A)
| Panicked (msg : string)
| NoFuel.
Arguments Val {A} a.
Arguments Panicked {A} msg.
Arguments NoFuel {A}.

(** ** The Redis data model *)

(** An entry of a group's pending entries list: its consumer and the server
    time (milliseconds) of its last delivery. *)
Record PelEntry := mkPel { pe_consumer : string; pe_time : Z }.

(** A consumer group: the ids past its last-delivered id, oldest first, and
    its pending entries. *)
Record Group := mkGroup { g_new : list string; g_pel : gmap string PelEntry }.

Record Stream := mkStream { entries : list XMessage; groups : gmap string Group }.

(** String keys carry an absolute expiry time in server milliseconds. *)
Record Db := mkDb {
  streams : gmap string Stream;
  strs : gmap string (string * option Z);
  hashes : gmap string (gmap string string);
}.

Definition empty_stream : Stream := mkStream [] ∅.

Definition get_stream (d : Db) (s : string) : Stream := default empty_stream (streams d !! s).

Definition set_stream (s : string) (st : Stream) (d : Db) : Db :=
  mkDb (<[s := st]> (streams d)) (strs d) (hashes d).

Definition set_strs (f : gmap string (string * option Z)) (d : Db) : Db :=
  mkDb (streams d) f (hashes d).

Definition set_hashes (f : gmap string (gmap string string)) (d : Db) : Db :=
  mkDb (streams d) (strs d) f.

(** The group [g] of stream [s]. *)
Definition get_group (d : Db) (s g : string) : option Group := groups (get_stream d s) !! g.

Definition set_group (s g : string) (gr : Group) (d : Db) : Db :=
  let st := get_stream d s in
  set_stream s (mkStream (entries st) (<[g := gr]> (groups st))) d.

(** The pending entries of a group ([∅] when there is no such group). *)
Definition get_pel (d : Db) (s g : string) : gmap string PelEntry :=
  from_option g_pel ∅ (get_group d s g).

Definition set_pel (s g : string) (pel : gmap string PelEntry) (d : Db) : Db :=
  match get_group d s g with
  | None => d
  | Some gr => set_group s g (mkGroup (g_new gr) pel) d
  end.

(** A key that has not expired at server time [t]. *)
Definition live (d : Db) (t : Z) (k : string) : option string :=
  match strs d !! k with
  | Some (v, None) => Some v
  | Some (v, Some dl) => if t <? dl then Some v else None
  | None => None
  end.

(** Times to live as go-redis sends them: [SET ... PX] in milliseconds, at
    least one; [EXPIRE] in seconds, at least one; a zero duration of [SetNX]
    means no expiry. *)
Definition ttl_ms (d : Z) : Z := Z.max 1 (d / Time.Millisecond).

Definition expire_ms (d : Z) : Z := 1000 * Z.max 1 (d / Time.Second).

Definition deadline (now ttl : Z) : option Z :=
  if ttl =? 0 then None else Some (now + ttl_ms ttl).

(** *** Stream ids *)

(** ["ms-seq"], compared numerically. *)
Definition id_key (id : string) : Z * Z :=
  match Strings.Split id "-"%char with
  | [a] => (match Strconv.ParseUint a with Ok n => n | Err _ => 0 end, 0)
  | a :: b :: _ =>
      (match Strconv.ParseUint a with Ok n => n | Err _ => 0 end,
       match Strconv.ParseUint b with Ok n => n | Err _ => 0 end)
  | [] => (0, 0)
  end.

Definition id_leb (a b : string) : bool :=
  let '(a1, a2) := id_key a in
  let '(b1, b2) := id_key b in
  (a1 <? b1) || ((a1 =? b1) && (a2 <=? b2)).

Definition id_ltb (a b : string) : bool := id_leb a b && negb (id_leb b a).

(** An id given to a command: a sequence number left out is [seq].  [None] when
    Redis does not accept the text. *)
Definition parse_id (seq : Z) (s : string) : option (Z * Z) :=
  match Strings.Split s "-"%char with
  | [a] => match Strconv.ParseUint a with Ok n => Some (n, seq) | Err _ => None end
  | [a; b] =>
      match Strconv.ParseUint a, Strconv.ParseUint b with
      | Ok n, Ok m => Some (n, m)
      | _, _ => None
      end
  | _ => None
  end.

Definition max_uint64 : Z := 2 ^ 64 - 1.

(** A bound of [XRANGE] and whether it is exclusive: ["-"] and ["+"] are the
    smallest and the greatest id, and a bracket excludes the id that follows. *)
Definition parse_bound (seq : Z) (s : string) : option (bool * (Z * Z)) :=
  if bool_decide (s = "-") then Some (false, (0, 0))
  else if bool_decide (s = "+") then Some (false, (max_uint64, max_uint64))
  else match s with
       | String "(" (String c r) => pair true <$> parse_id seq (String c r)
       | _ => pair false <$> parse_id seq s
       end.

(** The order of ids as pairs of numbers, strict or not. *)
Definition key_below (strict : bool) (a b : Z * Z) : bool :=
  (a.1 <? b.1) || ((a.1 =? b.1) && (if strict then a.2 <? b.2 else a.2 <=? b.2)).

(** A sequence number left out is the smallest in a start, the greatest in a stop. *)
Definition in_range (start stop id : string) : bool :=
  match parse_bound 0 start, parse_bound max_uint64 stop with
  | Some (ex, a), Some (ey, b) => key_below ex a (id_key id) && key_below ey (id_key id) b
  | _, _ => false
  end.

(** An id as Redis gives it to an entry: both numbers. *)
Definition full_id (id : string) : bool :=
  match Strings.Split id "-"%char with
  | [a; b] => is_ok (Strconv.ParseUint a) && is_ok (Strconv.ParseUint b)
  | _ => false
  end.

Lemma id_leb_refl a : id_leb a a = true.
Proof. unfold id_leb. destruct (id_key a) as [x y]. lia. Qed.

Lemma id_key_nonneg a : 0 <= (id_key a).1 /\ 0 <= (id_key a).2.
Proof.
  assert (forall s, 0 <= match Strconv.ParseUint s with Ok n => n | Err _ => 0 end) as Hp.
  { intros s. unfold Strconv.ParseUint. destruct s as [|c s]; [done|].
    destruct (Strconv.parse_uint_loop 0 (String c s)) eqn:E; [|done].
    apply Strconv.parse_uint_loop_range in E; lia. }
  unfold id_key. destruct (Strings.Split a "-"%char) as [|x [|y l]]; simpl; auto with lia.
Qed.

(** The range of just one full id. *)
Lemma in_range_full id i : full_id id = true -> in_range id id i = id_leb id i && id_leb i id.
Proof.
  unfold full_id, in_range, parse_bound. intros Hf.
  assert (forall seq, parse_id seq id = Some (id_key id)) as Hp.
  { intros seq. unfold parse_id, id_key. destruct (Strings.Split id "-"%char) as [|a [|b []]]; try done.
    apply andb_true_iff in Hf as [Ha Hb]. by destruct (Strconv.ParseUint a), (Strconv.ParseUint b). }
  rewrite !bool_decide_false by (intros ->; vm_compute in Hf; discriminate).
  assert (forall seq, match id with String "(" (String c r) => pair true <$> parse_id seq (String c r)
    | _ => pair false <$> parse_id seq id end = Some (false, id_key id)) as Hb.
  { intros seq. rewrite Hp. destruct id as [|c [|c' r]]; try done.
    - by destruct c as [[] [] [] [] [] [] [] []].
    - destruct c as [[] [] [] [] [] [] [] []]; try done.
      exfalso. revert Hf. change (Strings.Split (String "(" (String c' r)) "-"%char) with
        (match Strings.Split (String c' r) "-"%char with p :: ps => String "(" p :: ps | [] => [String "(" ""] end).
      destruct (Strings.Split (String c' r) "-"%char) as [|p [|p' []]]; done. }
  rewrite !Hb. unfold key_below, id_leb. destruct (id_key id) as [x y], (id_key i) as [x' y']. done.
Qed.

Lemma id_leb_total a b : id_leb a b = true \/ id_leb b a = true.
Proof. unfold id_leb. destruct (id_key a), (id_key b). lia. Qed.

Lemma id_leb_trans a b c : id_leb a b = true -> id_leb b c = true -> id_leb a c = true.
Proof. unfold id_leb. destruct (id_key a), (id_key b), (id_key c). lia. Qed.

Lemma id_ltb_leb a b : id_ltb a b = true <-> id_leb b a = false.
Proof.
  unfold id_ltb. rewrite andb_true_iff, negb_true_iff. split; [naive_solver|]. intros Hb.
  destruct (id_leb_total a b) as [H|H]; [done|congruence].
Qed.

Lemma id_ltb_irrefl a : id_ltb a a = false.
Proof. unfold id_ltb. by rewrite id_leb_refl. Qed.

(** *** Effects of the commands on the data *)

(** [XADD]: the entry is appended, every group has one more undelivered id,
    then the [n] oldest entries are trimmed. *)
Definition xadd_db (a : XAddArgs) (id : string) (n : nat) (d : Db) : Db :=
  let st := get_stream d (xa_Stream a) in
  let all := entries st ++ [mkMsg id (xa_Values a)] in
  let gone := ID <$> take n all in
  let trim gr := mkGroup (filter (fun i => i ∉ gone) (g_new gr ++ [id])) (g_pel gr) in
  set_stream (xa_Stream a) (mkStream (drop n all) (trim <$> groups st)) d.

(** The id is past every id of the stream and of its groups. *)
Definition fresh_id (d : Db) (s id : string) : Prop :=
  full_id id = true /\
  (forall m, m ∈ entries (get_stream d s) -> id_ltb (ID m) id = true) /\
  forall g gr, groups (get_stream d s) !! g = Some gr -> forall i,
    i ∈ g_new gr \/ is_Some (g_pel gr !! i) -> id_ltb i id = true.

(** Trimming with [MAXLEN ~ n] removes the oldest entries and leaves at least
    [n]; a limit of zero (the flag is then not sent) removes nothing. *)
Definition xadd_ok (a : XAddArgs) (id : string) (d d' : Db) : Prop :=
  exists n, d' = xadd_db a id n d /\ fresh_id d (xa_Stream a) id /\
    (xa_MaxLen a <= 0 -> n = 0%nat) /\
    ((0 < n)%nat -> xa_MaxLen a <= Z.of_nat (length (entries (get_stream d' (xa_Stream a))))).

Definition xack_db (s g id : string) (d : Db) : Db := set_pel s g (delete id (get_pel d s g)) d.

(** Delivery of the oldest undelivered entry to a consumer. *)
Definition deliver_ok (s g c : string) (m : XMessage) (t : Z) (d d' : Db) : Prop :=
  exists gr rest, get_group d s g = Some gr /\ g_new gr = ID m :: rest /\
    m ∈ entries (get_stream d s) /\
    d' = set_group s g (mkGroup rest (<[ID m := mkPel c t]> (g_pel gr))) d.

Definition xdel_db (s id : string) (d : Db) : Db :=
  let st := get_stream d s in
  let keep gr := mkGroup (filter (fun i => i <> id) (g_new gr)) (g_pel gr) in
  set_stream s (mkStream (filter (fun m => ID m <> id) (entries st)) (keep <$> groups st)) d.

(** *** XAUTOCLAIM *)

Definition claim_one (c : string) (t : Z) (m : XMessage) (pel : gmap string PelEntry)
    : gmap string PelEntry := <[ID m := mkPel c t]> pel.

Definition claim_all (c : string) (t : Z) (ms : list XMessage) (pel : gmap string PelEntry)
    : gmap string PelEntry := foldr (claim_one c t) pel ms.

(** Entries of the pending list at or past a cursor. *)
Definition pel_from (cur : string) (pel : gmap string PelEntry) : gmap string PelEntry :=
  filter (fun p => id_leb cur p.1 = true) pel.

(** Idle for at least [minIdle] (a duration) at server time [t]. *)
Definition stale (minIdle t : Z) (pe : PelEntry) : Prop :=
  minIdle / Time.Millisecond <= t - pe_time pe.

(** One call of [XAUTOCLAIM] from cursor [start]: it hands out entries of the
    pending list at or past the cursor that are stale, at most [count] of them,
    and makes them pending for the caller; entries whose message is gone are
    dropped from the pending list.  The next cursor is ["0-0"] at the end of the
    list, else an id past everything scanned; every stale entry scanned whose
    message still exists was handed out. *)
Definition autoclaim_ok (s g c : string) (minIdle t : Z) (start : string) (count : Z)
    (ms : list XMessage) (next : string) (d d' : Db) : Prop :=
  exists gr (lost : gset string), get_group d s g = Some gr /\
    Z.of_nat (length ms) <= count /\ NoDup (ID <$> ms) /\
    (forall m, m ∈ ms -> m ∈ entries (get_stream d s) /\ id_leb start (ID m) = true /\
       (next = "0-0" \/ id_ltb (ID m) next = true) /\
       exists pe, g_pel gr !! ID m = Some pe /\ stale minIdle t pe) /\
    (forall id, id ∈ lost -> id ∉ (ID <$> entries (get_stream d s))) /\
    d' = set_pel s g (claim_all c t ms (filter (fun p => p.1 ∉ lost) (g_pel gr))) d /\
    (next = "0-0" \/ (id_leb start next = true /\
       (size (pel_from next (g_pel gr)) < size (pel_from start (g_pel gr)))%nat)) /\
    (forall m pe, m ∈ entries (get_stream d s) -> g_pel gr !! ID m = Some pe ->
       stale minIdle t pe -> id_leb start (ID m) = true ->
       (next = "0-0" \/ id_ltb (ID m) next = true) -> m ∈ ms).

(** *** Pipelines and group creation *)

(** A pipeline of [XADD]s that succeeded: each had its effect, in order. *)
Inductive pipe_ok : list XAddArgs -> list string -> Db -> Db -> Prop :=
| pipe_nil d : pipe_ok [] [] d d
| pipe_cons a l id ids d d1 d2 :
    xadd_ok a id d d1 -> pipe_ok l ids d1 d2 -> pipe_ok (a :: l) (id :: ids) d d2.

(** One that failed: any of its commands may have had its effect. *)
Inductive pipe_some : list XAddArgs -> Db -> Db -> Prop :=
| pipe_some_nil d : pipe_some [] d d
| pipe_some_skip a l d d' : pipe_some l d d' -> pipe_some (a :: l) d d'
| pipe_some_add a l id d d1 d2 : xadd_ok a id d d1 -> pipe_some l d1 d2 -> pipe_some (a :: l) d d2.

(** [XGROUP CREATE s g 0 MKSTREAM]: every entry of the stream is undelivered. *)
Definition xgroup_db (s g : string) (d : Db) : Db :=
  set_group s g (mkGroup (ID <$> entries (get_stream d s)) ∅) d.

(** *** Facts on the data *)

Lemma get_set_stream s st d : get_stream (set_stream s st d) s = st.
Proof. unfold get_stream, set_stream. simpl. by rewrite lookup_insert_eq. Qed.

Lemma get_set_stream_ne s s' st d : s <> s' -> get_stream (set_stream s st d) s' = get_stream d s'.
Proof. intros. unfold get_stream, set_stream. simpl. by rewrite lookup_insert_ne. Qed.

Lemma get_set_group s g gr d : get_group (set_group s g gr d) s g = Some gr.
Proof. unfold get_group, set_group. rewrite get_set_stream. apply lookup_insert_eq. Qed.

Lemma get_set_group_ne s g s' g' gr d :
  (s, g) <> (s', g') -> get_group (set_group s g gr d) s' g' = get_group d s' g'.
Proof.
  intros Hne. unfold get_group, set_group. destruct (decide (s = s')) as [->|Hs].
  - rewrite get_set_stream. simpl. rewrite lookup_insert_ne by congruence. done.
  - by rewrite get_set_stream_ne.
Qed.

Lemma entries_set_group s g gr d s' :
  entries (get_stream (set_group s g gr d) s') = entries (get_stream d s').
Proof.
  unfold set_group. destruct (decide (s = s')) as [->|Hs].
  - by rewrite get_set_stream.
  - by rewrite get_set_stream_ne.
Qed.

Lemma entries_set_pel s g pel d s' :
  entries (get_stream (set_pel s g pel d) s') = entries (get_stream d s').
Proof. unfold set_pel. destruct (get_group d s g); [apply entries_set_group|done]. Qed.

Lemma get_set_pel s g pel d gr :
  get_group d s g = Some gr -> get_group (set_pel s g pel d) s g = Some (mkGroup (g_new gr) pel).
Proof. intros Hg. unfold set_pel. rewrite Hg. apply get_set_group. Qed.

Lemma pel_set_pel s g pel d gr :
  get_group d s g = Some gr -> get_pel (set_pel s g pel d) s g = pel.
Proof. intros Hg. unfold get_pel. by rewrite (get_set_pel _ _ _ _ gr). Qed.

(** An acknowledged entry is no longer pending; everything else is. *)
Lemma pel_xack s g id d : get_pel (xack_db s g id d) s g = delete id (get_pel d s g).
Proof.
  unfold xack_db. destruct (get_group d s g) as [gr|] eqn:Hg.
  - by rewrite (pel_set_pel _ _ _ _ gr).
  - unfold set_pel, get_pel. rewrite Hg. simpl. rewrite Hg. simpl. by rewrite delete_empty.
Qed.

Lemma entries_xack s g id d s' :
  entries (get_stream (xack_db s g id d) s') = entries (get_stream d s').
Proof. apply entries_set_pel. Qed.

Section XaddFacts.
Context (a : XAddArgs) (id : string) (d d' : Db).
Hypothesis Hx : xadd_ok a id d d'.

Lemma xadd_other s : s <> xa_Stream a -> get_stream d' s = get_stream d s.
Proof using Hx. destruct Hx as (n & -> & _). intros. unfold xadd_db. by rewrite get_set_stream_ne. Qed.

Lemma xadd_strs : strs d' = strs d.
Proof using Hx. by destruct Hx as (n & -> & _). Qed.

Lemma xadd_hashes : hashes d' = hashes d.
Proof using Hx. by destruct Hx as (n & -> & _). Qed.

(** The entries after: the old ones and the new one, less some of the oldest. *)
Lemma xadd_entries : exists n,
  entries (get_stream d' (xa_Stream a)) =
    drop n (entries (get_stream d (xa_Stream a)) ++ [mkMsg id (xa_Values a)]) /\
  (n <= length (entries (get_stream d (xa_Stream a))))%nat /\ (xa_MaxLen a <= 0 -> n = 0%nat).
Proof using Hx.
  destruct Hx as (n & -> & _ & H0 & Hlen). exists n. unfold xadd_db in *. rewrite get_set_stream in *.
  split; [done|]. split; [|done]. destruct (decide (n = 0)%nat); [lia|].
  destruct (Z_le_gt_dec (xa_MaxLen a) 0) as [Hm|Hm]; [specialize (H0 Hm); lia|].
  specialize (Hlen ltac:(lia)). simpl in Hlen. rewrite length_drop, length_app in Hlen. simpl in Hlen. lia.
Qed.

(** The new entry is the last one. *)
Lemma xadd_last : exists l, entries (get_stream d' (xa_Stream a)) = l ++ [mkMsg id (xa_Values a)].
Proof using Hx.
  destruct xadd_entries as (n & -> & Hn & _). rewrite drop_app_le by done. eauto.
Qed.

(** It is undelivered for every group of the stream, and no group is lost. *)
Lemma xadd_undelivered g :
  match get_group d' (xa_Stream a) g with
  | Some gr => id ∈ g_new gr
  | None => get_group d (xa_Stream a) g = None
  end.
Proof using Hx.
  destruct xadd_entries as (n & He & Hn & _). destruct Hx as (n' & Hd & (_ & Hf & _) & _).
  unfold get_group. rewrite Hd in He |- *. unfold xadd_db in *. rewrite get_set_stream in *. simpl in *.
  rewrite lookup_fmap. destruct (groups (get_stream d (xa_Stream a)) !! g) as [gr|]; simpl; [|done].
  apply list_elem_of_filter. split; [|set_solver].
  intros (m & -> & Hm)%list_elem_of_fmap.
  assert (length (drop n' (entries (get_stream d (xa_Stream a)) ++ [mkMsg (ID m) (xa_Values a)])) <> 0%nat) as Hlen.
  { rewrite He, length_drop, length_app. simpl. lia. }
  rewrite length_drop, length_app in Hlen. simpl in Hlen. rewrite take_app_le in Hm by lia.
  apply (subseteq_take n') in Hm. apply Hf in Hm. by rewrite id_ltb_irrefl in Hm.
Qed.

Lemma xadd_in : mkMsg id (xa_Values a) ∈ entries (get_stream d' (xa_Stream a)).
Proof using Hx. destruct xadd_last as [l ->]. set_solver. Qed.

(** Its id is past those of the entries it joins. *)
Lemma xadd_fresh m : m ∈ entries (get_stream d (xa_Stream a)) -> id_ltb (ID m) id = true.
Proof using Hx. destruct Hx as (n & _ & (_ & Hf & _) & _). apply Hf. Qed.

(** A range of just its id is the entry alone. *)
Lemma xadd_range :
  filter (fun m => in_range id id (ID m) = true) (entries (get_stream d' (xa_Stream a))) =
    [mkMsg id (xa_Values a)].
Proof using Hx.
  assert (full_id id = true) as Hfull by (destruct Hx as (n & _ & [Hf _] & _); exact Hf).
  destruct xadd_entries as (n & -> & Hn & _). rewrite drop_app_le, filter_app by done.
  assert (filter (fun m => in_range id id (ID m) = true)
            (drop n (entries (get_stream d (xa_Stream a)))) = []) as ->.
  { apply list_filter_none. intros m Hm%subseteq_drop. apply xadd_fresh in Hm.
    rewrite in_range_full by done. unfold id_ltb in Hm. apply andb_true_iff in Hm as [_ Hm].
    apply negb_true_iff in Hm. by rewrite Hm. }
  rewrite filter_cons, decide_True; [done|]. simpl. by rewrite in_range_full, id_leb_refl.
Qed.

(** With no limit nothing is lost. *)
Lemma xadd_untrimmed : xa_MaxLen a <= 0 ->
  entries (get_stream d' (xa_Stream a)) =
    entries (get_stream d (xa_Stream a)) ++ [mkMsg id (xa_Values a)].
Proof using Hx. intros Hm. destruct xadd_entries as (n & -> & _ & H0). by rewrite (H0 Hm). Qed.

(** Pending entries are untouched. *)
Lemma xadd_pel s g : get_pel d' s g = get_pel d s g.
Proof using Hx.
  destruct Hx as (n & -> & _). unfold xadd_db, get_pel, get_group.
  destruct (decide (xa_Stream a = s)) as [<-|Hne].
  - rewrite get_set_stream. simpl. rewrite lookup_fmap.
    by destruct (groups (get_stream d (xa_Stream a)) !! g).
  - by rewrite get_set_stream_ne.
Qed.

End XaddFacts.

(** The entries a pipeline of appends adds to stream [s], in order. *)
Definition added (s : string) (l : list XAddArgs) (ids : list string) : list XMessage :=
  omap (fun p => if bool_decide (xa_Stream p.1 = s) then Some (mkMsg p.2 (xa_Values p.1)) else None)
    (zip l ids).

Lemma pipe_length l ids d d' : pipe_ok l ids d d' -> length ids = length l.
Proof. induction 1; simpl; lia. Qed.

Lemma pipe_entries l ids d d' s : pipe_ok l ids d d' ->
  exists n, entries (get_stream d' s) = drop n (entries (get_stream d s) ++ added s l ids).
Proof.
  induction 1 as [d|a l id ids d d1 d2 Hx _ [n2 IH]].
  { exists 0%nat. unfold added. simpl. by rewrite app_nil_r. }
  rewrite IH. unfold added. simpl. case_bool_decide as Hs.
  - subst s. destruct (xadd_entries _ _ _ _ Hx) as (n1 & -> & Hn & _). exists (n1 + n2)%nat.
    rewrite <-drop_drop. f_equal. fold (added (xa_Stream a) l ids).
    rewrite <-drop_app_le by (rewrite length_app; simpl; lia). by rewrite <-app_assoc.
  - exists n2. by rewrite (xadd_other _ _ _ _ Hx).
Qed.

(** A pattern without the special characters of [KEYS] matches only itself. *)
Fixpoint literal (p : string) : bool :=
  match p with
  | "" => true
  | String c p' =>
      negb (Ascii.eqb c "*" || Ascii.eqb c "?" || Ascii.eqb c "[" || Ascii.eqb c "]" || Ascii.eqb c "092") && literal p'
  end.

(** ** Worlds *)

(** A world answers calls; [db] is the data Redis holds, [server_ms] its clock. *)
Class World (W : Type) := {
  exec : forall {B : Type}, cmd B -> W -> W * B;
  db : W -> Db;
  server_ms : W -> Z;
}.

Section Run.
Context {W : Type} `{World W}.

(** One client alone. *)
Fixpoint run {A} (p : prog A) (w : W) : W * outcome A :=
  match p with
  | Return a => (w, Val a)
  | Call c k => let '(w', b) := exec c w in run (k b) w'
  | Panic m => (w, Panicked m)
  | OutOfFuel => (w, NoFuel)
  end.

(** One call of a client; [None] for a client that has nothing left to do. *)
Definition step {A} (p : prog A) (w : W) : option (W * prog A) :=
  match p with
  | Call c k => let '(w', b) := exec c w in Some (w', k b)
  | _ => None
  end.

Lemma run_bind {A B} (p : prog A) (f : A -> prog B) w :
  run (bind p f) w =
    match run p w with
    | (w', Val a) => run (f a) w'
    | (w', Panicked m) => (w', Panicked m)
    | (w', NoFuel) => (w', NoFuel)
    end.
Proof.
  revert w. induction p as [a|B' c k IH|m|]; intros w; simpl; try done.
  destruct (exec c w) as [w' b]. apply IH.
Qed.

End Run.

(** *** What the services rely on

    One execution of a command by the server at its time [t]: how the answer
    and the data after relate to the data before.  A rejected command changes
    nothing. *)
Definition server_ok {B} (c : cmd B) (t : Z) (d : Db) : B -> Db -> Prop :=
  match c in cmd B return B -> Db -> Prop with
  | XAdd a => fun r d' =>
      match r with Ok id => xadd_ok a id d d' | Err e => d' = d /\ Errors.foreign e = true end
  | XAddPipe l => fun r d' => match r with Ok ids => pipe_ok l ids d d' | Err _ => pipe_some l d d' end
  | XLen s => fun r d' => d' = d /\
      forall n, r = Ok n -> n = Z.of_nat (length (entries (get_stream d s)))
  | XReadGroup g c s count _ => fun r d' => count = 1 ->
      match r with
      | Err _ => d' = d
      | Ok l => (d' = d /\ (l = [] \/ l = [(s, [])])) \/
                exists m, l = [(s, [m])] /\ deliver_ok s g c m t d d'
      end
  | XAck s g id => fun r d' => match r with Ok _ => d' = xack_db s g id d | Err _ => d' = d end
  | XAutoClaim s g c mi start n => fun r d' =>
      match r with
      | Ok (ms, next) => autoclaim_ok s g c mi t start n ms next d d'
      | Err e => d' = d /\ e <> Errors.RedisNil
      end
  | XPending s g => fun r d' => d' = d /\
      match r with
      | Ok info => is_Some (get_group d s g) /\
          xp_Count info = Z.of_nat (size (get_pel d s g)) /\
          (xp_Count info = 0 -> xp_Lower info = "") /\
          (0 < xp_Count info -> is_Some (get_pel d s g !! xp_Lower info) /\
             forall id, is_Some (get_pel d s g !! id) -> id_leb (xp_Lower info) id = true)
      | Err e => e <> Errors.RedisNil /\ (Errors.Error e = "NOGROUP" -> get_group d s g = None)
      end
  | XRange s a b => fun r d' => d' = d /\
      forall ms, r = Ok ms -> is_Some (parse_bound 0 a) /\ is_Some (parse_bound max_uint64 b) /\
        ms = filter (fun m => in_range a b (ID m) = true) (entries (get_stream d s))
  | XDel s id => fun r d' =>
      match r with
      | Ok n => d' = xdel_db s id d /\
          n = Z.of_nat (length (filter (fun m => ID m = id) (entries (get_stream d s))))
      | Err _ => d' = d
      end
  | XGroupCreateMkStream s g start => fun r d' => start = "0" ->
      match r with
      | Ok _ => get_group d s g = None /\ d' = xgroup_db s g d
      | Err e => d' = d /\ (Strings.Contains (Errors.Error e) "BUSYGROUP" = true ->
                             is_Some (get_group d s g))
      end
  | SetNX k v ttl => fun r d' =>
      match r with
      | Ok true => live d t k = None /\ d' = set_strs (<[k := (v, deadline t ttl)]> (strs d)) d
      | Ok false => (is_Some (live d t k) \/ is_Some (streams d !! k) \/ is_Some (hashes d !! k)) /\ d' = d
      | Err _ => d' = d
      end
  | Get k => fun r d' => d' = d /\
      (forall v, r = Ok v -> live d t k = Some v) /\ (r = Err Errors.RedisNil -> live d t k = None)
  | Expire k ttl => fun r d' => streams d !! k = None -> hashes d !! k = None ->
      match r, live d t k with
      | Ok b, Some v => b = true /\
          d' = set_strs (<[k := (v, Some (t + expire_ms ttl))]> (strs d)) d
      | Ok b, None => b = false /\ d' = d
      | Err _, _ => d' = d
      end
  | Del k => fun r d' =>
      match r with
      | Ok _ => d' = mkDb (delete k (streams d)) (delete k (strs d)) (delete k (hashes d))
      | Err _ => d' = d
      end
  | HSet k fs => fun r d' =>
      match r with
      | Ok _ => d' = set_hashes (<[k := list_to_map fs ∪ default ∅ (hashes d !! k)]> (hashes d)) d
      | Err _ => d' = d
      end
  | HGetAll k => fun r d' => d' = d /\ forall m, r = Ok m -> m = default ∅ (hashes d !! k)
  | Keys pat => fun r d' => d' = d /\
      forall p l, pat = p +:+ "*" -> literal p = true -> r = Ok l -> NoDup l /\ forall k, k ∈ l <->
        String.prefix p k = true /\
        (k ∈ dom (streams d) ∪ dom (hashes d) \/ is_Some (live d t k))
  | Ping => fun _ d' => d' = d
  | Now => fun ns d' => d' = d /\ is_int64 ns
  | NewUUID => fun u d' => d' = d /\ valid_utf8 u = true
  | RandFloat64 => fun _ d' => d' = d
  | CtxDone => fun _ d' => d' = d
  | Sleep _ => fun _ d' => d' = d
  | Select _ => fun _ d' => d' = d
  end.

(** go-redis repeats a command whose connection broke: executions between
    server times [t] and [t'] whose answers never arrived. *)
Inductive lost {B} (c : cmd B) : Z -> Z -> Db -> Db -> Prop :=
| lost_none t t' d : t <= t' -> lost c t t' d d
| lost_one t t1 t' d b d1 d' :
    t <= t1 -> server_ok c t1 d b d1 -> lost c t1 t' d1 d' -> lost c t t' d d'.

(** A call: executions whose answers were lost, if any, and the one that
    answered ([server_ms w'] is the server time of that one); or no answer at
    all, and an error. *)
Class RedisLaws (W : Type) `{World W} : Prop := {
  law_exec : forall B (c : cmd B) w w' b, exec c w = (w', b) -> exists d1,
    lost c (server_ms w) (server_ms w') (db w) d1 /\ server_ok c (server_ms w') d1 b (db w');
}.

(** *** The laws, command by command *)

(** An entry appended any number of times (each with an id of its own). *)
Definition appends (a : XAddArgs) : Db -> Db -> Prop := rtc (fun d d' => exists id, xadd_ok a id d d').

(** What appending an entry, once or more, can change: new entries with these
    values in this stream, fewer of its old ones when there is a limit, and
    nothing else. *)
Record grown (a : XAddArgs) (d d' : Db) : Prop := {
  grown_other : forall s, s <> xa_Stream a -> get_stream d' s = get_stream d s;
  grown_strs : strs d' = strs d;
  grown_hashes : hashes d' = hashes d;
  grown_pel : forall s g, get_pel d' s g = get_pel d s g;
  grown_new : forall m, m ∈ entries (get_stream d' (xa_Stream a)) ->
    m ∈ entries (get_stream d (xa_Stream a)) \/ Values m = xa_Values a;
  grown_old : xa_MaxLen a <= 0 ->
    entries (get_stream d (xa_Stream a)) `prefix_of` entries (get_stream d' (xa_Stream a));
  grown_groups : forall g, is_Some (get_group d (xa_Stream a) g) -> is_Some (get_group d' (xa_Stream a) g);
}.

#[global] Instance grown_refl a : Reflexive (grown a).
Proof. intros d. constructor; auto. Qed.

#[global] Instance grown_trans a : Transitive (grown a).
Proof.
  intros d1 d2 d3 [Ho1 Hs1 Hh1 Hp1 Hn1 Hl1 Hg1] [Ho2 Hs2 Hh2 Hp2 Hn2 Hl2 Hg2]. constructor.
  - intros s Hs. rewrite Ho2; auto.
  - congruence.
  - congruence.
  - intros s g. rewrite Hp2; auto.
  - intros m Hm. destruct (Hn2 m Hm); auto.
  - intros Hm. transitivity (entries (get_stream d2 (xa_Stream a))); auto.
  - auto.
Qed.

Lemma xadd_grown a id d d' : xadd_ok a id d d' -> grown a d d'.
Proof.
  intros Hx. constructor.
  - by apply (xadd_other _ _ _ _ Hx).
  - by apply (xadd_strs _ _ _ _ Hx).
  - by apply (xadd_hashes _ _ _ _ Hx).
  - by apply (xadd_pel _ _ _ _ Hx).
  - intros m. destruct (xadd_entries _ _ _ _ Hx) as (n & -> & _ & _). intros Hm.
    apply (subseteq_drop n) in Hm. apply elem_of_app in Hm as [Hm|Hm]; [by left|right].
    apply list_elem_of_singleton in Hm as ->. done.
  - intros Hm. rewrite (xadd_untrimmed _ _ _ _ Hx Hm). by eexists.
  - intros g [gr Hg]. pose proof (xadd_undelivered _ _ _ _ Hx g) as Hu. case_match; [eauto|congruence].
Qed.

Lemma appends_grown a d d' : appends a d d' -> grown a d d'.
Proof. induction 1 as [|d d1 d2 [id Hx] _ IH]; [done|]. etrans; [by eapply xadd_grown|done]. Qed.

(** Messages delivered to consumer [c] whose delivery it did not see. *)
Definition deliveries (s g c : string) : Db -> Db -> Prop :=
  rtc (fun d d' => exists m t, deliver_ok s g c m t d d').

Lemma lost_time {B} (c : cmd B) t t' d d' : lost c t t' d d' -> t <= t'.
Proof. induction 1; lia. Qed.

(** Executions of a command that each preserve a transitive relation. *)
Lemma lost_rel {B} (c : cmd B) (R : Db -> Db -> Prop) `{!Reflexive R, !Transitive R} t t' d d' :
  (forall t1 b d d', t <= t1 -> server_ok c t1 d b d' -> R d d') -> lost c t t' d d' -> R d d'.
Proof.
  intros Hc Hl. assert (forall t0, t <= t0 -> lost c t0 t' d d' -> R d d') as H; [|eapply H; eauto; lia].
  clear Hl. intros t0 Ht Hl. revert Ht. induction Hl as [|t0 t1 t' d b d1 d' H01 Hs _ IH]; intros Ht; [reflexivity|].
  transitivity d1; [by eapply Hc; [|exact Hs]; lia|]. apply IH. lia.
Qed.

Lemma lost_read {B} (c : cmd B) t t' d d' :
  (forall t b d d', server_ok c t d b d' -> d' = d) -> lost c t t' d d' -> d' = d.
Proof. intros Hc Hl. symmetry. eapply (lost_rel c eq); [|exact Hl]. intros. symmetry. eauto. Qed.

(** Commands with an idempotent effect [f]. *)
Lemma lost_idem {B} (c : cmd B) (f : Db -> Db) t t' d d' :
  (forall d, f (f d) = f d) -> (forall t b d d', server_ok c t d b d' -> d' = d \/ d' = f d) ->
  lost c t t' d d' -> d' = d \/ d' = f d.
Proof.
  intros Hf Hc. induction 1 as [|t t1 t' d b d1 d' Ht Hs Hl IH]; [by left|].
  apply Hc in Hs as [->| ->]; [done|]. destruct IH as [->| ->]; rewrite ?Hf; by right.
Qed.

Lemma set_pel_set_pel s g p q d : set_pel s g p (set_pel s g q d) = set_pel s g p d.
Proof.
  unfold set_pel at 1 3. destruct (get_group d s g) as [gr|] eqn:Hg.
  - rewrite (get_set_pel _ _ _ _ gr) by done. unfold set_pel. rewrite Hg. unfold set_group.
    rewrite get_set_stream. unfold set_stream. simpl. f_equal.
    rewrite insert_insert_eq. by rewrite insert_insert_eq.
  - unfold set_pel. by rewrite !Hg.
Qed.

Lemma xack_idem s g id d : xack_db s g id (xack_db s g id d) = xack_db s g id d.
Proof.
  unfold xack_db at 1. rewrite pel_xack, delete_delete_eq. unfold xack_db. apply set_pel_set_pel.
Qed.

Lemma get_stream_xdel s id d :
  get_stream (xdel_db s id d) s =
    mkStream (filter (fun m => ID m <> id) (entries (get_stream d s)))
      ((fun gr => mkGroup (filter (fun i => i <> id) (g_new gr)) (g_pel gr)) <$> groups (get_stream d s)).
Proof. unfold xdel_db. by rewrite get_set_stream. Qed.

Lemma filter_idem {A} (P : A -> Prop) `{forall x, Decision (P x)} (l : list A) :
  filter P (filter P l) = filter P l.
Proof.
  induction l as [|x l IH]; [done|]. rewrite !filter_cons. case_decide; [|done].
  rewrite filter_cons, decide_True by done. by rewrite IH.
Qed.

Lemma xdel_idem s id d : xdel_db s id (xdel_db s id d) = xdel_db s id d.
Proof.
  unfold xdel_db at 1. rewrite get_stream_xdel. cbn [entries groups].
  rewrite filter_idem, <-map_fmap_compose.
  unfold xdel_db, set_stream. simpl. rewrite insert_insert_eq. do 3 f_equal.
  apply map_fmap_ext. intros g gr _. unfold compose. simpl. by rewrite filter_idem.
Qed.

Lemma live_later d t t' k : t <= t' -> live d t k = None -> live d t' k = None.
Proof.
  unfold live. intros Ht. destruct (strs d !! k) as [[v [dl|]]|]; [|done..].
  destruct (Z.ltb_spec t dl); [done|]. intros _. by rewrite (proj2 (Z.ltb_ge _ _)) by lia.
Qed.

(** The effect of a [SetNX] executed at time [t]. *)
Definition setnx_db (k v : string) (ttl t : Z) (d : Db) : Db :=
  set_strs (<[k := (v, deadline t ttl)]> (strs d)) d.

Lemma setnx_setnx k v ttl t t' d : setnx_db k v ttl t (setnx_db k v ttl t' d) = setnx_db k v ttl t d.
Proof. unfold setnx_db, set_strs. simpl. by rewrite insert_insert_eq. Qed.

(** Lost executions of a [SetNX]: nothing, or one that took effect. *)
Lemma lost_setnx k v ttl t t' d d' :
  lost (SetNX k v ttl) t t' d d' ->
  d' = d \/ exists t1, t <= t1 <= t' /\ live d t1 k = None /\ d' = setnx_db k v ttl t1 d.
Proof.
  induction 1 as [|t t1 t' d b d1 d' Ht Hs Hl IH]; [by left|].
  pose proof (lost_time _ _ _ _ _ Hl) as Ht'.
  destruct b as [[]|e]; simpl in Hs.
  - destruct Hs as [Hlv ->]. fold (setnx_db k v ttl t1 d) in *.
    destruct IH as [->|(t2 & Ht2 & _ & ->)]; right.
    + exists t1. split; [lia|done].
    + exists t2. split; [lia|]. split; [by eapply live_later; [|exact Hlv]; lia|]. apply setnx_setnx.
  - destruct Hs as [_ ->]. destruct IH as [->|(t2 & ? & ? & ->)]; [by left|right].
    exists t2. split; [lia|done].
  - subst d1. destruct IH as [->|(t2 & ? & ? & ->)]; [by left|right]. exists t2. split; [lia|done].
Qed.

Section Laws.
Context {W : Type} `{RedisLaws W}.

Lemma law_time B (c : cmd B) w w' b : exec c w = (w', b) -> server_ms w <= server_ms w'.
Proof. intros E. apply law_exec in E as (d1 & Hl & _). by apply lost_time in Hl. Qed.

(** Calls that only read. *)
Definition is_read {B} (c : cmd B) : bool :=
  match c with
  | XLen _ | XPending _ _ | XRange _ _ _ | Get _ | HGetAll _ | Keys _ | Ping
  | Now | NewUUID | RandFloat64 | CtxDone | Sleep _ | Select _ => true
  | _ => false
  end.

Lemma server_read {B} (c : cmd B) t b d d' : is_read c = true -> server_ok c t d b d' -> d' = d.
Proof. destruct c; simpl; intros Hr Hs; try done; naive_solver. Qed.

Lemma law_read B (c : cmd B) w w' b :
  is_read c = true -> exec c w = (w', b) ->
  db w' = db w /\ server_ok c (server_ms w') (db w) b (db w).
Proof.
  intros Hr E. apply law_exec in E as (d1 & Hl & Hs).
  apply lost_read in Hl as ->; [|intros; by eapply server_read].
  pose proof (server_read _ _ _ _ _ Hr Hs) as Hd. by rewrite Hd in Hs.
Qed.

Lemma lost_xadd a t t' d d' : lost (XAdd a) t t' d d' -> appends a d d'.
Proof.
  apply (lost_rel _ (appends a)). intros t0 [id|e] e0 e1 _ Hs; simpl in Hs.
  - apply rtc_once. eauto.
  - by destruct Hs as [-> _].
Qed.

Lemma law_xadd a w w' id : exec (XAdd a) w = (w', Ok id) ->
  exists d1, appends a (db w) d1 /\ xadd_ok a id d1 (db w').
Proof. intros E. apply law_exec in E as (d1 & Hl & Hs). apply lost_xadd in Hl. eauto. Qed.

Lemma law_xadd_err a w w' e : exec (XAdd a) w = (w', Err e) -> appends a (db w) (db w').
Proof.
  intros E. apply law_exec in E as (d1 & Hl & Hs & _). apply lost_xadd in Hl. simpl in Hs. by subst.
Qed.

Lemma law_xadd_foreign a w w' e : exec (XAdd a) w = (w', Err e) -> Errors.foreign e = true.
Proof. intros E. by apply law_exec in E as (d1 & _ & _ & ?). Qed.

Lemma lost_xaddpipe l t t' d d' : lost (XAddPipe l) t t' d d' -> rtc (pipe_some l) d d'.
Proof.
  apply (lost_rel _ (rtc (pipe_some l))). intros t0 [ids|e] e0 e1 _ Hs; simpl in Hs; apply rtc_once; [|done].
  clear -Hs. induction Hs; [constructor|by eapply pipe_some_add].
Qed.

Lemma law_xaddpipe l w w' ids : exec (XAddPipe l) w = (w', Ok ids) ->
  exists d1, rtc (pipe_some l) (db w) d1 /\ pipe_ok l ids d1 (db w').
Proof. intros E. apply law_exec in E as (d1 & Hl & Hs). apply lost_xaddpipe in Hl. eauto. Qed.

Lemma law_xaddpipe_err l w w' e : exec (XAddPipe l) w = (w', Err e) -> rtc (pipe_some l) (db w) (db w').
Proof.
  intros E. apply law_exec in E as (d1 & Hl & Hs). apply lost_xaddpipe in Hl.
  by eapply rtc_r; [exact Hl|].
Qed.

Lemma server_xack s g id t b d d' :
  server_ok (XAck s g id) t d b d' -> d' = d \/ d' = xack_db s g id d.
Proof. destruct b; simpl; auto. Qed.

Lemma law_xack s g id w w' n : exec (XAck s g id) w = (w', Ok n) -> db w' = xack_db s g id (db w).
Proof.
  intros E. apply law_exec in E as (d1 & Hl & Hs). simpl in Hs. rewrite Hs.
  eapply (lost_idem _ (xack_db s g id)) in Hl as [->| ->];
    [done|apply xack_idem|apply xack_idem|apply server_xack].
Qed.

Lemma law_xack_err s g id w w' e : exec (XAck s g id) w = (w', Err e) ->
  db w' = db w \/ db w' = xack_db s g id (db w).
Proof.
  intros E. apply law_exec in E as (d1 & Hl & Hs). simpl in Hs. rewrite Hs.
  by eapply (lost_idem _ (xack_db s g id)) in Hl; [|apply xack_idem|apply server_xack].
Qed.

Lemma server_xdel s id t b d d' : server_ok (XDel s id) t d b d' -> d' = d \/ d' = xdel_db s id d.
Proof. destruct b; simpl; naive_solver. Qed.

(** The count is zero when nothing with this id was there, or when an earlier
    execution had already removed it. *)
Lemma law_xdel s id w w' n : exec (XDel s id) w = (w', Ok n) ->
  db w' = xdel_db s id (db w) /\
  (n <> 0 -> n = Z.of_nat (length (filter (fun m => ID m = id) (entries (get_stream (db w) s))))).
Proof.
  intros E. apply law_exec in E as (d1 & Hl & [Hd ->]). rewrite Hd.
  eapply (lost_idem _ (xdel_db s id)) in Hl as [->| ->];
    [done| |apply xdel_idem|apply server_xdel].
  split; [apply xdel_idem|]. rewrite get_stream_xdel. cbn [entries]. intros [].
  destruct (filter _ _) as [|m l] eqn:Ef; [done|].
  assert (m ∈ m :: l) as Hm by constructor. rewrite <-Ef in Hm.
  apply list_elem_of_filter in Hm as [Heq Hm]. by apply list_elem_of_filter in Hm as [? _].
Qed.

Lemma law_xdel_err s id w w' e : exec (XDel s id) w = (w', Err e) ->
  db w' = db w \/ db w' = xdel_db s id (db w).
Proof.
  intros E. apply law_exec in E as (d1 & Hl & Hs). simpl in Hs. rewrite Hs.
  by eapply (lost_idem _ (xdel_db s id)) in Hl; [|apply xdel_idem|apply server_xdel].
Qed.

Lemma lost_xread g c s blk t t' d d' :
  lost (XReadGroup g c s 1 blk) t t' d d' -> deliveries s g c d d'.
Proof.
  apply (lost_rel _ (deliveries s g c)). intros t0 r e0 e1 _ Hs. specialize (Hs eq_refl).
  destruct r as [l|e]; [|by subst]. destruct Hs as [[-> _]|(m & _ & Hd)]; [done|].
  apply rtc_once. eauto.
Qed.

Lemma law_xread g c s blk w w' r : exec (XReadGroup g c s 1 blk) w = (w', Ok r) ->
  exists d1, deliveries s g c (db w) d1 /\
    ((db w' = d1 /\ (r = [] \/ r = [(s, [])])) \/
     exists m, r = [(s, [m])] /\ deliver_ok s g c m (server_ms w') d1 (db w')).
Proof.
  intros E. apply law_exec in E as (d1 & Hl & Hs). apply lost_xread in Hl.
  specialize (Hs eq_refl). simpl in Hs. eauto.
Qed.

Lemma law_xread_err g c s blk w w' e : exec (XReadGroup g c s 1 blk) w = (w', Err e) ->
  deliveries s g c (db w) (db w').
Proof.
  intros E. apply law_exec in E as (d1 & Hl & Hs). apply lost_xread in Hl.
  specialize (Hs eq_refl). simpl in Hs. by rewrite Hs.
Qed.

(** [true]: this call set the key, which was free. *)
Lemma law_setnx_true k v ttl w w' : exec (SetNX k v ttl) w = (w', Ok true) ->
  live (db w) (server_ms w') k = None /\ db w' = setnx_db k v ttl (server_ms w') (db w).
Proof.
  intros E. apply law_exec in E as (d1 & Hl & Hlv & Hd). rewrite Hd. fold (setnx_db k v ttl (server_ms w') d1).
  apply lost_setnx in Hl as [->|(t1 & Ht & Hn & ->)]; [done|].
  split; [by eapply live_later; [|exact Hn]; lia|apply setnx_setnx].
Qed.

(** [false]: the key was there already, or an execution of this very call,
    whose answer was lost, had set it. *)
Lemma law_setnx_false k v ttl w w' : exec (SetNX k v ttl) w = (w', Ok false) ->
  (db w' = db w /\ (is_Some (live (db w) (server_ms w') k) \/
     is_Some (streams (db w) !! k) \/ is_Some (hashes (db w) !! k))) \/
  exists t1, server_ms w <= t1 <= server_ms w' /\ live (db w) t1 k = None /\
    db w' = setnx_db k v ttl t1 (db w).
Proof.
  intros E. apply law_exec in E as (d1 & Hl & Hlv & Hd). rewrite Hd.
  apply lost_setnx in Hl as [->|Hl]; [by left|by right].
Qed.

Lemma law_setnx_err k v ttl w w' e : exec (SetNX k v ttl) w = (w', Err e) ->
  db w' = db w \/ exists t1, server_ms w <= t1 <= server_ms w' /\ live (db w) t1 k = None /\
    db w' = setnx_db k v ttl t1 (db w).
Proof.
  intros E. apply law_exec in E as (d1 & Hl & Hd). simpl in Hd. rewrite Hd. by apply lost_setnx in Hl.
Qed.

Lemma server_hset k fs t b d d' : server_ok (HSet k fs) t d b d' ->
  d' = d \/ d' = set_hashes (<[k := list_to_map fs ∪ default ∅ (hashes d !! k)]> (hashes d)) d.
Proof. destruct b; simpl; auto. Qed.

Lemma hset_idem k fs d :
  let f d := set_hashes (<[k := list_to_map fs ∪ default ∅ (hashes d !! k)]> (hashes d)) d in f (f d) = f d.
Proof.
  unfold set_hashes. simpl. rewrite lookup_insert_eq, insert_insert_eq. simpl.
  do 2 f_equal. by rewrite (assoc_L (∪)), map_union_idemp.
Qed.

Lemma law_hset k fs w w' n : exec (HSet k fs) w = (w', Ok n) ->
  db w' = set_hashes (<[k := list_to_map fs ∪ default ∅ (hashes (db w) !! k)]> (hashes (db w))) (db w).
Proof.
  intros E. apply law_exec in E as (d1 & Hl & Hs). simpl in Hs. rewrite Hs.
  eapply (lost_idem _ (fun d => set_hashes (<[k := list_to_map fs ∪ default ∅ (hashes d !! k)]> (hashes d)) d))
    in Hl as [->| ->]; [done|apply hset_idem|apply hset_idem|apply server_hset].
Qed.

Definition del_db (k : string) (d : Db) : Db :=
  mkDb (delete k (streams d)) (delete k (strs d)) (delete k (hashes d)).

Lemma law_del k w w' n : exec (Del k) w = (w', Ok n) -> db w' = del_db k (db w).
Proof.
  intros E. apply law_exec in E as (d1 & Hl & Hs). simpl in Hs. rewrite Hs. fold (del_db k d1).
  assert (forall d, del_db k (del_db k d) = del_db k d) as Hidem.
  { intros d. unfold del_db. simpl. by rewrite !delete_delete_eq. }
  eapply (lost_idem _ (del_db k)) in Hl as [->| ->]; [done|apply Hidem|apply Hidem|].
  intros t b d d' Hb. destruct b; simpl in Hb; auto.
Qed.

Lemma law_hgetall k w w' r : exec (HGetAll k) w = (w', r) -> db w' = db w /\
  forall m, r = Ok m -> m = default ∅ (hashes (db w) !! k).
Proof. intros E. by apply law_read in E as [? [_ ?]]. Qed.

Lemma law_now w w' t : exec Now w = (w', t) -> db w' = db w /\ is_int64 t.
Proof. intros E. by apply law_read in E as [? [_ ?]]. Qed.

Lemma law_uuid w w' u : exec NewUUID w = (w', u) -> db w' = db w /\ valid_utf8 u = true.
Proof. intros E. by apply law_read in E as [? [_ ?]]. Qed.

Lemma law_xlen s w w' r : exec (XLen s) w = (w', r) -> db w' = db w /\
  forall n, r = Ok n -> n = Z.of_nat (length (entries (get_stream (db w) s))).
Proof. intros E. by apply law_read in E as [? [_ ?]]. Qed.

Lemma law_xrange s a b w w' r : exec (XRange s a b) w = (w', r) -> db w' = db w /\
  forall ms, r = Ok ms -> ms = filter (fun m => in_range a b (ID m) = true) (entries (get_stream (db w) s)).
Proof. intros E. apply law_read in E as [? [_ Hr]]; [|done]. split; [done|]. intros ms Hms. by apply Hr. Qed.

(** An append that returned: whatever was appended, the last entry is the one
    with the returned id. *)
(** The entry [id] of an [XADD] has just been added: it is the last of the
    stream, and every group of the stream has it to deliver. *)
Definition appended (a : XAddArgs) (id : string) (d : Db) : Prop :=
  (exists l, entries (get_stream d (xa_Stream a)) = l ++ [mkMsg id (xa_Values a)]) /\
  forall g gr, get_group d (xa_Stream a) g = Some gr -> id ∈ g_new gr.

Lemma law_xadd_last a w w' id : exec (XAdd a) w = (w', Ok id) ->
  grown a (db w) (db w') /\ appended a id (db w').
Proof.
  intros E. apply law_xadd in E as (d1 & Ha & Hx). split.
  - etrans; [by apply appends_grown|by eapply xadd_grown].
  - split; [apply (xadd_last _ _ _ _ Hx)|]. intros g gr Hg.
    pose proof (xadd_undelivered _ _ _ _ Hx g) as Hu. by rewrite Hg in Hu.
Qed.

End Laws.
