(* ===== verification/Trace.v ===== *)
(** * Programs call by call

    A goroutine of a service is a program that other goroutines, and other
    processes, may interrupt between two of its calls.  What it did so far is the
    list of its calls with their answers ([event]); [path p l q] says that the
    calls [l] lead from the program [p] to what is left of it, [q].  Safety
    properties of a program in every interleaving are properties of its paths. *)
From S2P Require Import Prelude GoStd World.

(** A call and its answer. *)
Inductive event :=
| Ev {B : Type} (c : cmd B) (b : B).

(** One call of a client with what it leaves in the record of the client. *)
Definition stepe {W} `{World W} {A} (p : prog A) (w : W) : option (W * event * prog A) :=
  match p with
  | Call c k => let '(w', b) := exec c w in Some (w', Ev c b, k b)
  | _ => None
  end.

(** [path p l q]: after the calls [l], whatever the world answers, [q] is what is
    left of [p]. *)
Fixpoint path {A} (p : prog A) (l : list event) (q : prog A) : Prop :=
  match p with
  | Call c k => (l = [] /\ q = p) \/ exists b l', l = Ev c b :: l' /\ path (k b) l' q
  | _ => l = [] /\ q = p
  end.

(** Every call the program can make satisfies [P]. *)
Fixpoint all_calls (P : forall B, cmd B -> Prop) {A} (p : prog A) : Prop :=
  match p with
  | Call c k => P _ c /\ forall b, all_calls P (k b)
  | _ => True
  end.

(** Whatever the answers, a result of the program satisfies [P]. *)
Fixpoint returns {A} (P : A -> Prop) (p : prog A) : Prop :=
  match p with
  | Return a => P a
  | Call c k => forall b, returns P (k b)
  | _ => True
  end.

(** The program always returns: it does not panic or run out of fuel. *)
Fixpoint total {A} (p : prog A) : Prop :=
  match p with
  | Return _ => True
  | Call c k => forall b, total (k b)
  | _ => False
  end.

(** The message an acknowledgement names. *)
Definition ack_of {B} (c : cmd B) : option (string * string * string) :=
  match c with XAck s g id => Some (s, g, id) | _ => None end.

(** The acknowledgement a program is about to make. *)
Definition next_ack {A} (p : prog A) : option (string * string * string) :=
  match p with Call c _ => ack_of c | _ => None end.

(** The entry an event added, as its stream and its id. *)
Definition added_by (e : event) : option (string * string) :=
  match e with
  | Ev c b =>
      match c in cmd B return B -> option (string * string) with
      | XAdd a => fun r => match r with Ok id => Some (xa_Stream a, id) | Err _ => None end
      | _ => fun _ => None
      end b
  end.

(** The time an event read from the client's clock. *)
Definition clock_of (e : event) : option Z :=
  match e with
  | Ev c b => match c in cmd B return B -> option Z with Now => Some | _ => fun _ => None end b
  end.

(** The clock readings of a run, in order. *)
Definition clocks (l : list event) : list Z := omap clock_of l.

(** The messages an event handed to a consumer. *)
Definition read_messages (e : event) : list XMessage :=
  match e with
  | Ev c b =>
      match c in cmd B return B -> list XMessage with
      | XReadGroup _ _ _ _ _ => fun r => match r with Ok l => l ≫= snd | Err _ => [] end
      | XAutoClaim _ _ _ _ _ _ => fun r => match r with Ok (ms, _) => ms | Err _ => [] end
      | _ => fun _ => []
      end b
  end.

(** A command of the given kind was answered with an error. *)
Definition failed_xlen (l : list event) : Prop := exists s e, Ev (XLen s) (Err e) ∈ l.

Definition failed_xpending (l : list event) : Prop := exists s g e, Ev (XPending s g) (Err e) ∈ l.

Lemma failed_xlen_mono l l' : l ⊆ l' -> failed_xlen l -> failed_xlen l'.
Proof. intros Hl (s & e & Hin). exists s, e. by apply Hl. Qed.

Lemma failed_xpending_mono l l' : l ⊆ l' -> failed_xpending l -> failed_xpending l'.
Proof. intros Hl (s & g & e & Hin). exists s, g, e. by apply Hl. Qed.

Lemma clocks_app l l' : clocks (l ++ l') = clocks l ++ clocks l'.
Proof. apply omap_app. Qed.

Lemma clocks_snoc l t : clocks (l ++ [Ev Now t]) = clocks l ++ [t].
Proof. apply clocks_app. Qed.

(** A call that reads messages reads them from the stream [s]. *)
Definition reads_from (s : string) {B} (c : cmd B) : Prop :=
  match c with
  | XReadGroup _ _ s' _ _ | XAutoClaim s' _ _ _ _ _ => s' = s
  | _ => True
  end.

(** Whatever the answers, a result satisfies [P] of it and the messages that were
    handed out, those in [rd] before. *)
Fixpoint returns_log {A} (P : list XMessage -> A -> Prop) (rd : list XMessage) (p : prog A) : Prop :=
  match p with
  | Return a => P rd a
  | Call c k => forall b, returns_log P (rd ++ read_messages (Ev c b)) (k b)
  | _ => True
  end.

(** Calls that neither remove anything from a stream or a group nor replace one:
    all of the worker's calls but its acknowledgements. *)
Definition tame {B} (c : cmd B) : bool :=
  match c with
  | XAck _ _ _ | XDel _ _ | Del _ | Expire _ _ | XGroupCreateMkStream _ _ _ => false
  | XReadGroup _ _ _ count _ => count =? 1
  | _ => true
  end.

Definition never_acks {A} (p : prog A) : Prop := all_calls (fun _ c => tame c = true) p.

(** ** Lemmas on paths *)

Lemma path_refl {A} (p : prog A) : path p [] p.
Proof. destruct p; simpl; auto. Qed.

Lemma path_snoc {A} (p : prog A) l {B} (c : cmd B) k b :
  path p l (Call c k) -> path p (l ++ [Ev c b]) (k b).
Proof.
  revert l. induction p as [a|B' c' k' IH|m|]; intros l Hp; cbn [path] in Hp; try (by destruct Hp).
  destruct Hp as [[-> Heq]|(b' & l' & -> & Hp)].
  - rewrite <-Heq. right. exists b, []. split; [done|apply path_refl].
  - right. exists b', (l' ++ [Ev c b]). split; [done|]. by apply IH.
Qed.

(** A path of a sequence ends in its first part or in its second. *)
Lemma path_bind {A B} (p : prog A) (f : A -> prog B) l q :
  path (bind p f) l q ->
  (exists p', path p l p' /\ q = bind p' f /\ forall a, p' <> Return a) \/
  (exists a l1 l2, l = l1 ++ l2 /\ path p l1 (Return a) /\ path (f a) l2 q).
Proof.
  revert l. induction p as [a|B' c k IH|m|]; intros l; cbn [bind path].
  - intros Hp. right. exists a, [], l. auto.
  - intros [[-> ->]|(b & l' & -> & Hp)].
    + left. exists (Call c k). split; [by left|]. done.
    + destruct (IH b l' Hp) as [(p' & Hp' & -> & Hn)|(a & l1 & l2 & -> & H1 & H2)].
      * left. exists p'. split; [right; eauto|]. done.
      * right. exists a, (Ev c b :: l1), l2. split; [done|]. split; [right; eauto|done].
  - intros [-> ->]. left. by exists (Panic m).
  - intros [-> ->]. left. by exists OutOfFuel.
Qed.

Section Steps.
Context {W : Type} `{World W}.

(** The calls of a run, with their answers. *)
Fixpoint trace {A} (p : prog A) (w : W) : list event :=
  match p with
  | Call c k => let '(w', b) := exec c w in Ev c b :: trace (k b) w'
  | _ => []
  end.

Lemma trace_bind {A B} (p : prog A) (f : A -> prog B) (w : W) :
  trace (bind p f) w = trace p w ++ match run p w with (w', Val a) => trace (f a) w' | _ => [] end.
Proof.
  revert w. induction p as [a|B' c k IH|m|]; intros w; simpl; try done.
  destruct (exec c w) as [w' b]. simpl. by rewrite IH.
Qed.

(** A run is one of the paths of its program. *)
Lemma trace_path {A} (p : prog A) (w w' : W) a : run p w = (w', Val a) -> path p (trace p w) (Return a).
Proof.
  revert w. induction p as [x|B' c k IH|m|]; intros w; simpl; try done; [by intros [= _ ->]|].
  destruct (exec c w) as [w1 b]. intros Hr. right. eauto.
Qed.

Lemma clocks_none {A} (p : prog A) (w : W) :
  all_calls (fun B c => forall b, clock_of (Ev c b) = None) p -> clocks (trace p w) = [].
Proof.
  revert w. induction p as [a|B c k IH|m|]; intros w; cbn [all_calls trace]; try done. intros [Hc Hk].
  destruct (exec c w) as [w' b]. unfold clocks in *. change (omap clock_of (Ev c b :: trace (k b) w')) with
    (match clock_of (Ev c b) with Some t => t :: omap clock_of (trace (k b) w') | None => omap clock_of (trace (k b) w') end).
  rewrite Hc. by apply IH.
Qed.

Lemma stepe_step {A} (p q : prog A) (w w' : W) e : stepe p w = Some (w', e, q) -> step p w = Some (w', q).
Proof. destruct p as [|B c k| |]; simpl; try done. destruct (exec c w). naive_solver. Qed.

Lemma step_call {A B} (c : cmd B) (k : B -> prog A) (w w' : W) b :
  exec c w = (w', b) -> step (Call c k) w = Some (w', k b).
Proof. intros E. simpl. by rewrite E. Qed.

Lemma stepe_call {A B} (c : cmd B) (k : B -> prog A) (w w' : W) b :
  exec c w = (w', b) -> stepe (Call c k) w = Some (w', Ev c b, k b).
Proof. intros E. simpl. by rewrite E. Qed.

(** One step of a client is one more call on its path. *)
Lemma path_stepe {A} (p q q' : prog A) l (w w' : W) e :
  path p l q -> stepe q w = Some (w', e, q') -> path p (l ++ [e]) q'.
Proof.
  intros Hp. destruct q as [|B c k| |]; simpl; try done. destruct (exec c w) as [w1 b].
  intros [= <- <- <-]. by apply path_snoc.
Qed.

Lemma all_calls_step P {A} (p p' : prog A) (w w' : W) :
  all_calls P p -> step p w = Some (w', p') -> all_calls P p'.
Proof.
  destruct p as [|B c k| |]; simpl; try done. intros [_ Hk]. destruct (exec c w). intros [= _ <-]. apply Hk.
Qed.

Lemma returns_step {A} P (p p' : prog A) (w w' : W) :
  returns P p -> step p w = Some (w', p') -> returns P p'.
Proof.
  destruct p as [|B c k| |]; simpl; try done. intros Hk. destruct (exec c w). intros [= _ <-]. apply Hk.
Qed.

Lemma returns_log_step {A} P rd (p p' : prog A) (w w' : W) e :
  returns_log P rd p -> stepe p w = Some (w', e, p') -> returns_log P (rd ++ read_messages e) p'.
Proof.
  destruct p as [|B c k| |]; simpl; try done. intros Hk. destruct (exec c w). intros [= _ <- <-]. apply Hk.
Qed.

Lemma stepe_exec {A} (p p' : prog A) (w w' : W) e P :
  all_calls P p -> stepe p w = Some (w', e, p') -> exists B (c : cmd B) b, e = Ev c b /\ exec c w = (w', b) /\ P B c.
Proof.
  destruct p as [|B c k| |]; simpl; try done. intros [Hc _]. destruct (exec c w) as [w1 b] eqn:E.
  intros [= <- <- _]. by exists B, c, b.
Qed.

Lemma total_step {A} (p p' : prog A) (w w' : W) : total p -> step p w = Some (w', p') -> total p'.
Proof. destruct p as [|B c k| |]; simpl; try done. destruct (exec c w). intros Hk [= _ <-]. apply Hk. Qed.

(** The call of a step. *)
Lemma step_exec {A} (p p' : prog A) (w w' : W) P :
  all_calls P p -> step p w = Some (w', p') -> exists B (c : cmd B) b, exec c w = (w', b) /\ P B c.
Proof.
  destruct p as [|B c k| |]; simpl; try done. intros [Hc _]. destruct (exec c w) as [w1 b] eqn:E.
  intros [= <- _]. by exists B, c, b.
Qed.

End Steps.

Lemma all_calls_bind P {A B} (p : prog A) (f : A -> prog B) :
  all_calls P p -> (forall a, all_calls P (f a)) -> all_calls P (bind p f).
Proof. intros Hp Hf. induction p as [a|B' c k IH|m|]; simpl in *; naive_solver. Qed.

Lemma all_calls_impl (P Q : forall B, cmd B -> Prop) {A} (p : prog A) :
  (forall B c, P B c -> Q B c) -> all_calls P p -> all_calls Q p.
Proof. intros HPQ. induction p as [a|B' c k IH|m|]; simpl; naive_solver. Qed.

Lemma all_calls_and (P Q : forall B, cmd B -> Prop) {A} (p : prog A) :
  all_calls P p -> all_calls Q p -> all_calls (fun B c => P B c /\ Q B c) p.
Proof. induction p as [a|B c k IH|m|]; simpl; naive_solver. Qed.

Lemma returns_log_bind {A B} P Q rd (p : prog A) (f : A -> prog B) :
  returns_log P rd p -> (forall rd a, P rd a -> returns_log Q rd (f a)) -> returns_log Q rd (bind p f).
Proof. intros Hp Hf. revert rd Hp. induction p as [a|B' c k IH|m|]; simpl; auto. Qed.

(** What holds with the messages of [rd] holds with more. *)
Lemma returns_log_mono {A} P rd rd' (p : prog A) :
  (forall r r' a, r ⊆ r' -> P r a -> P r' a) -> rd ⊆ rd' -> returns_log P rd p -> returns_log P rd' p.
Proof.
  intros HP. revert rd rd'. induction p as [a|B c k IH|m|]; simpl; intros rd rd' Hsub; try done; [by apply HP|].
  intros Hk b. eapply IH; [|apply Hk]. intros x. rewrite !elem_of_app. naive_solver.
Qed.

Lemma all_calls_path P {A} (p q : prog A) l : all_calls P p -> path p l q -> all_calls P q.
Proof.
  revert l. induction p as [a|B c k IH|m|]; intros l; cbn [path all_calls].
  2: { intros [Hc Hk] [[-> ->]|(b & l' & -> & Hp)]; [done|]. by eapply IH. }
  all: intros _ [_ ->]; done.
Qed.

Lemma returns_bind {A B} (P : A -> Prop) (Q : B -> Prop) (p : prog A) (f : A -> prog B) :
  returns P p -> (forall a, P a -> returns Q (f a)) -> returns Q (bind p f).
Proof. intros Hp Hf. induction p as [a|B' c k IH|m|]; simpl in *; auto. Qed.

Lemma returns_path {A} (P : A -> Prop) (p : prog A) : (forall a l, path p l (Return a) -> P a) -> returns P p.
Proof.
  induction p as [a|B c k IH|m|]; cbn [path returns]; intros Hp; try done.
  - by apply (Hp a []).
  - intros b. apply IH. intros a l Hl. apply (Hp a (Ev c b :: l)). right. eauto.
Qed.

Lemma total_bind {A B} (p : prog A) (f : A -> prog B) :
  total p -> (forall a, total (f a)) -> total (bind p f).
Proof. intros Hp Hf. induction p as [a|B' c k IH|m|]; simpl in *; auto. Qed.

(** ** Acknowledgements on a path *)

Lemma never_acks_next {A} (p : prog A) : never_acks p -> next_ack p = None.
Proof. destruct p as [|B c k| |]; try done. intros [Hc _]. by destruct c. Qed.

Lemma never_acks_path {A} (p q : prog A) l : never_acks p -> path p l q -> never_acks q /\ next_ack q = None.
Proof. intros Hp Hq. split; [|apply never_acks_next]; by eapply all_calls_path. Qed.

(** The acknowledgement of a sequence whose first part makes none. *)
Lemma path_bind_ack {A B} (p : prog A) (f : A -> prog B) l q ack :
  never_acks p -> path (bind p f) l q -> next_ack q = Some ack ->
  exists a l1 l2, l = l1 ++ l2 /\ path p l1 (Return a) /\ path (f a) l2 q.
Proof.
  intros Hn Hp Hq. apply path_bind in Hp as [(p' & Hp' & -> & Hr)|?]; [|done].
  apply (never_acks_path _ _ _ Hn) in Hp' as [_ Hp']. exfalso.
  destruct p' as [a|B' c k|m|]; simpl in *; [by destruct (Hr a)|congruence|done|done].
Qed.

(** The acknowledgement of a sequence whose second part makes none. *)
Lemma path_bind_head {A B} (p : prog A) (f : A -> prog B) l q ack :
  (forall a, never_acks (f a)) -> path (bind p f) l q -> next_ack q = Some ack ->
  exists p', path p l p' /\ next_ack p' = Some ack.
Proof.
  intros Hf Hp Hq. apply path_bind in Hp as [(p' & Hp' & -> & Hr)|(a & l1 & l2 & _ & _ & Hp)].
  - exists p'. split; [done|]. destruct p' as [a|B' c k|m|]; simpl in *; [by destruct (Hr a)|done|done|done].
  - apply (never_acks_path _ _ _ (Hf a)) in Hp as [_ Hn]. congruence.
Qed.
