(* ===== verification/RefWorld.v ===== *)
(** * A reference world

    An executable world that satisfies [RedisLaws]: the data model of [World.v]
    operated literally, with a script of failures to inject.  It shows that the
    laws can hold together, and it is what the examples and the witnesses of
    the theorems run on. *)
From S2P Require Import Prelude Utf8 GoStd GoFloat World.

(** The reference world: data, server clock (milliseconds), client clock
    (nanoseconds), counters for stream ids and uuids, the random numbers to
    hand out, the state of the context, and a script that says what becomes of
    each coming Redis command: it is executed and answered ([Pass]), it fails
    without being executed ([TimesOut]), it is executed but its answer is lost
    ([LostAnswer]), or its first answer is lost and the client repeats it
    ([Repeat]). *)
Inductive fate := Pass | TimesOut | LostAnswer | Repeat.

Record RW := mkRW {
  r_db : Db;
  r_ms : Z;
  r_ns : Z;
  r_seq : Z;
  r_uuid : Z;
  r_rand : list float64;
  r_ctx : option error;
  r_fail : list fate;
}.

Definition with_db (d : Db) (w : RW) : RW :=
  mkRW d (r_ms w) (r_ns w) (r_seq w) (r_uuid w) (r_rand w) (r_ctx w) (r_fail w).

Definition tick_seq (w : RW) : RW :=
  mkRW (r_db w) (r_ms w) (r_ns w) (r_seq w + 1) (r_uuid w) (r_rand w) (r_ctx w) (r_fail w).

Definition pop_fail (w : RW) : RW :=
  mkRW (r_db w) (r_ms w) (r_ns w) (r_seq w) (r_uuid w) (r_rand w) (r_ctx w) (tail (r_fail w)).

(** Ids of the stream and of its groups. *)
Definition used_ids (d : Db) (s : string) : gset string :=
  let st := get_stream d s in
  list_to_set (ID <$> entries st) ∪
  map_fold (fun _ gr acc => list_to_set (g_new gr) ∪ dom (g_pel gr) ∪ acc) ∅ (groups st).

Definition next_id (w : RW) : string := Strconv.Itoa (r_ms w) +:+ "-" +:+ Strconv.Itoa (r_seq w).

(** How many entries [MAXLEN] trims here: exactly down to the limit. *)
Definition trim_count (a : XAddArgs) (d : Db) : nat :=
  if 0 <? xa_MaxLen a
  then (S (length (entries (get_stream d (xa_Stream a)))) - Z.to_nat (xa_MaxLen a))%nat
  else 0%nat.

(** [None]: the server refuses, because its clock is behind the stream's last id. *)
Definition ref_xadd (a : XAddArgs) (w : RW) : option (RW * string) :=
  let id := next_id w in
  if full_id id && bool_decide (forall i, i ∈ used_ids (r_db w) (xa_Stream a) -> id_ltb i id = true)
  then Some (tick_seq (with_db (xadd_db a id (trim_count a (r_db w)) (r_db w)) w), id)
  else None.

Definition id_error : error :=
  Errors.RedisError "ERR The ID specified in XADD is equal or smaller than the target stream top item".

Fixpoint ref_pipe (l : list XAddArgs) (w : RW) : RW * res error (list string) :=
  match l with
  | [] => (w, Ok [])
  | a :: l' =>
      match ref_xadd a w with
      | None => (w, Err id_error)
      | Some (w1, id) =>
          match ref_pipe l' w1 with
          | (w2, Ok ids) => (w2, Ok (id :: ids))
          | (w2, Err e) => (w2, Err e)
          end
      end
  end.

Definition ref_xread (g c s : string) (w : RW) : RW * res error (list (string * list XMessage)) :=
  match get_group (r_db w) s g with
  | None => (w, Err (Errors.RedisError "NOGROUP No such key or consumer group"))
  | Some gr =>
      match g_new gr with
      | [] => (w, Err Errors.RedisNil)
      | id :: rest =>
          match list_find (fun m => ID m = id) (entries (get_stream (r_db w) s)) with
          | None => (w, Err Errors.RedisNil)
          | Some (_, m) =>
              (with_db (set_group s g (mkGroup rest (<[ID m := mkPel c (r_ms w)]> (g_pel gr))) (r_db w)) w,
               Ok [(s, [m])])
          end
      end
  end.

(** Insertion sort of messages by id. *)
Fixpoint insert_by_id (m : XMessage) (l : list XMessage) : list XMessage :=
  match l with
  | [] => [m]
  | x :: l' => if id_leb (ID m) (ID x) then m :: l else x :: insert_by_id m l'
  end.

Definition sort_by_id (l : list XMessage) : list XMessage := foldr insert_by_id [] l.

Definition claimable (minIdle t : Z) (start : string) (pel : gmap string PelEntry) (m : XMessage) : Prop :=
  id_leb start (ID m) = true /\
  match pel !! ID m with Some pe => stale minIdle t pe | None => False end.

#[global] Instance claimable_dec minIdle t start pel m : Decision (claimable minIdle t start pel m).
Proof. unfold claimable, stale. destruct (pel !! ID m); apply _. Defined.

(** The conditions of [autoclaim_ok] on a candidate answer. *)
Definition autoclaim_check (minIdle t : Z) (start : string) (count : Z) (ms : list XMessage)
    (next : string) (es : list XMessage) (pel : gmap string PelEntry) : Prop :=
  Z.of_nat (length ms) <= count /\ NoDup (ID <$> ms) /\
  Forall (fun m => m ∈ es /\ claimable minIdle t start pel m /\
    (next = "0-0" \/ id_ltb (ID m) next = true)) ms /\
  (next = "0-0" \/ (id_leb start next = true /\ (size (pel_from next pel) < size (pel_from start pel))%nat)) /\
  Forall (fun m => claimable minIdle t start pel m ->
    (next = "0-0" \/ id_ltb (ID m) next = true) -> m ∈ ms) es.

#[global] Instance autoclaim_check_dec minIdle t start count ms next es pel :
  Decision (autoclaim_check minIdle t start count ms next es pel).
Proof. unfold autoclaim_check. apply _. Defined.

Definition ref_autoclaim (s g c : string) (minIdle : Z) (start : string) (count : Z) (w : RW)
    : RW * res error (list XMessage * string) :=
  match get_group (r_db w) s g with
  | None => (w, Err (Errors.RedisError "NOGROUP No such key or consumer group"))
  | Some gr =>
      let es := entries (get_stream (r_db w) s) in
      let all := sort_by_id (filter (claimable minIdle (r_ms w) start (g_pel gr)) es) in
      let ms := take (Z.to_nat count) all in
      let next := match drop (Z.to_nat count) all with [] => "0-0" | m :: _ => ID m end in
      if bool_decide (autoclaim_check minIdle (r_ms w) start count ms next es (g_pel gr)) then
        (with_db (set_pel s g (claim_all c (r_ms w) ms (g_pel gr)) (r_db w)) w, Ok (ms, next))
      else (w, Err (Errors.RedisError "ERR internal"))
  end.

Definition min_id (ids : list string) : string :=
  match ids with
  | [] => ""
  | i :: l => foldr (fun a b => if id_leb a b then a else b) i l
  end.

(** [KEYS p*]: the prefix of a pattern that ends in a star. *)
Fixpoint strip_star (s : string) : option string :=
  match s with
  | "" => None
  | String "*" "" => Some ""
  | String c s' => (String c) <$> strip_star s'
  end.

(** The keys there are at server time [t]. *)
Definition all_keys (d : Db) (t : Z) : gset string :=
  dom (streams d) ∪ dom (hashes d) ∪ filter (fun k => is_Some (live d t k)) (dom (strs d)).

Definition ref_setnx (k v : string) (ttl : Z) (w : RW) : RW * res error bool :=
  match live (r_db w) (r_ms w) k with
  | Some _ => (w, Ok false)
  | None =>
      (with_db (set_strs (<[k := (v, deadline (r_ms w) ttl)]> (strs (r_db w))) (r_db w)) w, Ok true)
  end.

Definition ref_expire (k : string) (ttl : Z) (w : RW) : RW * res error bool :=
  match live (r_db w) (r_ms w) k with
  | Some v =>
      (with_db (set_strs (<[k := (v, Some (r_ms w + expire_ms ttl))]> (strs (r_db w))) (r_db w)) w, Ok true)
  | None => (w, Ok false)
  end.

Definition ref_pending (s g : string) (w : RW) : RW * res error XPendingInfo :=
  let ids := (map_to_list (get_pel (r_db w) s g)).*1 in
  let low := min_id ids in
  if bool_decide (get_group (r_db w) s g = None) then
    (w, Err (Errors.RedisError ("NOGROUP No such key '" +:+ s +:+ "' or consumer group '" +:+ g +:+ "'")))
  else if bool_decide (ids = [] \/ (low ∈ ids /\ Forall (fun i => id_leb low i = true) ids))
  then (w, Ok (mkPending (Z.of_nat (length ids)) low low))
  else (w, Err (Errors.RedisError "ERR internal")).

(** What the server does with a command. *)
Definition ref_server {B} (c : cmd B) : RW -> RW * B :=
  match c in cmd B return RW -> RW * B with
  | XAdd a => (fun w => match ref_xadd a w with Some (w', id) => (w', Ok id) | None => (w, Err id_error) end)
  | XAddPipe l => ref_pipe l
  | XLen s => (fun w => (w, Ok (Z.of_nat (length (entries (get_stream (r_db w) s))))))
  | XReadGroup g c s _ _ => (ref_xread g c s)
  | XAck s g id => (fun w => (with_db (xack_db s g id (r_db w)) w, Ok 1))
  | XAutoClaim s g c mi st n => (ref_autoclaim s g c mi st n)
  | XPending s g => (ref_pending s g)
  | XRange s a b => (fun w =>
      (w, match parse_bound 0 a, parse_bound max_uint64 b with
          | Some _, Some _ => Ok (filter (fun m => in_range a b (ID m) = true) (entries (get_stream (r_db w) s)))
          | _, _ => Err (Errors.RedisError "ERR Invalid stream ID specified as stream command argument")
          end))
  | XDel s id => (fun w =>
      (with_db (xdel_db s id (r_db w)) w,
       Ok (Z.of_nat (length (filter (fun m => ID m = id) (entries (get_stream (r_db w) s)))))))
  | XGroupCreateMkStream s g _ => (fun w =>
      match get_group (r_db w) s g with
      | Some _ => (w, Err (Errors.RedisError "BUSYGROUP Consumer Group name already exists"))
      | None => (with_db (xgroup_db s g (r_db w)) w, Ok tt)
      end)
  | SetNX k v ttl => (ref_setnx k v ttl)
  | Get k => (fun w =>
      (w, match live (r_db w) (r_ms w) k with Some v => Ok v | None => Err Errors.RedisNil end))
  | Expire k ttl => (ref_expire k ttl)
  | Del k => (fun w =>
      (with_db (mkDb (delete k (streams (r_db w))) (delete k (strs (r_db w)))
                  (delete k (hashes (r_db w)))) w, Ok 1))
  | HSet k fs => (fun w =>
      (with_db (set_hashes (<[k := list_to_map fs ∪ default ∅ (hashes (r_db w) !! k)]>
                  (hashes (r_db w))) (r_db w)) w, Ok (Z.of_nat (length fs))))
  | HGetAll k => (fun w => (w, Ok (default ∅ (hashes (r_db w) !! k))))
  | Keys p => (fun w =>
      (w, Ok (match strip_star p with
              | Some p' => elements (filter (fun k => String.prefix p' k = true) (all_keys (r_db w) (r_ms w)))
              | None => []
              end)))
  | Ping => (fun w => (w, Ok tt))
  | Now => fun w => (w, wrap64 (r_ns w))
  | NewUUID => fun w =>
      (mkRW (r_db w) (r_ms w) (r_ns w) (r_seq w) (r_uuid w + 1) (r_rand w) (r_ctx w) (r_fail w),
       "uuid-" +:+ Strconv.Itoa (r_uuid w))
  | RandFloat64 => fun w =>
      (mkRW (r_db w) (r_ms w) (r_ns w) (r_seq w) (r_uuid w) (tail (r_rand w)) (r_ctx w) (r_fail w),
       match r_rand w with f :: _ => f | [] => F64.of_Z 0 end)
  | CtxDone => fun w => (w, r_ctx w)
  | Sleep _ => fun w => (w, r_ctx w)
  | Select _ => fun w => (w, match r_ctx w with Some _ => None | None => Some 0%nat end)
  end.

(** The error of a Redis command that got no answer; [None] for the other calls. *)
Definition fail_of {B} (c : cmd B) : option B :=
  let e := Errors.ContextDeadlineExceeded in
  match c in cmd B return option B with
  | XAdd _ => Some (Err e) | XAddPipe _ => Some (Err e) | XLen _ => Some (Err e)
  | XReadGroup _ _ _ _ _ => Some (Err e) | XAck _ _ _ => Some (Err e)
  | XAutoClaim _ _ _ _ _ _ => Some (Err e) | XPending _ _ => Some (Err e)
  | XRange _ _ _ => Some (Err e) | XDel _ _ => Some (Err e)
  | XGroupCreateMkStream _ _ _ => Some (Err e) | SetNX _ _ _ => Some (Err e)
  | Get _ => Some (Err e) | Expire _ _ => Some (Err e) | Del _ => Some (Err e)
  | HSet _ _ => Some (Err e) | HGetAll _ => Some (Err e) | Keys _ => Some (Err e)
  | Ping => Some (Err e)
  | Now => None | NewUUID => None | RandFloat64 => None | CtxDone => None | Sleep _ => None | Select _ => None
  end.

Definition ref_exec {B} (c : cmd B) (w : RW) : RW * B :=
  match fail_of c with
  | None => ref_server c w
  | Some err =>
      match r_fail w with
      | TimesOut :: _ => (pop_fail w, err)
      | LostAnswer :: _ => let '(w1, _) := ref_server c (pop_fail w) in (w1, err)
      | Repeat :: _ => let '(w1, _) := ref_server c (pop_fail w) in ref_server c w1
      | _ => ref_server c (pop_fail w)
      end
  end.

#[global] Instance RefWorld : World RW := {|
  exec := @ref_exec;
  db := r_db;
  server_ms := r_ms;
|}.

(** ** The reference world satisfies the laws *)

Lemma elem_of_used_group d s g gr id :
  groups (get_stream d s) !! g = Some gr ->
  id ∈ g_new gr \/ is_Some (g_pel gr !! id) -> id ∈ used_ids d s.
Proof.
  intros Hg Hid. unfold used_ids. apply elem_of_union_r.
  revert Hg. generalize (groups (get_stream d s)) as m.
  intros m. revert g. apply (map_fold_weak_ind (fun acc (m : gmap string Group) =>
    forall g, m !! g = Some gr -> id ∈ acc)).
  - intros g. by rewrite lookup_empty.
  - intros i x m' acc Hi IH g. destruct (decide (i = g)) as [->|Hne].
    + rewrite lookup_insert_eq. intros [= ->]. destruct Hid as [Hid|Hid]; [set_solver|].
      apply elem_of_dom in Hid. set_solver.
    + rewrite lookup_insert_ne by done. intros Hg. specialize (IH g Hg). set_solver.
Qed.

Lemma ref_xadd_ok a w w' id : ref_xadd a w = Some (w', id) -> xadd_ok a id (r_db w) (r_db w').
Proof.
  unfold ref_xadd. destruct (full_id (next_id w)) eqn:Hid; [|done].
  case_bool_decide as Hf; [|done]. intros [= <- <-]. simpl. eexists. split; [done|].
  split.
  { split; [done|]. split; [|intros g gr Hg i Hi; apply Hf; by eapply elem_of_used_group].
    intros m Hm. apply Hf. unfold used_ids. apply elem_of_union_l, elem_of_list_to_set.
    by apply list_elem_of_fmap_2. }
  unfold trim_count. split.
  - intros H. by rewrite (proj2 (Z.ltb_ge _ _)).
  - destruct (Z.ltb_spec 0 (xa_MaxLen a)); [|lia]. intros Hn.
    unfold xadd_db. rewrite get_set_stream. simpl. rewrite length_drop, length_app. simpl. lia.
Qed.

Lemma pipe_some_refl l d : pipe_some l d d.
Proof. induction l; by constructor. Qed.

Lemma ref_pipe_ok l w w' r : ref_pipe l w = (w', r) ->
  match r with Ok ids => pipe_ok l ids (r_db w) (r_db w') | Err _ => pipe_some l (r_db w) (r_db w') end.
Proof.
  revert w w' r. induction l as [|a l IH]; cbn [ref_pipe]; intros w w' r H; [simplify_eq; constructor|].
  destruct (ref_xadd a w) as [[w1 id]|] eqn:E1; [|simplify_eq; apply pipe_some_refl].
  apply ref_xadd_ok in E1. destruct (ref_pipe l w1) as [w2 r2] eqn:E2. apply IH in E2.
  destruct r2; simplify_eq; [by econstructor|by eapply pipe_some_add].
Qed.

Lemma ref_autoclaim_ok s g c mi st n w w' ms nx :
  ref_autoclaim s g c mi st n w = (w', Ok (ms, nx)) ->
  autoclaim_ok s g c mi (r_ms w') st n ms nx (r_db w) (r_db w').
Proof.
  unfold ref_autoclaim. destruct (get_group (r_db w) s g) as [gr|] eqn:Hg; [|done].
  case_bool_decide as Hc; [|done]. intros H. simplify_eq/=.
  destruct Hc as (Hlen & Hnd & Hms & Hnext & Hcov). rewrite Forall_forall in Hms, Hcov.
  exists gr, ∅. split_and!; try done.
  - intros m Hm. destruct (Hms m Hm) as (?&[? Hp]&?). split_and!; try done.
    destruct (g_pel gr !! ID m) as [pe|]; [eauto|done].
  - f_equal. f_equal. symmetry. apply map_filter_id. set_solver.
  - intros m pe Hm Hp Hst Hle Hor. apply Hcov; [done| |done]. split; [done|]. by rewrite Hp.
Qed.

Lemma strip_star_append p : strip_star (p +:+ "*") = Some p.
Proof.
  induction p as [|c p IH]; [done|]. rewrite append_cons. simpl.
  destruct (p +:+ "*") as [|c' r] eqn:E; [by destruct p|].
  destruct c as [[] [] [] [] [] [] [] []]; simpl in *; by rewrite IH.
Qed.

Lemma size_pel_list (pel : gmap string PelEntry) : length ((map_to_list pel).*1) = size pel.
Proof. by rewrite length_fmap, length_map_to_list. Qed.

Lemma elem_of_pel_list (pel : gmap string PelEntry) id :
  id ∈ (map_to_list pel).*1 <-> is_Some (pel !! id).
Proof.
  rewrite list_elem_of_fmap. split.
  - intros ([i x] & -> & Hin). simpl. apply elem_of_map_to_list in Hin. eauto.
  - intros [x Hx]. exists (id, x). split; [done|]. by apply elem_of_map_to_list.
Qed.

Lemma ref_pending_ok s g w w' info :
  ref_pending s g w = (w', Ok info) ->
  w' = w /\ is_Some (get_group (r_db w) s g) /\ xp_Count info = Z.of_nat (size (get_pel (r_db w) s g)) /\
  (xp_Count info = 0 -> xp_Lower info = "") /\
  (0 < xp_Count info -> is_Some (get_pel (r_db w) s g !! xp_Lower info) /\
     forall id, is_Some (get_pel (r_db w) s g !! id) -> id_leb (xp_Lower info) id = true).
Proof.
  unfold ref_pending. case_bool_decide as Hg; [done|]. case_bool_decide as Hc; [|done]. intros H. simplify_eq/=.
  split; [done|]. split; [by destruct (get_group (r_db w') s g)|]. rewrite size_pel_list. split; [done|]. split.
  - intros H0. assert (get_pel (r_db w') s g = ∅) as -> by (apply map_size_empty_inv; lia).
    by rewrite map_to_list_empty.
  - intros Hpos. destruct Hc as [Hc|[Hin Hall]].
    { rewrite <-size_pel_list, Hc in Hpos. simpl in Hpos. lia. }
    rewrite Forall_forall in Hall. split; [by apply elem_of_pel_list|].
    intros id Hid. apply Hall. by apply elem_of_pel_list.
Qed.

Lemma ref_pipe_ms l w w' r : ref_pipe l w = (w', r) -> r_ms w' = r_ms w.
Proof.
  revert w w' r. induction l as [|a l IH]; cbn [ref_pipe]; intros w w' r H; [by simplify_eq|].
  destruct (ref_xadd a w) as [[w1 id]|] eqn:E1; [|by simplify_eq].
  assert (r_ms w1 = r_ms w) as <-.
  { unfold ref_xadd in E1. cbv zeta in E1. destruct (_ && _); by simplify_eq/=. }
  destruct (ref_pipe l w1) as [w2 r2] eqn:E2. apply IH in E2. destruct r2; by simplify_eq.
Qed.

(** The clock of the reference world stands still. *)
Lemma ref_server_ms {B} (c : cmd B) w w' b : ref_server c w = (w', b) -> r_ms w' = r_ms w.
Proof.
  destruct c; cbn [ref_server]; try (by intros [= <- <-]);
    unfold ref_xadd, ref_xread, ref_autoclaim, ref_setnx, ref_expire, ref_pending.
  2: { apply ref_pipe_ms. }
  all: repeat case_match; intros; simplify_eq/=; done.
Qed.

Lemma ref_xread_ok g c s n blk w w' r : ref_xread g c s w = (w', r) ->
  server_ok (XReadGroup g c s n blk) (r_ms w) (r_db w) r (r_db w').
Proof.
  unfold ref_xread. intros H _.
  destruct (get_group (r_db w) s g) as [gr|] eqn:Hg; [|by simplify_eq].
  destruct (g_new gr) as [|id rest] eqn:Hn; [by simplify_eq|].
  destruct (list_find _ _) as [[i m]|] eqn:Hf; [|by simplify_eq]. injection H as <- <-.
  apply list_find_Some in Hf as (Hl & <- & _). right. exists m. split; [done|].
  exists gr, rest. split_and!; try done. by eapply list_elem_of_lookup_2.
Qed.

Lemma elem_of_all_keys d t k :
  k ∈ all_keys d t <-> k ∈ dom (streams d) ∪ dom (hashes d) \/ is_Some (live d t k).
Proof.
  unfold all_keys. rewrite elem_of_union, elem_of_filter. split; [naive_solver|].
  intros [Hk|Hk]; [by left|right]. split; [done|]. apply elem_of_dom. unfold live in Hk.
  destruct (strs d !! k); [done|]. by destruct Hk.
Qed.

Lemma ref_server_ok {B} (c : cmd B) w w' b :
  ref_server c w = (w', b) -> server_ok c (r_ms w) (r_db w) b (r_db w').
Proof.
  destruct c; cbn [ref_server]; intros H; try (by simplify_eq/=).
  - destruct (ref_xadd _ w) as [[? ?]|] eqn:E; simplify_eq; [by apply ref_xadd_ok|done].
  - by apply ref_pipe_ok in H.
  - simplify_eq/=. split; [done|]. by intros n [= <-].
  - by apply ref_xread_ok.
  - destruct b as [[ms nx]|e].
    + pose proof (ref_server_ms (XAutoClaim stream group consumer minIdle start count) _ _ _ H) as <-.
      by apply ref_autoclaim_ok.
    + unfold ref_autoclaim in H. repeat case_match; by simplify_eq/=.
  - destruct b as [info|e].
    + by apply ref_pending_ok in H as (-> & ?).
    + unfold ref_pending in H. repeat case_bool_decide; by simplify_eq.
  - split; [by repeat case_match; simplify_eq/=|]. intros ms ->. repeat case_match; simplify_eq/=; eauto.
  - intros _. destruct (get_group (r_db w) stream group) eqn:E; simplify_eq/=; eauto.
  - unfold ref_setnx in H. destruct (live (r_db w) (r_ms w) key) eqn:E; simplify_eq/=; rewrite ?E; eauto.
  - simplify_eq/=. split; [done|]. destruct (live (r_db w') (r_ms w') key); naive_solver.
  - intros _ _. unfold ref_expire in H.
    destruct (live (r_db w) (r_ms w) key) eqn:E; by simplify_eq/=.
  - simplify_eq/=. split; [done|]. by intros m [= <-].
  - injection H as <- <-. split; [done|]. intros p l -> _ [= <-].
    rewrite strip_star_append. split; [apply NoDup_elements|].
    intros k. rewrite elem_of_elements, elem_of_filter, elem_of_all_keys. done.
  - injection H as <- <-. split; [done|apply wrap64_range].
  - injection H as <- <-. split; [done|]. apply all_ascii_valid.
    rewrite all_ascii_append. apply pretty_Z_ascii.
Qed.

Lemma fail_of_ok {B} (c : cmd B) err t d : fail_of c = Some err -> server_ok c t d err d.
Proof.
  destruct c; intros [= <-]; simpl; try done; try (split; done).
  apply pipe_some_refl.
Qed.

#[global] Instance RefLaws : RedisLaws RW.
Proof.
  constructor. cbn [exec db server_ms RefWorld]. intros B c w w' b. unfold ref_exec.
  assert (forall w1, r_ms w1 = r_ms w -> r_db w1 = r_db w -> ref_server c w1 = (w', b) ->
    exists d1, lost c (r_ms w) (r_ms w') (r_db w) d1 /\ server_ok c (r_ms w') d1 b (r_db w')) as Hpass.
  { intros w1 Hm Hd E. exists (r_db w1). rewrite (ref_server_ms _ _ _ _ E).
    split; [rewrite Hm, Hd; constructor; lia|]. by apply ref_server_ok. }
  destruct (fail_of c) as [err|] eqn:Hf; [|by apply Hpass].
  assert (forall w1 b1 w2, ref_server c (pop_fail w) = (w1, b1) -> r_ms w2 = r_ms w1 ->
    lost c (r_ms w) (r_ms w2) (r_db w) (r_db w1)) as Hlost.
  { intros w1 b1 w2 E Hm. pose proof (ref_server_ms _ _ _ _ E) as Hm1. simpl in Hm1.
    refine (lost_one c _ _ _ _ _ _ _ _ (ref_server_ok _ _ _ _ E) _); [simpl; lia|].
    constructor. simpl. lia. }
  destruct (r_fail w) as [|[] l] eqn:Hr; [by apply Hpass|by apply Hpass| | |].
  - intros [= <- <-]. exists (r_db w). split; [constructor; simpl; lia|by apply fail_of_ok].
  - destruct (ref_server c (pop_fail w)) as [w1 b1] eqn:E. intros [= <- <-]. exists (r_db w1).
    split; [by eapply Hlost|by apply fail_of_ok].
  - destruct (ref_server c (pop_fail w)) as [w1 b1] eqn:E. intros E2. exists (r_db w1).
    pose proof (ref_server_ms _ _ _ _ E2) as Hm2. split; [by eapply Hlost|].
    rewrite Hm2. by apply ref_server_ok.
Qed.
