(* ===== verification/GoTime.v ===== *)
(** * Calendar time: [time.Time] and its RFC 3339 text

    [time.Time] as far as the code uses it: the instant, the offset it is
    displayed with, and its JSON text ([Time.MarshalJSON] and
    [Time.UnmarshalJSON], that is RFC 3339 with nanoseconds).  The calendar is
    the proleptic Gregorian one, computed by eras of 400 years. *)
From S2P Require Import Prelude GoStd.

(** An instant (seconds and nanoseconds since the Unix epoch) and the offset,
    in seconds east of UTC, it is displayed with. *)
Record Instant := mkInstant { t_sec : Z; t_nsec : Z; t_off : Z }.

#[global] Instance Instant_eq_dec : EqDecision Instant.
Proof. solve_decision. Defined.

(** [t.IsZero()]: January 1, year 1, 00:00:00 UTC. *)
Definition zero_sec : Z := -62135596800.

Definition IsZero (t : Instant) : bool := (t_sec t =? zero_sec) && (t_nsec t =? 0).

(** The instant [time.Now()] gives at [ns] nanoseconds since the epoch, in a
    process whose local time zone is UTC (as in the containers it ships in). *)
Definition instant_of_ns (ns : Z) : Instant :=
  mkInstant (ns / Time.Second) (ns mod Time.Second) 0.

(** ** The calendar *)

(** Years are counted from March within an era of 400 years (146097 days):
    [yoe] is the year of a day of the era, [doy] the day of that year. *)
Definition yoe_of (doe : Z) : Z := (doe - doe / 1460 + doe / 36524 - doe / 146096) / 365.

Definition year_start (yoe : Z) : Z := 365 * yoe + yoe / 4 - yoe / 100.

(** Month (from March = 0) and day of a day of the year, and back. *)
Definition month_day (doy : Z) : Z * Z :=
  let mp := (5 * doy + 2) / 153 in (mp, doy - (153 * mp + 2) / 5 + 1).

Definition day_of_year (mp d : Z) : Z := (153 * mp + 2) / 5 + d - 1.

(** Days since the epoch to year, month, day. *)
Definition civil_of_days (z : Z) : Z * Z * Z :=
  let z' := z + 719468 in
  let era := z' / 146097 in
  let doe := z' mod 146097 in
  let yoe := yoe_of doe in
  let '(mp, d) := month_day (doe - year_start yoe) in
  let m := if mp <? 10 then mp + 3 else mp - 9 in
  (yoe + era * 400 + (if m <=? 2 then 1 else 0), m, d).

Definition days_of_civil (y m d : Z) : Z :=
  let y' := if m <=? 2 then y - 1 else y in
  let mp := if 2 <? m then m - 3 else m + 9 in
  (y' / 400) * 146097 + (year_start (y' mod 400) + day_of_year mp d) - 719468.

Definition is_leap (y : Z) : bool :=
  (y mod 4 =? 0) && (negb (y mod 100 =? 0) || (y mod 400 =? 0)).

Definition days_in (m y : Z) : Z :=
  if m =? 2 then (if is_leap y then 29 else 28)
  else if (m =? 4) || (m =? 6) || (m =? 9) || (m =? 11) then 30 else 31.

Example epoch_day : civil_of_days 0 = (1970, 1, 1).
Proof. reflexivity. Qed.

Example leap_day : days_of_civil 2024 2 29 = 19782.
Proof. reflexivity. Qed.

Example zero_day : days_of_civil 1 1 1 * 86400 = zero_sec.
Proof. reflexivity. Qed.

(** ** Text *)

Definition dig (d : Z) : Ascii.ascii := Time.digit_char d.

Definition pad2 (n : Z) (rest : string) : string :=
  String (dig (n / 10)) (String (dig (n mod 10)) rest).

Definition pad4 (n : Z) (rest : string) : string := pad2 (n / 100) (pad2 (n mod 100) rest).

(** Fractional digits of [v], of which there are at most [w]; no trailing zeros. *)
Fixpoint frac_digits (w : nat) (v : Z) (rest : string) : string :=
  match w with
  | O => rest
  | S w' =>
      if v =? 0 then rest
      else String (dig (v / 10 ^ Z.of_nat w')) (frac_digits w' (v mod 10 ^ Z.of_nat w') rest)
  end.

Definition frac (nsec : Z) (rest : string) : string :=
  if nsec =? 0 then rest else String "." (frac_digits 9 nsec rest).

Definition zone (off : Z) : string :=
  if off =? 0 then "Z"
  else
    let a := Z.abs off / 60 in
    String (if Z.quot off 60 <? 0 then "-" else "+")%char (pad2 (a / 60) (String ":" (pad2 (a mod 60) ""))).

(** [Time.MarshalJSON] without the quotes; [None] when the year is not in
    [0, 9999] or the hour of the offset is not below 24. *)
Definition format_time (t : Instant) : option string :=
  let local := t_sec t + t_off t in
  let '(y, m, d) := civil_of_days (local / 86400) in
  let s := local mod 86400 in
  if (0 <=? y) && (y <=? 9999) && (Z.abs (t_off t) / 60 <? 24 * 60) then
    Some (pad4 y (String "-" (pad2 m (String "-" (pad2 d (String "T"
           (pad2 (s / 3600) (String ":" (pad2 (s / 60 mod 60) (String ":" (pad2 (s mod 60)
             (frac (t_nsec t) (zone (t_off t))))))))))))))
  else None.

Definition digit_of (c : Ascii.ascii) : option Z := Strconv.digit_val c.

(** Exactly two digits. *)
Definition get2 (s : string) : option (Z * string) :=
  match s with
  | String a (String b r) =>
      match digit_of a, digit_of b with
      | Some x, Some y => Some (10 * x + y, r)
      | _, _ => None
      end
  | _ => None
  end.

(** One or two digits: how [time.Parse] reads the hour. *)
Definition get12 (s : string) : option (Z * string) :=
  match get2 s with
  | Some p => Some p
  | None => match s with
            | String a r => match digit_of a with Some x => Some (x, r) | None => None end
            | "" => None
            end
  end.

Definition expect (c : Ascii.ascii) (s : string) : option string :=
  match s with
  | String a r => if Ascii.eqb a c then Some r else None
  | "" => None
  end.

Arguments expect c%_char s.

(** Fractional digits: the first nine count. *)
Fixpoint read_frac (w : nat) (s : string) : Z * string :=
  match s with
  | String a r =>
      match digit_of a with
      | Some x =>
          match w with
          | O => read_frac O r
          | S w' => let '(v, r') := read_frac w' r in (x * 10 ^ Z.of_nat w' + v, r')
          end
      | None => (0, s)
      end
  | "" => (0, "")
  end.

Definition get_frac (s : string) : Z * string :=
  match s with
  | String a (String b r) =>
      if (Ascii.eqb a "." || Ascii.eqb a ",") && bool_decide (is_Some (digit_of b))
      then read_frac 9 (String b r) else (0, s)
  | _ => (0, s)
  end.

(** [Z] or a signed offset; nothing may follow. *)
Definition get_zone (s : string) : option Z :=
  if bool_decide (s = "Z") then Some 0 else
  match s with
  | String sgn r =>
      h ← get2 r; let '(hh, r1) := h in
      r2 ← expect ":" r1;
      m ← get2 r2; let '(mm, r3) := m in
      if bool_decide (r3 = "") && (hh <=? 24) && (mm <=? 60) then
        if Ascii.eqb sgn "+" then Some ((hh * 60 + mm) * 60)
        else if Ascii.eqb sgn "-" then Some (- ((hh * 60 + mm) * 60)) else None
      else None
  | "" => None
  end.

(** [Time.UnmarshalJSON] on the text between the quotes. *)
Definition parse_time (s : string) : option Instant :=
  y1 ← get2 s; let '(yh, s) := y1 in
  y2 ← get2 s; let '(yl, s) := y2 in
  s ← expect "-" s;
  mo ← get2 s; let '(m, s) := mo in
  s ← expect "-" s;
  da ← get2 s; let '(d, s) := da in
  s ← expect "T" s;
  ho ← get12 s; let '(hh, s) := ho in
  s ← expect ":" s;
  mi ← get2 s; let '(mm, s) := mi in
  s ← expect ":" s;
  se ← get2 s; let '(ss, s) := se in
  let '(ns, s) := get_frac s in
  off ← get_zone s;
  let y := 100 * yh + yl in
  if (1 <=? m) && (m <=? 12) && (1 <=? d) && (d <=? days_in m y) &&
     (hh <? 24) && (mm <? 60) && (ss <? 60)
  then Some (mkInstant (days_of_civil y m d * 86400 + hh * 3600 + mm * 60 + ss - off) ns off)
  else None.

Example parse_time_ok :
  parse_time "2024-02-29T12:30:45.120-07:00" = Some (mkInstant 1709235045 120000000 (-25200)).
Proof. reflexivity. Qed.

Example parse_time_bad_day : parse_time "2023-02-29T12:30:45Z" = None.
Proof. reflexivity. Qed.

Example format_time_ok :
  format_time (mkInstant 1709235045 120000000 (-25200)) = Some "2024-02-29T12:30:45.12-07:00".
Proof. reflexivity. Qed.

(** ** The text of an instant is read back as that instant *)

Lemma yoe_spec doe : 0 <= doe < 146097 ->
  0 <= yoe_of doe <= 399 /\ 0 <= doe - year_start (yoe_of doe) <= 365.
Proof. intros H. unfold yoe_of, year_start. Z.to_euclidean_division_equations. lia. Qed.

(** Only a year that ends in a 29th of February has a day 365. *)
Lemma yoe_leap doe : 0 <= doe < 146097 -> doe - year_start (yoe_of doe) = 365 ->
  (yoe_of doe + 1) mod 4 = 0 /\ ((yoe_of doe + 1) mod 100 <> 0 \/ (yoe_of doe + 1) mod 400 = 0).
Proof. intros H. unfold yoe_of, year_start. Z.to_euclidean_division_equations. lia. Qed.

Lemma month_day_spec doy : 0 <= doy <= 365 ->
  let '(mp, d) := month_day doy in
  0 <= mp <= 11 /\ day_of_year mp d = doy /\ 1 <= d <= 31 /\
  (mp = 1 \/ mp = 3 \/ mp = 6 \/ mp = 8 -> d <= 30) /\ (mp = 11 -> d <= 29) /\
  (mp = 11 /\ d = 29 -> doy = 365).
Proof. intros H. unfold month_day, day_of_year. Z.to_euclidean_division_equations. lia. Qed.

Lemma civil_spec z y m d : civil_of_days z = (y, m, d) ->
  days_of_civil y m d = z /\ 1 <= m <= 12 /\ 1 <= d <= days_in m y.
Proof.
  unfold civil_of_days. set (era := (z + 719468) / 146097). set (doe := (z + 719468) mod 146097).
  assert (0 <= doe < 146097) as Hdoe by (apply Z.mod_pos_bound; lia).
  assert (z + 719468 = 146097 * era + doe) as Hz by (apply Z.div_mod; lia).
  destruct (yoe_spec doe Hdoe) as [Hy Hd]. pose proof (yoe_leap doe Hdoe) as Hleap.
  pose proof (month_day_spec _ Hd) as Hmd. generalize dependent (yoe_of doe). intros yoe Hy Hd Hleap Hmd.
  destruct (month_day (doe - year_start yoe)) as [mp dd]. destruct Hmd as (Hmp & Hdoy & Hdd & H30 & H29 & H365).
  intros [= <- <- <-]. unfold days_of_civil.
  assert (((if mp <? 10 then mp + 3 else mp - 9) <=? 2) = negb (mp <? 10)) as Hm2.
  { destruct (Z.ltb_spec mp 10); simpl; lia. }
  assert ((2 <? (if mp <? 10 then mp + 3 else mp - 9)) = (mp <? 10)) as Hm3.
  { destruct (Z.ltb_spec mp 10); lia. }
  rewrite Hm2, Hm3. split; [|split].
  - replace (if negb (mp <? 10) then _ else _) with (yoe + era * 400) by (destruct (mp <? 10); simpl; lia).
    replace (if mp <? 10 then _ else _) with mp by (destruct (mp <? 10); lia).
    rewrite Z.div_add, Z.div_small, Z_mod_plus_full, Z.mod_small by lia. rewrite Hdoy. lia.
  - destruct (Z.ltb_spec mp 10); lia.
  - split; [lia|]. unfold days_in. destruct (Z.ltb_spec mp 10) as [Hlt|Hge]; simpl.
    + repeat case_match; reflect_Z; lia.
    + destruct (Z.eqb_spec (mp - 9) 2) as [He|He]; [|repeat case_match; reflect_Z; lia].
      destruct (is_leap (yoe + era * 400 + 1)) eqn:Hl; [lia|].
      destruct (Z.eq_dec dd 29) as [->|]; [exfalso|lia].
      specialize (Hleap (H365 ltac:(lia))). unfold is_leap in Hl.
      rewrite <-!Z.add_assoc, (Z.add_comm (era * 400)), !Z.add_assoc in Hl.
      apply andb_false_iff in Hl. rewrite orb_false_iff, negb_false_iff in Hl. reflect_Z.
      Z.to_euclidean_division_equations. lia.
Qed.

Lemma digit_of_dig d : 0 <= d < 10 -> digit_of (dig d) = Some d.
Proof.
  intros H. assert (d = 0 \/ d = 1 \/ d = 2 \/ d = 3 \/ d = 4 \/ d = 5 \/ d = 6 \/ d = 7 \/ d = 8 \/ d = 9)
    as Hd by lia. by repeat destruct Hd as [->|Hd]; [..|subst d].
Qed.

Lemma get2_pad2 n r : 0 <= n < 100 -> get2 (pad2 n r) = Some (n, r).
Proof.
  intros H. unfold get2, pad2. rewrite !digit_of_dig by (Z.to_euclidean_division_equations; lia).
  do 2 f_equal. rewrite (Z.div_mod n 10) at 3 by lia. done.
Qed.

Lemma get12_pad2 n r : 0 <= n < 100 -> get12 (pad2 n r) = Some (n, r).
Proof. intros H. unfold get12. by rewrite get2_pad2. Qed.

(** A text that does not continue a run of digits. *)
Definition no_digit (s : string) : Prop :=
  match s with String c _ => digit_of c = None | "" => True end.

Lemma read_frac_digits w v r : 0 <= v < 10 ^ Z.of_nat w -> no_digit r ->
  read_frac w (frac_digits w v r) = (v, r).
Proof.
  intros Hv Hr. revert v Hv. induction w as [|w IH]; intros v Hv.
  - assert (v = 0) as -> by (simpl in Hv; lia). cbn [frac_digits].
    destruct r as [|c r]; [done|]. cbn [read_frac no_digit] in *. by rewrite Hr.
  - cbn [frac_digits]. destruct (Z.eqb_spec v 0) as [->|Hne].
    + destruct r as [|c r]; [done|]. cbn [read_frac no_digit] in *. by rewrite Hr.
    + assert (10 ^ Z.of_nat (S w) = 10 * 10 ^ Z.of_nat w) as Hp
        by (rewrite Nat2Z.inj_succ, Z.pow_succ_r by lia; done).
      assert (0 < 10 ^ Z.of_nat w) as Hpos by (apply Z.pow_pos_nonneg; lia).
      cbn [read_frac]. rewrite digit_of_dig.
      2: { split; [apply Z.div_pos; lia|]. apply Z.div_lt_upper_bound; lia. }
      rewrite IH by (apply Z.mod_pos_bound; done).
      f_equal. rewrite (Z.div_mod v (10 ^ Z.of_nat w)) at 3 by lia. lia.
Qed.

Lemma zone_no_digit off : no_digit (zone off).
Proof. unfold zone. repeat case_match; done. Qed.

Lemma get_frac_frac ns off : 0 <= ns < Time.Second ->
  get_frac (frac ns (zone off)) = (ns, zone off).
Proof.
  intros H. unfold frac. destruct (Z.eqb_spec ns 0) as [->|Hne].
  - unfold get_frac, zone. by repeat case_match; simplify_eq/=.
  - pose proof (read_frac_digits 9 ns (zone off) ltac:(unfold Time.Second, Time.Millisecond,
      Time.Microsecond, Time.Nanosecond in H; lia) (zone_no_digit off)) as Hrf.
    cbn [frac_digits] in *. rewrite (proj2 (Z.eqb_neq ns 0) Hne) in *. unfold get_frac.
    rewrite bool_decide_true; [exact Hrf|]. rewrite digit_of_dig; [done|].
    unfold Time.Second, Time.Millisecond, Time.Microsecond, Time.Nanosecond in H.
    split; [apply Z.div_pos; lia|]. apply Z.div_lt_upper_bound; lia.
Qed.

Lemma get_zone_zone off : off mod 60 = 0 -> Z.abs off < 86400 -> get_zone (zone off) = Some off.
Proof.
  intros Hm Ha. unfold zone. destruct (Z.eqb_spec off 0) as [->|Hne]; [done|].
  unfold get_zone. set (sg := (if _ <? 0 then _ else _)%char).
  rewrite bool_decide_false.
  2: { intros Heq. unfold sg in Heq. by destruct (_ <? 0). }
  do 2 (rewrite get2_pad2 by (Z.to_euclidean_division_equations; lia);
        cbn -[get2 pad2 Z.div Z.modulo Z.leb Z.mul Z.add]).
  rewrite !(proj2 (Z.leb_le _ _)) by (Z.to_euclidean_division_equations; lia). simpl. unfold sg.
  destruct (Z.ltb_spec (Z.quot off 60) 0); simpl; f_equal; Z.to_euclidean_division_equations; lia.
Qed.

(** Instants whose text is exact: nanoseconds in range, a whole number of
    minutes of offset, less than a day, and a year of four digits. *)
Definition instant_ok (t : Instant) : bool :=
  (0 <=? t_nsec t) && (t_nsec t <? Time.Second) && (t_off t mod 60 =? 0) &&
  (Z.abs (t_off t) <? 86400) && bool_decide (is_Some (format_time t)).

Lemma parse_format_time t : instant_ok t = true ->
  exists s, format_time t = Some s /\ parse_time s = Some t.
Proof.
  unfold instant_ok. rewrite !andb_true_iff. intros ((((Hn1 & Hn2) & Hm) & Ha) & [s Hs]%bool_decide_eq_true).
  reflect_Z. exists s. split; [done|]. revert Hs. unfold format_time.
  destruct (civil_of_days ((t_sec t + t_off t) / 86400)) as [[y m] d] eqn:Ec.
  apply civil_spec in Ec as (Hdays & Hmon & Hday).
  destruct (_ && _) eqn:Hok; [|done]. intros [= <-].
  rewrite !andb_true_iff in Hok. destruct Hok as [[Hy1 Hy2] _]. reflect_Z.
  set (l := t_sec t + t_off t) in *.
  assert (0 <= l mod 86400 < 86400) as Hl by (apply Z.mod_pos_bound; lia).
  assert (d <= 31) as Hd31 by (unfold days_in in Hday; repeat case_match; lia).
  unfold parse_time, pad4.
  repeat (first [rewrite get2_pad2|rewrite get12_pad2];
    [|Z.to_euclidean_division_equations; lia]; cbn -[days_in Z.mul Z.div Z.modulo get2 get12 pad2 get_frac frac]).
  rewrite get_frac_frac by lia. rewrite get_zone_zone by lia. cbn -[days_in Z.mul Z.div Z.modulo].
  assert (100 * (y / 100) + y mod 100 = y) as -> by (symmetry; apply Z.div_mod; lia).
  rewrite !(proj2 (Z.leb_le _ _)) by lia.
  rewrite !(proj2 (Z.ltb_lt _ _)) by (Z.to_euclidean_division_equations; lia). cbn [andb].
  rewrite Hdays. destruct t as [sec ns off]. simpl in *. do 2 f_equal.
  Z.to_euclidean_division_equations. lia.
Qed.
