(* ===== verification/JsonSyntax.v ===== *)
(** * JSON texts: the scanner of [encoding/json]

    The syntax tree keeps string literals as they are written (between the
    quotes) and numbers as their text: what they mean depends on the Go type
    they are decoded into.  [parse] is the grammar the scanner accepts, with
    its limit on nesting; [print] is the compact text an encoder writes. *)
From S2P Require Import Prelude Utf8 GoStd GoTime.

Inductive jv : Type :=
| VNull
| VBool (b : bool)
| VNum (lit : string)
| VStr (raw : string)
| VArr (l : list jv)
| VObj (l : list (string * jv)).

(** Induction that goes through the lists. *)
Section JvInd.
Context (P : jv -> Prop).
Hypothesis Hnull : P VNull.
Hypothesis Hbool : forall b, P (VBool b).
Hypothesis Hnum : forall lit, P (VNum lit).
Hypothesis Hstr : forall raw, P (VStr raw).
Hypothesis Harr : forall l, Forall P l -> P (VArr l).
Hypothesis Hobj : forall l, Forall (fun kv => P kv.2) l -> P (VObj l).

Fixpoint jv_nested_ind (v : jv) : P v :=
  match v with
  | VNull => Hnull
  | VBool b => Hbool b
  | VNum lit => Hnum lit
  | VStr raw => Hstr raw
  | VArr l => Harr l
      ((fix go l : Forall P l :=
          match l with
          | [] => @Forall_nil_2 _ _
          | x :: l' => @Forall_cons_2 _ _ _ _ (jv_nested_ind x) (go l')
          end) l)
  | VObj l => Hobj l
      ((fix go l : Forall (fun kv => P kv.2) l :=
          match l with
          | [] => @Forall_nil_2 _ _
          | (k, x) :: l' => @Forall_cons_2 _ (fun kv => P kv.2) (k, x) _ (jv_nested_ind x) (go l')
          end) l)
  end.

End JvInd.

(** ** Lexical elements *)

Definition dquote : Ascii.ascii := "034"%char.

Definition is_ws (c : Ascii.ascii) : bool :=
  Ascii.eqb c " " || Ascii.eqb c "009" || Ascii.eqb c "010" || Ascii.eqb c "013".

Fixpoint skip_ws (s : string) : string :=
  match s with
  | String c r => if is_ws c then skip_ws r else s
  | "" => ""
  end.

Definition hex_val (c : Ascii.ascii) : option Z :=
  let v := byte_val c in
  if in_bytes 48 57 c then Some (v - 48)
  else if in_bytes 97 102 c then Some (v - 87)
  else if in_bytes 65 70 c then Some (v - 55) else None.

Definition is_hex (c : Ascii.ascii) : bool := match hex_val c with Some _ => true | None => false end.

(** The one-letter escapes. *)
Definition simple_escape (c : Ascii.ascii) : option Ascii.ascii :=
  if Ascii.eqb c dquote || Ascii.eqb c "\" || Ascii.eqb c "/" then Some c
  else if Ascii.eqb c "b" then Some "008"%char
  else if Ascii.eqb c "f" then Some "012"%char
  else if Ascii.eqb c "n" then Some "010"%char
  else if Ascii.eqb c "r" then Some "013"%char
  else if Ascii.eqb c "t" then Some "009"%char else None.

Definition cons_fst (c : Ascii.ascii) (p : option (string * string)) : option (string * string) :=
  match p with Some (raw, r) => Some (String c raw, r) | None => None end.

(** The rest of a string literal: the text up to the closing quote, and what
    follows it.  Control characters and unknown escapes are refused. *)
Fixpoint scan_string (s : string) : option (string * string) :=
  match s with
  | "" => None
  | String c r =>
      if Ascii.eqb c dquote then Some ("", r)
      else if byte_val c <? 32 then None
      else if Ascii.eqb c "\" then
        match r with
        | "" => None
        | String e r1 =>
            match simple_escape e with
            | Some _ => cons_fst c (cons_fst e (scan_string r1))
            | None =>
                if Ascii.eqb e "u" then
                  match r1 with
                  | String h1 (String h2 (String h3 (String h4 r2))) =>
                      if is_hex h1 && is_hex h2 && is_hex h3 && is_hex h4 then
                        cons_fst c (cons_fst e (cons_fst h1 (cons_fst h2 (cons_fst h3
                          (cons_fst h4 (scan_string r2))))))
                      else None
                  | _ => None
                  end
                else None
            end
        end
      else cons_fst c (scan_string r)
  end.

Definition is_digit (c : Ascii.ascii) : bool := in_bytes 48 57 c.

Fixpoint scan_digits (s : string) : string * string :=
  match s with
  | String c r => if is_digit c then let '(d, r') := scan_digits r in (String c d, r') else ("", s)
  | "" => ("", "")
  end.

(** No leading zeros. *)
Definition scan_int (s : string) : option (string * string) :=
  match s with
  | String c r =>
      if Ascii.eqb c "0" then Some ("0", r)
      else if is_digit c then Some (scan_digits s) else None
  | "" => None
  end.

Definition scan_fraction (s : string) : option (string * string) :=
  match s with
  | String c r =>
      if Ascii.eqb c "." then
        let '(d, r') := scan_digits r in if bool_decide (d = "") then None else Some (String c d, r')
      else Some ("", s)
  | "" => Some ("", "")
  end.

Definition scan_exponent (s : string) : option (string * string) :=
  match s with
  | String c r =>
      if Ascii.eqb c "e" || Ascii.eqb c "E" then
        let '(sg, r1) := match r with
                         | String g r1 => if Ascii.eqb g "+" || Ascii.eqb g "-"
                                          then (String g "", r1) else ("", r)
                         | "" => ("", "")
                         end in
        let '(d, r') := scan_digits r1 in
        if bool_decide (d = "") then None else Some (String c (sg +:+ d), r')
      else Some ("", s)
  | "" => Some ("", "")
  end.

Definition scan_unsigned (s : string) : option (string * string) :=
  match scan_int s with
  | None => None
  | Some (i, s1) =>
      match scan_fraction s1 with
      | None => None
      | Some (f, s2) =>
          match scan_exponent s2 with
          | None => None
          | Some (e, s3) => Some (i +:+ f +:+ e, s3)
          end
      end
  end.

Definition scan_number (s : string) : option (string * string) :=
  match s with
  | String c r => if Ascii.eqb c "-" then cons_fst c (scan_unsigned r) else scan_unsigned s
  | "" => None
  end.

Fixpoint strip (p s : string) : option string :=
  match p, s with
  | "", _ => Some s
  | String a p', String b s' => if Ascii.eqb a b then strip p' s' else None
  | _, "" => None
  end.

(** ** Values *)

Inductive pres (A : Type) : Type :=
| Parsed (a : A) (rest : string)
| Syntax
| Fuel.
Arguments Parsed {A} a rest.
Arguments Syntax {A}.
Arguments Fuel {A}.

Definition pbind {A B} (p : pres A) (f : A -> string -> pres B) : pres B :=
  match p with Parsed a r => f a r | Syntax => Syntax | Fuel => Fuel end.

Definition of_scan {A} (f : string -> A) (o : option (string * string)) : pres A :=
  match o with Some (x, r) => Parsed (f x) r | None => Syntax end.

(** [maxNestingDepth] *)
Definition max_depth : Z := 10000.

Definition keyword (s : string) : pres jv :=
  match strip "null" s, strip "true" s, strip "false" s with
  | Some r, _, _ => Parsed VNull r
  | _, Some r, _ => Parsed (VBool true) r
  | _, _, Some r => Parsed (VBool false) r
  | _, _, _ => Syntax
  end.

Definition opens (c : Ascii.ascii) (s : string) : bool :=
  match skip_ws s with String c' _ => Ascii.eqb c' c | "" => false end.
Arguments opens c%_char s.

Definition after (s : string) : string := match skip_ws s with String _ r => r | "" => "" end.

Fixpoint value (n : nat) (depth : Z) (s : string) {struct n} : pres jv :=
  match n with
  | O => Fuel
  | S n' =>
      match skip_ws s with
      | "" => Syntax
      | String c r =>
          if Ascii.eqb c "{" then
            if max_depth <=? depth then Syntax
            else if opens "}" r then Parsed (VObj []) (after r)
            else pbind (members n' (depth + 1) r) (fun l r => Parsed (VObj l) r)
          else if Ascii.eqb c "[" then
            if max_depth <=? depth then Syntax
            else if opens "]" r then Parsed (VArr []) (after r)
            else pbind (elems n' (depth + 1) r) (fun l r => Parsed (VArr l) r)
          else if Ascii.eqb c dquote then of_scan VStr (scan_string r)
          else if Ascii.eqb c "-" || is_digit c then of_scan VNum (scan_number (String c r))
          else keyword (String c r)
      end
  end
with elems (n : nat) (depth : Z) (s : string) {struct n} : pres (list jv) :=
  match n with
  | O => Fuel
  | S n' =>
      pbind (value n' depth s) (fun v r =>
        if opens "," r then pbind (elems n' depth (after r)) (fun l r' => Parsed (v :: l) r')
        else if opens "]" r then Parsed [v] (after r) else Syntax)
  end
with members (n : nat) (depth : Z) (s : string) {struct n} : pres (list (string * jv)) :=
  match n with
  | O => Fuel
  | S n' =>
      if opens dquote s then
        match scan_string (after s) with
        | None => Syntax
        | Some (k, r) =>
            if opens ":" r then
              pbind (value n' depth (after r)) (fun v r1 =>
                if opens "," r1 then
                  pbind (members n' depth (after r1)) (fun l r2 => Parsed ((k, v) :: l) r2)
                else if opens "}" r1 then Parsed [(k, v)] (after r1) else Syntax)
            else Syntax
        end
      else Syntax
  end.

Definition fuel_for (s : string) : nat := 2 * String.length s + 2.

(** The first value of a text and what follows it: [Decoder.Decode]. *)
Definition parse_prefix (s : string) : option (jv * string) :=
  match value (fuel_for s) 0 s with Parsed v r => Some (v, r) | _ => None end.

(** The one value of a text: [json.Unmarshal]. *)
Definition parse (s : string) : option jv :=
  match parse_prefix s with
  | Some (v, r) => if bool_decide (skip_ws r = "") then Some v else None
  | None => None
  end.

(** ** Compact text, in front of a continuation *)
Fixpoint print (v : jv) (k : string) : string :=
  match v with
  | VNull => "null" +:+ k
  | VBool b => (if b then "true" else "false") +:+ k
  | VNum lit => lit +:+ k
  | VStr raw => String dquote (raw +:+ String dquote k)
  | VArr [] => String "[" (String "]" k)
  | VArr (x :: l) =>
      String "[" (print x ((fix go l := match l with
        | [] => String "]" k
        | y :: l' => String "," (print y (go l'))
        end) l))
  | VObj [] => String "{" (String "}" k)
  | VObj ((key, x) :: l) =>
      String "{" (String dquote (key +:+ String dquote (String ":" (print x ((fix go l := match l with
        | [] => String "}" k
        | (key', y) :: l' => String "," (String dquote (key' +:+ String dquote (String ":" (print y (go l')))))
        end) l)))))
  end.

Example parse_ex : parse " [1, -0.5e3 ,true,{ },[ null]] " =
  Some (VArr [VNum "1"; VNum "-0.5e3"; VBool true; VObj []; VArr [VNull]]).
Proof. reflexivity. Qed.

Example parse_no_leading_zero : parse "[01]" = None.
Proof. reflexivity. Qed.

(** ** The scanner makes progress, so its fuel is enough *)

Abbreviation len := String.length.

Lemma skip_ws_length s : (len (skip_ws s) <= len s)%nat.
Proof. induction s as [|c s IH]; simpl; [lia|]. case_match; simpl; lia. Qed.

Lemma opens_after c s : opens c s = true -> (len (after s) < len s)%nat.
Proof.
  unfold opens, after. pose proof (skip_ws_length s). destruct (skip_ws s); [done|]. simpl in *. lia.
Qed.

Lemma cons_fst_Some c p raw r : cons_fst c p = Some (raw, r) ->
  exists raw', raw = String c raw' /\ p = Some (raw', r).
Proof. destruct p as [[? ?]|]; simpl; [|done]. intros [= <- <-]. eauto. Qed.

Ltac inv_cons_fst :=
  repeat match goal with
  | H : cons_fst _ _ = Some _ |- _ => apply cons_fst_Some in H as (? & -> & H)
  end.

Lemma scan_string_length s raw r : scan_string s = Some (raw, r) -> (len r < len s)%nat.
Proof.
  revert raw r. induction (Nat.lt_wf_0_projected len s) as [s _ IH]. intros raw r.
  destruct s as [|c s]; [done|]. cbn [scan_string].
  repeat (case_match; try done); intros; simplify_eq; inv_cons_fst;
    try (match goal with H : scan_string _ = Some _ |- _ => apply IH in H end); simpl in *; lia.
Qed.

Lemma scan_digits_length s d r : scan_digits s = (d, r) -> len s = (len d + len r)%nat.
Proof.
  revert d r. induction s as [|c s IH]; simpl; intros d r H; [by simplify_eq|].
  destruct (is_digit c); [|by simplify_eq]. destruct (scan_digits s) as [d' r'] eqn:E.
  simplify_eq. simpl. by rewrite (IH d' r).
Qed.

Lemma scan_int_length s d r : scan_int s = Some (d, r) -> (len r < len s)%nat.
Proof.
  unfold scan_int. destruct s as [|c s]; [done|]. case_match; [intros [= <- <-]; simpl; lia|].
  cbn [scan_digits]. destruct (is_digit c); [|done]. destruct (scan_digits s) as [d' r'] eqn:E.
  apply scan_digits_length in E. intros [= <- <-]. simpl. lia.
Qed.

Lemma scan_fraction_length s d r : scan_fraction s = Some (d, r) -> (len r <= len s)%nat.
Proof.
  unfold scan_fraction. destruct s as [|c s]; [by intros [= <- <-]|]. case_match; [|by intros [= <- <-]].
  destruct (scan_digits s) as [d' r'] eqn:E. apply scan_digits_length in E.
  case_bool_decide; [done|]. intros [= <- <-]. simpl. lia.
Qed.

Lemma scan_exponent_length s d r : scan_exponent s = Some (d, r) -> (len r <= len s)%nat.
Proof.
  unfold scan_exponent. destruct s as [|c s]; [by intros [= <- <-]|]. case_match; [|by intros [= <- <-]].
  destruct (match s with "" => _ | _ => _ end) as [sg r1] eqn:Es.
  destruct (scan_digits r1) as [d' r'] eqn:E. apply scan_digits_length in E.
  case_bool_decide; [done|]. intros [= <- <-].
  destruct s as [|g s]; [by simplify_eq/=; lia|]. repeat case_match; simplify_eq/=; lia.
Qed.

Lemma scan_unsigned_length s d r : scan_unsigned s = Some (d, r) -> (len r < len s)%nat.
Proof.
  unfold scan_unsigned. destruct (scan_int s) as [[i s1]|] eqn:E1; [|done].
  destruct (scan_fraction s1) as [[f s2]|] eqn:E2; [|done].
  destruct (scan_exponent s2) as [[e s3]|] eqn:E3; [|done]. intros [= <- <-].
  apply scan_int_length in E1. apply scan_fraction_length in E2. apply scan_exponent_length in E3. lia.
Qed.

Lemma scan_number_length s d r : scan_number s = Some (d, r) -> (len r < len s)%nat.
Proof.
  unfold scan_number. destruct s as [|c s]; [done|]. case_match; [|apply scan_unsigned_length].
  intros H'. inv_cons_fst. apply scan_unsigned_length in H'. simpl. lia.
Qed.

Lemma strip_length p s r : strip p s = Some r -> len s = (len p + len r)%nat.
Proof.
  revert s. induction p as [|a p IH]; intros s; [by intros [= <-]|]. destruct s as [|b s]; [done|].
  simpl. case_match; [|done]. intros Hs. by rewrite (IH s Hs).
Qed.

Lemma keyword_length s v r : keyword s = Parsed v r -> (len r < len s)%nat.
Proof.
  unfold keyword. destruct (strip "null" s) eqn:E1; [|destruct (strip "true" s) eqn:E2;
    [|destruct (strip "false" s) eqn:E3; [|done]]]; intros [= <- <-];
    match goal with E : strip _ _ = Some _ |- _ => apply strip_length in E; simpl in E end; lia.
Qed.

Lemma pbind_Parsed {A B} (p : pres A) (f : A -> string -> pres B) b r :
  pbind p f = Parsed b r -> exists a r1, p = Parsed a r1 /\ f a r1 = Parsed b r.
Proof. destruct p; try done. simpl. eauto. Qed.

Lemma of_scan_Parsed {A} (f : string -> A) o a r :
  of_scan f o = Parsed a r -> exists x, o = Some (x, r) /\ a = f x.
Proof. destruct o as [[x r']|]; [|done]. intros [= <- <-]. eauto. Qed.

(** A value, a list of elements, a list of members consume at least one byte. *)
Lemma value_length n :
  (forall depth s v r, value n depth s = Parsed v r -> (len r < len s)%nat) /\
  (forall depth s l r, elems n depth s = Parsed l r -> (len r < len s)%nat) /\
  (forall depth s l r, members n depth s = Parsed l r -> (len r < len s)%nat).
Proof.
  induction n as [|n (IHv & IHe & IHm)]; [done|]. split_and!; intros depth s v r.
  - cbn [value]. pose proof (skip_ws_length s) as Hs. destruct (skip_ws s) as [|c s1]; [done|].
    simpl in Hs. repeat case_match; try done.
    + intros [= <- <-]. match goal with H : opens _ _ = true |- _ => apply opens_after in H end. lia.
    + intros (l & r1 & E & [= <- <-])%pbind_Parsed. apply IHm in E. lia.
    + intros [= <- <-]. match goal with H : opens _ _ = true |- _ => apply opens_after in H end. lia.
    + intros (l & r1 & E & [= <- <-])%pbind_Parsed. apply IHe in E. lia.
    + intros (x & E & ->)%of_scan_Parsed. apply scan_string_length in E. lia.
    + intros (x & E & ->)%of_scan_Parsed. apply scan_number_length in E. simpl in E. lia.
    + intros E%keyword_length. simpl in E. lia.
  - cbn [elems]. intros (x & r1 & E & H)%pbind_Parsed. apply IHv in E.
    destruct (opens "," r1) eqn:O1; [|destruct (opens "]" r1) eqn:O2; [|done]].
    + apply opens_after in O1. apply pbind_Parsed in H as (l & r2 & E2 & [= <- <-]). apply IHe in E2. lia.
    + apply opens_after in O2. injection H as <- <-. lia.
  - cbn [members]. destruct (opens dquote s) eqn:O; [|done]. apply opens_after in O.
    destruct (scan_string (after s)) as [[k r1]|] eqn:E; [|done]. apply scan_string_length in E.
    destruct (opens ":" r1) eqn:O1; [|done]. apply opens_after in O1.
    intros (x & r2 & E2 & H)%pbind_Parsed. apply IHv in E2.
    destruct (opens "," r2) eqn:O2; [|destruct (opens "}" r2) eqn:O3; [|done]].
    + apply opens_after in O2. apply pbind_Parsed in H as (l & r3 & E3 & [= <- <-]). apply IHm in E3. lia.
    + apply opens_after in O3. injection H as <- <-. lia.
Qed.

Lemma pbind_fuel {A B} (p : pres A) (f : A -> string -> pres B) :
  p <> Fuel -> (forall a r, p = Parsed a r -> f a r <> Fuel) -> pbind p f <> Fuel.
Proof. destruct p; simpl; auto. Qed.

Lemma of_scan_fuel {A} (f : string -> A) o : of_scan f o <> Fuel.
Proof. by destruct o as [[? ?]|]. Qed.

Lemma keyword_fuel s : keyword s <> Fuel.
Proof. unfold keyword. by repeat case_match. Qed.

Lemma value_fuel n :
  (forall depth s, (2 * len s + 1 <= n)%nat -> value n depth s <> Fuel) /\
  (forall depth s, (2 * len s + 2 <= n)%nat -> elems n depth s <> Fuel) /\
  (forall depth s, (2 * len s + 2 <= n)%nat -> members n depth s <> Fuel).
Proof.
  induction n as [|n (IHv & IHe & IHm)]; [split_and!; intros; lia|].
  destruct (value_length n) as (Lv & _ & _). split_and!; intros depth s Hn.
  - cbn [value]. pose proof (skip_ws_length s) as Hs. destruct (skip_ws s) as [|c s1]; [done|].
    simpl in Hs. repeat case_match; try done; try apply of_scan_fuel; try apply keyword_fuel.
    + apply pbind_fuel; [apply IHm; lia|done].
    + apply pbind_fuel; [apply IHe; lia|done].
  - cbn [elems]. apply pbind_fuel; [apply IHv; lia|]. intros v r E. apply Lv in E.
    destruct (opens "," r) eqn:O1; [|by case_match]. apply opens_after in O1.
    apply pbind_fuel; [apply IHe; lia|done].
  - cbn [members]. destruct (opens dquote s) eqn:O; [|done]. apply opens_after in O.
    destruct (scan_string (after s)) as [[k r1]|] eqn:E; [|done]. apply scan_string_length in E.
    destruct (opens ":" r1) eqn:O1; [|done]. apply opens_after in O1.
    apply pbind_fuel; [apply IHv; lia|]. intros v r2 E2. apply Lv in E2.
    destruct (opens "," r2) eqn:O2; [|by case_match]. apply opens_after in O2.
    apply pbind_fuel; [apply IHm; lia|done].
Qed.

Lemma elems_S n depth s : elems (S n) depth s =
  pbind (value n depth s) (fun v r =>
    if opens "," r then pbind (elems n depth (after r)) (fun l r' => Parsed (v :: l) r')
    else if opens "]" r then Parsed [v] (after r) else Syntax).
Proof. done. Qed.

Lemma members_S n depth s : members (S n) depth s =
  if opens dquote s then
    match scan_string (after s) with
    | None => Syntax
    | Some (k, r) =>
        if opens ":" r then
          pbind (value n depth (after r)) (fun v r1 =>
            if opens "," r1 then
              pbind (members n depth (after r1)) (fun l r2 => Parsed ((k, v) :: l) r2)
            else if opens "}" r1 then Parsed [(k, v)] (after r1) else Syntax)
        else Syntax
    end
  else Syntax.
Proof. done. Qed.

(** More fuel does not change an answer. *)
Lemma pbind_mono {A B} (p q : pres A) (f g : A -> string -> pres B) :
  (p <> Fuel -> q = p) -> (forall a r, f a r <> Fuel -> g a r = f a r) ->
  pbind p f <> Fuel -> pbind q g = pbind p f.
Proof.
  intros Hp Hf Hb. destruct p as [a r| |]; [|by rewrite Hp|done].
  rewrite Hp by done. simpl in *. by apply Hf.
Qed.

Lemma value_mono n :
  (forall depth s, value n depth s <> Fuel -> value (S n) depth s = value n depth s) /\
  (forall depth s, elems n depth s <> Fuel -> elems (S n) depth s = elems n depth s) /\
  (forall depth s, members n depth s <> Fuel -> members (S n) depth s = members n depth s).
Proof.
  induction n as [|n (IHv & IHe & IHm)]; [done|]. split_and!; intros depth s.
  - cbn [value]. destruct (skip_ws s) as [|c s1]; [done|]. fold value elems members.
    repeat (case_match; try done); apply pbind_mono; auto.
  - rewrite (elems_S (S n)), (elems_S n). apply pbind_mono; [by apply IHv|]. intros v r.
    case_match; [|done]. apply pbind_mono; auto.
  - rewrite (members_S (S n)), (members_S n). repeat (case_match; try done).
    apply pbind_mono; [by apply IHv|]. intros v r2. case_match; [|done]. apply pbind_mono; auto.
Qed.

Lemma value_more n m depth s :
  (n <= m)%nat -> value n depth s <> Fuel -> value m depth s = value n depth s.
Proof.
  induction 1 as [|m _ IH]; [done|]. intros Hn. specialize (IH Hn).
  rewrite (proj1 (value_mono m)); [done|]. congruence.
Qed.

(** ** Printed values are parsed back *)

(** What may follow a number without being taken for a part of it. *)
Definition num_end (k : string) : bool :=
  match k with
  | "" => true
  | String c _ => negb (is_digit c || Ascii.eqb c "." || Ascii.eqb c "e" || Ascii.eqb c "E")
  end.

(** The text of a number, and of the inside of a string literal. *)
Definition wf_num (lit : string) : Prop :=
  match lit with String c _ => Ascii.eqb c "-" || is_digit c = true | "" => False end /\
  scan_number lit = Some (lit, "").

Definition wf_str (raw : string) : Prop :=
  forall k, scan_string (raw +:+ String dquote k) = Some (raw, k).

Fixpoint wf (v : jv) : Prop :=
  match v with
  | VNum lit => wf_num lit
  | VStr raw => wf_str raw
  | VArr l => foldr (fun x P => wf x /\ P) True l
  | VObj l => foldr (fun kv P => (wf_str kv.1 /\ wf kv.2) /\ P) True l
  | _ => True
  end.

Fixpoint height (v : jv) : Z :=
  match v with
  | VArr l => 1 + foldr (fun x h => Z.max (height x) h) 0 l
  | VObj l => 1 + foldr (fun kv h => Z.max (height kv.2) h) 0 l
  | _ => 0
  end.

(** Fuel the parser uses on a value. *)
Fixpoint need (v : jv) : nat :=
  match v with
  | VArr l => S (foldr (fun x h => S (need x + h)) 0%nat l)
  | VObj l => S (foldr (fun kv h => S (need kv.2 + h)) 0%nat l)
  | _ => 1
  end.

Fixpoint print_elems (l : list jv) (k : string) : string :=
  match l with
  | [] => String "]" k
  | y :: l' => String "," (print y (print_elems l' k))
  end.

Fixpoint print_members (l : list (string * jv)) (k : string) : string :=
  match l with
  | [] => String "}" k
  | (key, y) :: l' =>
      String "," (String dquote (key +:+ String dquote (String ":" (print y (print_members l' k)))))
  end.

Lemma print_arr x l k : print (VArr (x :: l)) k = String "[" (print x (print_elems l k)).
Proof. cbn [print]. do 2 f_equal. induction l as [|y l IH]; [done|]. cbn [print_elems]. by rewrite <-IH. Qed.

Lemma print_obj key x l k :
  print (VObj ((key, x) :: l)) k =
    String "{" (String dquote (key +:+ String dquote (String ":" (print x (print_members l k))))).
Proof.
  cbn [print]. do 6 f_equal. induction l as [|[key' y] l IH]; [done|].
  cbn [print_members]. by rewrite <-IH.
Qed.

Lemma num_end_ext_digits s d r k : num_end k = true ->
  scan_digits s = (d, r) -> scan_digits (s +:+ k) = (d, r +:+ k).
Proof.
  intros Hk. revert d r. induction s as [|c s IH]; intros d r.
  - intros [= <- <-]. change ("" +:+ k) with k. destruct k as [|c k]; [done|]. simpl in *.
    by destruct (is_digit c).
  - rewrite append_cons. cbn [scan_digits]. destruct (is_digit c); [|by intros [= <- <-]].
    destruct (scan_digits s) as [d' r'] eqn:E. intros [= <- <-]. by rewrite (IH d' r').
Qed.

Lemma scan_int_ext s d r k : num_end k = true ->
  scan_int s = Some (d, r) -> scan_int (s +:+ k) = Some (d, r +:+ k).
Proof.
  intros Hk. destruct s as [|c s]; [done|]. unfold scan_int. rewrite append_cons.
  case_match; [by intros [= <- <-]|]. destruct (is_digit c); [|done]. rewrite <-append_cons.
  intros [= E]. f_equal. by apply num_end_ext_digits.
Qed.

Lemma scan_fraction_ext s d r k : num_end k = true ->
  scan_fraction s = Some (d, r) -> scan_fraction (s +:+ k) = Some (d, r +:+ k).
Proof.
  intros Hk. destruct s as [|c s].
  - intros [= <- <-]. change ("" +:+ k) with k. unfold scan_fraction. destruct k as [|c k]; [done|].
    simpl in Hk. destruct (Ascii.eqb c "."); [|done]. by rewrite orb_true_r in Hk.
  - rewrite append_cons. unfold scan_fraction. case_match; [|by intros [= <- <-]].
    destruct (scan_digits s) as [d' r'] eqn:E. rewrite (num_end_ext_digits _ _ _ _ Hk E).
    case_bool_decide; [done|]. by intros [= <- <-].
Qed.

Lemma scan_exponent_ext s d r k : num_end k = true ->
  scan_exponent s = Some (d, r) -> scan_exponent (s +:+ k) = Some (d, r +:+ k).
Proof.
  intros Hk. destruct s as [|c s].
  - intros [= <- <-]. change ("" +:+ k) with k. unfold scan_exponent. destruct k as [|c k]; [done|].
    simpl in Hk. destruct (Ascii.eqb c "e"); [by rewrite !orb_true_r in Hk|].
    destruct (Ascii.eqb c "E"); [by rewrite !orb_true_r in Hk|done].
  - rewrite append_cons. unfold scan_exponent. case_match; [|by intros [= <- <-]].
    destruct s as [|g s]; [done|]. rewrite append_cons.
    destruct (Ascii.eqb g "+" || Ascii.eqb g "-"); [|rewrite <-append_cons];
      (destruct (scan_digits _) as [d' r'] eqn:E; rewrite (num_end_ext_digits _ _ _ _ Hk E);
       case_bool_decide; [done|]; by intros [= <- <-]).
Qed.

Lemma scan_unsigned_ext s d r k : num_end k = true ->
  scan_unsigned s = Some (d, r) -> scan_unsigned (s +:+ k) = Some (d, r +:+ k).
Proof.
  intros Hk. unfold scan_unsigned.
  destruct (scan_int s) as [[i s1]|] eqn:E1; [|done]. rewrite (scan_int_ext _ _ _ _ Hk E1).
  destruct (scan_fraction s1) as [[f s2]|] eqn:E2; [|done]. rewrite (scan_fraction_ext _ _ _ _ Hk E2).
  destruct (scan_exponent s2) as [[e s3]|] eqn:E3; [|done]. rewrite (scan_exponent_ext _ _ _ _ Hk E3).
  by intros [= <- <-].
Qed.

Lemma scan_number_ext lit k : num_end k = true -> wf_num lit ->
  scan_number (lit +:+ k) = Some (lit, k).
Proof.
  intros Hk [_ E]. destruct lit as [|c l]; [done|]. revert E. unfold scan_number. rewrite append_cons.
  case_match.
  - intros (d & [= <-] & E)%cons_fst_Some. by rewrite (scan_unsigned_ext _ _ _ _ Hk E).
  - rewrite <-append_cons. intros E. by rewrite (scan_unsigned_ext _ _ _ _ Hk E).
Qed.

Lemma value_num n depth lit k : num_end k = true -> wf_num lit -> (1 <= n)%nat ->
  value n depth (lit +:+ k) = Parsed (VNum lit) k.
Proof.
  intros Hk Hw Hn. pose proof (scan_number_ext lit k Hk Hw) as E. destruct Hw as [Hc _].
  destruct n as [|n]; [lia|]. destruct lit as [|c l]; [done|]. rewrite append_cons in *. cbn [value].
  assert (forall c', Ascii.eqb c' "-" || is_digit c' = false -> Ascii.eqb c c' = false) as Hne.
  { intros c' Hc'. destruct (Ascii.eqb_spec c c') as [->|]; [congruence|done]. }
  cbn [skip_ws]. unfold is_ws. rewrite !Hne by done. cbn [orb]. rewrite !Hne by done. rewrite Hc. by rewrite E.
Qed.

Lemma opens_cons c s : is_ws c = false -> opens c (String c s) = true.
Proof. intros Hc. unfold opens. simpl. rewrite Hc. apply Ascii.eqb_refl. Qed.

Lemma after_cons c s : is_ws c = false -> after (String c s) = s.
Proof. intros Hc. unfold after. simpl. by rewrite Hc. Qed.

Lemma elems_print l : forall x n depth k,
  Forall (fun v => forall n k, num_end k = true -> (need v <= n)%nat -> value n depth (print v k) = Parsed v k)
    (x :: l) ->
  (foldr (fun x h => S (need x + h)) 0%nat (x :: l) <= n)%nat ->
  elems n depth (print x (print_elems l k)) = Parsed (x :: l) k.
Proof.
  induction l as [|y l IH]; intros x n depth k Hl Hn; apply Forall_cons in Hl as [Hx Hl];
    destruct n as [|n]; simpl in Hn; try lia; rewrite elems_S, Hx by (done || lia); [done|].
  cbn [pbind print_elems]. rewrite opens_cons, after_cons by done.
  rewrite IH; [done|done|]. simpl. lia.
Qed.

Lemma members_print l : forall key x n depth k,
  Forall (fun kv : string * jv => wf_str kv.1 /\ forall n k, num_end k = true -> (need kv.2 <= n)%nat ->
    value n depth (print kv.2 k) = Parsed kv.2 k) ((key, x) :: l) ->
  (foldr (fun kv h => S (need kv.2 + h)) 0%nat ((key, x) :: l) <= n)%nat ->
  members n depth (String dquote (key +:+ String dquote (String ":" (print x (print_members l k))))) =
    Parsed ((key, x) :: l) k.
Proof.
  induction l as [|[key' y] l IH]; intros key x n depth k Hl Hn; apply Forall_cons in Hl as [[Hk Hx] Hl];
    destruct n as [|n]; simpl in Hn; try lia; simpl in Hk, Hx;
    rewrite members_S, opens_cons, after_cons, Hk, opens_cons, after_cons, Hx by (done || lia); [done|].
  cbn [pbind print_members]. rewrite opens_cons, after_cons by done.
  rewrite IH; [done|done|]. simpl. lia.
Qed.

Lemma height_nonneg_list {A} (f : A -> Z) l : 0 <= foldr (fun x h => Z.max (f x) h) 0 l.
Proof. induction l; simpl; lia. Qed.

Lemma foldr_and {A} (P : A -> Prop) l : foldr (fun x Q => P x /\ Q) True l <-> Forall P l.
Proof. induction l as [|x l IH]; simpl; [by rewrite Forall_nil|]. by rewrite Forall_cons, IH. Qed.

Lemma foldr_max_bound {A} (f : A -> Z) l b :
  foldr (fun x h => Z.max (f x) h) 0 l <= b -> Forall (fun x => f x <= b) l.
Proof. induction l as [|x l IH]; simpl; intros H; [done|]. constructor; [lia|]. apply IH. lia. Qed.

(** A printed value does not start like the end of an array. *)
Lemma print_opens v k : wf v -> opens "]" (print v k) = false.
Proof.
  destruct v as [|[]|lit|raw|[|x l]|[|[key x] l]]; try done. intros [Hc _].
  destruct lit as [|c lit]; [done|]. cbn [print]. rewrite append_cons. unfold opens. cbn [skip_ws].
  assert (forall c', Ascii.eqb c' "-" || is_digit c' = false -> Ascii.eqb c c' = false) as Hne.
  { intros c' Hc'. destruct (Ascii.eqb_spec c c') as [->|]; [congruence|done]. }
  unfold is_ws. rewrite !(Hne _) by done. cbn [orb]. by apply Hne.
Qed.

Lemma value_arr n depth x l k : depth < max_depth -> wf x ->
  value (S n) depth (print (VArr (x :: l)) k) =
    pbind (elems n (depth + 1) (print x (print_elems l k))) (fun l r => Parsed (VArr l) r).
Proof.
  intros Hd Hx. rewrite print_arr. cbn [value]. cbn -[max_depth print opens elems].
  rewrite (proj2 (Z.leb_gt _ _) Hd). by rewrite print_opens.
Qed.

Lemma value_obj n depth key x l k : depth < max_depth ->
  value (S n) depth (print (VObj ((key, x) :: l)) k) =
    pbind (members n (depth + 1)
      (String dquote (key +:+ String dquote (String ":" (print x (print_members l k))))))
      (fun l r => Parsed (VObj l) r).
Proof.
  intros Hd. rewrite print_obj. cbn [value]. cbn -[max_depth print opens members].
  rewrite (proj2 (Z.leb_gt _ _) Hd). done.
Qed.

Lemma value_print v : wf v -> forall n depth k, num_end k = true -> (need v <= n)%nat ->
  depth + height v <= max_depth -> value n depth (print v k) = Parsed v k.
Proof.
  induction v as [|b|lit|raw|l IH|l IH] using jv_nested_ind;
    intros Hw n depth k Hk Hn Hd; destruct n as [|n]; cbn [need] in Hn; try lia.
  - done.
  - by destruct b.
  - by apply value_num.
  - cbn [print value]. simpl. by rewrite Hw.
  - cbn [wf] in Hw. apply foldr_and in Hw. cbn [height] in Hd.
    pose proof (height_nonneg_list height l) as Hh.
    destruct l as [|x l].
    { cbn -[max_depth]. by rewrite (proj2 (Z.leb_gt max_depth depth)) by (simpl in Hd; lia). }
    rewrite value_arr by (lia || by inversion Hw). rewrite elems_print; [done| |lia].
    assert (foldr (fun x h => Z.max (height x) h) 0 (x :: l) <= max_depth - depth - 1) as Hb by lia.
    apply foldr_max_bound in Hb. revert IH Hw Hb. rewrite !Forall_forall.
    intros IH Hw Hb v Hv n' k' Hk' Hn'. apply IH; auto. specialize (Hb v Hv). lia.
  - cbn [wf] in Hw. apply (foldr_and (fun kv => wf_str kv.1 /\ wf kv.2)) in Hw. cbn [height] in Hd.
    pose proof (height_nonneg_list (fun kv : string * jv => height kv.2) l) as Hh.
    destruct l as [|[key x] l].
    { cbn -[max_depth]. by rewrite (proj2 (Z.leb_gt max_depth depth)) by (simpl in Hd; lia). }
    rewrite value_obj by lia. rewrite members_print; [done| |lia].
    assert (foldr (fun kv h => Z.max (height kv.2) h) 0 ((key, x) :: l) <= max_depth - depth - 1) as Hb by lia.
    apply (foldr_max_bound (fun kv => height kv.2)) in Hb. revert IH Hw Hb. rewrite !Forall_forall.
    intros IH Hw Hb v Hv. split; [by apply Hw|].
    intros n' k' Hk' Hn'. apply IH; auto; [by apply Hw|]. specialize (Hb v Hv). lia.
Qed.

(** Round trip: the compact text of a value is parsed back to it, whatever
    its size, up to the nesting limit. *)
Lemma parse_print v : wf v -> height v <= max_depth -> parse (print v "") = Some v.
Proof.
  intros Hw Hh. unfold parse, parse_prefix. set (s := print v "").
  set (F := fuel_for s). set (N := Nat.max F (need v)).
  assert (value N 0 s = Parsed v "") as HN by (apply value_print; try done; lia).
  assert (value F 0 s <> Fuel) as HF.
  { apply (proj1 (value_fuel F)). unfold F, fuel_for. lia. }
  rewrite <-(value_more F N) by (done || lia). by rewrite HN.
Qed.
