(* ===== verification/Queue.v ===== *)
(** * The job queue: [pkg/models], [internal/queue]

    Data ([LogEvent], [JobEnvelope], [DLQEntry]), message building and the
    partitioned producer; Dlq.v and Consumer.v have the rest of the package. *)
From S2P Require Import Prelude Utf8 GoStd GoFloat GoTime Config Validator World Trace.
Import Errors.

(** ** Data *)

(** The dynamic values of an [interface{}] that came out of JSON. *)
Inductive json : Type :=
| JNull
| JBool (b : bool)
| JNum (f : float64)
| JStr (s : string)
| JArr (l : list json)
| JObj (l : list (string * json)).

(** [models.LogEvent].  [Metadata] is a Go map: [None] is nil; a map is kept as
    its list of bindings in increasing order of keys. *)
Record LogEvent := mkLogEvent {
  Timestamp : Instant;
  Level : string;
  Service : string;
  Message : string;
  Metadata : option (list (string * json));
  TraceID : string;
}.

(** [queue.JobEnvelope].  [Data] is a pointer: [None] is nil. *)
Record JobEnvelope := mkJob {
  JobID : string;
  Data : option LogEvent;
  EnqueuedAt : Z;
  RetryCount : Z;
  MaxRetries : Z;
  EventType : string;
  LastError : string;
}.

(** [queue.DLQEntry]. *)
Record DLQEntry := mkDLQEntry {
  OriginalStreamID : string;
  JobData : option JobEnvelope;
  FailureReason : string;
  SentToDLQAt : Z;
}.

(** Field assignments of the code. *)
Definition set_RetryCount (n : Z) (j : JobEnvelope) : JobEnvelope :=
  mkJob (JobID j) (Data j) (EnqueuedAt j) n (MaxRetries j) (EventType j) (LastError j).

Definition set_LastError (s : string) (j : JobEnvelope) : JobEnvelope :=
  mkJob (JobID j) (Data j) (EnqueuedAt j) (RetryCount j) (MaxRetries j) (EventType j) s.

(** ** The wire format

    [json.Marshal] and [json.Unmarshal] at the types the queue stores.  The
    queue depends on them through this interface: a value the encoder accepts
    as canonical is read back unchanged. *)
Class Codec := {
  marshal_job : JobEnvelope -> res error string;
  unmarshal_job : string -> res error JobEnvelope;
  marshal_dlq : DLQEntry -> res error string;
  unmarshal_dlq : string -> res error DLQEntry;
}.

(** [job_ok j]: the texts of [j] are valid UTF-8, its timestamp is in the range
    of RFC 3339, its numbers are finite and fit their Go types. *)
Class CodecLaws `{Codec} := {
  event_ok : LogEvent -> Prop;
  job_ok : JobEnvelope -> Prop;
  dlq_ok : DLQEntry -> Prop;
  job_roundtrip : forall j, job_ok j ->
    exists s, marshal_job j = Ok s /\ unmarshal_job s = Ok j;
  dlq_roundtrip : forall e, dlq_ok e ->
    exists s, marshal_dlq e = Ok s /\ unmarshal_dlq s = Ok e;
  job_ok_new : forall id ev t m ty, valid_utf8 id = true -> event_ok ev -> is_int64 t ->
    is_int64 m -> valid_utf8 ty = true -> job_ok (mkJob id (Some ev) t 0 m ty "");
  job_ok_retry : forall j n, job_ok j -> is_int64 n -> job_ok (set_RetryCount n j);
  job_ok_error : forall j s, job_ok j -> valid_utf8 s = true -> job_ok (set_LastError s j);
  dlq_ok_entry : forall id j r t, valid_utf8 id = true -> job_ok j -> valid_utf8 r = true ->
    is_int64 t -> dlq_ok (mkDLQEntry id (Some j) r t);
  dlq_ok_job : forall id j r t, dlq_ok (mkDLQEntry id (Some j) r t) -> job_ok j;
}.

(** ** message.go *)
Section Message.
Context `{Codec}.

(** [buildJobEnvelope]: a fresh job id, the current Unix time, no retries yet. *)
Definition buildJobEnvelope (logEvent : LogEvent) (maxRetries : Z) : prog JobEnvelope :=
  id <- call NewUUID ;;
  now <- call Now ;;
  Return {| JobID := id;
            Data := Some logEvent;
            EnqueuedAt := now / Time.Second;
            RetryCount := 0;
            MaxRetries := maxRetries;
            EventType := "log_event";
            LastError := "" |}.

(** [buildXAddArgs]: the arguments and the payload size. *)
Definition buildXAddArgs (streamName : string) (maxLen : Z) (envelope : JobEnvelope)
    : res error (XAddArgs * Z) :=
  match marshal_job envelope with
  | Err e => Err (Wrapf "failed to marshal job envelope" e)
  | Ok envelopeJSON =>
      Ok (mkXAddArgs streamName maxLen true "*" {["job" := envelopeJSON]},
          Z.of_nat (String.length envelopeJSON))
  end.
End Message.

(** ** producer.go *)
Module Producer.
Section Producer.
Context `{Codec}.
Context (config : QueueConfig.t).

(** [fmt.Sprintf("%s:partition:%d", base, i)] *)
Definition stream_name (i : Z) : string :=
  QueueConfig.BaseStreamName config +:+ ":partition:" +:+ Strconv.Itoa i.

(** [StreamLength]: [XLEN] of every partition in turn, from [i] on; the first
    failure is returned.  [n] counts the partitions left. *)
Fixpoint StreamLength_from (i : Z) (n : nat) (total : Z) : prog (res error Z) :=
  match n with
  | O => Return (Ok total)
  | S n' =>
      r <- call (XLen (stream_name i)) ;;
      match r with
      | Err e =>
          Return (Err (Wrapf ("failed to get stream length for partition " +:+ Strconv.Itoa i) e))
      | Ok length => StreamLength_from (i + 1) n' (wrap64 (total + length))
      end
  end.

Definition StreamLength : prog (res error Z) :=
  StreamLength_from 0 (Z.to_nat (QueueConfig.PartitionCount config)) 0.

(** FNV-1a, 32 bits: [hash/fnv]'s [New32a]. *)
Definition fnv_offset32 : Z := 2166136261.

Definition fnv_prime32 : Z := 16777619.

Fixpoint fnv32a (h : Z) (s : string) : Z :=
  match s with
  | "" => h
  | String c s' => fnv32a (wrap32u (Z.lxor h (Z.of_N (Ascii.N_of_ascii c)) * fnv_prime32)) s'
  end.

(** [int(h.Sum32()) % p.config.PartitionCount]: Go's [%] truncates, and
    panics on zero. *)
Definition partitionFor (routingKey : string) : prog Z :=
  if QueueConfig.PartitionCount config =? 0 then Panic "integer divide by zero"
  else Return (Z.rem (fnv32a fnv_offset32 routingKey) (QueueConfig.PartitionCount config)).

Definition streamNameFor (routingKey : string) : prog string :=
  partitionID <- partitionFor routingKey ;;
  Return (stream_name partitionID).

Definition Enqueue (logEvent : LogEvent) : prog (res error string) :=
  streamName <- streamNameFor (Service logEvent) ;;
  envelope <- buildJobEnvelope logEvent (QueueConfig.RedisMaxRetries config) ;;
  match buildXAddArgs streamName (QueueConfig.MaxLen config) envelope with
  | Err e => Return (Err e)
  | Ok (args, _) =>
      r <- call (XAdd args) ;;
      match r with
      | Err e => Return (Err (Wrapf "failed to add to stream" e))
      | Ok messageID => Return (Ok messageID)
      end
  end.

(** The loop of [EnqueueBatch] that queues one [XADD] per event on the pipeline. *)
Fixpoint batch_args (logEvents : list LogEvent) : prog (res error (list XAddArgs)) :=
  match logEvents with
  | [] => Return (Ok [])
  | logEvent :: rest =>
      streamName <- streamNameFor (Service logEvent) ;;
      envelope <- buildJobEnvelope logEvent (QueueConfig.RedisMaxRetries config) ;;
      match buildXAddArgs streamName (QueueConfig.MaxLen config) envelope with
      | Err e => Return (Err e)
      | Ok (args, _) =>
          r <- batch_args rest ;;
          Return (res_bind r (fun l => Ok (args :: l)))
      end
  end.

Definition EnqueueBatch (logEvents : list LogEvent) : prog (res error (list string)) :=
  match logEvents with
  | [] => Return (Ok [])
  | _ =>
      r <- batch_args logEvents ;;
      match r with
      | Err e => Return (Err e)
      | Ok cmds =>
          x <- call (XAddPipe cmds) ;;
          match x with
          | Err e => Return (Err (Wrapf "failed to execute batch" e))
          | Ok ids => Return (Ok ids)
          end
      end
  end.

Definition producer_Ping : prog (option error) :=
  r <- call Ping ;;
  Return (match r with Ok _ => None | Err e => Some e end).

End Producer.
End Producer.

(** ** What the producer guarantees *)
Section ProducerTheorems.
Context {W : Type} `{RedisLaws W} `{CodecLaws}.
Context (config : QueueConfig.t).
Import Producer.

Lemma fnv32a_range h s : 0 <= h < 2 ^ 32 -> 0 <= fnv32a h s < 2 ^ 32.
Proof.
  revert h. induction s as [|c s IH]; intros h Hh; [done|]. apply IH.
  unfold wrap32u. apply Z.mod_pos_bound. lia.
Qed.

Example fnv32a_a : fnv32a fnv_offset32 "a" = 0xE40C292C.
Proof. reflexivity. Qed.

Example fnv32a_foobar : fnv32a fnv_offset32 "foobar" = 0xBF9CF968.
Proof. reflexivity. Qed.

(** The partition of a routing key, when there are partitions. *)
Definition partition_of (key : string) : Z :=
  fnv32a fnv_offset32 key mod QueueConfig.PartitionCount config.

Lemma partitionFor_eq key :
  0 < QueueConfig.PartitionCount config -> partitionFor config key = Return (partition_of key).
Proof.
  intros Hc. unfold partitionFor, partition_of.
  rewrite (proj2 (Z.eqb_neq _ _)) by lia. f_equal. apply Z.rem_mod_nonneg; [|lia].
  pose proof (fnv32a_range fnv_offset32 key). unfold fnv_offset32 in *. lia.
Qed.

Lemma partition_of_range key :
  0 < QueueConfig.PartitionCount config -> 0 <= partition_of key < QueueConfig.PartitionCount config.
Proof. intros. by apply Z.mod_pos_bound. Qed.

Lemma stream_name_inj i j : stream_name config i = stream_name config j -> i = j.
Proof.
  unfold stream_name. intros Heq. do 2 apply (inj (String.append _)) in Heq. by apply (inj Strconv.Itoa).
Qed.

(** The job a log event becomes. *)
Definition new_job (ev : LogEvent) (j : JobEnvelope) : Prop :=
  Data j = Some ev /\ RetryCount j = 0 /\ MaxRetries j = QueueConfig.RedisMaxRetries config /\
  EventType j = "log_event" /\ LastError j = "".

Lemma run_buildJobEnvelope ev m w :
  event_ok ev -> is_int64 m ->
  exists w' id t, run (buildJobEnvelope ev m) w = (w', Val (mkJob id (Some ev) t 0 m "log_event" "")) /\
    db w' = db w /\ job_ok (mkJob id (Some ev) t 0 m "log_event" "").
Proof.
  intros Hev Hm. unfold buildJobEnvelope. cbn [run bind call].
  destruct (exec NewUUID w) as [w1 id] eqn:E1. destruct (exec Now w1) as [w2 t] eqn:E2.
  apply law_uuid in E1 as [D1 Hid]. apply law_now in E2 as [D2 Ht].
  eexists _, _, _. split; [reflexivity|]. split; [congruence|].
  apply job_ok_new; auto with golog.
Qed.

(** What storing an event does to the data: the stream of its partition can
    gain entries, each carrying the same job for this event, and nothing else
    changes. *)
Definition stored (ev : LogEvent) (d d' : Db) (P : XAddArgs -> Prop) : Prop :=
  let s := stream_name config (partition_of (Service ev)) in
  exists j txt, new_job ev j /\ unmarshal_job txt = Ok j /\
    let args := mkXAddArgs s (QueueConfig.MaxLen config) true "*" {["job" := txt]} in
    P args /\ grown args d d'.

Lemma run_Enqueue ev w :
  valid_queue config -> event_ok ev -> is_int64 (QueueConfig.RedisMaxRetries config) ->
  0 <= partition_of (Service ev) < QueueConfig.PartitionCount config /\
  exists w' r, run (Enqueue config ev) w = (w', Val r) /\
    (forall e, r = Err e -> foreign e = true) /\
    stored ev (db w) (db w') (fun args => forall id, r = Ok id -> appended args id (db w')).
Proof.
  intros Hq Hev Hm. set (s := stream_name config (partition_of (Service ev))).
  assert (0 < QueueConfig.PartitionCount config) as Hc by (unfold valid_queue in Hq; lia).
  split; [by apply partition_of_range|].
  unfold Enqueue, streamNameFor. rewrite partitionFor_eq by done. cbn [bind].
  rewrite run_bind.
  destruct (run_buildJobEnvelope ev _ w Hev Hm) as (w1 & id & t & -> & D1 & Hj).
  destruct (job_roundtrip _ Hj) as (txt & Hmar & Hunm).
  unfold buildXAddArgs. rewrite Hmar. cbn [run bind call]. rewrite <-D1.
  fold s. set (args := mkXAddArgs s _ _ _ _).
  destruct (exec (XAdd args) w1) as [w2 [mid|e]] eqn:E2; cbn [run].
  - apply law_xadd_last in E2 as [Hg Hl]. eexists _, _. split; [reflexivity|]. split; [done|].
    eexists _, txt. split; [|split; [exact Hunm|split; [|exact Hg]]]; [by repeat split|].
    by intros ? [= <-].
  - pose proof (law_xadd_foreign _ _ _ _ E2) as Hf.
    apply law_xadd_err, appends_grown in E2. eexists _, _. split; [reflexivity|]. split; [by intros ? [= <-]|].
    eexists _, txt. split; [|split; [exact Hunm|split; [|exact E2]]]; [by repeat split|done].
Qed.

(** C7: [Enqueue] stores the event in the partition its service hashes to and
    nowhere else.  With a valid queue configuration and an encodable event it
    never panics; when it returns a message id, the stream of that partition
    ends with an entry of this id which decodes to a fresh job for the event
    (no retries yet, the configured retry budget), and every consumer group of
    the stream has it to deliver; when it returns an error, the
    entry may or may not have been appended, and the error is none of the
    service's own.  Either way no other stream, key,
    hash or pending list changes and every entry added decodes to that job. *)
Theorem Enqueue_correct ev w :
  valid_queue config -> event_ok ev -> is_int64 (QueueConfig.RedisMaxRetries config) ->
  0 <= partition_of (Service ev) < QueueConfig.PartitionCount config /\
  exists w' r, run (Enqueue config ev) w = (w', Val r) /\
    (forall e, r = Err e -> foreign e = true) /\
    stored ev (db w) (db w') (fun args => forall id, r = Ok id -> appended args id (db w')).
Proof. apply run_Enqueue. Qed.

(** The [XADD] of an event. *)
Definition event_args (ev : LogEvent) (a : XAddArgs) : Prop :=
  exists j txt, new_job ev j /\ unmarshal_job txt = Ok j /\
    a = mkXAddArgs (stream_name config (partition_of (Service ev))) (QueueConfig.MaxLen config) true "*"
          {["job" := txt]}.

Lemma run_batch_args evs w :
  valid_queue config -> Forall event_ok evs -> is_int64 (QueueConfig.RedisMaxRetries config) ->
  exists w' args, run (batch_args config evs) w = (w', Val (Ok args)) /\ db w' = db w /\
    Forall2 event_args evs args.
Proof.
  intros Hq Hev Hm. assert (0 < QueueConfig.PartitionCount config) as Hc by (unfold valid_queue in Hq; lia).
  revert w. induction Hev as [|ev evs He _ IH]; intros w; [by eexists _, []|].
  cbn [batch_args]. unfold streamNameFor. rewrite partitionFor_eq by done. cbn [bind]. rewrite run_bind.
  destruct (run_buildJobEnvelope ev _ w He Hm) as (w1 & id & t & -> & D1 & Hj).
  destruct (job_roundtrip _ Hj) as (txt & Hmar & Hunm). unfold buildXAddArgs. rewrite Hmar.
  rewrite run_bind. destruct (IH w1) as (w2 & args & -> & D2 & Hargs). cbn [run res_bind].
  eexists _, _. split; [reflexivity|]. split; [congruence|]. constructor; [|done].
  eexists _, txt. split; [|split; [exact Hunm|reflexivity]]. by repeat split.
Qed.

(** C16: [EnqueueBatch] sends one [XADD] per event, in order, each to the
    partition of its own service, and returns one id per event in the same
    order: each partition stream gains exactly the entries of the events routed
    to it, in the order of the batch (less the oldest entries if the limit
    trims).  It never panics; on an error any of the entries may have been
    added (a pipeline is not atomic), and before a success a repeated pipeline
    may have added some of them already. *)
Theorem EnqueueBatch_correct evs w :
  valid_queue config -> Forall event_ok evs -> is_int64 (QueueConfig.RedisMaxRetries config) ->
  exists w' r args, run (EnqueueBatch config evs) w = (w', Val r) /\ Forall2 event_args evs args /\
    match r with
    | Ok ids => exists d1, rtc (pipe_some args) (db w) d1 /\ length ids = length evs /\
        forall s, exists n, entries (get_stream (db w') s) =
          drop n (entries (get_stream d1 s) ++ added s args ids)
    | Err _ => rtc (pipe_some args) (db w) (db w')
    end.
Proof.
  intros Hq Hev Hm. destruct evs as [|ev evs].
  { eexists _, _, []. split; [reflexivity|]. split; [done|]. exists (db w). split; [done|]. split; [done|].
    intros s. exists 0%nat. by rewrite app_nil_r. }
  unfold EnqueueBatch. rewrite run_bind.
  destruct (run_batch_args (ev :: evs) w Hq Hev Hm) as (w1 & args & -> & D1 & Hargs).
  cbn [run bind call]. rewrite <-D1.
  destruct (exec (XAddPipe args) w1) as [w2 [ids|e]] eqn:E; cbn [run]; eexists _, _, args;
    (split; [reflexivity|]; split; [done|]).
  - apply law_xaddpipe in E as (d1 & Hl & Hp). exists d1. split; [done|]. split.
    + rewrite (pipe_length _ _ _ _ Hp). symmetry. by eapply Forall2_length.
    + intros s. by apply (pipe_entries _ _ _ _ s Hp).
  - by apply law_xaddpipe_err in E.
Qed.

(** Number of entries in the first [n] partitions from [i] on. *)
Fixpoint depth_from (d : Db) (i : Z) (n : nat) : Z :=
  match n with
  | O => 0
  | S n' => Z.of_nat (length (entries (get_stream d (stream_name config i)))) + depth_from d (i + 1) n'
  end.

Definition queue_depth (d : Db) : Z :=
  depth_from d 0 (Z.to_nat (QueueConfig.PartitionCount config)).

Lemma depth_from_nonneg d i n : 0 <= depth_from d i n.
Proof. revert i. induction n as [|n IH]; intros i; simpl; [lia|]. specialize (IH (i + 1)). lia. Qed.

Lemma StreamLength_from_spec n i total w :
  is_int64 total -> 0 <= total -> total + depth_from (db w) i n <= max_int64 ->
  exists w' r, run (StreamLength_from config i n total) w = (w', Val r) /\ db w' = db w /\
    match r with
    | Ok len => len = total + depth_from (db w) i n
    | Err _ => failed_xlen (trace (StreamLength_from config i n total) w)
    end.
Proof.
  revert i total w. induction n as [|n IH]; intros i total w Ht Hge0 Hb.
  - eexists _, _. split; [reflexivity|]. split; [done|]. simpl. lia.
  - cbn [StreamLength_from]. cbn [run trace bind call].
    destruct (exec (XLen (stream_name config i)) w) as [w1 r] eqn:E.
    apply law_xlen in E as [D Hr]. destruct r as [len|e]; cbn [run].
    + specialize (Hr len eq_refl). simpl in Hb.
      pose proof (depth_from_nonneg (db w) (i + 1) n).
      rewrite wrap64_id by int64.
      destruct (IH (i + 1) (total + len) w1) as (w' & r & Hrun & D' & Hres); [int64|lia|rewrite D; lia|].
      eexists _, _. split; [exact Hrun|]. split; [congruence|]. destruct r as [l|e].
      * rewrite Hres, D. simpl. lia.
      * destruct Hres as (s & e' & Hin). exists s, e'. by right.
    + eexists _, _. split; [reflexivity|]. split; [done|]. eexists _, _. by left.
Qed.

Lemma run_StreamLength w :
  queue_depth (db w) <= max_int64 ->
  exists w' r, run (StreamLength config) w = (w', Val r) /\ db w' = db w /\
    match r with
    | Ok len => len = queue_depth (db w)
    | Err _ => failed_xlen (trace (StreamLength config) w)
    end.
Proof. intros Hb. unfold StreamLength. apply StreamLength_from_spec; [int64|lia|exact Hb]. Qed.

(** [StreamLength] terminates, changes nothing, and a length it returns is
    the number of entries in all partitions together (entries that were
    acknowledged included: acknowledging does not remove them), as long as
    that number fits an [int64]; it fails only if an [XLEN] did. *)
Theorem StreamLength_correct w :
  queue_depth (db w) <= max_int64 ->
  exists w' r, run (StreamLength config) w = (w', Val r) /\ db w' = db w /\
    match r with
    | Ok len => len = queue_depth (db w)
    | Err _ => failed_xlen (trace (StreamLength config) w)
    end.
Proof. apply run_StreamLength. Qed.

End ProducerTheorems.
