(* ===== verification/Json.v ===== *)
(** * JSON values of the queue: [encoding/json] at the types the code stores

    String literals (escaping and unquoting), numbers, and the struct tags of
    [LogEvent], [JobEnvelope] and [DLQEntry].  The instance of [Codec] at the end
    is what the services run with; [CodecLaws] is its round trip. *)
From Stdlib Require Import SpecFloat.
From S2P Require Import Prelude Utf8 GoStd GoFloat GoTime JsonSyntax Queue.

(** ** String literals *)

Definition hex_digit (v : Z) : Ascii.ascii :=
  Ascii.ascii_of_N (Z.to_N (if v <? 10 then 48 + v else 87 + v)).

(** [\u00XX] *)
Definition u_escape (v : Z) : string :=
  String "\" (String "u" (String "0" (String "0" (String (hex_digit (v / 16)) (String (hex_digit (v mod 16)) ""))))).

(** One ASCII character, as [json.Marshal] writes it (with HTML escaping). *)
Definition escape_ascii (c : Ascii.ascii) : string :=
  if Ascii.eqb c dquote || Ascii.eqb c "\" then String "\" (String c "")
  else if Ascii.eqb c "008" then "\b"
  else if Ascii.eqb c "012" then "\f"
  else if Ascii.eqb c "010" then "\n"
  else if Ascii.eqb c "013" then "\r"
  else if Ascii.eqb c "009" then "\t"
  else if (byte_val c <? 32) || Ascii.eqb c "<" || Ascii.eqb c ">" || Ascii.eqb c "&"
       then u_escape (byte_val c)
  else String c "".

(** U+2028 and U+2029, as bytes. *)
Definition line_sep : string := String "226" (String "128" (String "168" "")).

Definition para_sep : string := String "226" (String "128" (String "169" "")).

Definition escape_chunk (ch : string) : string :=
  match ch with
  | String c "" => escape_ascii c
  | _ => if bool_decide (ch = line_sep) then "\u2028"
         else if bool_decide (ch = para_sep) then "\u2029" else ch
  end.

(** [n] bounds the number of characters; a byte that is not UTF-8 becomes
    U+FFFD. *)
Fixpoint escape_fuel (n : nat) (s : string) : string :=
  match s with
  | "" => ""
  | String _ r0 =>
      match n with
      | O => ""
      | S n' =>
          match rune_chunk s with
          | Some (ch, r) => escape_chunk ch +:+ escape_fuel n' r
          | None => "\ufffd" +:+ escape_fuel n' r0
          end
      end
  end.

Definition escape (s : string) : string := escape_fuel (String.length s) s.

(** UTF-8 encoding of a code point. *)
Definition utf8_encode (v : Z) : string :=
  let b x := Ascii.ascii_of_N (Z.to_N x) in
  if v <? 128 then String (b v) ""
  else if v <? 2048 then String (b (192 + v / 64)) (String (b (128 + v mod 64)) "")
  else if v <? 65536 then
    String (b (224 + v / 4096)) (String (b (128 + v / 64 mod 64)) (String (b (128 + v mod 64)) ""))
  else
    String (b (240 + v / 262144)) (String (b (128 + v / 4096 mod 64))
      (String (b (128 + v / 64 mod 64)) (String (b (128 + v mod 64)) ""))).

Definition replacement : string := utf8_encode 65533.

(** [getu4]: the value of [\uXXXX] at the start of a text. *)
Definition getu4 (s : string) : option (Z * string) :=
  match s with
  | String b (String u r0) =>
      if Ascii.eqb b "\" && Ascii.eqb u "u" then
        match r0 with
        | String h1 (String h2 (String h3 (String h4 r))) =>
            match hex_val h1, hex_val h2, hex_val h3, hex_val h4 with
            | Some x1, Some x2, Some x3, Some x4 => Some (4096 * x1 + 256 * x2 + 16 * x3 + x4, r)
            | _, _, _, _ => None
            end
        | _ => None
        end
      else None
  | _ => None
  end.

Definition between (lo hi v : Z) : bool := (lo <=? v) && (v <=? hi).

(** A [\u] escape: surrogate pairs are joined, lone surrogates replaced. *)
Definition unquote_u (s : string) : option (string * string) :=
  match getu4 s with
  | None => None
  | Some (v, r) =>
      if between 0xD800 0xDFFF v then
        match getu4 r with
        | Some (v2, r2) =>
            if between 0xD800 0xDBFF v && between 0xDC00 0xDFFF v2
            then Some (utf8_encode (65536 + (v - 0xD800) * 1024 + (v2 - 0xDC00)), r2)
            else Some (replacement, r)
        | None => Some (replacement, r)
        end
      else Some (utf8_encode v, r)
  end.

(** One step of [unquoteBytes]: the text of the first character of a literal. *)
Definition unquote_step (s : string) : string * string :=
  match s with
  | "" => ("", "")
  | String c r =>
      if Ascii.eqb c "\" then
        match unquote_u s with
        | Some p => p
        | None =>
            match r with
            | String e r1 => (match simple_escape e with Some x => String x "" | None => "" end, r1)
            | "" => ("", "")
            end
        end
      else match rune_chunk s with Some p => p | None => (replacement, r) end
  end.

Fixpoint unquote_fuel (n : nat) (raw : string) : string :=
  match raw, n with
  | "", _ => ""
  | _, O => ""
  | _, S n' => let '(x, r) := unquote_step raw in x +:+ unquote_fuel n' r
  end.

(** The value of a literal the scanner accepted. *)
Definition unquote (raw : string) : string := unquote_fuel (String.length raw) raw.

Example escape_ex : escape "a<b\c" = "a\u003cb\\c".
Proof. reflexivity. Qed.

Example unquote_ex : unquote "\u00e9\ud83d\ude00\n" = utf8_encode 233 +:+ utf8_encode 128512 +:+ String "010" "".
Proof. reflexivity. Qed.

(** *** Escaped text is one literal, and is unquoted back *)

Lemma escape_fuel_enough n s : (len s <= n)%nat -> escape_fuel n s = escape s.
Proof.
  unfold escape. revert n. induction (Nat.lt_wf_0_projected String.length s) as [s _ IH]. intros n Hn.
  destruct s as [|c s]; [by destruct n|]. destruct n as [|n]; [simpl in Hn; lia|].
  cbn [String.length escape_fuel]. simpl in Hn.
  assert (forall r, (len r <= len s)%nat -> escape_fuel n r = escape_fuel (len s) r) as Heq.
  { intros r Hr. transitivity (escape_fuel (len r) r); [|symmetry]; apply IH; simpl; lia. }
  destruct (rune_chunk (String c s)) as [[ch r]|] eqn:E; f_equal; apply Heq; [|lia].
  apply rune_chunk_length in E. simpl in E. lia.
Qed.

Lemma escape_chunk_eq s ch r : rune_chunk s = Some (ch, r) -> escape s = escape_chunk ch +:+ escape r.
Proof.
  intros E. pose proof (rune_chunk_length _ _ _ E) as Hl. destruct s as [|c s]; [done|].
  unfold escape at 1. cbn [String.length escape_fuel]. rewrite E. f_equal.
  apply escape_fuel_enough. simpl in Hl. lia.
Qed.

(** [t] in front of a literal is read as itself. *)
Definition scans (t : string) : Prop := forall u raw k,
  scan_string u = Some (raw, k) -> scan_string (t +:+ u) = Some (t +:+ raw, k).

Lemma scans_high c t : is_ascii c = false -> scans t -> scans (String c t).
Proof.
  intros Hc Ht u raw k Hu. rewrite !append_cons. cbn [scan_string]. unfold is_ascii in Hc.
  assert (forall c', byte_val c' < 128 -> Ascii.eqb c c' = false) as Hne.
  { intros c' Hc'. destruct (Ascii.eqb_spec c c') as [->|]; [|done]. reflect_Z. lia. }
  reflect_Z. rewrite !Hne by done. rewrite (proj2 (Z.ltb_ge _ _)) by lia. by rewrite (Ht _ _ _ Hu).
Qed.

Lemma cont_high c : cont c = true -> is_ascii c = false.
Proof. unfold cont, in_bytes, is_ascii. intros [? ?]%andb_true_iff. reflect_Z. apply Z.ltb_ge. lia. Qed.

(** The bytes of a code point: one ASCII byte, or high bytes only; what comes
    after them does not matter. *)
Lemma rune_chunk_inv s ch r : rune_chunk s = Some (ch, r) ->
  (exists c, ch = String c "" /\ is_ascii c = true) \/
  ((exists c b ch', ch = String c (String b ch') /\ is_ascii c = false) /\
   scans ch /\ forall t, rune_chunk (ch +:+ t) = Some (ch, t)).
Proof.
  assert (scans "") as Hnil by (intros u raw k Hu; exact Hu).
  unfold rune_chunk at 1. destruct s as [|a s1]; [done|].
  destruct (is_ascii a) eqn:Ha; [intros [= <- <-]; eauto|].
  destruct s1 as [|b s2]; [done|]. destruct (in_bytes 194 223 a && cont b) eqn:H2.
  { intros [= <- <-]. right. apply andb_true_iff in H2 as [Ha2 Hb]. split_and!; [eauto| |].
    - auto using scans_high, cont_high.
    - intros t. rewrite !append_cons. cbn [rune_chunk]. by rewrite Ha, Ha2, Hb. }
  destruct s2 as [|c s3]; [done|]. destruct (lead3 a b && cont c) eqn:H3.
  { intros [= <- <-]. right. pose proof H3 as [Hl Hc]%andb_true_iff. split_and!; [eauto| |].
    - apply scans_high; [done|]. apply scans_high; [|auto using scans_high, cont_high].
      clear - Hl. unfold lead3, cont, in_bytes, is_ascii in *. lia.
    - intros t. rewrite !append_cons. cbn [rune_chunk]. by rewrite Ha, H2, H3. }
  destruct s3 as [|d s4]; [done|]. destruct (lead4 a b && cont c && cont d) eqn:H4; [|done].
  intros [= <- <-]. right. pose proof H4 as [[Hl Hc]%andb_true_iff Hd]%andb_true_iff. split_and!; [eauto| |].
  - apply scans_high; [done|]. apply scans_high; [|auto using scans_high, cont_high].
    clear - Hl. unfold lead4, cont, in_bytes, is_ascii in *. lia.
  - intros t. rewrite !append_cons. cbn [rune_chunk]. by rewrite Ha, H2, H3, H4.
Qed.

Lemma escape_ascii_scans c : is_ascii c = true -> scans (escape_ascii c).
Proof.
  intros Hc u raw k Hu. destruct c as [[] [] [] [] [] [] [] []]; try done;
    match goal with |- context [escape_ascii ?c] =>
      let e := eval vm_compute in (escape_ascii c) in change (escape_ascii c) with e end;
    rewrite !append_cons; change ("" +:+ u) with u; change ("" +:+ raw) with raw; cbn; by rewrite Hu.
Qed.

Lemma escape_ascii_unquote c t : is_ascii c = true ->
  unquote_step (escape_ascii c +:+ t) = (String c "", t).
Proof. intros Hc. by destruct c as [[] [] [] [] [] [] [] []]. Qed.

Lemma escape_chunk_scans s ch r : rune_chunk s = Some (ch, r) -> scans (escape_chunk ch).
Proof.
  intros E. destruct (rune_chunk_inv _ _ _ E) as [(c & -> & Hc)|((c & b & ch' & -> & Hc) & Hs & _)].
  - by apply escape_ascii_scans.
  - unfold escape_chunk. case_bool_decide; [|case_bool_decide; [|done]];
      intros u raw k Hu; rewrite !append_cons; change ("" +:+ u) with u; change ("" +:+ raw) with raw;
      cbn; by rewrite Hu.
Qed.

Lemma escape_chunk_unquote s ch r t : rune_chunk s = Some (ch, r) ->
  unquote_step (escape_chunk ch +:+ t) = (ch, t).
Proof.
  intros E. destruct (rune_chunk_inv _ _ _ E) as [(c & -> & Hc)|((c & b & ch' & -> & Hc) & _ & Hr)].
  - by apply escape_ascii_unquote.
  - unfold escape_chunk. case_bool_decide as H1; [by rewrite H1|].
    case_bool_decide as H2; [by rewrite H2|]. specialize (Hr t). rewrite append_cons in *.
    unfold unquote_step. destruct (Ascii.eqb_spec c "\") as [->|]; [done|]. by rewrite Hr.
Qed.

Lemma escape_chunk_nonempty s ch r : rune_chunk s = Some (ch, r) -> (0 < len (escape_chunk ch))%nat.
Proof.
  intros E. destruct (rune_chunk_inv _ _ _ E) as [(c & -> & Hc)|((c & b & ch' & -> & Hc) & _)].
  - cbn [escape_chunk]. unfold escape_ascii. repeat case_match; simpl; lia.
  - unfold escape_chunk. repeat case_bool_decide; simpl; lia.
Qed.

Lemma escape_wf s : valid_utf8 s = true -> wf_str (escape s).
Proof.
  intros Hs k. revert s Hs. apply valid_utf8_ind; [done|]. intros s ch r E _ IH.
  rewrite (escape_chunk_eq _ _ _ E), append_assoc. by apply (escape_chunk_scans _ _ _ E).
Qed.

Lemma unquote_escape s : valid_utf8 s = true -> unquote (escape s) = s.
Proof.
  intros Hs. unfold unquote.
  assert (forall n, (len (escape s) <= n)%nat -> unquote_fuel n (escape s) = s) as H; [|by apply H].
  revert s Hs. apply (valid_utf8_ind (fun s => forall n, (len (escape s) <= n)%nat ->
    unquote_fuel n (escape s) = s)); [by intros []|]. intros s ch r E _ IH n.
  rewrite (escape_chunk_eq _ _ _ E), length_append. intros Hn.
  pose proof (escape_chunk_nonempty _ _ _ E) as Hpos. pose proof (escape_chunk_unquote _ _ _ (escape r) E) as Hu.
  destruct n as [|n]; [lia|].
  destruct (escape_chunk ch +:+ escape r) as [|x y] eqn:Ee.
  { apply (f_equal len) in Ee. rewrite length_append in Ee. simpl in Ee. lia. }
  cbn [unquote_fuel]. rewrite Hu, IH by lia. symmetry. by apply rune_chunk_app.
Qed.

(** ** Numbers *)

Fixpoint zeros (n : nat) : string := match n with O => "" | S n' => String "0" (zeros n') end.

Fixpoint take_str (n : nat) (s : string) : string :=
  match n, s with S n', String c r => String c (take_str n' r) | _, _ => "" end.

Fixpoint drop_str (n : nat) (s : string) : string :=
  match n, s with S n', String _ r => drop_str n' r | _, _ => s end.

(** The text of [q * 10 ^ sc] for the digits [q]: plain, or with an exponent
    below 1e-6 and from 1e21 on. *)
Definition float_text (q sc : Z) : string :=
  let ds := Strconv.Itoa q in
  let nd := Z.of_nat (len ds) in
  let dp := nd + sc in
  if (dp - 1 <? -6) || (21 <=? dp - 1) then
    take_str 1 ds +:+ (if 1 <? nd then String "." (drop_str 1 ds) else "") +:+
      String "e" (String (if dp - 1 <? 0 then "-" else "+")%char (Strconv.Itoa (Z.abs (dp - 1))))
  else if dp <=? 0 then "0." +:+ zeros (Z.to_nat (- dp)) +:+ ds
  else if nd <=? dp then ds +:+ zeros (Z.to_nat (dp - nd))
  else take_str (Z.to_nat dp) ds +:+ String "." (drop_str (Z.to_nat dp) ds).

(** [10 ^ x <= n / d] *)
Definition pow10_le (x n d : Z) : bool :=
  if 0 <=? x then 10 ^ x * d <=? n else d <=? n * 10 ^ (- x).

(** The decimal exponent of [n / d], from an estimate by binary logarithms. *)
Definition dec_exp (n d : Z) : Z :=
  let est := (Z.log2 n - Z.log2 d) * 30103 / 100000 in
  if pow10_le (est + 1) n d then est + 1 else if pow10_le est n d then est else est - 1.

(** The two decimals of [p] digits around [n / d], the nearer one first. *)
Definition candidates (n d : Z) (p : Z) : list (Z * Z) :=
  let sc := dec_exp n d - p + 1 in
  let num := if 0 <=? sc then n else n * 10 ^ (- sc) in
  let den := if 0 <=? sc then d * 10 ^ sc else d in
  let q := num / den in
  let r := num mod den in
  if (2 * r <? den) || ((2 * r =? den) && Z.even q) then [(q, sc); (q + 1, sc)]
  else [(q + 1, sc); (q, sc)].

(** A number text that is read as [f]. *)
Definition reads_as (f : float64) (t : string) : Prop :=
  match t with String c _ => Ascii.eqb c "-" || is_digit c = true | "" => False end /\
  scan_number t = Some (t, "") /\ ParseFloat.ParseFloat t = Some f.

#[global] Instance reads_as_dec f t : Decision (reads_as f t).
Proof. unfold reads_as. destruct t; apply _. Defined.

(** The shortest decimal that is read as [f]; [None] for NaN and infinities. *)
Definition fmt_float (f : float64) : option string :=
  let texts :=
    match f with
    | S754_zero false => ["0"]
    | S754_zero true => ["-0"]
    | S754_finite s m e =>
        let n := if 0 <=? e then Zpos m * 2 ^ e else Zpos m in
        let d := if 0 <=? e then 1 else 2 ^ (- e) in
        let sign := if s then "-" else "" in
        (fun '(q, sc) => sign +:+ float_text q sc) <$>
          mjoin (candidates n d <$> [1; 2; 3; 4; 5; 6; 7; 8; 9; 10; 11; 12; 13; 14; 15; 16; 17])
    | _ => []
    end in
  snd <$> list_find (reads_as f) texts.

Lemma fmt_float_reads f t : fmt_float f = Some t -> reads_as f t.
Proof.
  unfold fmt_float. intros ([i t'] & E & [= <-])%fmap_Some. by apply list_find_Some in E as (_ & ? & _).
Qed.

Example fmt_float_tenth : (ParseFloat.ParseFloat "0.1" ≫= fmt_float) = Some "0.1".
Proof. vm_compute. reflexivity. Qed.

Example fmt_float_small : (ParseFloat.ParseFloat "1.5e-7" ≫= fmt_float) = Some "1.5e-7".
Proof. vm_compute. reflexivity. Qed.

Example fmt_float_big : (ParseFloat.ParseFloat "123456789012345678901234" ≫= fmt_float) = Some "1.2345678901234569e+23".
Proof. vm_compute. reflexivity. Qed.

(** ** Values of type [interface{}] *)

Section JsonInd.
Context (P : json -> Prop).
Hypothesis Hnull : P JNull.
Hypothesis Hbool : forall b, P (JBool b).
Hypothesis Hnum : forall f, P (JNum f).
Hypothesis Hstr : forall s, P (JStr s).
Hypothesis Harr : forall l, Forall P l -> P (JArr l).
Hypothesis Hobj : forall l, Forall (fun kv => P kv.2) l -> P (JObj l).

Fixpoint json_nested_ind (v : json) : P v :=
  match v with
  | JNull => Hnull
  | JBool b => Hbool b
  | JNum f => Hnum f
  | JStr s => Hstr s
  | JArr l => Harr l
      ((fix go l : Forall P l :=
          match l with
          | [] => @Forall_nil_2 _ _
          | x :: l' => @Forall_cons_2 _ _ _ _ (json_nested_ind x) (go l')
          end) l)
  | JObj l => Hobj l
      ((fix go l : Forall (fun kv => P kv.2) l :=
          match l with
          | [] => @Forall_nil_2 _ _
          | (k, x) :: l' => @Forall_cons_2 _ (fun kv => P kv.2) (k, x) _ (json_nested_ind x) (go l')
          end) l)
  end.

End JsonInd.

(** Encoding; [None] is [json.UnsupportedValueError] (NaN, infinities). *)
Fixpoint enc_any (v : json) : option jv :=
  match v with
  | JNull => Some VNull
  | JBool b => Some (VBool b)
  | JNum f => VNum <$> fmt_float f
  | JStr s => Some (VStr (escape s))
  | JArr l => VArr <$> foldr (fun x acc => y ← enc_any x; ys ← acc; Some (y :: ys)) (Some []) l
  | JObj l => VObj <$> foldr (fun kv acc =>
                 y ← enc_any kv.2; ys ← acc; Some ((escape kv.1, y) :: ys)) (Some []) l
  end.

(** [m[key] = v] on a map kept as its bindings in increasing order of keys. *)
Fixpoint map_insert {A} (key : string) (v : A) (l : list (string * A)) : list (string * A) :=
  match l with
  | [] => [(key, v)]
  | (k', v') :: l' =>
      if bool_decide (key = k') then (key, v) :: l'
      else if String.ltb key k' then (key, v) :: l
      else (k', v') :: map_insert key v l'
  end.

Fixpoint dec_any (v : jv) : option json :=
  match v with
  | VNull => Some JNull
  | VBool b => Some (JBool b)
  | VNum lit => JNum <$> ParseFloat.ParseFloat lit
  | VStr raw => Some (JStr (unquote raw))
  | VArr l => JArr <$> foldr (fun x acc => y ← dec_any x; ys ← acc; Some (y :: ys)) (Some []) l
  | VObj l => JObj <$> fold_left (fun acc kv =>
                 m ← acc; y ← dec_any kv.2; Some (map_insert (unquote kv.1) y m)) l (Some [])
  end.

(** ** Structs *)

(** [foldName]: field names match without regard to case (the long s and the
    Kelvin sign fold to ASCII letters). *)
Definition upper_ascii (c : Ascii.ascii) : Ascii.ascii :=
  if in_bytes 97 122 c then Ascii.ascii_of_N (Ascii.N_of_ascii c - 32) else c.

Fixpoint fold_name (s : string) : string :=
  match s with
  | "" => ""
  | String c r =>
      match r with
      | String c2 r2 =>
          if Ascii.eqb c "197" && Ascii.eqb c2 "191" then String "S" (fold_name r2)
          else match r2 with
               | String c3 r3 =>
                   if Ascii.eqb c "226" && Ascii.eqb c2 "132" && Ascii.eqb c3 "170"
                   then String "K" (fold_name r3)
                   else String (upper_ascii c) (fold_name r)
               | "" => String (upper_ascii c) (fold_name r)
               end
      | "" => String (upper_ascii c) ""
      end
  end.

(** The field a key names: an exact match, else one up to case. *)
Definition field_of (names : list string) (key : string) : option string :=
  if bool_decide (key ∈ names) then Some key
  else snd <$> list_find (fun n => fold_name n = fold_name key) names.

(** Assignments to a field: [null] leaves it as it is. *)
Definition dec_string (v : jv) (old : string) : option string :=
  match v with VStr raw => Some (unquote raw) | VNull => Some old | _ => None end.

Definition dec_int (v : jv) (old : Z) : option Z :=
  match v with
  | VNum lit => match Strconv.ParseInt lit with Ok z => Some z | Err _ => None end
  | VNull => Some old
  | _ => None
  end.

Definition dec_time (v : jv) (old : Instant) : option Instant :=
  match v with VStr raw => parse_time raw | VNull => Some old | _ => None end.

Definition dec_map (v : jv) (old : option (list (string * json))) : option (option (list (string * json))) :=
  match v with
  | VNull => Some None
  | VObj l => Some <$> fold_left (fun acc kv =>
                 m ← acc; y ← dec_any kv.2; Some (map_insert (unquote kv.1) y m)) l (Some (default [] old))
  | _ => None
  end.

(** A struct: its members in order, unknown ones skipped. *)
Definition dec_struct {A} (set : A -> string -> jv -> option A) (names : list string) (v : jv) (old : A) : option A :=
  match v with
  | VNull => Some old
  | VObj l => fold_left (fun acc kv =>
                a ← acc; match field_of names (unquote kv.1) with
                         | Some name => set a name kv.2
                         | None => Some a
                         end) l (Some old)
  | _ => None
  end.

(** *** [models.LogEvent] *)

Definition zero_time : Instant := mkInstant zero_sec 0 0.

Definition zero_event : LogEvent := mkLogEvent zero_time "" "" "" None "".

Definition event_fields : list string := ["timestamp"; "level"; "service"; "message"; "metadata"; "trace_id"].

Definition set_event (e : LogEvent) (name : string) (v : jv) : option LogEvent :=
  let '(mkLogEvent ts lv sv ms md tr) := e in
  if bool_decide (name = "timestamp") then (fun x => mkLogEvent x lv sv ms md tr) <$> dec_time v ts
  else if bool_decide (name = "level") then (fun x => mkLogEvent ts x sv ms md tr) <$> dec_string v lv
  else if bool_decide (name = "service") then (fun x => mkLogEvent ts lv x ms md tr) <$> dec_string v sv
  else if bool_decide (name = "message") then (fun x => mkLogEvent ts lv sv x md tr) <$> dec_string v ms
  else if bool_decide (name = "metadata") then (fun x => mkLogEvent ts lv sv ms x tr) <$> dec_map v md
  else (fun x => mkLogEvent ts lv sv ms md x) <$> dec_string v tr.

Definition dec_event : jv -> LogEvent -> option LogEvent := dec_struct set_event event_fields.

(** A nil or empty map is omitted. *)
Definition enc_metadata (m : option (list (string * json))) : option (list (string * jv)) :=
  match m with
  | None | Some [] => Some []
  | Some l => v ← enc_any (JObj l); Some [("metadata", v)]
  end.

Definition enc_event (e : LogEvent) : option jv :=
  ts ← format_time (Timestamp e);
  md ← enc_metadata (Metadata e);
  Some (VObj ([("timestamp", VStr ts); ("level", VStr (escape (Level e)));
               ("service", VStr (escape (Service e))); ("message", VStr (escape (Message e)))] ++ md ++
              (if bool_decide (TraceID e = "") then [] else [("trace_id", VStr (escape (TraceID e)))]))).

(** *** [queue.JobEnvelope] *)

Definition zero_job : JobEnvelope := mkJob "" None 0 0 0 "" "".

Definition job_fields : list string :=
  ["job_id"; "data"; "enqueued_at"; "retry_count"; "max_retries"; "event_type"; "last_error"].

(** A pointer to a struct: [null] makes it nil, an object fills what it points
    to (a new value when it was nil). *)
Definition dec_ptr {A} (dec : jv -> A -> option A) (zero : A) (v : jv) (old : option A) : option (option A) :=
  match v with
  | VNull => Some None
  | _ => Some <$> dec v (default zero old)
  end.

Definition set_job (j : JobEnvelope) (name : string) (v : jv) : option JobEnvelope :=
  let '(mkJob id dt en rc mr et le) := j in
  if bool_decide (name = "job_id") then (fun x => mkJob x dt en rc mr et le) <$> dec_string v id
  else if bool_decide (name = "data") then
    (fun x => mkJob id x en rc mr et le) <$> dec_ptr dec_event zero_event v dt
  else if bool_decide (name = "enqueued_at") then (fun x => mkJob id dt x rc mr et le) <$> dec_int v en
  else if bool_decide (name = "retry_count") then (fun x => mkJob id dt en x mr et le) <$> dec_int v rc
  else if bool_decide (name = "max_retries") then (fun x => mkJob id dt en rc x et le) <$> dec_int v mr
  else if bool_decide (name = "event_type") then (fun x => mkJob id dt en rc mr x le) <$> dec_string v et
  else (fun x => mkJob id dt en rc mr et x) <$> dec_string v le.

Definition dec_job : jv -> JobEnvelope -> option JobEnvelope := dec_struct set_job job_fields.

Definition enc_ptr {A} (enc : A -> option jv) (p : option A) : option jv :=
  match p with None => Some VNull | Some a => enc a end.

Definition enc_job (j : JobEnvelope) : option jv :=
  data ← enc_ptr enc_event (Data j);
  Some (VObj ([("job_id", VStr (escape (JobID j))); ("data", data);
               ("enqueued_at", VNum (Strconv.Itoa (EnqueuedAt j)));
               ("retry_count", VNum (Strconv.Itoa (RetryCount j)));
               ("max_retries", VNum (Strconv.Itoa (MaxRetries j)));
               ("event_type", VStr (escape (EventType j)))] ++
              (if bool_decide (LastError j = "") then [] else [("last_error", VStr (escape (LastError j)))]))).

(** *** [queue.DLQEntry] *)

Definition zero_dlq : DLQEntry := mkDLQEntry "" None "" 0.

Definition dlq_fields : list string := ["original_stream_id"; "job_data"; "failure_reason"; "sent_to_dlq_at"].

Definition set_dlq (e : DLQEntry) (name : string) (v : jv) : option DLQEntry :=
  let '(mkDLQEntry id jd fr st) := e in
  if bool_decide (name = "original_stream_id") then (fun x => mkDLQEntry x jd fr st) <$> dec_string v id
  else if bool_decide (name = "job_data") then
    (fun x => mkDLQEntry id x fr st) <$> dec_ptr dec_job zero_job v jd
  else if bool_decide (name = "failure_reason") then (fun x => mkDLQEntry id jd x st) <$> dec_string v fr
  else (fun x => mkDLQEntry id jd fr x) <$> dec_int v st.

Definition dec_dlq : jv -> DLQEntry -> option DLQEntry := dec_struct set_dlq dlq_fields.

Definition enc_dlq (e : DLQEntry) : option jv :=
  data ← enc_ptr enc_job (JobData e);
  Some (VObj [("original_stream_id", VStr (escape (OriginalStreamID e))); ("job_data", data);
              ("failure_reason", VStr (escape (FailureReason e)));
              ("sent_to_dlq_at", VNum (Strconv.Itoa (SentToDLQAt e)))]).

(** ** [json.Marshal] and [json.Unmarshal]

    The text of a decoding or encoding error is not modelled. *)
Definition json_error : error := Errors.ErrorString "json".

Definition marshal {A} (enc : A -> option jv) (a : A) : res error string :=
  match enc a with Some v => Ok (print v "") | None => Err json_error end.

Definition unmarshal {A} (dec : jv -> A -> option A) (zero : A) (s : string) : res error A :=
  match parse s with
  | Some v => match dec v zero with Some a => Ok a | None => Err json_error end
  | None => Err json_error
  end.

(** [parseMessage] of message.go: a log event alone. *)
Definition parse_log_event (data : string) : res error LogEvent := unmarshal dec_event zero_event data.

#[global] Instance GoCodec : Codec := {|
  marshal_job := marshal enc_job;
  unmarshal_job := unmarshal dec_job zero_job;
  marshal_dlq := marshal enc_dlq;
  unmarshal_dlq := unmarshal dec_dlq zero_dlq;
|}.

(** ** Round trips *)

(** Keys in strictly increasing order. *)
Fixpoint sorted_keys (l : list string) : bool :=
  match l with
  | [] => true
  | a :: r => forallb (String.ltb a) r && sorted_keys r
  end.

(** Values that have an exact text: UTF-8 strings, finite numbers. *)
Fixpoint json_okb (v : json) : bool :=
  match v with
  | JNull | JBool _ => true
  | JNum f => bool_decide (is_Some (fmt_float f))
  | JStr s => valid_utf8 s
  | JArr l => forallb json_okb l
  | JObj l => forallb (fun kv => valid_utf8 kv.1 && json_okb kv.2) l && sorted_keys l.*1
  end.

Fixpoint jheight (v : json) : Z :=
  match v with
  | JArr l => 1 + foldr (fun x h => Z.max (jheight x) h) 0 l
  | JObj l => 1 + foldr (fun kv h => Z.max (jheight kv.2) h) 0 l
  | _ => 0
  end.

Lemma ltb_asym a b : String.ltb a b = true -> a <> b /\ String.ltb b a = false.
Proof.
  unfold String.ltb. rewrite (String.compare_antisym b a).
  destruct (String.compare a b) eqn:E; try done. intros _. split; [|done].
  intros ->. pose proof (String.compare_antisym b b) as Ha. by rewrite E in Ha.
Qed.

Lemma map_insert_last {A} key (v : A) l :
  Forall (fun kv => String.ltb kv.1 key = true) l -> map_insert key v l = l ++ [(key, v)].
Proof.
  induction 1 as [|[k' v'] l Hk _ IH]; [done|]. cbn [map_insert]. simpl in Hk.
  apply ltb_asym in Hk as [Hne Hlt]. rewrite bool_decide_false by congruence. by rewrite Hlt, IH.
Qed.

(** A value [w] is a text of [v]. *)
Definition codes (v : json) (w : jv) : Prop := wf w /\ height w = jheight v /\ dec_any w = Some v.

Lemma enc_list_ok l :
  Forall (fun v => json_okb v = true -> exists w, enc_any v = Some w /\ codes v w) l ->
  forallb json_okb l = true ->
  exists ws, foldr (fun x acc => y ← enc_any x; ys ← acc; Some (y :: ys)) (Some []) l = Some ws /\
    Forall2 codes l ws.
Proof.
  induction 1 as [|v l Hv _ IH]; [eauto|]. simpl. intros [H1 H2]%andb_true_iff.
  destruct (Hv H1) as (w & -> & Hw), (IH H2) as (ws & -> & Hws). simpl. eauto.
Qed.

Lemma enc_members_ok l :
  Forall (fun kv : string * json => json_okb kv.2 = true -> exists w, enc_any kv.2 = Some w /\ codes kv.2 w) l ->
  forallb (fun kv => valid_utf8 kv.1 && json_okb kv.2) l = true ->
  exists ws, foldr (fun kv acc => y ← enc_any kv.2; ys ← acc; Some ((escape kv.1, y) :: ys)) (Some []) l = Some ws /\
    Forall2 (fun kv kw => kw.1 = escape kv.1 /\ valid_utf8 kv.1 = true /\ codes kv.2 kw.2) l ws.
Proof.
  induction 1 as [|v l Hv _ IH]; [eauto|]. simpl. intros [[H0 H1]%andb_true_iff H2]%andb_true_iff.
  destruct (Hv H1) as (w & -> & Hw), (IH H2) as (ws & -> & Hws). simpl. eexists. split; [done|].
  constructor; [|done]. done.
Qed.

Lemma dec_list_ok l ws : Forall2 codes l ws ->
  foldr (fun x acc => y ← dec_any x; ys ← acc; Some (y :: ys)) (Some []) ws = Some l /\
  foldr (fun x P => wf x /\ P) True ws /\
  foldr (fun x h => Z.max (height x) h) 0 ws = foldr (fun x h => Z.max (jheight x) h) 0 l.
Proof.
  induction 1 as [|v w l ws (Hw & Hh & Hd) _ (IH1 & IH2 & IH3)]; [done|]. simpl.
  rewrite Hd, IH1, Hh, IH3. done.
Qed.

Lemma dec_members_ok l ws acc :
  Forall2 (fun kv kw => kw.1 = escape kv.1 /\ valid_utf8 kv.1 = true /\ codes kv.2 kw.2) l ws ->
  sorted_keys (acc ++ l).*1 = true ->
  fold_left (fun acc kv => m ← acc; y ← dec_any kv.2; Some (map_insert (unquote kv.1) y m)) ws (Some acc)
    = Some (acc ++ l) /\
  foldr (fun kv P => (wf_str kv.1 /\ wf kv.2) /\ P) True ws /\
  foldr (fun kv h => Z.max (height kv.2) h) 0 ws = foldr (fun kv h => Z.max (jheight kv.2) h) 0 l.
Proof.
  intros H2. revert acc. induction H2 as [|[k v] [kw w] l ws (Hk & Hu & Hw & Hh & Hd) _ IH]; intros acc Hs.
  { by rewrite app_nil_r. }
  simpl in *. subst kw. rewrite Hd. simpl. rewrite unquote_escape by done.
  assert (Forall (fun kv : string * json => String.ltb kv.1 k = true) acc) as Hacc.
  { clear - Hs. induction acc as [|[a x] acc IH]; [done|]. simpl in Hs.
    apply andb_true_iff in Hs as [Ha Hs]. constructor; [|by apply IH].
    rewrite forallb_forall in Ha. apply Ha. rewrite fmap_app. apply in_app_iff. right. by left. }
  rewrite map_insert_last by done.
  destruct (IH (acc ++ [(k, v)])) as (IH1 & IH2 & IH3); [by rewrite <-app_assoc|].
  rewrite <-app_assoc in IH1. simpl in IH1. rewrite IH1, Hh, IH3.
  split_and!; try done. by apply escape_wf.
Qed.

Lemma enc_any_ok v : json_okb v = true -> exists w, enc_any v = Some w /\ codes v w.
Proof.
  induction v as [|b|f|s|l IH|l IH] using json_nested_ind; cbn [json_okb enc_any]; intros Hok.
  - eexists. by repeat split.
  - eexists. by repeat split.
  - apply bool_decide_eq_true in Hok as [t Ht]. rewrite Ht. eexists. split; [done|].
    apply fmt_float_reads in Ht as (Hc & Hn & Hp). split_and!; [done|done|]. cbn. by rewrite Hp.
  - eexists. split; [done|]. split_and!; [by apply escape_wf|done|]. cbn. by rewrite unquote_escape.
  - destruct (enc_list_ok l IH Hok) as (ws & -> & Hws). apply dec_list_ok in Hws as (H1 & H2 & H3).
    eexists. split; [done|]. split_and!; [done|cbn; by rewrite H3|cbn; by rewrite H1].
  - apply andb_true_iff in Hok as [Hok Hs].
    destruct (enc_members_ok l IH Hok) as (ws & -> & Hws).
    destruct (dec_members_ok l ws [] Hws Hs) as (H1 & H2 & H3).
    eexists. split; [done|]. split_and!; [done|cbn; by rewrite H3|cbn; by rewrite H1].
Qed.

(** *** Integers *)

Lemma pretty_char_digit d : (d < 10)%N ->
  is_digit (pretty_N_char d) = true /\ ((0 < d)%N -> Ascii.eqb (pretty_N_char d) "0" = false).
Proof.
  intros Hd.
  assert (d = 0 \/ d = 1 \/ d = 2 \/ d = 3 \/ d = 4 \/ d = 5 \/ d = 6 \/ d = 7 \/ d = 8 \/ d = 9)%N
    as Hc by lia.
  destruct_or!; subst; split; done.
Qed.

Lemma scan_digits_pretty (x : N) s d r :
  scan_digits s = (d, r) -> scan_digits (pretty_N_go x s) = (pretty_N_go x d, r).
Proof.
  revert s d. induction (N.lt_wf_0 x) as [x _ IH]; intros s d Hs.
  destruct (decide (x = 0)%N) as [->|Hne]; [by rewrite !pretty_N_go_0|].
  rewrite (pretty_N_go_step x s), (pretty_N_go_step x d) by lia.
  apply IH; [apply N.div_lt; lia|]. cbn [scan_digits].
  rewrite (proj1 (pretty_char_digit (x mod 10) ltac:(apply N.mod_lt; lia))). by rewrite Hs.
Qed.

Lemma pretty_N_first (x : N) s : (0 < x)%N ->
  exists c t, pretty_N_go x s = String c t /\ is_digit c = true /\ Ascii.eqb c "0" = false.
Proof.
  revert s. induction (N.lt_wf_0 x) as [x _ IH]; intros s Hx. rewrite pretty_N_go_step by lia.
  destruct (decide (x / 10 = 0)%N) as [Hz|Hz].
  - rewrite Hz, pretty_N_go_0. eexists _, _. split; [done|].
    destruct (pretty_char_digit (x mod 10) ltac:(apply N.mod_lt; lia)) as [H1 H2]. split; [done|].
    apply H2. pose proof (N.div_mod x 10 ltac:(lia)). lia.
  - apply IH; [apply N.div_lt; lia|by apply N.neq_0_lt_0].
Qed.

Lemma scan_unsigned_pretty (x : positive) :
  scan_unsigned (pretty (N.pos x)) = Some (pretty (N.pos x), "") /\
  match (pretty (N.pos x) : string) with String c _ => Ascii.eqb c "-" || is_digit c = true | "" => False end.
Proof.
  unfold pretty, pretty_N. rewrite decide_False by lia.
  destruct (pretty_N_first (N.pos x) "") as (c & t & E & Hd & H0); [lia|].
  pose proof (scan_digits_pretty (N.pos x) "" "" "" eq_refl) as Hs.
  rewrite E in *. split; [|by rewrite Hd, orb_true_r].
  unfold scan_unsigned, scan_int. rewrite H0, Hd, Hs. cbn. by rewrite append_nil_r.
Qed.

Lemma Itoa_wf z : wf_num (Strconv.Itoa z).
Proof.
  unfold Strconv.Itoa, pretty, pretty_Z. destruct z as [|p|p]; [done| |].
  - destruct (scan_unsigned_pretty p) as [Hs Hc]. change (pretty p) with (pretty (N.pos p)).
    split; [done|]. unfold scan_number. destruct (pretty (N.pos p) : string) as [|c t] eqn:E; [done|].
    destruct (Ascii.eqb_spec c "-") as [->|]; [|done].
    exfalso. revert Hs. by unfold scan_unsigned, scan_int.
  - destruct (scan_unsigned_pretty p) as [Hs Hc].
    change ("-" +:+ pretty p) with (String "-" (pretty (N.pos p))). split; [done|].
    unfold scan_number. cbn [Ascii.eqb]. change (Ascii.eqb "-" "-") with true. cbn iota. by rewrite Hs.
Qed.

(** *** Times *)

Lemma scans_nil : scans "".
Proof. intros u raw k Hu. exact Hu. Qed.

Lemma scans_plain c t : Ascii.eqb c dquote || (byte_val c <? 32) || Ascii.eqb c "\" = false ->
  scans t -> scans (String c t).
Proof.
  intros Hc Ht u raw k Hu. rewrite !append_cons. cbn [scan_string].
  apply orb_false_iff in Hc as [[-> ->]%orb_false_iff ->]. by rewrite (Ht _ _ _ Hu).
Qed.

Lemma scans_dig d t : 0 <= d < 10 -> scans t -> scans (String (dig d) t).
Proof.
  intros Hd. apply scans_plain.
  assert (d = 0 \/ d = 1 \/ d = 2 \/ d = 3 \/ d = 4 \/ d = 5 \/ d = 6 \/ d = 7 \/ d = 8 \/ d = 9)
    as Hc by lia. by destruct_or!; subst.
Qed.

Lemma scans_pad2 n t : 0 <= n < 100 -> scans t -> scans (pad2 n t).
Proof.
  intros Hn Ht. unfold pad2. repeat apply scans_dig; try done; Z.to_euclidean_division_equations; lia.
Qed.

Lemma scans_frac w v t : 0 <= v < 10 ^ Z.of_nat w -> scans t -> scans (frac_digits w v t).
Proof.
  intros Hv Ht. revert v Hv. induction w as [|w IH]; intros v Hv; [done|]. cbn [frac_digits].
  case_match; [done|]. assert (0 < 10 ^ Z.of_nat w) by (apply Z.pow_pos_nonneg; lia).
  rewrite Nat2Z.inj_succ, Z.pow_succ_r in Hv by lia. apply scans_dig.
  - split; [apply Z.div_pos; lia|]. apply Z.div_lt_upper_bound; lia.
  - apply IH. apply Z.mod_pos_bound. lia.
Qed.

Lemma scans_wf t : scans t -> wf_str t.
Proof.
  intros Ht k. rewrite (Ht (String dquote k) "" k); [by rewrite append_nil_r|done].
Qed.

Lemma scans_zone off : Z.abs off < 86400 -> scans (zone off).
Proof.
  intros Ha. unfold zone. case_match; [by apply scans_plain, scans_nil|].
  apply scans_plain; [by case_match|]. apply scans_pad2; [Z.to_euclidean_division_equations; lia|].
  apply scans_plain; [done|]. apply scans_pad2, scans_nil. Z.to_euclidean_division_equations. lia.
Qed.

Lemma format_time_wf t s : instant_ok t = true -> format_time t = Some s -> wf_str s.
Proof.
  unfold instant_ok. rewrite !andb_true_iff. intros ((((Hn1 & Hn2) & _) & Ha) & _). reflect_Z.
  unfold format_time. destruct (civil_of_days _) as [[y m] d] eqn:Ec.
  apply civil_spec in Ec as (_ & Hmon & Hday). destruct (_ && _) eqn:Hok; [|done]. intros [= <-].
  rewrite !andb_true_iff in Hok. destruct Hok as [[Hy1 Hy2] _]. reflect_Z.
  assert (d <= 31) as Hd31 by (unfold days_in in Hday; repeat case_match; lia).
  assert (0 <= (t_sec t + t_off t) mod 86400 < 86400) as Hl by (apply Z.mod_pos_bound; lia).
  apply scans_wf. unfold pad4, frac.
  repeat (first [apply scans_pad2; [Z.to_euclidean_division_equations; lia|]|apply scans_plain; [done|]]).
  case_match; [by apply scans_zone|]. apply scans_plain; [done|]. apply scans_frac; [|by apply scans_zone].
  unfold Time.Second, Time.Millisecond, Time.Microsecond, Time.Nanosecond in Hn2. lia.
Qed.

(** *** Structs *)

Definition map_okb (m : option (list (string * json))) : bool :=
  match m with
  | None => true
  | Some l => negb (bool_decide (length l = 0%nat)) && json_okb (JObj l) && (jheight (JObj l) <=? 9000)
  end.

(** Events, jobs and dead letters that have an exact text. *)
Definition event_okb (e : LogEvent) : bool :=
  instant_ok (Timestamp e) && valid_utf8 (Level e) && valid_utf8 (Service e) && valid_utf8 (Message e) &&
  map_okb (Metadata e) && valid_utf8 (TraceID e).

Definition is_int64b (z : Z) : bool := (min_int64 <=? z) && (z <=? max_int64).

Definition job_okb (j : JobEnvelope) : bool :=
  valid_utf8 (JobID j) && match Data j with Some e => event_okb e | None => true end &&
  is_int64b (EnqueuedAt j) && is_int64b (RetryCount j) && is_int64b (MaxRetries j) &&
  valid_utf8 (EventType j) && valid_utf8 (LastError j).

Definition dlq_okb (e : DLQEntry) : bool :=
  valid_utf8 (OriginalStreamID e) && match JobData e with Some j => job_okb j | None => true end &&
  valid_utf8 (FailureReason e) && is_int64b (SentToDLQAt e).

Lemma is_int64b_spec z : is_int64b z = true <-> is_int64 z.
Proof. unfold is_int64b, is_int64. rewrite andb_true_iff, !Z.leb_le. done. Qed.

Lemma enc_map_ok m : map_okb m = true ->
  exists md, enc_metadata m = Some md /\
    ((md = [] /\ m = None) \/
     exists ws, md = [("metadata", VObj ws)] /\ wf (VObj ws) /\ height (VObj ws) <= 9000 /\
       dec_map (VObj ws) None = Some m).
Proof.
  unfold enc_metadata. destruct m as [l|]; simpl; [|eauto]. rewrite !andb_true_iff. intros [[Hne Hok] Hh].
  destruct (enc_any_ok (JObj l)) as (w & Hw & Hwf & Hht & Hd); [simpl; by apply andb_true_iff|].
  destruct l as [|kv l]; [done|]. cbn [enc_any] in Hw. rewrite Hw. simpl. eexists. split; [done|]. right.
  apply fmap_Some in Hw as (ws & Hf & ->). eexists. split; [done|split; [done|split]].
  - change (height (VObj ws) <= 9000). rewrite Hht. by apply Z.leb_le.
  - revert Hd. cbn [dec_any dec_map default]. destruct (fold_left _ _ _); simpl; [|done]. by intros [= ->].
Qed.

Lemma dec_escape s old : valid_utf8 s = true -> dec_string (VStr (escape s)) old = Some s.
Proof. intros. simpl. by rewrite unquote_escape. Qed.

Lemma dec_Itoa z old : is_int64 z -> dec_int (VNum (Strconv.Itoa z)) old = Some z.
Proof. intros. simpl. by rewrite Strconv.ParseInt_Itoa. Qed.

(** One member of a struct. *)
Lemma dec_member {A} (set : A -> string -> jv -> option A) names k v l a name a' :
  field_of names (unquote k) = Some name -> set a name v = Some a' ->
  dec_struct set names (VObj ((k, v) :: l)) a = dec_struct set names (VObj l) a'.
Proof. intros Hf Hs. unfold dec_struct. cbn [fold_left mbind option_bind fst snd]. by rewrite Hf, Hs. Qed.

Lemma dec_ptr_obj {A} (dec : jv -> A -> option A) zero l a :
  dec (VObj l) zero = Some a -> dec_ptr dec zero (VObj l) None = Some (Some a).
Proof. intros H. unfold dec_ptr. cbn [default]. by rewrite H. Qed.

(** Decode the members of an object one by one. *)
Ltac member_value :=
  unfold set_event, set_job, set_dlq;
  repeat first [rewrite bool_decide_false by done|rewrite bool_decide_true by done];
  first [rewrite dec_escape by done|rewrite dec_Itoa by done|
         match goal with H : ?x = Some _ |- context [?x] => rewrite H end|
         cbn [dec_time]; match goal with H : ?x = Some _ |- context [?x] => rewrite H end|
         cbn [dec_ptr]];
  reflexivity.

Ltac members :=
  repeat (erewrite dec_member; [|vm_compute; reflexivity|cbn -[bool_decide dec_string dec_int dec_time dec_map dec_ptr]; member_value]);
  try reflexivity.

Ltac wf_members :=
  cbn [wf foldr fst snd];
  repeat match goal with |- _ /\ _ => split end;
  first [done|by apply escape_wf|apply Itoa_wf|intros ?; reflexivity].

Lemma enc_event_ok e : event_okb e = true ->
  exists l, enc_event e = Some (VObj l) /\ wf (VObj l) /\ height (VObj l) <= 9001 /\
    dec_event (VObj l) zero_event = Some e.
Proof.
  unfold event_okb. rewrite !andb_true_iff. intros (((((Ht & Hl) & Hs) & Hm) & Hd) & Htr).
  destruct (parse_format_time _ Ht) as (ts & Hf & Hp). pose proof (format_time_wf _ _ Ht Hf) as Hwf.
  destruct (enc_map_ok _ Hd) as (md & Hmd & Hcase). unfold enc_event. rewrite Hf, Hmd. cbn [mbind option_bind].
  eexists. split; [done|]. destruct e as [t lv sv ms m tr].
  cbn [Timestamp Level Service Message Metadata TraceID] in *. unfold dec_event, zero_event.
  destruct Hcase as [[-> ->]|(ws & -> & Hw1 & Hw2 & Hw3)]; case_bool_decide; subst; cbn [app].
  - split; [wf_members|split; [cbn; lia|members]].
  - split; [wf_members|split; [cbn; lia|members]].
  - split; [wf_members|split; [cbn [height foldr snd] in *; lia|members]].
  - split; [wf_members|split; [cbn [height foldr snd] in *; lia|members]].
Qed.

Lemma enc_ptr_ok {A} (enc : A -> option jv) (dec : jv -> A -> option A) zero (okb : A -> bool) b p :
  (forall a, okb a = true -> exists l, enc a = Some (VObj l) /\ wf (VObj l) /\ height (VObj l) <= b /\
     dec (VObj l) zero = Some a) ->
  0 <= b -> match p with Some a => okb a | None => true end = true ->
  exists w, enc_ptr enc p = Some w /\ wf w /\ height w <= b /\ dec_ptr dec zero w None = Some p.
Proof.
  intros Henc Hb Hp. destruct p as [a|]; [|by exists VNull].
  destruct (Henc a Hp) as (l & He & Hw & Hh & Hd). exists (VObj l). split; [done|]. split; [done|].
  split; [done|]. by apply dec_ptr_obj.
Qed.

Lemma enc_job_ok j : job_okb j = true ->
  exists l, enc_job j = Some (VObj l) /\ wf (VObj l) /\ height (VObj l) <= 9002 /\
    dec_job (VObj l) zero_job = Some j.
Proof.
  unfold job_okb. rewrite !andb_true_iff, !is_int64b_spec.
  intros ((((((Hid & Hdata) & Hen) & Hrc) & Hmr) & Het) & Hle).
  destruct (enc_ptr_ok enc_event dec_event zero_event event_okb 9001 (Data j) enc_event_ok) as
    (w & Hw & Hwf & Hh & Hd); [lia|done|].
  unfold enc_job. rewrite Hw. cbn [mbind option_bind]. eexists. split; [done|].
  destruct j as [id dt en rc mr et le]. cbn [JobID Data EnqueuedAt RetryCount MaxRetries EventType LastError] in *.
  unfold dec_job, zero_job. case_bool_decide; subst; cbn [app];
    (split; [wf_members|split; [cbn [height foldr snd] in *; lia|members]]).
Qed.

Lemma enc_dlq_ok e : dlq_okb e = true ->
  exists l, enc_dlq e = Some (VObj l) /\ wf (VObj l) /\ height (VObj l) <= 9003 /\
    dec_dlq (VObj l) zero_dlq = Some e.
Proof.
  unfold dlq_okb. rewrite !andb_true_iff, !is_int64b_spec. intros (((Hid & Hdata) & Hfr) & Hst).
  destruct (enc_ptr_ok enc_job dec_job zero_job job_okb 9002 (JobData e) enc_job_ok) as
    (w & Hw & Hwf & Hh & Hd); [lia|done|].
  unfold enc_dlq. rewrite Hw. cbn [mbind option_bind]. eexists. split; [done|].
  destruct e as [id jd fr st]. cbn [OriginalStreamID JobData FailureReason SentToDLQAt] in *.
  unfold dec_dlq, zero_dlq. split; [wf_members|split; [cbn [height foldr snd] in *; lia|members]].
Qed.

Lemma marshal_ok {A} (enc : A -> option jv) dec zero a v :
  enc a = Some v -> wf v -> height v <= max_depth -> dec v zero = Some a ->
  exists s, marshal enc a = Ok s /\ unmarshal dec zero s = Ok a.
Proof.
  intros He Hw Hh Hd. exists (print v ""). unfold marshal, unmarshal. rewrite He.
  by rewrite parse_print, Hd.
Qed.

#[global] Instance GoCodecLaws : CodecLaws.
Proof.
  refine {| event_ok e := event_okb e = true; job_ok j := job_okb j = true; dlq_ok e := dlq_okb e = true |}.
  - intros j (l & He & Hw & Hh & Hd)%enc_job_ok. eapply marshal_ok; try done. unfold max_depth. lia.
  - intros e (l & He & Hw & Hh & Hd)%enc_dlq_ok. eapply marshal_ok; try done. unfold max_depth. lia.
  - intros id ev t m ty Hid Hev Ht Hm Hty. unfold job_okb. simpl.
    rewrite Hid, Hev, Hty, !(proj2 (is_int64b_spec _)) by (done || int64). done.
  - intros [] n. unfold job_okb, set_RetryCount. simpl. rewrite !andb_true_iff, !is_int64b_spec. naive_solver.
  - intros [] s. unfold job_okb, set_LastError. simpl. rewrite !andb_true_iff. naive_solver.
  - intros id j r t Hid Hj Hr Ht. unfold dlq_okb. simpl. rewrite Hid, Hj, Hr. by apply is_int64b_spec.
  - intros id j r t. unfold dlq_okb. simpl. rewrite !andb_true_iff. naive_solver.
Defined.

(** C13: what a producer writes, a worker reads.  Every job whose texts are
    UTF-8, whose instant has an RFC 3339 text, whose integers fit 64 bits, whose
    metadata is in key order, holds numbers with a decimal text of at most 17
    digits and is nested at most 9000 deep has a JSON text, and decoding that text gives
    back exactly the job: escapes, the order of members, omitted empty members,
    time zones and metadata values included. *)
Theorem job_json_roundtrip j :
  job_okb j = true -> exists s, marshal_job j = Ok s /\ unmarshal_job s = Ok j.
Proof. exact (@job_roundtrip _ GoCodecLaws j). Qed.
