(* ===== verification/JsonTypes.v ===== *)
(** * What decoding gives: the types of decoded values

    Every value that [encoding/json] stores in a Go variable has a shape that the
    decoder guarantees, whatever the text: strings are valid UTF-8 (what is not is
    replaced), map keys are distinct and kept in order, times have a nanosecond
    part below a second and a year of four digits.  So an event that was decoded
    from a request can be encoded again, up to three exceptions that the decoder
    does let through. *)
From Stdlib Require Import SpecFloat.
From S2P Require Import Prelude Utf8 GoStd GoFloat GoTime JsonSyntax Queue Json.

(** ** Strings *)

Lemma byte_val_ascii x : 0 <= x < 256 -> byte_val (Ascii.ascii_of_N (Z.to_N x)) = x.
Proof. intros Hx. unfold byte_val. rewrite Ascii.N_ascii_embedding; lia. Qed.

Lemma valid_chunk s ch r : rune_chunk s = Some (ch, r) -> valid_utf8 ch = true.
Proof.
  intros E. destruct (rune_chunk_inv _ _ _ E) as [(c & -> & Hc)|(_ & _ & Hr)].
  - apply all_ascii_valid. simpl. by rewrite Hc.
  - specialize (Hr ""). rewrite append_nil_r in Hr. by rewrite (valid_utf8_chunk _ _ _ Hr).
Qed.

(** A code point, surrogates excluded, is encoded as valid UTF-8. *)
Lemma utf8_encode_valid v : 0 <= v <= 0x10FFFF -> between 0xD800 0xDFFF v = false -> valid_utf8 (utf8_encode v) = true.
Proof.
  intros Hv Hs. assert (exists ch, rune_chunk (utf8_encode v) = Some (ch, "")) as [ch E];
    [|by rewrite (valid_utf8_chunk _ _ _ E)].
  unfold between in Hs. apply andb_false_iff in Hs. reflect_Z.
  unfold utf8_encode. repeat case_match; reflect_Z; cbn [rune_chunk]; unfold is_ascii, lead3, lead4, cont, in_bytes;
    rewrite !byte_val_ascii by (Z.to_euclidean_division_equations; lia).
  all: repeat match goal with
    | |- exists _, (if ?b then _ else _) = _ =>
        first [assert (b = true) as -> by (Z.to_euclidean_division_equations; lia); by eexists
              |assert (b = false) as -> by (Z.to_euclidean_division_equations; lia)]
    end.
Qed.

Lemma hex_val_range c x : hex_val c = Some x -> 0 <= x < 16.
Proof.
  unfold hex_val, in_bytes. repeat case_match; try done; intros [= <-];
    repeat match goal with H : _ && _ = true |- _ => apply andb_true_iff in H as [? ?] end; reflect_Z; lia.
Qed.

Lemma getu4_range s v r : getu4 s = Some (v, r) -> 0 <= v <= 0xFFFF.
Proof.
  unfold getu4. repeat case_match; try done. intros [= <- _].
  repeat match goal with H : hex_val _ = Some _ |- _ => apply hex_val_range in H end. lia.
Qed.

Lemma replacement_valid : valid_utf8 replacement = true.
Proof. vm_compute. reflexivity. Qed.

Lemma unquote_u_valid s x r : unquote_u s = Some (x, r) -> valid_utf8 x = true.
Proof.
  unfold unquote_u. destruct (getu4 s) as [[v r1]|] eqn:E1; [|done]. apply getu4_range in E1.
  destruct (between 0xD800 0xDFFF v) eqn:Hb.
  - destruct (getu4 r1) as [[v2 r2]|] eqn:E2; [|intros [= <- _]; apply replacement_valid].
    destruct (_ && _) eqn:Hp; [|intros [= <- _]; apply replacement_valid]. intros [= <- _].
    unfold between in Hp. rewrite !andb_true_iff in Hp. reflect_Z.
    apply utf8_encode_valid; [lia|]. unfold between. apply andb_false_iff. right. apply Z.leb_gt. lia.
  - intros [= <- _]. apply utf8_encode_valid; [lia|done].
Qed.

Lemma simple_escape_ascii e x : simple_escape e = Some x -> is_ascii x = true.
Proof. destruct e as [[] [] [] [] [] [] [] []]; intros [= <-]; reflexivity. Qed.

Lemma unquote_step_valid s : valid_utf8 (unquote_step s).1 = true.
Proof.
  unfold unquote_step. destruct s as [|c r]; [done|]. destruct (Ascii.eqb c "\").
  - destruct (unquote_u (String c r)) as [[x r']|] eqn:E; [by eapply unquote_u_valid|].
    destruct r as [|e r1]; [done|]. cbn [fst]. destruct (simple_escape e) as [x|] eqn:Ee; [|done].
    apply all_ascii_valid. cbn [all_ascii]. by rewrite (simple_escape_ascii _ _ Ee).
  - destruct (rune_chunk (String c r)) as [[ch r']|] eqn:E; [by eapply valid_chunk|apply replacement_valid].
Qed.

(** Whatever is between the quotes of a literal, its value is valid UTF-8. *)
Lemma unquote_valid raw : valid_utf8 (unquote raw) = true.
Proof.
  unfold unquote. generalize (String.length raw). intros n. revert raw.
  induction n as [|n IH]; intros [|c r]; try done. cbn [unquote_fuel].
  pose proof (unquote_step_valid (String c r)) as Hs. destruct (unquote_step (String c r)) as [x r'].
  by apply valid_utf8_append.
Qed.

(** ** Map keys *)

Lemma compare_trans a b c : String.compare a b = Lt -> String.compare b c = Lt -> String.compare a c = Lt.
Proof.
  revert b c. induction a as [|x a IH]; intros [|y b] [|z c]; try done. cbn [String.compare].
  unfold Ascii.compare. destruct (N.compare_spec (Ascii.N_of_ascii x) (Ascii.N_of_ascii y)) as [Hxy|Hxy|Hxy];
    destruct (N.compare_spec (Ascii.N_of_ascii y) (Ascii.N_of_ascii z)) as [Hyz|Hyz|Hyz];
    destruct (N.compare_spec (Ascii.N_of_ascii x) (Ascii.N_of_ascii z)) as [Hxz|Hxz|Hxz]; try done; try lia.
  apply IH.
Qed.

Lemma ltb_compare a b : String.ltb a b = true <-> String.compare a b = Lt.
Proof. unfold String.ltb. by destruct (String.compare a b). Qed.

Lemma ltb_trans a b c : String.ltb a b = true -> String.ltb b c = true -> String.ltb a c = true.
Proof. rewrite !ltb_compare. apply compare_trans. Qed.

Lemma ltb_total a b : a <> b -> String.ltb a b = false -> String.ltb b a = true.
Proof.
  intros Hne Hlt. apply ltb_compare. rewrite String.compare_antisym. unfold String.ltb in Hlt.
  destruct (String.compare a b) eqn:E; [|done|done]. by apply String.compare_eq_iff in E.
Qed.

Definition below (a : string) (l : list string) : Prop := Forall (fun b => String.ltb a b = true) l.

Lemma sorted_cons a l : sorted_keys (a :: l) = true <-> below a l /\ sorted_keys l = true.
Proof.
  cbn [sorted_keys]. rewrite andb_true_iff, forallb_forall. unfold below. rewrite Forall_forall.
  by setoid_rewrite list_elem_of_In.
Qed.

(** Insertion keeps a map in order, and adds no key but its own. *)
Lemma map_insert_sorted {A} key (v : A) l : sorted_keys l.*1 = true ->
  sorted_keys (map_insert key v l).*1 = true /\
  forall P : string * A -> Prop, P (key, v) -> Forall P l -> Forall P (map_insert key v l).
Proof.
  induction l as [|[k' v'] l IH]; [by split; [|intros; constructor]|]. rewrite fmap_cons, sorted_cons.
  intros [Hb Hs]. destruct (IH Hs) as [IHs IHP]. cbn [map_insert]. simpl in Hb. case_bool_decide as Heq.
  { subst k'. split; [|intros P Hp [_ ?]%Forall_cons; by constructor]. rewrite fmap_cons. by apply sorted_cons. }
  destruct (String.ltb key k') eqn:Hlt.
  - split; [|intros P Hp Hl; by constructor]. rewrite !fmap_cons. apply sorted_cons. split; [|by apply sorted_cons].
    constructor; [done|]. eapply Forall_impl; [exact Hb|]. intros b. by apply ltb_trans.
  - split.
    + rewrite fmap_cons. apply sorted_cons. split; [|done]. simpl. unfold below.
      apply Forall_fmap. apply IHP; [simpl; by apply ltb_total|]. by apply Forall_fmap in Hb.
    + intros P Hp [? ?]%Forall_cons. constructor; auto.
Qed.

(** ** Values of type [interface{}] *)

(** What every decoded value satisfies. *)
Fixpoint typed (v : json) : bool :=
  match v with
  | JNull | JBool _ | JNum _ => true
  | JStr s => valid_utf8 s
  | JArr l => forallb typed l
  | JObj l => forallb (fun kv => valid_utf8 kv.1 && typed kv.2) l && sorted_keys l.*1
  end.

(** A map under construction. *)
Definition map_typed (l : list (string * json)) : Prop :=
  sorted_keys l.*1 = true /\ Forall (fun kv => valid_utf8 kv.1 = true /\ typed kv.2 = true) l.

Lemma typed_obj l : typed (JObj l) = true <-> map_typed l.
Proof.
  cbn [typed]. unfold map_typed. rewrite andb_true_iff, forallb_forall, Forall_forall.
  setoid_rewrite andb_true_iff. setoid_rewrite list_elem_of_In. tauto.
Qed.

Lemma dec_members_typed l acc m :
  Forall (fun kv : string * jv => forall x, dec_any kv.2 = Some x -> typed x = true) l -> map_typed acc ->
  fold_left (fun acc kv => m ← acc; y ← dec_any kv.2; Some (map_insert (unquote kv.1) y m)) l (Some acc) = Some m ->
  map_typed m.
Proof.
  intros Hl. revert acc. induction Hl as [|[k v] l Hv _ IH]; intros acc Hacc; cbn [fold_left]; [by intros [= <-]|].
  cbn [mbind option_bind fst snd]. destruct (dec_any v) as [y|] eqn:E; cbn [mbind option_bind].
  - apply IH. destruct Hacc as [Hs Hf]. destruct (map_insert_sorted (unquote k) y acc Hs) as [Hs' Hp].
    split; [done|]. apply Hp; [|done]. split; [apply unquote_valid|by apply Hv].
  - intros Hnone. exfalso. clear -Hnone. induction l as [|kv l IH]; [done|]. by apply IH.
Qed.

Lemma dec_any_typed v x : dec_any v = Some x -> typed x = true.
Proof.
  revert x. induction v as [|b|lit|raw|l IH|l IH] using jv_nested_ind; intros x; cbn [dec_any].
  - by intros [= <-].
  - by intros [= <-].
  - by intros (f & _ & ->)%fmap_Some.
  - intros [= <-]. apply unquote_valid.
  - intros (ys & Hys & ->)%fmap_Some. cbn [typed]. revert ys Hys.
    induction IH as [|v l Hv _ IHl]; intros ys; cbn [foldr]; [by intros [= <-]|].
    intros (y & Hy & Hr)%bind_Some. apply bind_Some in Hr as (ys' & Hys' & [= <-]).
    cbn [forallb]. rewrite (Hv _ Hy). by apply IHl.
  - intros (m & Hm & ->)%fmap_Some. apply typed_obj. eapply dec_members_typed; [exact IH| |exact Hm].
    split; [done|constructor].
Qed.

(** ** Times *)

Lemma digit_of_range c x : digit_of c = Some x -> 0 <= x <= 9.
Proof. unfold digit_of, Strconv.digit_val. repeat case_match; try done. intros [= <-]. reflect_Z. lia. Qed.

Lemma get2_range s x r : get2 s = Some (x, r) -> 0 <= x <= 99.
Proof.
  unfold get2. repeat case_match; try done. intros [= <- _].
  repeat match goal with H : digit_of _ = Some _ |- _ => apply digit_of_range in H end. lia.
Qed.

Lemma get12_range s x r : get12 s = Some (x, r) -> 0 <= x <= 99.
Proof.
  unfold get12. destruct (get2 s) as [[y r']|] eqn:E; [intros [= <- _]; by eapply get2_range|].
  repeat case_match; try done. intros [= <- _].
  match goal with H : digit_of _ = Some _ |- _ => apply digit_of_range in H end. lia.
Qed.

Lemma read_frac_range w s : 0 <= (read_frac w s).1 < 10 ^ Z.of_nat w.
Proof.
  revert w. induction s as [|c s IH]; intros w; cbn [read_frac].
  { split; [done|]. apply Z.pow_pos_nonneg; lia. }
  destruct (digit_of c) as [x|] eqn:E; [|split; [done|apply Z.pow_pos_nonneg; lia]].
  apply digit_of_range in E. destruct w as [|w]; [apply IH|].
  specialize (IH w). destruct (read_frac w s) as [v r]. cbn [fst] in *.
  assert (0 < 10 ^ Z.of_nat w) by (apply Z.pow_pos_nonneg; lia).
  rewrite Nat2Z.inj_succ, Z.pow_succ_r by lia. nia.
Qed.

Lemma get_frac_range s : 0 <= (get_frac s).1 < Time.Second.
Proof.
  unfold get_frac. repeat case_match; cbn [fst]; try (split; [done|reflexivity]).
  pose proof (read_frac_range 9) as Hr. eauto.
Qed.

Lemma get_zone_minutes s off : get_zone s = Some off -> off mod 60 = 0.
Proof.
  unfold get_zone. case_bool_decide; [by intros [= <-]|]. destruct s as [|c r]; [done|].
  intros Hz. repeat (apply bind_Some in Hz as ([? ?] & _ & Hz) || (apply bind_Some in Hz as (? & _ & Hz))).
  repeat case_match; try done; injection Hz as <-; Z.to_euclidean_division_equations; lia.
Qed.

(** The days of the years 0 to 9999. *)
Lemma days_of_years y m d : 1 <= m <= 12 -> 1 <= d <= 31 ->
  (0 <= y <= 9999 -> -719528 <= days_of_civil y m d <= 2932896) /\
  (y < 0 -> days_of_civil y m d < -719528) /\ (10000 <= y -> 2932897 <= days_of_civil y m d).
Proof.
  intros Hm Hd. unfold days_of_civil, year_start, day_of_year.
  destruct (Z.leb_spec m 2), (Z.ltb_spec 2 m); try lia; Z.to_euclidean_division_equations; lia.
Qed.

Lemma days_in_31 m y : days_in m y <= 31.
Proof. unfold days_in. repeat case_match; lia. Qed.

(** A time that was read has a text of its own, unless its offset is of a day or
    more (which the parser accepts). *)
Lemma parse_time_instant s t : parse_time s = Some t -> Z.abs (t_off t) < 86400 -> instant_ok t = true.
Proof.
  unfold parse_time. intros Hp Hoff.
  apply bind_Some in Hp as ([yh s1] & Hyh & Hp). apply bind_Some in Hp as ([yl s2] & Hyl & Hp).
  apply bind_Some in Hp as (s3 & _ & Hp). apply bind_Some in Hp as ([m s4] & _ & Hp).
  apply bind_Some in Hp as (s5 & _ & Hp). apply bind_Some in Hp as ([d s6] & _ & Hp).
  apply bind_Some in Hp as (s7 & _ & Hp). apply bind_Some in Hp as ([hh s8] & Hhh & Hp).
  apply bind_Some in Hp as (s9 & _ & Hp). apply bind_Some in Hp as ([mm s10] & Hmm & Hp).
  apply bind_Some in Hp as (s11 & _ & Hp). apply bind_Some in Hp as ([ss s12] & Hss & Hp).
  pose proof (get_frac_range s12) as Hns. destruct (get_frac s12) as [ns s13].
  apply bind_Some in Hp as (off & Hz & Hp). apply get_zone_minutes in Hz.
  apply get2_range in Hyh, Hyl, Hmm, Hss. apply get12_range in Hhh. cbn [fst] in Hns.
  set (y := 100 * yh + yl) in *. cbv zeta in Hp. destruct (_ && _) eqn:Hok; [|done]. injection Hp as <-.
  rewrite !andb_true_iff in Hok. destruct Hok as ((((((Hm1 & Hm2) & Hd1) & Hd2) & Hh) & Hm) & Hs). reflect_Z.
  pose proof (days_in_31 m y) as H31. cbn [t_off] in Hoff.
  destruct (days_of_years y m d) as (Hdays & _); [lia|lia|]. specialize (Hdays ltac:(lia)).
  unfold instant_ok, format_time. cbn [t_sec t_nsec t_off].
  assert ((days_of_civil y m d * 86400 + hh * 3600 + mm * 60 + ss - off + off) / 86400 = days_of_civil y m d) as ->
    by (Z.to_euclidean_division_equations; lia).
  destruct (civil_of_days (days_of_civil y m d)) as [[y' m'] d'] eqn:Ec.
  apply civil_spec in Ec as (Heq & Hm' & Hd'). pose proof (days_in_31 m' y') as H31'.
  destruct (days_of_years y' m' d') as (_ & Hlow & Hhigh); [lia|lia|]. rewrite Heq in Hlow, Hhigh.
  assert (0 <= y' <= 9999) as Hy' by lia.
  rewrite (proj2 (Z.leb_le 0 ns)), (proj2 (Z.ltb_lt ns _)), (proj2 (Z.eqb_eq _ _) Hz),
    (proj2 (Z.ltb_lt (Z.abs off) _)) by lia.
  rewrite (proj2 (Z.leb_le 0 y')), (proj2 (Z.leb_le y' _)), (proj2 (Z.ltb_lt (Z.abs off / 60) _)) by
    (try lia; Z.to_euclidean_division_equations; lia).
  cbn [andb]. by apply bool_decide_true.
Qed.

(** ** Events *)

(** What every decoded event satisfies. *)
Record event_typed (e : LogEvent) : Prop := {
  et_time : Z.abs (t_off (Timestamp e)) < 86400 -> instant_ok (Timestamp e) = true;
  et_level : valid_utf8 (Level e) = true;
  et_service : valid_utf8 (Service e) = true;
  et_message : valid_utf8 (Message e) = true;
  et_metadata : forall l, Metadata e = Some l -> map_typed l;
  et_trace : valid_utf8 (TraceID e) = true;
}.

Lemma dec_string_typed v old x : dec_string v old = Some x -> valid_utf8 old = true -> valid_utf8 x = true.
Proof. destruct v; try done; simpl; intros [= <-]; auto using unquote_valid. Qed.

Lemma dec_map_typed v old x : dec_map v old = Some x -> (forall l, old = Some l -> map_typed l) ->
  forall l, x = Some l -> map_typed l.
Proof.
  intros Hd Hold l ->. destruct v as [| | | | |kvs]; try done. cbn [dec_map] in Hd.
  apply fmap_Some in Hd as (m & Hm & [= ->]). eapply dec_members_typed; [|clear Hm|exact Hm].
  - apply Forall_forall. intros kv _ y. apply dec_any_typed.
  - destruct old as [l|]; [by apply Hold|]. split; [done|constructor].
Qed.

Lemma set_event_typed e name v e' : set_event e name v = Some e' -> event_typed e -> event_typed e'.
Proof.
  destruct e as [ts lv sv ms md tr]. unfold set_event. intros Hs [Ht Hl Hv Hm Hd Hr].
  cbn [Timestamp Level Service Message Metadata TraceID] in *.
  repeat case_bool_decide; apply fmap_Some in Hs as (x & Hx & ->); constructor;
    cbn [Timestamp Level Service Message Metadata TraceID]; eauto using dec_string_typed, dec_map_typed.
  destruct v; try done; simpl in Hx; [by injection Hx as <-|intros; by eapply parse_time_instant].
Qed.

(** A property of structs that every assignment to a field keeps. *)
Lemma dec_struct_keeps {A} (P : A -> Prop) set names v old a :
  (forall a name w a', set a name w = Some a' -> P a -> P a') -> P old ->
  dec_struct set names v old = Some a -> P a.
Proof.
  intros Hset. unfold dec_struct. destruct v as [| | | | |l]; try done; [by intros Hp [= <-]|].
  revert old. induction l as [|[k w] l IH]; intros old Hp; cbn [fold_left]; [by intros [= <-]|].
  cbn [mbind option_bind fst snd]. destruct (field_of names (unquote k)) as [name|]; [|by apply IH].
  destruct (set old name w) as [old'|] eqn:E.
  - apply IH. by eapply Hset.
  - intros Hnone. exfalso. clear -Hnone. induction l as [|kv l IH]; [done|]. by apply IH.
Qed.

Lemma zero_event_typed : event_typed zero_event.
Proof. constructor; vm_compute; done. Qed.

Lemma dec_event_keeps v old e : event_typed old -> dec_event v old = Some e -> event_typed e.
Proof. apply dec_struct_keeps. intros a name w a'. apply set_event_typed. Qed.

Lemma dec_event_typed v e : dec_event v zero_event = Some e -> event_typed e.
Proof. apply dec_event_keeps, zero_event_typed. Qed.

(** ** Jobs *)

Record job_typed (j : JobEnvelope) : Prop := {
  jt_id : valid_utf8 (JobID j) = true;
  jt_data : forall e, Data j = Some e -> event_typed e;
  jt_enqueued : is_int64 (EnqueuedAt j);
  jt_retries : is_int64 (RetryCount j);
  jt_max : is_int64 (MaxRetries j);
  jt_type : valid_utf8 (EventType j) = true;
  jt_error : valid_utf8 (LastError j) = true;
}.

Lemma dec_int_typed v old x : dec_int v old = Some x -> is_int64 old -> is_int64 x.
Proof.
  destruct v; try done; simpl; [by intros [= <-]|]. destruct (Strconv.ParseInt lit) eqn:E; [|done].
  intros [= <-] _. by eapply Strconv.ParseInt_range.
Qed.

Lemma dec_data_typed v old x : dec_ptr dec_event zero_event v old = Some x ->
  (forall e, old = Some e -> event_typed e) -> forall e, x = Some e -> event_typed e.
Proof.
  intros Hd Hold e ->. assert (dec_event v (default zero_event old) = Some e) as He.
  { destruct v; try done; by apply fmap_Some in Hd as (e' & ? & [= ->]). }
  eapply dec_event_keeps; [|exact He]. destruct old as [o|]; [by apply Hold|apply zero_event_typed].
Qed.

Lemma set_job_typed j name v j' : set_job j name v = Some j' -> job_typed j -> job_typed j'.
Proof.
  destruct j as [id dt en rc mr et le]. unfold set_job. intros Hs [Hi Hd He Hr Hm Ht Hl].
  cbn [JobID Data EnqueuedAt RetryCount MaxRetries EventType LastError] in *.
  repeat case_bool_decide; apply fmap_Some in Hs as (x & Hx & ->); constructor;
    cbn [JobID Data EnqueuedAt RetryCount MaxRetries EventType LastError];
    eauto using dec_string_typed, dec_int_typed, dec_data_typed.
Qed.

Lemma dec_job_typed v j : dec_job v zero_job = Some j -> job_typed j.
Proof.
  apply dec_struct_keeps; [intros a name w a'; apply set_job_typed|]. constructor; try done; int64.
Qed.

(** ** Decoded events can be encoded *)

(** Numbers with a decimal text of at most 17 digits (finite floats). *)
Fixpoint numbers_printable (v : json) : bool :=
  match v with
  | JNum f => bool_decide (is_Some (fmt_float f))
  | JArr l => forallb numbers_printable l
  | JObj l => forallb (fun kv => numbers_printable kv.2) l
  | _ => true
  end.

(** What a decoder lets through and an encoder does not (exactly): offsets of a
    day or more, metadata that is an empty object (omitted) or nested deeper than
    the encoded job may be, and numbers without a short text. *)
Definition ordinary (e : LogEvent) : bool :=
  (Z.abs (t_off (Timestamp e)) <? 86400) &&
  match Metadata e with
  | None => true
  | Some l => negb (bool_decide (length l = 0%nat)) && numbers_printable (JObj l) && (jheight (JObj l) <=? 9000)
  end.

Lemma typed_okb v : typed v = true -> numbers_printable v = true -> json_okb v = true.
Proof.
  induction v as [|b|f|s|l IH|l IH] using json_nested_ind; cbn [typed numbers_printable json_okb]; try done.
  - rewrite !forallb_forall. rewrite Forall_forall in IH. setoid_rewrite list_elem_of_In in IH. auto.
  - rewrite !andb_true_iff, !forallb_forall. rewrite Forall_forall in IH. setoid_rewrite list_elem_of_In in IH.
    intros [Ht Hs] Hn. split; [|done]. intros kv Hin. specialize (Ht kv Hin). specialize (Hn kv Hin).
    rewrite andb_true_iff in *. naive_solver.
Qed.

Definition ordinary_job (j : JobEnvelope) : bool :=
  match Data j with Some e => ordinary e | None => true end.

Lemma event_typed_okb e : event_typed e -> ordinary e = true -> event_okb e = true.
Proof.
  intros [Ht Hl Hs Hm Hd Hr] Ho. unfold ordinary in Ho. apply andb_true_iff in Ho as [Ho Hmd].
  reflect_Z. unfold event_okb. rewrite Ht, Hl, Hs, Hm, Hr by done. rewrite andb_true_r. cbn [andb].
  unfold map_okb. destruct (Metadata e) as [l|]; [|done]. rewrite !andb_true_iff in *. destruct Hmd as [[Hn Hp] Hh].
  split; [split; [done|]|done]. apply typed_okb; [|done]. apply typed_obj. by apply Hd.
Qed.

Lemma decoded_okb v e : dec_event v zero_event = Some e -> ordinary e = true -> event_okb e = true.
Proof. intros Hd. apply event_typed_okb. by eapply dec_event_typed. Qed.

Lemma unmarshal_job_typed s j : unmarshal_job s = Ok j -> job_typed j.
Proof.
  cbn [unmarshal_job GoCodec]. unfold unmarshal. destruct (parse s) as [v|]; [|done].
  destruct (dec_job v zero_job) as [j'|] eqn:E; [|done]. intros [= ->]. by eapply dec_job_typed.
Qed.

(** What a worker decoded it can append again. *)
Lemma unmarshal_job_okb s j : unmarshal_job s = Ok j -> ordinary_job j = true -> job_okb j = true.
Proof.
  intros [Hi Hd He Hr Hm Ht Hl]%unmarshal_job_typed. unfold ordinary_job, job_okb. intros Ho.
  rewrite Hi, Ht, Hl, !(proj2 (is_int64b_spec _)) by done. rewrite !andb_true_r, andb_true_l.
  destruct (Data j) as [e|]; [|done]. apply event_typed_okb; [by apply Hd|done].
Qed.

(** C14: decoding is type safe.  Every event or job decoded from any text, with
    escapes, invalid bytes, repeated members, repeated and unordered map keys,
    offsets and fractions, is a value of its type ([event_typed], [job_typed]):
    strings in UTF-8, metadata with distinct ordered keys, a time with a four digit
    year, integers of 64 bits.  If it is ordinary it can be encoded: the event as
    part of a fresh job from which a worker gets back exactly that event, and the
    job with a retry count and an error of its next attempt. *)
Theorem decoded_typed :
  (forall v e, dec_event v zero_event = Some e -> event_typed e /\
     (ordinary e = true -> forall id t m, valid_utf8 id = true -> is_int64 t -> is_int64 m ->
      let j := mkJob id (Some e) t 0 m "log_event" "" in
      exists txt, marshal_job j = Ok txt /\ unmarshal_job txt = Ok j)) /\
  (forall s j, unmarshal_job s = Ok j -> job_typed j /\
     (ordinary_job j = true -> forall n err, is_int64 n -> valid_utf8 err = true ->
      let j' := set_LastError err (set_RetryCount n j) in
      exists txt, marshal_job j' = Ok txt /\ unmarshal_job txt = Ok j')).
Proof.
  split.
  - intros v e Hd. split; [by eapply dec_event_typed|]. intros Ho id t m Hid Ht Hm j.
    apply (@job_roundtrip _ GoCodecLaws). apply (@job_ok_new _ GoCodecLaws); try done. by eapply decoded_okb.
  - intros s j Hu. split; [by eapply unmarshal_job_typed|]. intros Ho n err Hn He j'.
    apply (@job_roundtrip _ GoCodecLaws).
    apply (@job_ok_error _ GoCodecLaws); [|done]. apply (@job_ok_retry _ GoCodecLaws); [|done].
    by eapply unmarshal_job_okb.
Qed.
