(* ===== verification/Dlq.v ===== *)
(** * The dead letter queue: [internal/queue/dlq.go] *)
From S2P Require Import Prelude GoStd GoFloat Config World Queue.
Import Errors.

(** Reading through a pointer that may be nil. *)
Definition deref {A B} (p : option A) (k : A -> prog B) : prog B :=
  match p with
  | Some a => k a
  | None => Panic "invalid memory address or nil pointer dereference"
  end.

(** [queue.DLQ]: the name and the length limit of its stream. *)
Record DLQ := mkDLQ { dlq_streamName : string; dlq_maxLen : Z }.

Module Dlq.
Section Dlq.
Context `{Codec}.
Context (d : DLQ).

(** [Send].  The log lines after the [XADD] read [entry.JobData]. *)
Definition Send (entry : DLQEntry) : prog (res error string) :=
  match marshal_dlq entry with
  | Err err =>
      deref (JobData entry) (fun _ =>
        Return (Err (Wrapf "failed to marshal DLQ entry" err)))
  | Ok entryJSON =>
      let args := mkXAddArgs (dlq_streamName d) (dlq_maxLen d) true "" {["entry" := entryJSON]} in
      r <- call (XAdd args) ;;
      match r with
      | Err err =>
          deref (JobData entry) (fun _ => Return (Err (Wrapf "failed to add to DLQ" err)))
      | Ok messageID => deref (JobData entry) (fun _ => Return (Ok messageID))
      end
  end.

Definition Get (messageID : string) : prog (res error DLQEntry) :=
  r <- call (XRange (dlq_streamName d) messageID messageID) ;;
  match r with
  | Err err => Return (Err (Wrapf "failed to get DLQ entry" err))
  | Ok [] => Return (Err (ErrorString ("DLQ entry not found: " +:+ messageID)))
  | Ok (m :: _) =>
      match Values m !! "entry" with
      | None => Return (Err (ErrorString "invalid DLQ entry format"))
      | Some entryJSON =>
          match unmarshal_dlq entryJSON with
          | Err err => Return (Err (Wrapf "failed to unmarshal DLQ entry" err))
          | Ok entry => Return (Ok entry)
          end
      end
  end.

(** The entry a stream message carries; [None] for one [List] skips. *)
Definition decode_entry (m : XMessage) : option DLQEntry :=
  match Values m !! "entry" with
  | None => None
  | Some entryJSON =>
      match unmarshal_dlq entryJSON with Err _ => None | Ok entry => Some entry end
  end.

Definition List (start stop : string) (count : Z) : prog (res error (list DLQEntry)) :=
  r <- call (XRange (dlq_streamName d) start stop) ;;
  match r with
  | Err err => Return (Err (Wrapf "failed to list DLQ entries" err))
  | Ok messages =>
      let messages' :=
        if (0 <? count) && (count <? Z.of_nat (length messages))
        then take (Z.to_nat count) messages else messages in
      Return (Ok (omap decode_entry messages'))
  end.

Definition Count : prog (res error Z) :=
  r <- call (XLen (dlq_streamName d)) ;;
  match r with
  | Err err => Return (Err (Wrapf "failed to get DLQ count" err))
  | Ok count => Return (Ok count)
  end.

Definition Delete (messageID : string) : prog (option error) :=
  r <- call (XDel (dlq_streamName d) messageID) ;;
  match r with
  | Err err => Return (Some (Wrapf "failed to delete DLQ entry" err))
  | Ok deleted =>
      if deleted =? 0 then Return (Some (ErrorString ("DLQ entry not found: " +:+ messageID)))
      else Return None
  end.

(** [Requeue]: read the entry, reset its job, add it to the main stream, then
    delete it from the dead letter stream; a failed deletion is only logged. *)
Definition Requeue (messageID mainStreamName : string) (maxLen : Z) : prog (option error) :=
  r <- Get messageID ;;
  match r with
  | Err err => Return (Some (Wrapf "failed to get DLQ entry" err))
  | Ok entry =>
      deref (JobData entry) (fun job =>
        let job' := set_LastError "" (set_RetryCount 0 job) in
        match buildXAddArgs mainStreamName maxLen job' with
        | Err err => Return (Some (Wrapf "failed to build requeue args" err))
        | Ok (args, _) =>
            x <- call (XAdd args) ;;
            match x with
            | Err err => Return (Some (Wrapf "failed to requeue to main stream" err))
            | Ok _ => Delete messageID ;;; Return None
            end
        end)
  end.

End Dlq.
End Dlq.

(** ** What the dead letter queue guarantees *)
Section DlqTheorems.
Context {W : Type} `{RedisLaws W} `{CodecLaws}.
Context (q : DLQ).
Import Dlq.

(** [Get] reads the first entry of the range and changes nothing. *)
Lemma run_Get id w : exists w' r, run (Get q id) w = (w', Val r) /\ db w' = db w /\
  match filter (fun m => in_range id id (ID m) = true) (entries (get_stream (db w) (dlq_streamName q))) with
  | m :: _ => match decode_entry m with
              | Some e => r = Ok e \/ exists err, r = Err (Wrapf "failed to get DLQ entry" err)
              | None => is_ok r = false
              end
  | [] => is_ok r = false
  end.
Proof.
  unfold Get. cbn [run bind call].
  destruct (exec (XRange (dlq_streamName q) id id) w) as [w' r] eqn:E. apply law_xrange in E as [D Hr].
  destruct r as [ms|err]; cbn [run].
  - specialize (Hr ms eq_refl). rewrite <-Hr. unfold decode_entry.
    destruct ms as [|m ms]; [by eexists _, _|].
    destruct (Values m !! "entry") as [txt|]; [|by eexists _, _].
    destruct (unmarshal_dlq txt) as [e|e]; cbn [run]; [|by eexists _, _].
    eexists _, _. split; [reflexivity|]. split; [done|]. by left.
  - eexists _, _. split; [reflexivity|]. split; [done|].
    repeat case_match; try done. right. eauto.
Qed.

Definition dlq_args (txt : string) : XAddArgs :=
  mkXAddArgs (dlq_streamName q) (dlq_maxLen q) true "" {["entry" := txt]}.

(** [Send] of an entry that has a job: it appends, and nothing else. *)
Lemma run_Send e w : dlq_ok e -> is_Some (JobData e) ->
  exists w' r txt, run (Send q e) w = (w', Val r) /\ unmarshal_dlq txt = Ok e /\
    grown (dlq_args txt) (db w) (db w') /\
    forall id, r = Ok id ->
      filter (fun m => in_range id id (ID m) = true) (entries (get_stream (db w') (dlq_streamName q))) =
        [mkMsg id {["entry" := txt]}].
Proof.
  intros He [j Hj]. unfold Send. destruct (dlq_roundtrip e He) as (txt & -> & Hu). rewrite Hj.
  cbn [run bind call deref]. fold (dlq_args txt).
  destruct (exec (XAdd (dlq_args txt)) w) as [w' [id|err]] eqn:E; cbn [run deref];
    eexists _, _, txt; (split; [reflexivity|]; split; [done|]).
  - apply law_xadd in E as (d1 & Ha & Hx). split.
    + etrans; [by apply appends_grown|by eapply xadd_grown].
    + intros ? [= <-]. apply (xadd_range _ _ _ _ Hx).
  - apply law_xadd_err, appends_grown in E. by split.
Qed.

(** C20: a dead letter that [Send] acknowledged is what [Get] returns for its
    id: the same job, reason and timestamp.  [Send] never panics on an entry
    that carries a job, and touches only the dead letter stream. *)
Theorem Send_Get e w :
  dlq_ok e -> is_Some (JobData e) ->
  exists w1 r, run (Send q e) w = (w1, Val r) /\
    (forall s, s <> dlq_streamName q -> get_stream (db w1) s = get_stream (db w) s) /\
    forall id, r = Ok id -> exists w2 r2, run (Get q id) w1 = (w2, Val r2) /\ db w2 = db w1 /\
      (r2 = Ok e \/ exists err, r2 = Err (Wrapf "failed to get DLQ entry" err)).
Proof.
  intros He Hj. destruct (run_Send e w He Hj) as (w1 & r & txt & Hrun & Hu & Hg & Hid).
  exists w1, r. split; [done|]. split; [apply Hg|]. intros id Hr.
  destruct (run_Get id w1) as (w2 & r2 & Hget & D & Hres). exists w2, r2. split; [done|]. split; [done|].
  rewrite (Hid id Hr) in Hres. unfold decode_entry in Hres. simpl in Hres.
  rewrite lookup_singleton_eq in Hres. by rewrite Hu in Hres.
Qed.

(** [Delete]: it removes the entry, and nothing else. *)
Lemma run_Delete id w : exists w' r, run (Delete q id) w = (w', Val r) /\
  (db w' = db w \/ db w' = xdel_db (dlq_streamName q) id (db w)) /\
  (r = None -> db w' = xdel_db (dlq_streamName q) id (db w)).
Proof.
  unfold Delete. cbn [run bind call].
  destruct (exec (XDel (dlq_streamName q) id) w) as [w' [n|err]] eqn:E; cbn [run].
  - apply law_xdel in E as [D _]. case_match; cbn [run]; eexists _, _; (split; [reflexivity|]; auto).
  - apply law_xdel_err in E. eexists _, _. split; [reflexivity|]. done.
Qed.

(** Stream [s] carries the job [j]. *)
Definition holds_job (d : Db) (s : string) (j : JobEnvelope) : Prop :=
  exists m txt, m ∈ entries (get_stream d s) /\ Values m !! "job" = Some txt /\ unmarshal_job txt = Ok j.

(** The job [Requeue] puts back. *)
Definition reset (j : JobEnvelope) : JobEnvelope := set_LastError "" (set_RetryCount 0 j).

Lemma reset_ok j : job_ok j -> job_ok (reset j).
Proof. intros Hj. apply job_ok_error; [|done]. apply job_ok_retry; [done|int64]. Qed.

(** C12: [Requeue] never loses a job.  For a dead letter [m] that decodes to a
    job, whatever fails on the way, afterwards the dead letter is still there or
    the main stream carries the job with its retry count reset to zero and its
    error cleared; and the latter whenever [Requeue] reports success.  Streams
    other than these two do not change. *)
Theorem Requeue_no_loss id main maxLen m oid j reason at_ w :
  main <> dlq_streamName q ->
  filter (fun m => in_range id id (ID m) = true) (entries (get_stream (db w) (dlq_streamName q))) = [m] ->
  decode_entry m = Some (mkDLQEntry oid (Some j) reason at_) -> job_ok j ->
  exists w' r, run (Requeue q id main maxLen) w = (w', Val r) /\
    (m ∈ entries (get_stream (db w') (dlq_streamName q)) \/ holds_job (db w') main (reset j)) /\
    (r = None -> holds_job (db w') main (reset j)) /\
    (forall s, s <> main -> s <> dlq_streamName q -> get_stream (db w') s = get_stream (db w) s).
Proof.
  intros Hne Hf Hd Hj. unfold Requeue. rewrite run_bind.
  destruct (run_Get id w) as (w1 & r & -> & D1 & Hres). rewrite Hf, Hd in Hres.
  assert (m ∈ entries (get_stream (db w1) (dlq_streamName q))) as Hm.
  { rewrite D1. assert (m ∈ [m]) as Hin by set_solver. rewrite <-Hf in Hin.
    by apply list_elem_of_filter in Hin as [_ ?]. }
  destruct Hres as [->|[err ->]].
  2: { cbn [run]. eexists _, _. split; [reflexivity|]. rewrite D1 in *. split; [by left|]. done. }
  cbn [deref JobData]. fold (reset j). destruct (job_roundtrip _ (reset_ok j Hj)) as (txt & Hmar & Hunm).
  unfold buildXAddArgs. rewrite Hmar. cbn [run bind call]. set (args := mkXAddArgs main _ _ _ _).
  rewrite <-D1. destruct (exec (XAdd args) w1) as [w2 [nid|err]] eqn:E; cbn [run].
  - apply law_xadd_last in E as [Hg [[l Hl] _]]. change (xa_Stream args) with main in Hl. rewrite run_bind.
    destruct (run_Delete id w2) as (w3 & r3 & -> & Hdel & _). cbn [run].
    assert (get_stream (db w3) main = get_stream (db w2) main) as Hsame.
    { destruct Hdel as [->| ->]; [done|]. unfold xdel_db. by rewrite get_set_stream_ne by congruence. }
    assert (holds_job (db w3) main (reset j)) as Hhold.
    { exists (mkMsg nid {["job" := txt]}), txt. rewrite Hsame, Hl.
      split; [set_solver|]. split; [apply lookup_singleton_eq|done]. }
    eexists _, _. split; [reflexivity|]. split; [by right|]. split; [done|]. intros s Hs1 Hs2.
    rewrite <-(grown_other _ _ _ Hg) by done. destruct Hdel as [->| ->]; [done|].
    unfold xdel_db. by rewrite get_set_stream_ne by congruence.
  - apply law_xadd_err, appends_grown in E. eexists _, _. split; [reflexivity|].
    split; [|split; [done|]].
    + left. by rewrite (grown_other _ _ _ E) by (simpl; congruence).
    + intros s Hs1 Hs2. by apply (grown_other _ _ _ E).
Qed.

(** A dead letter without a job (its JSON has a null or missing
    [job_data]) makes [Requeue] panic: the job pointer is used unchecked. *)
Theorem Requeue_nil_panics id main maxLen m oid reason at_ w w1 :
  exec (XRange (dlq_streamName q) id id) w = (w1, Ok [m]) ->
  decode_entry m = Some (mkDLQEntry oid None reason at_) ->
  exists msg, run (Requeue q id main maxLen) w = (w1, Panicked msg).
Proof.
  intros E Hd. unfold Requeue, Get. cbn [run bind call]. rewrite E. unfold decode_entry in Hd.
  destruct (Values m !! "entry") as [txt|]; [|done].
  destruct (unmarshal_dlq txt); [|done]. simplify_eq. cbn. eauto.
Qed.

End DlqTheorems.
