(* ===== verification/Consumer.v ===== *)
(** * The consumer: [internal/queue/consumer.go] *)
From S2P Require Import Prelude Utf8 GoStd GoFloat Config World Trace Queue Dlq.
Import Errors.

(** [queue.Consumer]; [c_dlq] is a pointer. *)
Record Consumer := mkConsumer {
  c_streamName : string;
  c_consumerGroup : string;
  c_consumerName : string;
  c_dlq : option DLQ;
}.

Module Consume.
Section Consume.
Context `{Codec}.
Context (c : Consumer).

(** [parseMessage]: [(nil, id, err)] on a missing or malformed job. *)
Definition parseMessage (msg : XMessage) : option JobEnvelope * string * option error :=
  match Values msg !! "job" with
  | None => (None, ID msg, Some (ErrorString "message missing data field"))
  | Some jobStr =>
      match unmarshal_job jobStr with
      | Err err => (None, ID msg, Some (Wrapf "failed to unmarshal" err))
      | Ok envelope => (Some envelope, ID msg, None)
      end
  end.

Definition Consume (blockDuration : Z) : prog (option JobEnvelope * string * option error) :=
  r <- call (XReadGroup (c_consumerGroup c) (c_consumerName c) (c_streamName c) 1 blockDuration) ;;
  match r with
  | Err RedisNil => Return (None, "", None)
  | Err err => Return (None, "", Some (Wrapf "failed to read from stream" err))
  | Ok ((_, m :: _) :: _) => Return (parseMessage m)
  | Ok _ => Return (None, "", None)
  end.

Definition Ack (messageID : string) : prog (option error) :=
  r <- call (XAck (c_streamName c) (c_consumerGroup c) messageID) ;;
  match r with
  | Err err => Return (Some (Wrapf "failed to ack" err))
  | Ok _ => Return None
  end.

(** [Retry] writes the new retry count and error through the envelope pointer;
    the result carries the envelope after the call. *)
Definition Retry (envelope : JobEnvelope) (messageID : string) (lastError : error)
    : prog (JobEnvelope * option error) :=
  let envelope := set_RetryCount (wrap64 (RetryCount envelope + 1)) envelope in
  let envelope := set_LastError (Error lastError) envelope in
  if MaxRetries envelope <=? RetryCount envelope then
    (match c_dlq c with
     | Some dlq =>
         now <- call Now ;;
         let dlqEntry :=
           {| OriginalStreamID := messageID;
              JobData := Some envelope;
              FailureReason := Error lastError;
              SentToDLQAt := now / Time.Second |} in
         Dlq.Send dlq dlqEntry ;;; Return tt
     | None => Return tt
     end) ;;;
    err <- Ack messageID ;;
    Return (envelope, err)
  else
    match buildXAddArgs (c_streamName c) 0 envelope with
    | Err err => Return (envelope, Some (Wrapf "failed to build retry args" err))
    | Ok (args, _) =>
        r <- call (XAdd args) ;;
        match r with
        | Err err => Return (envelope, Some (Wrapf "failed to re-enqueue" err))
        | Ok _ =>
            err <- Ack messageID ;;
            Return (envelope, err)
        end
    end.

(** The loop of [ReclaimStale] over the messages of one batch: what parses is
    appended to the two slices. *)
Fixpoint parse_batch (messages : list XMessage) (allEnvelopes : list JobEnvelope) (allMessageIDs : list string)
    : list JobEnvelope * list string :=
  match messages with
  | [] => (allEnvelopes, allMessageIDs)
  | msg :: rest =>
      match parseMessage msg with
      | (Some envelope, messageID, None) =>
          parse_batch rest (allEnvelopes ++ [envelope]) (allMessageIDs ++ [messageID])
      | _ => parse_batch rest allEnvelopes allMessageIDs
      end
  end.

(** The loop of [ReclaimStale] from [cursor], with the slices so far. *)
Fixpoint reclaim_loop (fuel : nat) (idleTime maxBatch : Z) (cursor : string)
    (allEnvelopes : list JobEnvelope) (allMessageIDs : list string)
    : prog (list JobEnvelope * list string * option error) :=
  match fuel with
  | O => OutOfFuel
  | S fuel' =>
      r <- call (XAutoClaim (c_streamName c) (c_consumerGroup c) (c_consumerName c)
                   idleTime cursor maxBatch) ;;
      match r with
      | Err RedisNil => Return (allEnvelopes, allMessageIDs, None)
      | Err err => Return (allEnvelopes, allMessageIDs, Some (Wrapf "failed to reclaim stale messages" err))
      | Ok (messages, nextCursor) =>
          let '(allEnvelopes, allMessageIDs) := parse_batch messages allEnvelopes allMessageIDs in
          if bool_decide (nextCursor = "0-0") then Return (allEnvelopes, allMessageIDs, None)
          else
            done <- call CtxDone ;;
            match done with
            | Some err => Return (allEnvelopes, allMessageIDs, Some err)
            | None => reclaim_loop fuel' idleTime maxBatch nextCursor allEnvelopes allMessageIDs
            end
      end
  end.

Definition ReclaimStale (fuel : nat) (idleTime maxBatch : Z)
    : prog (list JobEnvelope * list string * option error) :=
  reclaim_loop fuel idleTime maxBatch "0-0" [] [].

(** [GetPendingInfo]: count, age in seconds of the oldest pending message, error. *)
Definition GetPendingInfo : prog (Z * Z * option error) :=
  r <- call (XPending (c_streamName c) (c_consumerGroup c)) ;;
  match r with
  | Err err =>
      if bool_decide (err = RedisNil) || bool_decide (Error err = "NOGROUP")
      then Return (0, 0, None)
      else Return (0, 0, Some (Wrapf "failed to get pending info" err))
  | Ok info =>
      let count := xp_Count info in
      if (0 <? count) && negb (bool_decide (xp_Lower info = "")) then
        match Strings.Split (xp_Lower info) "-"%char with
        | [] => Return (count, 0, None)
        | part :: _ =>
            match Strconv.ParseInt part with
            | Err _ => Return (count, 0, None)
            | Ok timestampMs =>
                now <- call Now ;;
                let nowMs := now / Time.Millisecond in
                let ageMs := wrap64 (nowMs - timestampMs) in
                Return (count, Z.quot ageMs 1000, None)
            end
        end
      else Return (count, 0, None)
  end.

(** The jobs of a batch with the ids of their messages. *)
Definition parsed (messages : list XMessage) : list (JobEnvelope * string) :=
  omap (fun msg =>
    match parseMessage msg with
    | (Some envelope, messageID, None) => Some (envelope, messageID)
    | _ => None
    end) messages.

(** The two slices stay in step. *)
Lemma parse_batch_parsed messages l :
  parse_batch messages l.*1 l.*2 = ((l ++ parsed messages).*1, (l ++ parsed messages).*2).
Proof.
  revert l. induction messages as [|m ms IH]; intros l; [by rewrite app_nil_r|].
  unfold parsed. cbn [parse_batch omap list_omap]. fold (parsed ms).
  destruct (parseMessage m) as [[[j|] id] [e|]]; try apply IH.
  specialize (IH (l ++ [(j, id)])). rewrite !fmap_app in IH. simpl in IH. rewrite IH.
  by rewrite <-!app_assoc, !fmap_app.
Qed.

End Consume.
End Consume.

(** ** What the consumer guarantees *)

(** Deliveries to one consumer leave every stream's entries alone, and only
    move ids from the undelivered list of the group to its pending list. *)
Record delivered (s g : string) (d d' : Db) : Prop := {
  del_entries : forall s', entries (get_stream d' s') = entries (get_stream d s');
  del_new : forall gr', get_group d' s g = Some gr' -> exists gr, get_group d s g = Some gr /\
    forall i, i ∈ g_new gr' -> i ∈ g_new gr;
}.

#[global] Instance delivered_refl s g : Reflexive (delivered s g).
Proof. intros d. constructor; [done|]. eauto. Qed.

#[global] Instance delivered_trans s g : Transitive (delivered s g).
Proof.
  intros d1 d2 d3 [He1 Hn1] [He2 Hn2]. constructor; [congruence|]. intros gr3 Hg3.
  destruct (Hn2 _ Hg3) as (gr2 & Hg2 & H23). destruct (Hn1 _ Hg2) as (gr1 & Hg1 & H12). eauto.
Qed.

Lemma deliver_delivered s g c m t d d' : deliver_ok s g c m t d d' -> delivered s g d d'.
Proof.
  intros (gr & rest & Hg & Hn & Hm & ->). constructor.
  - intros s'. apply entries_set_group.
  - intros gr'. rewrite get_set_group. intros [= <-]. exists gr. split; [done|]. simpl. rewrite Hn.
    intros i Hi. by right.
Qed.

Lemma deliveries_delivered s g c d d' : deliveries s g c d d' -> delivered s g d d'.
Proof. induction 1 as [|d d1 d2 (m & t & Hd) _ IH]; [done|]. etrans; [by eapply deliver_delivered|done]. Qed.

Section ConsumerTheorems.
Context {W : Type} `{RedisLaws W} `{CodecLaws}.
Context (c : Consumer).
Import Consume.

Local Abbreviation stream := (c_streamName c).
Local Abbreviation group := (c_consumerGroup c).

Definition pending (d : Db) : gmap string PelEntry := get_pel d stream group.

(** [m] was handed to this consumer at server time [t]. *)
Definition handed (d d' : Db) (t : Z) (m : XMessage) : Prop :=
  m ∈ entries (get_stream d' stream) /\
  (exists gr, get_group d stream group = Some gr /\ ID m ∈ g_new gr) /\
  pending d' !! ID m = Some (mkPel (c_consumerName c) t).

(** C9: [Consume] takes one undelivered message and never drops any.  It never
    panics and no stream loses an entry.  A job it returns comes with the id of
    a message that was not delivered before, is now pending for this consumer
    and carries exactly this job; without a job and without an error it has no
    id; with an error, either nothing was handed out or the message, whose
    payload cannot be decoded, stays pending. *)
Theorem Consume_correct blk w :
  exists w' o id err, run (Consume c blk) w = (w', Val (o, id, err)) /\
    (forall s, entries (get_stream (db w') s) = entries (get_stream (db w) s)) /\
    match o, err with
    | Some j, None => exists m txt, ID m = id /\ handed (db w) (db w') (server_ms w') m /\
        Values m !! "job" = Some txt /\ unmarshal_job txt = Ok j
    | None, None => id = ""
    | None, Some _ => id = "" \/ exists m, ID m = id /\ handed (db w) (db w') (server_ms w') m /\
        forall txt j, Values m !! "job" = Some txt -> unmarshal_job txt <> Ok j
    | Some _, Some _ => False
    end.
Proof.
  unfold Consume. cbn [run bind call].
  destruct (exec (XReadGroup group (c_consumerName c) stream 1 blk) w) as [w' [l|err]] eqn:E.
  - apply law_xread in E as (d1 & Hl & Hr). apply deliveries_delivered in Hl as Hdel.
    destruct Hr as [[D [-> | ->]]|(m & -> & Hd)]; cbn [run].
    1,2: eexists _, _, _, _; (split; [reflexivity|]); rewrite D; (split; [apply Hdel|done]).
    assert (delivered stream group (db w) (db w')) as Hall.
    { etrans; [exact Hdel|]. by eapply deliver_delivered. }
    assert (handed (db w) (db w') (server_ms w') m) as Hh.
    { destruct Hd as (gr & rest & Hg & Hn & Hm & Hd). destruct (del_new _ _ _ _ Hdel _ Hg) as (gr0 & Hg0 & Hi).
      split; [|split].
      - rewrite (del_entries _ _ _ _ Hall), <-(del_entries _ _ _ _ Hdel). done.
      - exists gr0. split; [done|]. apply Hi. rewrite Hn. by left.
      - unfold pending, get_pel. rewrite Hd, get_set_group. simpl. apply lookup_insert_eq. }
    unfold parseMessage. destruct (Values m !! "job") as [txt|] eqn:Ev;
      [destruct (unmarshal_job txt) as [j|e] eqn:Eu|]; eexists _, _, _, _;
      (split; [reflexivity|]; split; [apply Hall|]).
    + by exists m, txt.
    + right. exists m. split; [done|]. split; [done|]. intros txt' j Hv. congruence.
    + right. exists m. split; [done|]. split; [done|]. intros txt' j Hv. congruence.
  - apply law_xread_err, deliveries_delivered in E as Hdel.
    destruct err; cbn [run]; eexists _, _, _, _; (split; [reflexivity|]; split; [apply Hdel|]); auto.
Qed.

Lemma run_Ack id w : exists w' r, run (Ack c id) w = (w', Val r) /\
  (db w' = db w \/ db w' = xack_db stream group id (db w)) /\
  (r = None -> db w' = xack_db stream group id (db w)).
Proof.
  unfold Ack. cbn [run bind call].
  destruct (exec (XAck stream group id) w) as [w' [n|err]] eqn:E; cbn [run]; eexists _, _;
    (split; [reflexivity|]).
  - apply law_xack in E. auto.
  - apply law_xack_err in E. split; [done|done].
Qed.

(** The job after a failed attempt. *)
Definition next_attempt (j : JobEnvelope) (e : error) : JobEnvelope :=
  set_LastError (Error e) (set_RetryCount (RetryCount j + 1) j).

Lemma run_Retry_requeue j id e w :
  job_ok j -> valid_utf8 (Error e) = true -> 0 <= RetryCount j -> is_int64 (MaxRetries j) ->
  RetryCount j + 1 < MaxRetries j ->
  exists w' r, run (Retry c j id e) w = (w', Val (next_attempt j e, r)) /\
    (pending (db w') !! id = pending (db w) !! id \/ holds_job (db w') stream (next_attempt j e)) /\
    (r = None -> pending (db w') !! id = None /\ holds_job (db w') stream (next_attempt j e)) /\
    (entries (get_stream (db w) stream) `prefix_of` entries (get_stream (db w') stream)) /\
    (forall s, s <> stream -> entries (get_stream (db w') s) = entries (get_stream (db w) s)).
Proof.
  intros Hj He Hge0 Hmax Hlt. unfold Retry. rewrite wrap64_id by int64. fold (next_attempt j e).
  change (MaxRetries (next_attempt j e)) with (MaxRetries j).
  change (RetryCount (next_attempt j e)) with (RetryCount j + 1).
  rewrite (proj2 (Z.leb_gt _ _)) by lia.
  assert (job_ok (next_attempt j e)) as Hj'.
  { apply job_ok_error; [|done]. apply job_ok_retry; [done|int64]. }
  destruct (job_roundtrip _ Hj') as (txt & Hmar & Hunm).
  unfold buildXAddArgs. rewrite Hmar. cbn [run bind call]. set (args := mkXAddArgs stream _ _ _ _).
  destruct (exec (XAdd args) w) as [w1 [nid|err]] eqn:E; cbn [run].
  - apply law_xadd_last in E as [Hg [[l Hl] _]]. change (xa_Stream args) with stream in Hl. rewrite run_bind.
    destruct (run_Ack id w1) as (w2 & r & -> & Hd & Hn). cbn [run]. eexists _, _. split; [reflexivity|].
    assert (forall s, entries (get_stream (db w2) s) = entries (get_stream (db w1) s)) as Hent.
    { intros s. destruct Hd as [->| ->]; [done|apply entries_xack]. }
    assert (holds_job (db w2) stream (next_attempt j e)) as Hh.
    { exists (mkMsg nid {["job" := txt]}), txt. rewrite Hent, Hl.
      split; [set_solver|]. split; [apply lookup_singleton_eq|done]. }
    split; [by right|]. split; [|split].
    + intros ->. split; [|done]. unfold pending. rewrite (Hn eq_refl), pel_xack. apply lookup_delete_eq.
    + rewrite Hent. apply (grown_old _ _ _ Hg). done.
    + intros s Hs. by rewrite Hent, (grown_other _ _ _ Hg).
  - apply law_xadd_err, appends_grown in E. eexists _, _. split; [reflexivity|].
    split; [|split; [done|split]].
    + left. unfold pending. by rewrite (grown_pel _ _ _ E).
    + by apply (grown_old _ _ _ E).
    + intros s Hs. by rewrite (grown_other _ _ _ E).
Qed.

(** C5: [Retry] within the budget loses nothing.  While the incremented retry
    count is below the job's limit, the job is re-appended to its own stream
    with the count incremented and the error recorded, and only then is the old
    message acknowledged: afterwards the old message is still pending or the
    stream carries the next attempt, and on success the old message is not
    pending and the next attempt is there.  The limit of zero on the append
    means no old entry of the stream is trimmed; no other stream changes. *)
Theorem Retry_requeue j id e w :
  job_ok j -> valid_utf8 (Error e) = true -> 0 <= RetryCount j -> is_int64 (MaxRetries j) ->
  RetryCount j + 1 < MaxRetries j ->
  exists w' r, run (Retry c j id e) w = (w', Val (next_attempt j e, r)) /\
    (pending (db w') !! id = pending (db w) !! id \/ holds_job (db w') stream (next_attempt j e)) /\
    (r = None -> pending (db w') !! id = None /\ holds_job (db w') stream (next_attempt j e)) /\
    (entries (get_stream (db w) stream) `prefix_of` entries (get_stream (db w') stream)) /\
    (forall s, s <> stream -> entries (get_stream (db w') s) = entries (get_stream (db w) s)).
Proof. apply run_Retry_requeue. Qed.

(** Past the budget [Retry] returns, whether there is a dead letter queue or not. *)
Lemma run_Retry_dead j id e w :
  job_ok j -> valid_utf8 (Error e) = true -> valid_utf8 id = true ->
  0 <= RetryCount j -> RetryCount j < max_int64 -> MaxRetries j <= RetryCount j + 1 ->
  exists w' r, run (Retry c j id e) w = (w', Val (next_attempt j e, r)).
Proof.
  intros Hj He Hid Hge0 Hmax Hge. unfold Retry. rewrite wrap64_id by int64. fold (next_attempt j e).
  change (MaxRetries (next_attempt j e)) with (MaxRetries j).
  change (RetryCount (next_attempt j e)) with (RetryCount j + 1).
  rewrite (proj2 (Z.leb_le _ _)) by lia. rewrite run_bind.
  assert (job_ok (next_attempt j e)) as Hj'.
  { apply job_ok_error; [|done]. apply job_ok_retry; [done|int64]. }
  assert (forall w1, exists w' r, run (err <- Ack c id ;; Return (next_attempt j e, err)) w1 =
    (w', Val (next_attempt j e, r))) as Hack.
  { intros w1. rewrite run_bind. destruct (run_Ack id w1) as (w2 & r & -> & _). by eexists _, _. }
  destruct (c_dlq c) as [q|]; cbn [run bind call]; [|apply Hack].
  destruct (exec Now w) as [w0 ns] eqn:E0. apply law_now in E0 as [D0 Hns].
  rewrite run_bind. destruct (run_Send q (mkDLQEntry id (Some (next_attempt j e)) (Error e) (ns / Time.Second)) w0)
    as (w1 & sent & txt & -> & _); [|done|apply Hack].
  apply dlq_ok_entry; auto with golog.
Qed.

(** The dead letter stream [s] carries [e]. *)
Definition holds_letter (d : Db) (s : string) (e : DLQEntry) : Prop :=
  exists m, m ∈ entries (get_stream d s) /\ Dlq.decode_entry m = Some e.

(** C10: [Retry] past the budget.  Once the incremented count reaches the
    limit the job is not re-appended: it is sent to the dead letter queue with
    its final count and error, the id of its message and the time, and then, in
    the world that [Send] left, whether or not it stored the dead letter ([sent]),
    [Ack] runs on the message and its result is the result of [Retry].  So the job
    is in the dead letter stream whenever [Send] reported success, and a success of
    [Retry] itself only says that the message is no longer pending. *)
Theorem Retry_dead q j id e w :
  c_dlq c = Some q -> dlq_streamName q <> stream ->
  job_ok j -> valid_utf8 (Error e) = true -> valid_utf8 id = true ->
  0 <= RetryCount j -> RetryCount j < max_int64 -> MaxRetries j <= RetryCount j + 1 ->
  exists w' r w0 w1 ns sent,
    run (Retry c j id e) w = (w', Val (next_attempt j e, r)) /\
    let letter := mkDLQEntry id (Some (next_attempt j e)) (Error e) (ns / Time.Second) in
    exec Now w = (w0, ns) /\ run (Dlq.Send q letter) w0 = (w1, Val sent) /\
    run (Ack c id) w1 = (w', Val r) /\
    (is_ok sent = true -> holds_letter (db w') (dlq_streamName q) letter) /\
    (r = None -> pending (db w') !! id = None) /\
    entries (get_stream (db w') stream) = entries (get_stream (db w) stream).
Proof.
  intros Hq Hne Hj He Hid Hge0 Hmax Hge. unfold Retry. rewrite wrap64_id by int64. fold (next_attempt j e).
  change (MaxRetries (next_attempt j e)) with (MaxRetries j).
  change (RetryCount (next_attempt j e)) with (RetryCount j + 1).
  rewrite (proj2 (Z.leb_le _ _)) by lia. rewrite Hq.
  assert (job_ok (next_attempt j e)) as Hj'.
  { apply job_ok_error; [|done]. apply job_ok_retry; [done|int64]. }
  rewrite run_bind. cbn [run bind call]. destruct (exec Now w) as [w0 ns] eqn:E0.
  pose proof (law_now _ _ _ E0) as [D0 Hns]. set (t := ns / Time.Second). set (letter := mkDLQEntry _ _ _ t).
  assert (is_int64 t) as Ht by (unfold t; auto with golog).
  destruct (run_Send q letter w0) as (w1 & sent & txt & Hsend & Hu & Hg & Hs);
    [by apply dlq_ok_entry|done|].
  rewrite run_bind, Hsend. cbn [run]. rewrite run_bind.
  destruct (run_Ack id w1) as (w2 & r & Hack & Hd & Hn). rewrite Hack. cbn [run].
  assert (forall s, entries (get_stream (db w2) s) = entries (get_stream (db w1) s)) as Hent.
  { intros s. destruct Hd as [->| ->]; [done|apply entries_xack]. }
  exists w2, r, w0, w1, ns, sent. split; [reflexivity|]. split; [done|]. split; [done|]. split; [done|]. split; [|split].
  - destruct sent as [nid|err]; [|done]. intros _. specialize (Hs nid eq_refl).
    exists (mkMsg nid {["entry" := txt]}). rewrite Hent. split.
    + assert (mkMsg nid {["entry" := txt]} ∈ [mkMsg nid {["entry" := txt]}]) as Hin by set_solver.
      rewrite <-Hs in Hin. by apply list_elem_of_filter in Hin as [_ ?].
    + unfold Dlq.decode_entry. simpl. by rewrite lookup_singleton_eq, Hu.
  - intros ->. unfold pending. rewrite (Hn eq_refl), pel_xack. apply lookup_delete_eq.
  - rewrite Hent, (grown_other _ _ _ Hg), D0; [done|]. simpl. congruence.
Qed.

End ConsumerTheorems.

(** ** Reclaiming stale messages *)

Lemma claim_all_lookup c t ms pel id :
  claim_all c t ms pel !! id = if bool_decide (id ∈ (ID <$> ms)) then Some (mkPel c t) else pel !! id.
Proof.
  induction ms as [|m ms IH]; [done|]. cbn [claim_all foldr]. unfold claim_one at 1.
  destruct (decide (ID m = id)) as [<-|Hne].
  - rewrite lookup_insert_eq, bool_decide_true by (rewrite fmap_cons; by left). done.
  - rewrite lookup_insert_ne by done. fold (claim_all c t ms pel). rewrite IH.
    repeat case_bool_decide; try done; rewrite fmap_cons in *; set_solver.
Qed.

Section Reclaim.
Context {W : Type} `{RedisLaws W} `{CodecLaws}.
Context (c : Consumer) (idle maxBatch : Z).
Import Consume.

Local Abbreviation stream := (c_streamName c).
Local Abbreviation group := (c_consumerGroup c).
Local Abbreviation pel d := (pending c d).

(** [id] is pending for this consumer since [t0] or later. *)
Definition owned (t0 : Z) (d : Db) (id : string) : Prop :=
  exists t, t0 <= t /\ pel d !! id = Some (mkPel (c_consumerName c) t).

(** What an [XAUTOCLAIM] at [t0] or later does to the data. *)
Record claimed (t0 : Z) (d d' : Db) : Prop := {
  cl_entries : forall s, entries (get_stream d' s) = entries (get_stream d s);
  cl_dom : dom (pel d') ⊆ dom (pel d);
  cl_pel : forall m, m ∈ entries (get_stream d stream) ->
    pel d' !! ID m = pel d !! ID m \/ owned t0 d' (ID m);
}.

#[local] Instance claimed_refl t0 : Reflexive (claimed t0).
Proof. intros d. constructor; auto. Qed.

#[local] Instance claimed_trans t0 : Transitive (claimed t0).
Proof.
  intros d1 d2 d3 [He1 Hd1 Hp1] [He2 Hd2 Hp2]. constructor; [congruence|set_solver|].
  intros m Hm. destruct (Hp2 m) as [Hs2|Ho2]; [by rewrite He1| |by right].
  destruct (Hp1 m Hm) as [Hs1|(t & Ht & Ho1)]; [left; congruence|]. right. exists t. split; [done|congruence].
Qed.

Lemma autoclaim_claimed t0 t cur ms next d d' : t0 <= t ->
  autoclaim_ok stream group (c_consumerName c) idle t cur maxBatch ms next d d' ->
  claimed t0 d d' /\ (forall m, m ∈ ms -> owned t0 d' (ID m)).
Proof.
  intros Ht (gr & lost & Hg & Hlen & Hnd & Hms & Hlost & Hd' & _ & _).
  assert (pel d = g_pel gr) as Hpel by (unfold pending, get_pel; by rewrite Hg).
  assert (pel d' = claim_all (c_consumerName c) t ms (filter (fun p => p.1 ∉ lost) (g_pel gr))) as Hpel'.
  { rewrite Hd'. unfold pending. by eapply pel_set_pel. }
  assert (forall m, m ∈ ms -> owned t0 d' (ID m)) as Hown.
  { intros m Hm. exists t. split; [done|]. rewrite Hpel', claim_all_lookup, bool_decide_true; [done|].
    by apply list_elem_of_fmap_2. }
  split; [|done]. constructor.
  - intros s. rewrite Hd'. apply entries_set_pel.
  - intros id. rewrite !elem_of_dom, Hpel', Hpel, claim_all_lookup. case_bool_decide as Hin.
    + apply list_elem_of_fmap in Hin as (m & -> & Hm). destruct (Hms m Hm) as (_ & _ & _ & pe & -> & _). eauto.
    + intros [x Hx]. apply map_lookup_filter_Some in Hx as [? _]. eauto.
  - intros m Hm. destruct (decide (ID m ∈ (ID <$> ms))) as [Hin|Hin].
    + right. apply list_elem_of_fmap in Hin as (m' & -> & Hm'). by apply Hown.
    + left. rewrite Hpel', claim_all_lookup, bool_decide_false, Hpel by done.
      destruct (g_pel gr !! ID m) as [pe|] eqn:Epe.
      * apply map_lookup_filter_Some. split; [done|]. intros Hl%Hlost. simpl in Hl. apply Hl. by apply list_elem_of_fmap_2.
      * apply map_lookup_filter_None. by left.
Qed.

Lemma lost_autoclaim t0 t t' cur d d' : t0 <= t ->
  lost (XAutoClaim stream group (c_consumerName c) idle cur maxBatch) t t' d d' -> claimed t0 d d'.
Proof.
  intros Ht. apply (lost_rel _ (claimed t0)). intros t1 [[ms nx]|e] d0 d1 Ht1 Hs; simpl in Hs.
  - eapply autoclaim_claimed; [|exact Hs]. lia.
  - by destruct Hs as [-> _].
Qed.

(** What an answered call tells. *)
Lemma law_autoclaim t0 cur w w' ms next : t0 <= server_ms w ->
  exec (XAutoClaim stream group (c_consumerName c) idle cur maxBatch) w = (w', Ok (ms, next)) ->
  claimed t0 (db w) (db w') /\ t0 <= server_ms w' /\
  (forall m, m ∈ ms -> owned t0 (db w') (ID m) /\ m ∈ entries (get_stream (db w) stream) /\
     id_leb cur (ID m) = true /\ (next = "0-0" \/ id_ltb (ID m) next = true)) /\
  NoDup (ID <$> ms) /\
  (forall m pe, m ∈ entries (get_stream (db w) stream) -> pel (db w) !! ID m = Some pe ->
     stale idle t0 pe -> id_leb cur (ID m) = true ->
     (next = "0-0" \/ id_ltb (ID m) next = true) -> owned t0 (db w') (ID m)) /\
  (next = "0-0" \/ (id_leb cur next = true /\
     (size (pel_from next (pel (db w'))) < size (pel_from cur (pel (db w))))%nat)).
Proof.
  intros Ht0 E. pose proof (law_time _ _ _ _ _ E) as Hmono. apply law_exec in E as (d1 & Hl & Hs).
  simpl in Hs. apply (lost_autoclaim t0) in Hl as [He1 Hdom1 Hp1]; [|done].
  assert (t0 <= server_ms w') as Ht' by lia.
  destruct (autoclaim_claimed t0 _ _ _ _ _ _ Ht' Hs) as [Hcl Hown].
  assert (claimed t0 (db w) (db w')) as Hall by (etrans; [|exact Hcl]; by constructor).
  destruct Hs as (gr & lost & Hg & Hlen & Hnd & Hms & _ & _ & Hnext & Hcov).
  assert (pel d1 = g_pel gr) as Hpel by (unfold pending, get_pel; by rewrite Hg).
  split; [done|]. split; [lia|]. split; [|split; [done|split]].
  - intros m Hm. destruct (Hms m Hm) as (Hme & Hle & Hn & _). rewrite <-He1. auto.
  - intros m pe Hm Hpe Hst Hle Hn. destruct (Hp1 m Hm) as [Hsame|(t & Ht & Ho)].
    + apply Hown. eapply Hcov; try done; [by rewrite He1|by rewrite <-Hpel, Hsame|].
      unfold stale in *. lia.
    + destruct (cl_pel _ _ _ Hcl m ltac:(by rewrite He1)) as [Hsame2|Ho2]; [|done].
      exists t. split; [done|congruence].
  - destruct Hnext as [Hn|[Hle Hn]]; [by left|right]. split; [done|]. rewrite <-Hpel in Hn.
    assert (forall cur m1 m2, dom m1 ⊆ dom m2 -> (size (pel_from cur m1) <= size (pel_from cur m2))%nat) as Hsz.
    { clear. intros cur m1 m2 Hd. rewrite <-!size_dom. apply subseteq_size. intros i.
      unfold pel_from. rewrite !elem_of_dom. intros [x [Hx Hi]%map_lookup_filter_Some].
      assert (i ∈ dom m1) as Hi1 by (apply elem_of_dom; eauto). apply Hd, elem_of_dom in Hi1 as [y Hy].
      exists y. by apply map_lookup_filter_Some. }
    pose proof (Hsz next _ _ (cl_dom _ _ _ Hcl)). pose proof (Hsz cur _ _ Hdom1). lia.
Qed.

(** The message ids handed out so far are before the cursor. *)
Definition before (cur : string) (l : list (JobEnvelope * string)) : Prop :=
  forall i, i ∈ l.*2 -> id_ltb i cur = true.

(** A reclaimed job is the payload of a message of the stream that is now
    pending for this consumer. *)
Definition reclaimed (t0 : Z) (d : Db) (p : JobEnvelope * string) : Prop :=
  owned t0 d p.2 /\ exists m txt, m ∈ entries (get_stream d stream) /\ ID m = p.2 /\
    Values m !! "job" = Some txt /\ unmarshal_job txt = Ok p.1.

Lemma parsed_elem ms p : p ∈ parsed ms ->
  exists m txt, m ∈ ms /\ ID m = p.2 /\ Values m !! "job" = Some txt /\ unmarshal_job txt = Ok p.1.
Proof.
  unfold parsed. intros (m & Hm & Hp)%list_elem_of_omap. unfold parseMessage in Hp.
  destruct (Values m !! "job") as [txt|] eqn:Ev; [|done].
  destruct (unmarshal_job txt) as [j|e] eqn:Eu; [|done]. injection Hp as <-. eauto 10.
Qed.

Lemma parsed_NoDup ms : NoDup (ID <$> ms) -> NoDup (parsed ms).*2.
Proof.
  induction ms as [|m ms IH]; [by constructor|]. rewrite fmap_cons. intros [Hm Hnd]%NoDup_cons.
  unfold parsed. cbn [omap list_omap]. fold (parsed ms).
  destruct (parseMessage m) as [[[j|] id] [e|]] eqn:Ep; auto.
  rewrite fmap_cons. apply NoDup_cons. split; [|by apply IH]. simpl.
  assert (id = ID m) as ->.
  { unfold parseMessage in Ep. repeat case_match; congruence. }
  intros (p & Hp1 & Hp2)%list_elem_of_fmap. apply Hm.
  apply parsed_elem in Hp2 as (m' & txt & Hm' & Hid & _). rewrite Hp1, <-Hid. by apply list_elem_of_fmap_2.
Qed.

Lemma owned_claimed t0 d d' m :
  claimed t0 d d' -> m ∈ entries (get_stream d stream) -> owned t0 d (ID m) -> owned t0 d' (ID m).
Proof.
  intros Hc Hm (t & Ht & Ho). destruct (cl_pel _ _ _ Hc m Hm) as [Hs|Hs]; [|done].
  exists t. split; [done|congruence].
Qed.

Lemma reclaimed_claimed t0 d d' p : claimed t0 d d' -> reclaimed t0 d p -> reclaimed t0 d' p.
Proof.
  intros Hc (Ho & m & txt & Hm & Hid & Hv & Hu). split.
  - rewrite <-Hid in *. by eapply owned_claimed.
  - exists m, txt. by rewrite (cl_entries _ _ _ Hc).
Qed.

(** The messages still to be dealt with: owned already, or stale and at or
    past the cursor. *)
Definition todo (t0 : Z) (cur : string) (d : Db) (m : XMessage) : Prop :=
  m ∈ entries (get_stream d stream) /\
  (owned t0 d (ID m) \/
   (exists pe, pel d !! ID m = Some pe /\ stale idle t0 pe) /\ id_leb cur (ID m) = true).

Lemma before_app cur next l ms t0 d :
  before cur l -> id_leb cur next = true ->
  (forall m, m ∈ ms -> owned t0 d (ID m) /\ m ∈ entries (get_stream d stream) /\
     id_leb cur (ID m) = true /\ id_ltb (ID m) next = true) ->
  before next (l ++ parsed ms).
Proof.
  intros Hb Hle Hms i. rewrite fmap_app, elem_of_app. intros [Hi|Hi].
  - apply Hb in Hi. rewrite id_ltb_leb in *. destruct (id_leb next i) eqn:E; [|done].
    by rewrite (id_leb_trans cur next i) in Hi.
  - apply list_elem_of_fmap in Hi as (p & -> & Hp).
    apply parsed_elem in Hp as (m & txt & Hm & <- & _). by apply Hms.
Qed.

Lemma NoDup_batch cur l ms : before cur l -> NoDup l.*2 -> NoDup (ID <$> ms) ->
  (forall m, m ∈ ms -> id_leb cur (ID m) = true) -> NoDup (l ++ parsed ms).*2.
Proof.
  intros Hb Hl Hms Hc. rewrite fmap_app. apply NoDup_app. split; [done|].
  split; [|by apply parsed_NoDup]. intros i Hi (p & -> & Hp)%list_elem_of_fmap.
  apply parsed_elem in Hp as (m & txt & Hm & Hid & _). apply Hb in Hi. rewrite <-Hid in Hi.
  apply id_ltb_leb in Hi. by rewrite (Hc m Hm) in Hi.
Qed.

Lemma reclaim_loop_spec t0 (P : XMessage -> Prop) fuel : forall cur acc w,
  t0 <= server_ms w -> (size (pel_from cur (pel (db w))) < fuel)%nat ->
  Forall (reclaimed t0 (db w)) acc -> NoDup acc.*2 -> before cur acc ->
  (forall m, P m -> todo t0 cur (db w) m) ->
  exists w' l err, run (reclaim_loop c fuel idle maxBatch cur acc.*1 acc.*2) w = (w', Val (l.*1, l.*2, err)) /\
    claimed t0 (db w) (db w') /\ Forall (reclaimed t0 (db w')) l /\ NoDup l.*2 /\
    (err = None -> forall m, P m -> owned t0 (db w') (ID m)).
Proof.
  induction fuel as [|fuel IH]; intros cur acc w Ht Hf Hacc Hnd Hb Htodo; [lia|].
  cbn [reclaim_loop run bind call].
  destruct (exec _ w) as [w1 [[ms next]|err]] eqn:E; cbn [run].
  - apply (law_autoclaim t0) in E as (Hcl & Ht1 & Hms & Hndm & Hcov & Hnext); [|done].
    assert (Forall (reclaimed t0 (db w1)) (acc ++ parsed ms)) as Hacc'.
    { apply Forall_app. split.
      - apply (Forall_impl _ _ _ Hacc). intros p. by apply reclaimed_claimed.
      - apply Forall_forall. intros p Hp. apply parsed_elem in Hp as (m & txt & Hm & Hid & Hv & Hu).
        destruct (Hms m Hm) as (Ho & Hme & _). split; [by rewrite <-Hid|].
        exists m, txt. by rewrite (cl_entries _ _ _ Hcl). }
    assert (NoDup (acc ++ parsed ms).*2) as Hnd'.
    { apply (NoDup_batch cur); [done..|]. intros m Hm. by apply Hms. }
    assert (forall m, P m -> next = "0-0" \/ id_ltb (ID m) next = true -> owned t0 (db w1) (ID m)) as Hdone.
    { intros m Hm Hn. destruct (Htodo m Hm) as (Hme & [Ho|[(pe & Hpe & Hst) Hle]]).
      - by eapply owned_claimed.
      - by eapply Hcov. }
    rewrite parse_batch_parsed. case_bool_decide as Hn; cbn [run].
    + eexists _, _, _. split; [reflexivity|]. split; [done|]. split; [done|]. split; [done|]. auto.
    + destruct Hnext as [|[Hle Hsize]]; [done|].
      assert (forall m, m ∈ ms -> owned t0 (db w1) (ID m) /\ m ∈ entries (get_stream (db w1) stream) /\
        id_leb cur (ID m) = true /\ id_ltb (ID m) next = true) as Hms'.
      { intros m Hm. rewrite (cl_entries _ _ _ Hcl). destruct (Hms m Hm) as (?&?&?&[?|?]); [done|]. auto. }
      destruct (exec CtxDone w1) as [w2 done] eqn:E2. pose proof (law_time _ _ _ _ _ E2) as Ht2.
      apply law_read in E2 as [D2 _]; [|reflexivity].
      destruct done as [err|]; cbn [run].
      { eexists _, _, _. split; [reflexivity|]. rewrite D2. done. }
      destruct (IH next (acc ++ parsed ms) w2) as (w' & l & err & Hrun & Hcl' & Hl & Hndl & Hres);
        rewrite ?D2; try done; [lia|lia|by eapply before_app| |].
      * intros m Hm. destruct (Htodo m Hm) as (Hme & Hcase). split; [by rewrite (cl_entries _ _ _ Hcl)|].
        destruct (id_ltb (ID m) next) eqn:Elt; [left; by apply Hdone; auto|].
        assert (id_leb next (ID m) = true) as Hle'.
        { destruct (id_leb next (ID m)) eqn:El; [done|]. apply id_ltb_leb in El. congruence. }
        destruct Hcase as [Ho|[(pe & Hpe & Hst) _]]; [left; by eapply owned_claimed|].
        destruct (cl_pel _ _ _ Hcl m Hme) as [Hs|Ho]; [|by left]. right. split; [|done].
        exists pe. by rewrite Hs.
      * eexists _, _, _. split; [exact Hrun|]. rewrite D2 in Hcl'. split; [by etrans|]. done.
  - assert (claimed t0 (db w) (db w1) /\ err <> RedisNil) as [Hcl Hnil].
    { apply law_exec in E as (d1 & Hl & [Hd Hn]). rewrite Hd. split; [|done]. by eapply lost_autoclaim. }
    destruct err; try done; cbn [run]; eexists _, _, _; (split; [reflexivity|]; split; [done|]; split;
      [apply (Forall_impl _ _ _ Hacc); intros p; by apply reclaimed_claimed|done]).
Qed.

(** C6: [ReclaimStale] terminates and reclaims every stale message.  The
    cursor moves strictly forward through the pending list, so as many rounds as
    there are pending messages, plus one, are enough.  It only takes over
    messages, no stream entry is lost; the two slices it returns
    have the same length, the job at each index is the payload of the message whose
    id is at that index, which is now pending for this consumer, and no message is
    returned twice; and when it reports no error, every message that was idle for
    [idleTime] when it was called, and still is in the stream, is now pending for
    this consumer, however many batches that takes. *)
Theorem ReclaimStale_correct fuel w :
  (size (pel (db w)) < fuel)%nat ->
  exists w' envelopes ids err, run (ReclaimStale c fuel idle maxBatch) w = (w', Val (envelopes, ids, err)) /\
    (forall s, entries (get_stream (db w') s) = entries (get_stream (db w) s)) /\
    length ids = length envelopes /\
    Forall (reclaimed (server_ms w) (db w')) (zip envelopes ids) /\ NoDup ids /\
    (err = None -> forall m pe, m ∈ entries (get_stream (db w) stream) ->
       pel (db w) !! ID m = Some pe -> stale idle (server_ms w) pe ->
       owned (server_ms w) (db w') (ID m)).
Proof.
  intros Hf. set (P m := m ∈ entries (get_stream (db w) stream) /\
    exists pe, pel (db w) !! ID m = Some pe /\ stale idle (server_ms w) pe).
  destruct (reclaim_loop_spec (server_ms w) P fuel "0-0" [] w) as (w' & l & err & Hrun & Hcl & Hl & Hnd & Hres).
  - lia.
  - eapply Nat.le_lt_trans; [|exact Hf]. unfold pel_from. apply map_size_filter.
  - done.
  - by constructor.
  - intros i Hi. by apply elem_of_nil in Hi.
  - intros m (Hm & pe & Hpe & Hst). split; [done|]. right. split; [eauto|].
    unfold id_leb. change (id_key "0-0") with (0, 0). destruct (id_key_nonneg (ID m)) as [H1' H2'].
    destruct (id_key (ID m)) as [x y]. simpl in H1', H2'. cbn iota beta. lia.
  - exists w', l.*1, l.*2, err. split; [exact Hrun|]. split; [apply Hcl|]. split; [by rewrite !length_fmap|].
    rewrite zip_fst_snd. split; [done|]. split; [done|].
    intros He m pe Hm Hpe Hst. apply (Hres He). split; eauto.
Qed.

End Reclaim.

(** ** The age of the backlog *)
Section PendingInfo.
Context {W : Type} `{RedisLaws W}.
Context (c : Consumer).
Import Consume.

Lemma split_id ms q : 0 <= ms -> exists l, Strings.Split (Strconv.Itoa ms +:+ "-" +:+ q) "-"%char = Strconv.Itoa ms :: l.
Proof. intros Hms. apply (Strings.Split_head _ q). intros c'. by apply Strconv.Itoa_no_dash. Qed.

Lemma run_GetPendingInfo w :
  exists w' n age err, run (GetPendingInfo c) w = (w', Val (n, age, err)) /\ db w' = db w /\
    (n = 0 -> age = 0) /\
    (err = None -> n = Z.of_nat (size (pending c (db w))) /\
       (0 < n -> exists low, is_Some (pending c (db w) !! low) /\
          (forall id, is_Some (pending c (db w) !! id) -> id_leb low id = true) /\
          forall ms seq, low = Strconv.Itoa ms +:+ "-" +:+ Strconv.Itoa seq -> 0 <= ms <= max_int64 ->
            exists now, clocks (trace (GetPendingInfo c) w) = [now] /\
              age = Z.quot (wrap64 (now / Time.Millisecond - ms)) 1000)) /\
    (err <> None -> failed_xpending (trace (GetPendingInfo c) w)).
Proof.
  unfold GetPendingInfo. cbn [run trace bind call].
  destruct (exec (XPending (c_streamName c) (c_consumerGroup c)) w) as [w1 r] eqn:E.
  apply law_read in E as [D [_ Hr]]; [|reflexivity].
  destruct r as [info|e].
  - destruct Hr as (_ & Hcount & H0' & Hlow). fold (pending c (db w)) in *.
    destruct ((0 <? xp_Count info) && negb (bool_decide (xp_Lower info = ""))) eqn:Hc.
    2: { eexists _, _, _, _. split; [reflexivity|]. split; [done|]. split; [done|]. split; [|done]. intros _. split; [done|].
         intros Hpos. destruct (Hlow Hpos) as [Hin Hmin]. eexists. split; [exact Hin|]. split; [done|].
         intros ms seq Heq Hms. exfalso. rewrite (proj2 (Z.ltb_lt _ _) Hpos) in Hc. simpl in Hc.
         apply negb_false_iff, bool_decide_eq_true in Hc. rewrite Hc in Heq.
         apply (f_equal String.length) in Heq. rewrite !length_append in Heq. simpl in Heq. lia. }
    apply andb_true_iff in Hc as [Hpos%Z.ltb_lt _]. destruct (Hlow Hpos) as [Hin Hmin].
    assert (forall ms seq, xp_Lower info = Strconv.Itoa ms +:+ "-" +:+ Strconv.Itoa seq -> 0 <= ms <= max_int64 ->
      exists l, Strings.Split (xp_Lower info) "-"%char = Strconv.Itoa ms :: l /\
        Strconv.ParseInt (Strconv.Itoa ms) = Ok ms) as Hid.
    { intros ms seq -> Hms. destruct (split_id ms (Strconv.Itoa seq)) as [l ->]; [lia|].
      exists l. split; [done|]. apply Strconv.ParseInt_Itoa. int64. }
    destruct (Strings.Split (xp_Lower info) "-"%char) as [|part parts] eqn:Esp;
      [|destruct (Strconv.ParseInt part) as [ms0|?] eqn:Ep]; cbn [run bind call];
      [|destruct (exec Now w1) as [w2 now] eqn:E2; pose proof (law_now _ _ _ E2) as [D2 Hnow]; cbn [run]|];
      eexists _, _, _, _; (split; [reflexivity|]; split; [congruence|]; split; [lia|]; split; [|done]);
      intros _; (split; [done|]); intros _; (eexists; split; [exact Hin|]; split; [done|]);
      intros ms seq Heq Hms; destruct (Hid ms seq Heq Hms) as (l & Hl & Hp); try done.
    + exists now. cbn [trace]. rewrite E2. split; [done|]. congruence.
    + congruence.
  - destruct Hr as [Hnil Hng]. case_match eqn:Hb; cbn [run]; eexists _, _, _, _;
      (split; [reflexivity|]; split; [done|]; split; [done|]; split); try done;
      [|intros _; eexists _, _, _; by left].
    intros _. rewrite orb_true_iff, !bool_decide_eq_true in Hb. destruct Hb as [Hb|Hb]; [done|].
    unfold pending, get_pel. rewrite (Hng Hb). simpl. split; [by rewrite map_size_empty|lia].
Qed.

(** C37: [GetPendingInfo] reports the pending messages of the group.  It never
    panics and changes nothing; without an error the count is the size of the
    group's pending list, an empty list has age zero, and otherwise the age is
    computed from the smallest pending id [ms-seq]: the whole seconds between
    its [ms] and the client's clock, which it reads once; an error means that
    [XPENDING] failed. *)
Theorem GetPendingInfo_correct w :
  exists w' n age err, run (GetPendingInfo c) w = (w', Val (n, age, err)) /\ db w' = db w /\
    (n = 0 -> age = 0) /\
    (err = None -> n = Z.of_nat (size (pending c (db w))) /\
       (0 < n -> exists low, is_Some (pending c (db w) !! low) /\
          (forall id, is_Some (pending c (db w) !! id) -> id_leb low id = true) /\
          forall ms seq, low = Strconv.Itoa ms +:+ "-" +:+ Strconv.Itoa seq -> 0 <= ms <= max_int64 ->
            exists now, clocks (trace (GetPendingInfo c) w) = [now] /\
              age = Z.quot (wrap64 (now / Time.Millisecond - ms)) 1000)) /\
    (err <> None -> failed_xpending (trace (GetPendingInfo c) w)).
Proof. apply run_GetPendingInfo. Qed.

End PendingInfo.
