(* ===== verification/Registry.v ===== *)
(** * Worker registry and control plane: [internal/registry] *)
From S2P Require Import Prelude GoStd GoFloat Config World Trace.
Import Errors.

(** ** registry.go, types.go *)

(** [registry.WorkerInfo]; instants in Unix seconds. *)
Record WorkerInfo := mkWorkerInfo { WorkerID : string; LastSeen : Z; StartedAt : Z }.

(** [IsAlive] at client time [now] (nanoseconds): [time.Since] saturates. *)
Definition IsAlive (w : WorkerInfo) (threshold now : Z) : bool :=
  Time.Sub now (LastSeen w * Time.Second) <? threshold.

Definition workerKeyPrefix : string := "worker:registry:".

Definition workerKey (workerID : string) : string := workerKeyPrefix +:+ workerID.

Module Registry.

Definition Register (workerID : string) : prog (option error) :=
  now <- call Now ;;
  let sec := Strconv.Itoa (now / Time.Second) in
  r <- call (HSet (workerKey workerID)
               [("worker_id", workerID); ("last_seen", sec); ("started_at", sec)]) ;;
  match r with
  | Err err => Return (Some (Wrapf ("failed to register worker " +:+ workerID) err))
  | Ok _ => Return None
  end.

Definition Heartbeat (workerID : string) : prog (option error) :=
  now <- call Now ;;
  r <- call (HSet (workerKey workerID) [("last_seen", Strconv.Itoa (now / Time.Second))]) ;;
  match r with
  | Err err => Return (Some (Wrapf ("failed to heartbeat worker " +:+ workerID) err))
  | Ok _ => Return None
  end.

Definition Deregister (workerID : string) : prog (option error) :=
  r <- call (Del (workerKey workerID)) ;;
  match r with
  | Err err => Return (Some (Wrapf ("failed to deregister worker " +:+ workerID) err))
  | Ok _ => Return None
  end.

(** A missing field reads as the empty string. *)
Definition field (fields : gmap string string) (name : string) : string := default "" (fields !! name).

(** The error text of [strconv.ParseInt] is not modelled. *)
Definition parseWorkerInfo (fields : gmap string string) : res error WorkerInfo :=
  let workerID := field fields "worker_id" in
  if bool_decide (workerID = "") then Err (ErrorString "missing required field worker_id")
  else
    match Strconv.ParseInt (field fields "last_seen") with
    | Err _ => Err (ErrorString "invalid last_seen")
    | Ok lastSeenUnix =>
        match Strconv.ParseInt (field fields "started_at") with
        | Err _ => Err (ErrorString "invalid started_at")
        | Ok startedAtUnix => Ok (mkWorkerInfo workerID lastSeenUnix startedAtUnix)
        end
    end.

(** [GetWorker]: [Ok None] for [nil, nil]. *)
Definition GetWorker (workerID : string) : prog (res error (option WorkerInfo)) :=
  r <- call (HGetAll (workerKey workerID)) ;;
  match r with
  | Err err => Return (Err (Wrapf ("failed to get worker " +:+ workerID) err))
  | Ok fields =>
      if bool_decide (size fields = 0%nat) then Return (Ok None)
      else match parseWorkerInfo fields with
           | Err err => Return (Err err)
           | Ok info => Return (Ok (Some info))
           end
  end.

(** The loop of [ListWorkers]: unreadable records are skipped. *)
Fixpoint list_loop (keys : list string) : prog (list WorkerInfo) :=
  match keys with
  | [] => Return []
  | key :: rest =>
      r <- call (HGetAll key) ;;
      let here := match r with
                  | Err _ => []
                  | Ok fields =>
                      if bool_decide (size fields = 0%nat) then []
                      else match parseWorkerInfo fields with Err _ => [] | Ok info => [info] end
                  end in
      ws <- list_loop rest ;;
      Return (here ++ ws)
  end.

Definition ListWorkers : prog (res error (list WorkerInfo)) :=
  r <- call (Keys (workerKeyPrefix +:+ "*")) ;;
  match r with
  | Err err => Return (Err (Wrapf "failed to list worker keys" err))
  | Ok keys => ws <- list_loop keys ;; Return (Ok ws)
  end.

End Registry.

(** ** control_plane.go *)

Definition controlPlaneLockKey : string := "controlplane:lock".

Module ControlPlane.
Section ControlPlane.
Context (config : RegistryConfig.t) (id : string).

Definition acquireLock : prog (res error bool) :=
  r <- call (SetNX controlPlaneLockKey id (RegistryConfig.LockTTL config)) ;;
  match r with
  | Err err => Return (Err (Wrapf "lock SetNX failed" err))
  | Ok ok => Return (Ok ok)
  end.

(** [%q] quotes the two ids of one error text; the quotes are left out here. *)
Definition renewLock : prog (option error) :=
  r <- call (Get controlPlaneLockKey) ;;
  match r with
  | Err err => Return (Some (Wrapf "failed to read lock" err))
  | Ok current =>
      if bool_decide (current <> id) then
        Return (Some (ErrorString ("lock owned by " +:+ current +:+ ", not " +:+ id)))
      else
        x <- call (Expire controlPlaneLockKey (RegistryConfig.LockTTL config)) ;;
        match x with
        | Err err => Return (Some (Wrapf "failed to renew lock TTL" err))
        | Ok _ => Return None
        end
  end.

Definition releaseLock : prog unit :=
  r <- call (Get controlPlaneLockKey) ;;
  match r with
  | Ok current => if bool_decide (current = id) then call (Del controlPlaneLockKey) ;;; Return tt else Return tt
  | Err _ => Return tt
  end.

(** The workers of one pass, each checked against the clock at its turn: alive
    and dead ones. *)
Fixpoint check_workers (ws : list WorkerInfo) : prog (list WorkerInfo * list WorkerInfo) :=
  match ws with
  | [] => Return ([], [])
  | w :: rest =>
      now <- call Now ;;
      r <- check_workers rest ;;
      let '(alive, dead) := r in
      Return (if IsAlive w (RegistryConfig.DeadThreshold config) now
              then (w :: alive, dead) else (alive, w :: dead))
  end.

(** [reconcile]: the workers it counts alive and those it reports dead; [None]
    when the registry could not be listed. *)
Definition reconcile : prog (option (list WorkerInfo * list WorkerInfo)) :=
  r <- Registry.ListWorkers ;;
  match r with
  | Err _ => Return None
  | Ok workers => x <- check_workers workers ;; Return (Some x)
  end.

(** The loop of [Start] once the lock is held. *)
Fixpoint lead_loop (fuel : nat) : prog (option error) :=
  match fuel with
  | O => OutOfFuel
  | S fuel' =>
      s <- call (Select [RegistryConfig.LockTTL config / 2; RegistryConfig.ControlPlanePoll config]) ;;
      match s with
      | None => releaseLock ;;; Return None
      | Some O =>
          err <- renewLock ;;
          match err with
          | Some e => Return (Some (Wrapf "lost control plane lock" e))
          | None => lead_loop fuel'
          end
      | Some _ => reconcile ;;; lead_loop fuel'
      end
  end.

(** [Start] and [waitForLock] call each other; [fuel] counts turns of their
    loops and calls.  A lock held by another instance means standing by. *)
Fixpoint Start (fuel : nat) : prog (option error) :=
  match fuel with
  | O => OutOfFuel
  | S fuel' =>
      r <- acquireLock ;;
      match r with
      | Err err => Return (Some (Wrapf "failed to acquire control plane lock" err))
      | Ok false => waitForLock fuel'
      | Ok true => reconcile ;;; lead_loop fuel'
      end
  end
with waitForLock (fuel : nat) : prog (option error) :=
  match fuel with
  | O => OutOfFuel
  | S fuel' =>
      s <- call (Select [RegistryConfig.LockTTL config]) ;;
      match s with
      | None => Return None
      | Some _ =>
          r <- acquireLock ;;
          match r with
          | Err _ => waitForLock fuel'
          | Ok true => Start fuel'
          | Ok false => waitForLock fuel'
          end
      end
  end.

End ControlPlane.
End ControlPlane.

(** ** What the registry guarantees *)
Section RegistryTheorems.
Context {W : Type} `{RedisLaws W}.
Import Registry.

(** The record of a worker. *)
Definition record (d : Db) (workerID : string) : gmap string string :=
  default ∅ (hashes d !! workerKey workerID).

Lemma workerKey_inj a b : workerKey a = workerKey b -> a = b.
Proof. unfold workerKey. apply (inj (String.append workerKeyPrefix)). Qed.

(** An [HSET] on a worker's record: other records are untouched. *)
Lemma record_hset k fs d workerID : k = workerKey workerID ->
  let d' := set_hashes (<[k := list_to_map fs ∪ default ∅ (hashes d !! k)]> (hashes d)) d in
  record d' workerID = list_to_map fs ∪ record d workerID /\
  forall other, other <> workerID -> record d' other = record d other.
Proof.
  intros -> d'. unfold d', record. simpl. rewrite lookup_insert_eq. split; [done|].
  intros other Hne. rewrite lookup_insert_ne; [done|]. intros He. by apply workerKey_inj in He.
Qed.

(** The record under [key] could not be read. *)
Definition failed_hgetall (key : string) (l : list event) : Prop := exists e, Ev (HGetAll key) (Err e) ∈ l.

(** C29: a worker that registered is found.  After [Register] succeeded,
    [GetWorker] (unless its [HGETALL] fails) returns the worker under its id with both
    timestamps equal to the Unix time of the one clock reading of the registration,
    whatever an earlier record said, and no other worker's record has changed. *)
Theorem Register_GetWorker workerID w :
  workerID <> "" ->
  exists w1 r, run (Register workerID) w = (w1, Val r) /\
    (r <> None -> exists k fs e, Ev (HSet k fs) (Err e) ∈ trace (Register workerID) w) /\
    (r = None -> (forall other, other <> workerID -> record (db w1) other = record (db w) other) /\
      exists ns w2 g, clocks (trace (Register workerID) w) = [ns] /\ let now := ns / Time.Second in
        run (GetWorker workerID) w1 = (w2, Val g) /\ db w2 = db w1 /\
        (g = Ok (Some (mkWorkerInfo workerID now now)) \/
         failed_hgetall (workerKey workerID) (trace (GetWorker workerID) w1))).
Proof.
  intros Hid. unfold Register. cbn [run trace bind call].
  destruct (exec Now w) as [w0 ns] eqn:E0. apply law_now in E0 as [D0 Hns]. cbn [run trace].
  destruct (exec (HSet _ _) w0) as [w1 [n|err]] eqn:E1; cbn [run]; eexists _, _; (split; [reflexivity|]);
    [|split; [intros _; eexists _, _, _; right; by left|done]].
  split; [done|]. intros _. apply law_hset in E1. destruct (record_hset (workerKey workerID)
    [("worker_id", workerID); ("last_seen", Strconv.Itoa (ns / Time.Second));
     ("started_at", Strconv.Itoa (ns / Time.Second))] (db w0) workerID eq_refl) as [Hrec Hoth].
  rewrite <-E1, D0 in Hrec, Hoth. split; [done|]. exists ns.
  unfold GetWorker. cbn [run trace bind call].
  destruct (exec (HGetAll (workerKey workerID)) w1) as [w2 [fields|err]] eqn:E2;
    apply law_hgetall in E2 as [D2 Hf].
  - specialize (Hf fields eq_refl). fold (record (db w1) workerID) in Hf. rewrite Hrec in Hf.
    assert (forall name v, list_to_map (M := gmap string string) [("worker_id", workerID);
      ("last_seen", Strconv.Itoa (ns / Time.Second)); ("started_at", Strconv.Itoa (ns / Time.Second))] !! name = Some v ->
      field fields name = v) as Hfield.
    { intros name v Hv. unfold field. rewrite Hf. by rewrite (lookup_union_Some_l _ _ _ v). }
    rewrite bool_decide_false.
    2: { intros Hz%map_size_empty_inv. specialize (Hfield "worker_id" workerID eq_refl).
         unfold field in Hfield. rewrite Hz, lookup_empty in Hfield. by subst. }
    unfold parseWorkerInfo. rewrite (Hfield "worker_id" workerID), (Hfield "last_seen" (Strconv.Itoa (ns / Time.Second))),
      (Hfield "started_at" (Strconv.Itoa (ns / Time.Second))) by reflexivity.
    rewrite bool_decide_false by done. rewrite Strconv.ParseInt_Itoa by (by apply Time.Unix_range).
    cbn [run]. eexists _, _. split; [reflexivity|]. split; [reflexivity|]. split; [done|]. by left.
  - cbn [run]. eexists _, _. split; [reflexivity|]. split; [reflexivity|]. split; [done|]. right. exists err. by left.
Qed.

(** [Heartbeat] refreshes [last_seen] and nothing else.  For a worker with a
    readable record, the record is readable after a successful heartbeat, with
    the same id and start time and the time of the heartbeat; other workers'
    records do not change. *)
Theorem Heartbeat_refreshes workerID info w :
  parseWorkerInfo (record (db w) workerID) = Ok info ->
  exists w1 r, run (Heartbeat workerID) w = (w1, Val r) /\
    (r = None -> exists now, is_int64 now /\
       parseWorkerInfo (record (db w1) workerID) = Ok (mkWorkerInfo (WorkerID info) now (StartedAt info)) /\
       forall other, other <> workerID -> record (db w1) other = record (db w) other).
Proof.
  intros Hinfo. unfold Heartbeat. cbn [run bind call].
  destruct (exec Now w) as [w0 ns] eqn:E0. apply law_now in E0 as [D0 Hns].
  destruct (exec (HSet _ _) w0) as [w1 [n|err]] eqn:E1; cbn [run]; eexists _, _; (split; [reflexivity|]); [|done].
  intros _. apply law_hset in E1. destruct (record_hset (workerKey workerID)
    [("last_seen", Strconv.Itoa (ns / Time.Second))] (db w0) workerID eq_refl) as [Hrec Hoth].
  rewrite <-E1, D0 in Hrec, Hoth. exists (ns / Time.Second). split; [by apply Time.Unix_range|]. split; [|done].
  rewrite Hrec. unfold parseWorkerInfo in *.
  assert (forall name, name <> "last_seen" ->
    field (list_to_map [("last_seen", Strconv.Itoa (ns / Time.Second))] ∪ record (db w) workerID) name =
    field (record (db w) workerID) name) as Hother.
  { intros name Hn. unfold field. rewrite lookup_union_r; [done|]. simpl. by rewrite lookup_insert_ne by congruence. }
  rewrite (Hother "worker_id"), (Hother "started_at") by done.
  assert (field (list_to_map [("last_seen", Strconv.Itoa (ns / Time.Second))] ∪ record (db w) workerID) "last_seen" =
    Strconv.Itoa (ns / Time.Second)) as ->.
  { unfold field. by erewrite lookup_union_Some_l by reflexivity. }
  rewrite Strconv.ParseInt_Itoa by (by apply Time.Unix_range). revert Hinfo. case_bool_decide; [done|].
  destruct (Strconv.ParseInt (field _ "last_seen")); [|done].
  destruct (Strconv.ParseInt (field _ "started_at")); [|done]. by intros [= <-].
Qed.

(** The workers a listing reports are recorded in the registry, and it leaves out
    none that it could read. *)
Lemma list_loop_spec keys w : exists w' ws, run (list_loop keys) w = (w', Val ws) /\ db w' = db w /\
  (forall i, i ∈ ws -> exists key, key ∈ keys /\ parseWorkerInfo (default ∅ (hashes (db w) !! key)) = Ok i) /\
  (forall key i, key ∈ keys -> parseWorkerInfo (default ∅ (hashes (db w) !! key)) = Ok i ->
     i ∈ ws \/ failed_hgetall key (trace (list_loop keys) w)).
Proof.
  revert w. induction keys as [|key keys IH]; intros w.
  { eexists _, []. split; [reflexivity|]. split; [done|]. split; [intros i Hi|intros key i Hi]; by apply elem_of_nil in Hi. }
  cbn [list_loop run trace bind call]. destruct (exec (HGetAll key) w) as [w1 r] eqn:E.
  apply law_hgetall in E as [D Hr]. rewrite run_bind, trace_bind. destruct (IH w1) as (w2 & ws & Hrun & D2 & Hws & Hall).
  rewrite Hrun. cbn [run]. eexists _, _. split; [reflexivity|]. split; [congruence|]. rewrite D in Hws, Hall. split.
  - intros i [Hi|Hi]%elem_of_app.
    + destruct r as [fields|]; [|by apply elem_of_nil in Hi]. case_bool_decide; [by apply elem_of_nil in Hi|].
      destruct (parseWorkerInfo fields) as [info|] eqn:Ep; [|by apply elem_of_nil in Hi].
      apply list_elem_of_singleton in Hi as ->. exists key. split; [by left|]. by rewrite <-(Hr fields eq_refl).
    + destruct (Hws i Hi) as (key' & Hk & Hp). exists key'. split; [by right|done].
  - intros k i [->|Hk]%elem_of_cons Hp.
    + destruct r as [fields|e]; [left|right; exists e; by left]. rewrite <-(Hr fields eq_refl) in Hp. rewrite Hp.
      rewrite bool_decide_false; [set_solver|]. intros Hz%map_size_empty_inv. rewrite Hz in Hp. discriminate Hp.
    + destruct (Hall k i Hk Hp) as [Hi|[e He]]; [left; set_solver|right; exists e; set_solver].
Qed.

Context (config : RegistryConfig.t) (id : string).
Import ControlPlane.

(** Number [k] of the workers [ws] was checked against reading number [k] of the
    clock, with the result [b]. *)
Definition checked (ws : list WorkerInfo) (ts : list Z) (i : WorkerInfo) (b : bool) : Prop :=
  exists k now, ws !! k = Some i /\ ts !! k = Some now /\ IsAlive i (RegistryConfig.DeadThreshold config) now = b.

Lemma checked_cons ws ts i b j t : checked ws ts i b -> checked (j :: ws) (t :: ts) i b.
Proof. intros (k & now & ? & ? & ?). by exists (S k), now. Qed.

Lemma check_workers_spec ws w : exists w' alive dead, run (check_workers config ws) w = (w', Val (alive, dead)) /\
  db w' = db w /\ (alive ++ dead ≡ₚ ws) /\
  let ts := clocks (trace (check_workers config ws) w) in
  length ts = length ws /\ Forall (fun i => checked ws ts i true) alive /\ Forall (fun i => checked ws ts i false) dead.
Proof.
  revert w. induction ws as [|i ws IH]; intros w; [by eexists _, [], []|].
  cbn [check_workers run trace bind call]. destruct (exec Now w) as [w1 now] eqn:E. apply law_now in E as [D Hnow].
  rewrite run_bind, trace_bind. destruct (IH w1) as (w2 & alive & dead & Hrun & D2 & Hp & Hl & Ha & Hd).
  rewrite Hrun. cbn [run trace]. rewrite app_nil_r.
  change (clocks (Ev Now now :: ?l)) with (now :: clocks l). set (ts := clocks (trace (check_workers config ws) w1)) in *.
  assert (forall b l, Forall (fun j => checked ws ts j b) l -> Forall (fun j => checked (i :: ws) (now :: ts) j b) l) as Hmono.
  { intros b l Hall. apply (Forall_impl _ _ _ Hall). intros j. apply checked_cons. }
  destruct (IsAlive i (RegistryConfig.DeadThreshold config) now) eqn:Ei; eexists _, _, _;
    (split; [reflexivity|]; split; [congruence|]).
  - split; [by rewrite <-Hp|]. split; [simpl; lia|]. split; [|by apply Hmono].
    constructor; [|by apply Hmono]. by exists 0%nat, now.
  - split; [by rewrite <-Hp, Permutation_middle|]. split; [simpl; lia|]. split; [by apply Hmono|].
    constructor; [|by apply Hmono]. by exists 0%nat, now.
Qed.


(** ** The control plane lock *)

Local Abbreviation key := controlPlaneLockKey.

(** C30: the lock is exclusive.  While the lock key is live, whoever holds it,
    [acquireLock] does not succeed and does not touch it. *)
Theorem acquireLock_exclusive v w w' r :
  run (acquireLock config id) w = (w', Val r) -> live (db w) (server_ms w') key = Some v ->
  r <> Ok true /\ live (db w') (server_ms w') key = Some v.
Proof.
  unfold acquireLock. cbn [run bind call].
  destruct (exec (SetNX key id (RegistryConfig.LockTTL config)) w) as [w1 [[]|err]] eqn:E; cbn [run];
    intros [= <- <-] Hlive.
  - apply law_setnx_true in E as [Hn _]. congruence.
  - split; [done|]. apply law_setnx_false in E as [[-> _]|(t1 & Ht & Hn & _)]; [done|].
    apply (live_later _ _ (server_ms w1)) in Hn; [congruence|lia].
  - split; [done|]. apply law_setnx_err in E as [->|(t1 & Ht & Hn & _)]; [done|].
    apply (live_later _ _ (server_ms w1)) in Hn; [congruence|lia].
Qed.

(** C31: an instance that stands by never leads.  When [waitForLock] takes the
    lock it calls [Start], which tries to take the lock again: as long as the
    lock it has just taken has not expired, that fails, and [Start] goes back to
    standing by (or returns an error) without ever running the reconcile loop. *)
Theorem standby_never_leads fuel i w w1 w2 w3 r :
  RegistryConfig.LockTTL config <> 0 ->
  exec (Select [RegistryConfig.LockTTL config]) w = (w1, Some i) ->
  exec (SetNX key id (RegistryConfig.LockTTL config)) w1 = (w2, Ok true) ->
  exec (SetNX key id (RegistryConfig.LockTTL config)) w2 = (w3, r) ->
  server_ms w3 < server_ms w2 + ttl_ms (RegistryConfig.LockTTL config) ->
  run (waitForLock config id (S (S fuel))) w =
    match r with
    | Ok _ => run (waitForLock config id fuel) w3
    | Err e => (w3, Val (Some (Wrapf "failed to acquire control plane lock" (Wrapf "lock SetNX failed" e))))
    end.
Proof.
  intros Httl E0 E1 E2 Ht. cbn [waitForLock run bind call acquireLock]. unfold acquireLock.
  cbn [run bind call]. rewrite E0. cbn [run bind call]. rewrite E1. cbn [Start run bind call].
  unfold acquireLock. cbn [run bind call]. rewrite E2.
  destruct r as [[]|e]; cbn [run bind]; try done.
  apply law_setnx_true in E1 as [_ D]. apply law_setnx_true in E2 as [Hn _].
  exfalso. revert Hn. unfold live. rewrite D. simpl. rewrite lookup_insert_eq. unfold deadline.
  rewrite (proj2 (Z.eqb_neq _ _) Httl), (proj2 (Z.ltb_lt _ _)) by lia. done.
Qed.

End RegistryTheorems.
