(* ===== verification/Worker.v ===== *)
(** * The worker: [internal/worker]

    The exponential backoff, the processors, the handling of one message, the
    reclaim lock, and the loops of [Worker.Start] as a step relation: the poll
    loop, the reclaim loop, the registry loop and the job goroutines interleave
    call by call. *)
From S2P Require Import Prelude Utf8 GoStd GoFloat Config World Trace Queue Dlq Consumer Registry.
Import Errors.

(** ** exponentialBackoff *)
Module Backoff.

Record t := mk { current : Z; min : Z; max : Z }.

Definition newExponentialBackoff (mn mx : Z) : t := mk mn mn mx.

(** [Next]: the delay to sleep, and the doubled, capped state.  [oob] is the
    implementation-specific result of converting an out-of-range float. *)
Definition Next (oob : float64 -> Z) (eb : t) : prog (t * Z) :=
  let cur := current eb in
  let doubled := F64.to_int64 oob (F64.mul (F64.of_Z (current eb)) (F64.of_Z 2)) in
  let capped := if max eb <? doubled then max eb else doubled in
  r <- call RandFloat64 ;;
  let jitter := F64.to_int64 oob
    (F64.mul (F64.mul (F64.of_Z cur) (F64.of_ratio 1 4))
             (F64.sub (F64.mul r (F64.of_Z 2)) (F64.of_Z 1))) in
  Return (mk capped (min eb) (max eb), wrap64 (cur + jitter)).

Definition Reset (eb : t) : t := mk (min eb) (min eb) (max eb).

End Backoff.

(** ** Processors *)

(** [ProcessorInterface]: process a job, or fail. *)
Definition Processor := JobEnvelope -> prog (option error).

(** [DefaultProcessor.Process]: it reads through [envelope.Data], then works for
    two seconds unless its context ends first. *)
Definition DefaultProcessor : Processor := fun envelope =>
  deref (Data envelope) (fun _ =>
    r <- call (Sleep (2 * Time.Second)) ;;
    match r with
    | None => Return None
    | Some err => Return (Some (Wrapf "processing cancelled" err))
    end).

Definition dedup_key (envelope : JobEnvelope) : string :=
  "dedup:" +:+ JobID envelope +:+ ":" +:+ Strconv.Itoa (RetryCount envelope).

(** [DeduplicatingProcessor.Process]; the counter of duplicates is threaded. *)
Definition dedup_Process (downstream : Processor) (dedupTTL : Z) (duplicateCount : Z)
    (envelope : JobEnvelope) : prog (Z * option error) :=
  r <- call (SetNX (dedup_key envelope) "1" dedupTTL) ;;
  match r with
  | Err err => Return (duplicateCount, Some (Wrapf "dedup check failed" err))
  | Ok false => Return (wrap64 (duplicateCount + 1), None)
  | Ok true =>
      err <- downstream envelope ;;
      Return (duplicateCount, err)
  end.

(** As a processor: the counter only serves [DuplicateCount]. *)
Definition DeduplicatingProcessor (downstream : Processor) (dedupTTL : Z) : Processor :=
  fun envelope => r <- dedup_Process downstream dedupTTL 0 envelope ;; Return (snd r).

(** ** One message *)
Section Message.
Context `{Codec}.
Context (c : Consumer) (process : Processor).

(** [processMessage]: process, then acknowledge or retry; failures of those two
    are only logged. *)
Definition processMessage (envelope : JobEnvelope) (messageID : string) : prog unit :=
  err <- process envelope ;;
  match err with
  | Some e => Consume.Retry c envelope messageID e ;;; Return tt
  | None => Consume.Ack c messageID ;;; Return tt
  end.

(** ** The reclaim lock *)
Definition reclaim_lock_key (partitionID : Z) : string :=
  "worker:reclaim:lock:" +:+ Strconv.Itoa partitionID.

(** [tryReclaim] up to the loop that hands the jobs to goroutines: the jobs to
    start and the ids of their messages, or the error that is logged. *)
Definition tryReclaim (fuel : nat) (config : WorkerConfig.t) (workerID : string) (partitionID : Z)
    : prog (res error (list JobEnvelope * list string)) :=
  r <- call (SetNX (reclaim_lock_key partitionID) workerID (WorkerConfig.ReclaimInterval config)) ;;
  match r with
  | Err err => Return (Err (Wrapf "failed to acquire reclaim lock" err))
  | Ok false => Return (Ok ([], []))
  | Ok true =>
      x <- Consume.ReclaimStale c fuel (WorkerConfig.ReclaimIdleTime config) (WorkerConfig.ReclaimBatchSize config) ;;
      let '(envelopes, messageIDs, err) := x in
      match err with
      | Some e => Return (Err (Wrapf "failed to reclaim stale messages" e))
      | None => Return (Ok (envelopes, messageIDs))
      end
  end.

End Message.

(** ** The loops of [Worker.Start] *)

(** Where the poll loop is: at the top of the loop, in [Consume], in
    [backoff.Next], in the interruptible sleep, waiting for the semaphore with a
    message in hand, or returned. *)
Inductive poll_state :=
| PTop
| PConsume (p : prog (option JobEnvelope * string * option error))
| PBackoff (p : prog (Backoff.t * Z))
| PSleep (p : prog (option error))
| PAcquire (j : JobEnvelope) (id : string)
| PDone.

(** The reclaim loop: in [tryReclaim], in the loop that starts the reclaimed jobs
    (at index [i] of the two slices), waiting for its ticker, or returned. *)
Inductive reclaim_state :=
| RTry (p : prog (res error (list JobEnvelope * list string)))
| RSpawn (i : nat) (envelopes : list JobEnvelope) (messageIDs : list string)
| RWait
| RDone.

(** The registry loop. *)
Inductive registry_state :=
| HBeat (p : prog (option error))
| HWait
| HDone.

(** What the goroutine of the health server returns for the end of its
    [ListenAndServe]: [None] stands for [http.ErrServerClosed]. *)
Definition HealthServer_Start (listen : option error) : option error :=
  match listen with
  | Some err => Some (Wrapf "health server failed" err)
  | None => None
  end.

(** The goroutine of the health server: serving, or returned with an error or nil. *)
Inductive server_state :=
| Serving
| Stopped (err : option error).

(** A goroutine started by [g.Go] for a job: not begun; in [processMessage] with
    the calls [l] behind it and [p] still to do; or in its deferred function,
    between the decrement of [activeJobs] and the release of its permit. *)
Inductive goroutine :=
| GNew (j : JobEnvelope) (id : string)
| GRun (j : JobEnvelope) (id : string) (l : list event) (p : prog unit)
| GRelease (j : JobEnvelope) (id : string).

Definition is_running (g : goroutine) : bool := match g with GRun _ _ _ _ => true | _ => false end.

(** A worker.  [w_cancelled] says that the context of the error group is done;
    [w_read] is a history: the messages that Redis handed to the poll loop and to
    the reclaim loop, in any order. *)
Record wstate (W : Type) := mkW {
  w_world : W;
  w_poll : poll_state;
  w_reclaim : reclaim_state;
  w_registry : registry_state;
  w_jobs : list goroutine;
  w_held : Z;
  w_active : Z;
  w_backoff : Backoff.t;
  w_cancelled : bool;
  w_server : server_state;
  w_read : list XMessage;
}.
Arguments mkW {W}.
Arguments w_world {W}.
Arguments w_poll {W}.
Arguments w_reclaim {W}.
Arguments w_registry {W}.
Arguments w_jobs {W}.
Arguments w_held {W}.
Arguments w_active {W}.
Arguments w_backoff {W}.
Arguments w_cancelled {W}.
Arguments w_server {W}.
Arguments w_read {W}.

Section Loops.
Context {W : Type} `{World W} `{Codec}.
Context (oob : float64 -> Z) (config : WorkerConfig.t) (workerID : string) (partitionID : Z).
Context (c : Consumer) (process : Processor).

(** [w.sem.Acquire(ctx, 1)] returns when a permit is free. *)
Definition free_permit (held : Z) : bool := held <? WorkerConfig.Concurrency config.

(** One step of one goroutine. *)
Inductive wstep : wstate W -> wstate W -> Prop :=
(** a signal cancels the context *)
| s_signal w p r h js hd ac eb cn sv rd :
    wstep (mkW w p r h js hd ac eb cn sv rd) (mkW w p r h js hd ac eb true sv rd)
(** the health server: [ListenAndServe] fails, which cancels the context of the
    group, or returns [http.ErrServerClosed] because a cancellation shut it down *)
| s_server_fails e w p r h js hd ac eb cn rd :
    wstep (mkW w p r h js hd ac eb cn Serving rd)
          (mkW w p r h js hd ac eb true (Stopped (HealthServer_Start (Some e))) rd)
| s_server_closed w p r h js hd ac eb rd :
    wstep (mkW w p r h js hd ac eb true Serving rd) (mkW w p r h js hd ac eb true (Stopped (HealthServer_Start None)) rd)
(** pollLoop *)
| s_poll_exit w r h js hd ac eb sv rd :
    wstep (mkW w PTop r h js hd ac eb true sv rd) (mkW w PDone r h js hd ac eb true sv rd)
| s_poll_consume w r h js hd ac eb sv rd :
    wstep (mkW w PTop r h js hd ac eb false sv rd)
          (mkW w (PConsume (Consume.Consume c (WorkerConfig.PollInterval config))) r h js hd ac eb false sv rd)
| s_poll_call w w' e p p' r h js hd ac eb cn sv rd : stepe p w = Some (w', e, p') ->
    wstep (mkW w (PConsume p) r h js hd ac eb cn sv rd)
          (mkW w' (PConsume p') r h js hd ac eb cn sv (rd ++ read_messages e))
| s_poll_error w o id e r h js hd ac eb cn sv rd :
    wstep (mkW w (PConsume (Return (o, id, Some e))) r h js hd ac eb cn sv rd)
          (mkW w (PBackoff (Backoff.Next oob eb)) r h js hd ac eb cn sv rd)
| s_poll_nothing w id r h js hd ac eb cn sv rd :
    wstep (mkW w (PConsume (Return (None, id, None))) r h js hd ac eb cn sv rd)
          (mkW w PTop r h js hd ac (Backoff.Reset eb) cn sv rd)
| s_poll_message w j id r h js hd ac eb cn sv rd :
    wstep (mkW w (PConsume (Return (Some j, id, None))) r h js hd ac eb cn sv rd)
          (mkW w (PAcquire j id) r h js hd ac (Backoff.Reset eb) cn sv rd)
| s_backoff_call w w' p p' r h js hd ac eb cn sv rd : step p w = Some (w', p') ->
    wstep (mkW w (PBackoff p) r h js hd ac eb cn sv rd) (mkW w' (PBackoff p') r h js hd ac eb cn sv rd)
| s_backoff_done w eb' d r h js hd ac eb cn sv rd :
    wstep (mkW w (PBackoff (Return (eb', d))) r h js hd ac eb cn sv rd)
          (mkW w (PSleep (call (Sleep d))) r h js hd ac eb' cn sv rd)
| s_sleep_call w w' p p' r h js hd ac eb cn sv rd : step p w = Some (w', p') ->
    wstep (mkW w (PSleep p) r h js hd ac eb cn sv rd) (mkW w' (PSleep p') r h js hd ac eb cn sv rd)
| s_sleep_over w r h js hd ac eb cn sv rd :
    wstep (mkW w (PSleep (Return None)) r h js hd ac eb cn sv rd) (mkW w PTop r h js hd ac eb cn sv rd)
| s_sleep_cancelled w e r h js hd ac eb sv rd :
    wstep (mkW w (PSleep (Return (Some e))) r h js hd ac eb true sv rd) (mkW w PDone r h js hd ac eb true sv rd)
| s_acquire w j id r h js hd ac eb cn sv rd : free_permit hd = true ->
    wstep (mkW w (PAcquire j id) r h js hd ac eb cn sv rd)
          (mkW w PTop r h (js ++ [GNew j id]) (hd + 1) ac eb cn sv rd)
| s_acquire_cancelled w j id r h js hd ac eb sv rd :
    wstep (mkW w (PAcquire j id) r h js hd ac eb true sv rd) (mkW w PDone r h js hd ac eb true sv rd)
(** reclaimLoop, tryReclaim, reclaimStale *)
| s_reclaim_call w w' e p rp rp' h js hd ac eb cn sv rd : stepe rp w = Some (w', e, rp') ->
    wstep (mkW w p (RTry rp) h js hd ac eb cn sv rd)
          (mkW w' p (RTry rp') h js hd ac eb cn sv (rd ++ read_messages e))
| s_reclaim_error w p e h js hd ac eb cn sv rd :
    wstep (mkW w p (RTry (Return (Err e))) h js hd ac eb cn sv rd) (mkW w p RWait h js hd ac eb cn sv rd)
| s_reclaim_jobs w p envelopes ids h js hd ac eb cn sv rd :
    wstep (mkW w p (RTry (Return (Ok (envelopes, ids)))) h js hd ac eb cn sv rd)
          (mkW w p (RSpawn 0 envelopes ids) h js hd ac eb cn sv rd)
| s_spawn w p i envelopes ids j id h js hd ac eb cn sv rd :
    envelopes !! i = Some j -> ids !! i = Some id -> free_permit hd = true ->
    wstep (mkW w p (RSpawn i envelopes ids) h js hd ac eb cn sv rd)
          (mkW w p (RSpawn (S i) envelopes ids) h (js ++ [GNew j id]) (hd + 1) ac eb cn sv rd)
| s_spawn_cancelled w p i envelopes ids h js hd ac eb sv rd :
    wstep (mkW w p (RSpawn i envelopes ids) h js hd ac eb true sv rd) (mkW w p RWait h js hd ac eb true sv rd)
| s_spawn_done w p i envelopes ids h js hd ac eb cn sv rd : envelopes !! i = None ->
    wstep (mkW w p (RSpawn i envelopes ids) h js hd ac eb cn sv rd) (mkW w p RWait h js hd ac eb cn sv rd)
| s_reclaim_tick fuel w p h js hd ac eb cn sv rd :
    wstep (mkW w p RWait h js hd ac eb cn sv rd)
          (mkW w p (RTry (tryReclaim c fuel config workerID partitionID)) h js hd ac eb cn sv rd)
| s_reclaim_exit w p h js hd ac eb sv rd :
    wstep (mkW w p RWait h js hd ac eb true sv rd) (mkW w p RDone h js hd ac eb true sv rd)
(** registryLoop *)
| s_beat_call w w' p r hp hp' js hd ac eb cn sv rd : step hp w = Some (w', hp') ->
    wstep (mkW w p r (HBeat hp) js hd ac eb cn sv rd) (mkW w' p r (HBeat hp') js hd ac eb cn sv rd)
| s_beat_done w p r o js hd ac eb cn sv rd :
    wstep (mkW w p r (HBeat (Return o)) js hd ac eb cn sv rd) (mkW w p r HWait js hd ac eb cn sv rd)
| s_beat_tick w p r js hd ac eb cn sv rd :
    wstep (mkW w p r HWait js hd ac eb cn sv rd) (mkW w p r (HBeat (Registry.Heartbeat workerID)) js hd ac eb cn sv rd)
| s_beat_exit w p r js hd ac eb sv rd :
    wstep (mkW w p r HWait js hd ac eb true sv rd) (mkW w p r HDone js hd ac eb true sv rd)
(** the job goroutines *)
| s_job_begin w p r h js1 js2 j id hd ac eb cn sv rd :
    wstep (mkW w p r h (js1 ++ GNew j id :: js2) hd ac eb cn sv rd)
          (mkW w p r h (js1 ++ GRun j id [] (processMessage c process j id) :: js2) hd (ac + 1) eb cn sv rd)
| s_job_call w w' p r h js1 js2 j id l e q q' hd ac eb cn sv rd : stepe q w = Some (w', e, q') ->
    wstep (mkW w p r h (js1 ++ GRun j id l q :: js2) hd ac eb cn sv rd)
          (mkW w' p r h (js1 ++ GRun j id (l ++ [e]) q' :: js2) hd ac eb cn sv rd)
| s_job_end w p r h js1 js2 j id l hd ac eb cn sv rd :
    wstep (mkW w p r h (js1 ++ GRun j id l (Return tt) :: js2) hd ac eb cn sv rd)
          (mkW w p r h (js1 ++ GRelease j id :: js2) hd (ac - 1) eb cn sv rd)
| s_job_release w p r h js1 js2 j id hd ac eb cn sv rd :
    wstep (mkW w p r h (js1 ++ GRelease j id :: js2) hd ac eb cn sv rd)
          (mkW w p r h (js1 ++ js2) (hd - 1) ac eb cn sv rd).

(** [NewWorker] followed by [Start]. *)
Definition wstart (fuel : nat) (w : W) : wstate W :=
  mkW w PTop (RTry (tryReclaim c fuel config workerID partitionID)) (HBeat (Registry.Heartbeat workerID)) []
    0 0 (Backoff.newExponentialBackoff (WorkerConfig.BackoffMinDelay config) (WorkerConfig.BackoffMaxDelay config)) false Serving [].

Definition reachable (s : wstate W) : Prop := exists fuel w, rtc wstep (wstart fuel w) s.

(** [g.Wait()] returns: every goroutine of the group has. *)
Definition finished (s : wstate W) : Prop :=
  w_poll s = PDone /\ w_reclaim s = RDone /\ w_registry s = HDone /\ w_jobs s = [] /\
  exists err, w_server s = Stopped err.

(** What [g.Wait()] returns: the loops and the jobs return nil, so it is the
    error of the health server. *)
Definition group_error (s : wstate W) : option error :=
  match w_server s with Stopped err => err | Serving => None end.

(** The end of [Start], after the wait.  [ctx] is the context of the group: [g, ctx :=]
    assigns to the parameter. *)
Definition Start_result (s : wstate W) : option error :=
  match group_error s with
  | Some err => if w_cancelled s then None else Some err
  | None => None
  end.

(** *** The semaphore *)

(** The number of goroutines in [processMessage]. *)
Fixpoint running (js : list goroutine) : Z :=
  match js with
  | [] => 0
  | g :: rest => (if is_running g then 1 else 0) + running rest
  end.

Record winv (s : wstate W) : Prop := {
  inv_held : w_held s = Z.of_nat (length (w_jobs s));
  inv_bound : w_held s <= Z.max 0 (WorkerConfig.Concurrency config);
  inv_active : w_active s = running (w_jobs s);
  inv_done : w_poll s = PDone \/ w_reclaim s = RDone \/ w_registry s = HDone \/ w_server s <> Serving ->
    w_cancelled s = true;
}.

Lemma running_app a b : running (a ++ b) = running a + running b.
Proof. induction a; simpl; lia. Qed.

Lemma running_bound js : 0 <= running js <= Z.of_nat (length js).
Proof. induction js as [|g js IH]; simpl; [lia|]. destruct (is_running g); lia. Qed.

Lemma wstep_inv s s' : wstep s s' -> winv s -> winv s'.
Proof.
  destruct 1; intros [Hh Hb Ha Hd]; unfold free_permit in *; simpl in *; try (by constructor); constructor; simpl;
    rewrite ?length_app, ?running_app in *; simpl in *; reflect_Z; first [lia|done|naive_solver].
Qed.

Lemma reachable_inv s : reachable s -> winv s.
Proof.
  intros (fuel & w & Hr). assert (winv (wstart fuel w)) as H0' by (constructor; simpl; [done|lia|done|naive_solver]).
  induction Hr as [|s1 s2 s3 Hs _ IH]; [done|]. apply IH. by eapply wstep_inv.
Qed.

(** C8: the worker never runs more jobs at once than its configured
    concurrency, whatever the interleaving of its loops, of job completions and
    of Redis calls, and although two loops start jobs: in every reachable state
    the counter [activeJobs] is the number of goroutines in [processMessage],
    and with a valid configuration it is at most [Concurrency]. *)
Theorem concurrency_bound s :
  reachable s -> 0 < WorkerConfig.Concurrency config ->
  w_active s = running (w_jobs s) /\ 0 <= w_active s <= WorkerConfig.Concurrency config /\
  Z.of_nat (length (w_jobs s)) <= WorkerConfig.Concurrency config.
Proof.
  intros [Hh Hb Ha Hd]%reachable_inv Hc. split; [done|].
  pose proof (running_bound (w_jobs s)). lia.
Qed.

(** C17: a finished worker has drained, and it finishes only when told to.  When
    the wait of [Start] returns, no job goroutine is left, every semaphore permit
    has been released and the counter of active jobs is back to zero; and no loop
    and no server of the worker ever returns, whatever Redis answers, unless a
    signal came or the health server failed. *)
Theorem drained s : reachable s ->
  (finished s -> w_held s = 0 /\ w_active s = 0) /\
  (w_poll s = PDone \/ w_reclaim s = RDone \/ w_registry s = HDone \/ w_server s <> Serving ->
     w_cancelled s = true).
Proof.
  intros [Hh Hb Ha Hd]%reachable_inv. split; [|done]. intros (_ & _ & _ & Hj & _). rewrite Hj in *. done.
Qed.

(** C39: [Start] never reports an error.  It returns the error of the group only
    if [ctx.Err()] is nil after the wait; but that is the context of the group, and
    the wait only returns when the loops have, which they do only once that context
    is done: by a signal, or because the health server failed.  So whenever the
    wait can return, [Start] returns nil, also after the health server failed to
    listen, and the process exits as after a clean shutdown. *)
Theorem Start_never_fails s :
  reachable s -> finished s -> Start_result s = None /\ w_cancelled s = true.
Proof.
  intros [_ _ _ Hd]%reachable_inv (Hp & _). rewrite Hd by auto.
  split; [|done]. unfold Start_result. rewrite Hd by auto. by destruct (group_error s).
Qed.

End Loops.

(** ** What the worker guarantees *)

Section WorkerTheorems.
Context {W : Type} `{RedisLaws W} `{CodecLaws}.
Context (c : Consumer) (process : Processor).

(** The backoff is capped and keeps its limits: after [Next] the delay to
    come is at most the configured maximum, whatever the conversions of floats
    do, and [Reset] goes back to the minimum. *)
Theorem backoff_capped oob eb w :
  exists w' eb' d, run (Backoff.Next oob eb) w = (w', Val (eb', d)) /\ db w' = db w /\
    Backoff.current eb' <= Backoff.max eb /\ Backoff.max eb' = Backoff.max eb /\
    Backoff.min eb' = Backoff.min eb /\ is_int64 d /\
    Backoff.current (Backoff.Reset eb') = Backoff.min eb.
Proof.
  unfold Backoff.Next. cbn [run bind call]. destruct (exec RandFloat64 w) as [w' r] eqn:E.
  apply law_read in E as [D _]; [|reflexivity]. cbn [run].
  eexists _, _, _. split; [reflexivity|]. split; [done|].
  split; [|split; [done|split; [done|split; [apply wrap64_range|done]]]].
  cbn [Backoff.current]. generalize (F64.to_int64 oob (F64.mul (F64.of_Z (Backoff.current eb)) (F64.of_Z 2))).
  intros doubled. destruct (Z.ltb_spec (Backoff.max eb) doubled); lia.
Qed.

(** A processor that returns, without a panic, and leaves the streams alone. *)
Definition well_behaved (j : JobEnvelope) (w : W) : Prop :=
  exists w' r, run (process j) w = (w', Val r) /\ streams (db w') = streams (db w) /\
    forall e, r = Some e -> valid_utf8 (Error e) = true.

Lemma pending_streams d d' : streams d' = streams d -> pending c d' = pending c d.
Proof. intros Hs. unfold pending, get_pel, get_group, get_stream. by rewrite Hs. Qed.

(** C11: handling a message never loses its job while it has retries left.
    After [processMessage] of a well-behaved processor, the message is pending
    as before, or the processor succeeded, or the stream carries the next
    attempt, or the retry budget is spent (and the job went the way of the dead
    letters). *)
Theorem processMessage_no_loss j id w :
  well_behaved j w -> job_ok j -> valid_utf8 id = true ->
  0 <= RetryCount j -> RetryCount j < max_int64 -> is_int64 (MaxRetries j) ->
  exists w' w1 r, run (processMessage c process j id) w = (w', Val tt) /\
    run (process j) w = (w1, Val r) /\
    match r with
    | None => True
    | Some e => MaxRetries j <= RetryCount j + 1 \/
        pending c (db w') !! id = pending c (db w) !! id \/
        holds_job (db w') (c_streamName c) (next_attempt j e)
    end.
Proof.
  intros (w1 & r & Hrun & Hst & Herr) Hj Hid Hge0 Hmax Hm. unfold processMessage.
  destruct r as [e|].
  - specialize (Herr e eq_refl). destruct (Z_lt_le_dec (RetryCount j + 1) (MaxRetries j)) as [Hlt|Hge].
    + destruct (run_Retry_requeue c j id e w1) as (w2 & r & Hr & Hor & _); try done.
      exists w2, w1, (Some e). rewrite run_bind, Hrun, run_bind, Hr. split; [done|]. split; [done|].
      right. rewrite <-(pending_streams (db w) (db w1)) by done. done.
    + destruct (run_Retry_dead c j id e w1) as (w2 & r & Hr); try done.
      exists w2, w1, (Some e). rewrite run_bind, Hrun, run_bind, Hr. split; [done|]. split; [done|]. by left.
  - destruct (run_Ack c id w1) as (w2 & r & Hr & _).
    exists w2, w1, None. rewrite run_bind, Hrun, run_bind, Hr. done.
Qed.

(** A check that finds the key of the job live. *)
Lemma run_dedup_duplicate (downstream : Processor) ttl n j v w w1 r :
  exec (SetNX (dedup_key j) "1" ttl) w = (w1, r) ->
  live (db w) (server_ms w1) (dedup_key j) = Some v ->
  run (dedup_Process downstream ttl n j) w =
    (w1, Val (match r with
              | Ok _ => (wrap64 (n + 1), None)
              | Err err => (n, Some (Wrapf "dedup check failed" err))
              end)) /\ db w1 = db w.
Proof.
  intros E Hlive. unfold dedup_Process. cbn [run bind call]. rewrite E.
  destruct r as [[]|err]; cbn [run].
  - apply law_setnx_true in E as [Hn _]. congruence.
  - split; [done|]. apply law_setnx_false in E as [[-> _]|(t1 & Ht & Hn & _)]; [done|].
    apply (live_later _ _ (server_ms w1)) in Hn; [congruence|lia].
  - split; [done|]. apply law_setnx_err in E as [->|(t1 & Ht & Hn & _)]; [done|].
    apply (live_later _ _ (server_ms w1)) in Hn; [congruence|lia].
Qed.

(** C25: a job is handed to the downstream processor at most once per retry
    count while its deduplication key lives.  If the key of the job is live when
    the check reaches the server, the downstream processor is not called: the
    job counts as a duplicate and is reported as processed, or the check fails
    with an error; the stored data does not change. *)
Theorem dedup_skips_duplicate (downstream : Processor) ttl n j v w w1 r :
  exec (SetNX (dedup_key j) "1" ttl) w = (w1, r) ->
  live (db w) (server_ms w1) (dedup_key j) = Some v ->
  run (dedup_Process downstream ttl n j) w =
    (w1, Val (match r with
              | Ok _ => (wrap64 (n + 1), None)
              | Err err => (n, Some (Wrapf "dedup check failed" err))
              end)) /\ db w1 = db w.
Proof. apply run_dedup_duplicate. Qed.

(** The key of a job whose check answered [true] lives for the whole of
    [DedupTTL]. *)
Lemma dedup_key_lives ttl j w w1 t : ttl <> 0 ->
  exec (SetNX (dedup_key j) "1" ttl) w = (w1, Ok true) -> t < server_ms w1 + ttl_ms ttl ->
  live (db w1) t (dedup_key j) = Some "1".
Proof.
  intros Httl E Ht. apply law_setnx_true in E as [_ ->]. unfold live, setnx_db. simpl.
  rewrite lookup_insert_eq. unfold deadline.
  by rewrite (proj2 (Z.eqb_neq _ _) Httl), (proj2 (Z.ltb_lt _ _)) by lia.
Qed.

(** The commands of a retry, none of which touches a key with a value. *)
Definition keeps_keys {B} (x : cmd B) : bool :=
  match x with XAdd _ | XAck _ _ _ | Now => true | _ => false end.

Lemma appends_strs a d d' : appends a d d' -> strs d' = strs d.
Proof. induction 1 as [|d d1 d' [i Hx] _ IH]; [done|]. rewrite IH. by apply (xadd_strs _ _ _ _ Hx). Qed.

Lemma exec_keeps_keys {B} (x : cmd B) w w' b :
  keeps_keys x = true -> exec x w = (w', b) -> strs (db w') = strs (db w).
Proof.
  destruct x; try done; intros _ E.
  - destruct b as [i|e]; [|by eapply appends_strs, law_xadd_err].
    apply law_xadd in E as (d1 & Hd & Hx). rewrite <-(appends_strs _ _ _ Hd). by apply (xadd_strs _ _ _ _ Hx).
  - assert (forall s g id d, strs (xack_db s g id d) = strs d) as Hack.
    { intros s g i d. unfold xack_db, set_pel. by repeat case_match. }
    destruct b; [apply law_xack in E as ->; apply Hack|]. apply law_xack_err in E as [->| ->]; [done|apply Hack].
  - by apply law_now in E as [-> _].
Qed.

Lemma run_keeps_keys {A} (p : prog A) w :
  all_calls (fun B x => keeps_keys x = true) p -> strs (db (run p w).1) = strs (db w).
Proof.
  revert w. induction p as [a|B x k IH|msg|]; intros w; try done. simpl. intros [Hx Hk].
  destruct (exec x w) as [w' b] eqn:E. rewrite IH by apply Hk. by eapply exec_keeps_keys.
Qed.

Lemma Retry_keeps_keys j id e : all_calls (fun B x => keeps_keys x = true) (Consume.Retry c j id e).
Proof.
  assert (all_calls (fun B x => keeps_keys x = true) (Consume.Ack c id)) as Hack.
  { unfold Consume.Ack. cbn [all_calls bind call]. split; [done|]. by intros []. }
  unfold Consume.Retry. case_match.
  - apply all_calls_bind; [|intros _; by apply all_calls_bind]. destruct (c_dlq c) as [q|]; [|done].
    cbn [all_calls bind call]. split; [done|]. intros t. apply all_calls_bind; [|done]. unfold Dlq.Send, deref.
    repeat case_match; cbn [all_calls bind call]; try done; (split; [done|]; by intros []).
  - repeat case_match; try done. cbn [all_calls bind call]. split; [done|]. intros []; [|done].
    by apply all_calls_bind.
Qed.


(** C27: one worker reclaims per interval.  While the reclaim lock of the
    partition is live, [tryReclaim] of any other worker hands out no job and
    leaves the pending messages of the group as they are. *)
Theorem reclaim_exclusive fuel config workerID partitionID v w w1 r :
  exec (SetNX (reclaim_lock_key partitionID) workerID (WorkerConfig.ReclaimInterval config)) w = (w1, r) ->
  live (db w) (server_ms w1) (reclaim_lock_key partitionID) = Some v ->
  run (tryReclaim c fuel config workerID partitionID) w =
    (w1, Val (match r with
              | Ok _ => Ok ([], [])
              | Err err => Err (Wrapf "failed to acquire reclaim lock" err)
              end)) /\ pending c (db w1) = pending c (db w).
Proof.
  intros E Hlive. unfold tryReclaim. cbn [run bind call]. rewrite E.
  destruct r as [[]|err]; cbn [run].
  - apply law_setnx_true in E as [Hn _]. congruence.
  - split; [done|]. by apply law_setnx_false in E as [[-> _]|(t1 & _ & _ & ->)].
  - split; [done|]. by apply law_setnx_err in E as [->|(t1 & _ & _ & ->)].
Qed.

End WorkerTheorems.
