(* ===== verification/Delivery.v ===== *)
(** * No acknowledgement without a reason

    Acknowledging a message is what removes it from the pending list of its
    group, so a job is lost exactly when a message is acknowledged too early.
    Here the worker of Worker.v is followed call by call: in every state it can
    reach, under every interleaving of its loops and jobs and for every answer of
    Redis, a goroutine that is about to acknowledge a message has a reason for it
    in the calls it made before. *)
From S2P Require Import Prelude GoStd GoFloat Config World Trace Queue Dlq Consumer Registry Worker.
Import Errors.

(** ** The programs of the worker *)

(** Discharge [never_acks] and [reader] on a program whose calls are visible. *)
Ltac no_acks :=
  unfold never_acks; repeat first [progress cbn [all_calls bind call tame reads_from]|apply conj; [auto|intros ?]|exact I|case_match].

(** The calls of the loops that read: they read from the stream [s]. *)
Definition reader (s : string) {A} (p : prog A) : Prop :=
  all_calls (fun _ x => tame x = true /\ reads_from s x) p.

Lemma reader_never_acks s {A} (p : prog A) : reader s p -> never_acks p.
Proof. apply all_calls_impl. by intros B x [? _]. Qed.

Lemma Consume_reader `{Codec} c blk : reader (c_streamName c) (Consume.Consume c blk).
Proof. unfold reader, Consume.Consume. no_acks. Qed.

Lemma Next_never_acks oob eb : never_acks (Backoff.Next oob eb).
Proof. unfold Backoff.Next. no_acks. Qed.

Lemma Heartbeat_never_acks workerID : never_acks (Registry.Heartbeat workerID).
Proof. unfold Registry.Heartbeat. no_acks. Qed.

Lemma Send_never_acks `{Codec} q e : never_acks (Dlq.Send q e).
Proof. unfold Dlq.Send, deref. no_acks. Qed.

Lemma tryReclaim_reader `{Codec} c fuel config workerID partitionID :
  reader (c_streamName c) (tryReclaim c fuel config workerID partitionID).
Proof.
  assert (forall idle mb cur es ids, reader (c_streamName c) (Consume.reclaim_loop c fuel idle mb cur es ids)) as Hloop.
  { intros idle mb. unfold reader. induction fuel as [|fuel IH]; intros cur es ids; cbn [Consume.reclaim_loop]; [exact I|].
    no_acks; apply IH. }
  unfold tryReclaim, reader. cbn [all_calls bind call]. split; [by split|]. intros [[]|]; [|exact I|exact I].
  apply all_calls_bind; [apply Hloop|]. intros [[es ids] [e|]]; exact I.
Qed.

(** The job [j] was decoded from a message with the id [id] among those in [rd]. *)
Definition decoded `{Codec} (rd : list XMessage) (j : JobEnvelope) (id : string) : Prop :=
  exists m, m ∈ rd /\ Consume.parseMessage m = (Some j, id, None).

Lemma decoded_mono `{Codec} rd rd' j id : rd ⊆ rd' -> decoded rd j id -> decoded rd' j id.
Proof. intros Hs (m & Hm & Hp). exists m. auto. Qed.

Lemma decoded_message `{Codec} rd j id : decoded rd j id ->
  exists m txt, m ∈ rd /\ ID m = id /\ Values m !! "job" = Some txt /\ unmarshal_job txt = Ok j.
Proof.
  intros (m & Hm & Hp). unfold Consume.parseMessage in Hp. destruct (Values m !! "job") as [txt|] eqn:Ev; [|done].
  destruct (unmarshal_job txt) as [j'|] eqn:Eu; [|done]. injection Hp as -> <-. eauto 10.
Qed.

(** What [Consume] returns with the messages in [rd] handed out. *)
Definition taken `{Codec} (rd : list XMessage) (x : option JobEnvelope * string * option error) : Prop :=
  match x with (Some j, id, None) => decoded rd j id | _ => True end.

(** What [tryReclaim] returns: two slices in step. *)
Definition reclaimed_jobs `{Codec} (rd : list XMessage) (r : res error (list JobEnvelope * list string)) : Prop :=
  match r with Ok (envelopes, ids) => Forall2 (decoded rd) envelopes ids | Err _ => True end.

Lemma Consume_returns `{Codec} c blk rd : returns_log taken rd (Consume.Consume c blk).
Proof.
  unfold Consume.Consume. cbn [returns_log bind call]. intros b. repeat case_match; try exact I. cbn [returns_log].
  unfold taken. repeat case_match; try exact I. subst.
  match goal with H : Consume.parseMessage ?m = _ |- _ => exists m; split; [|exact H] end.
  simpl. set_solver.
Qed.

Lemma parse_batch_decoded `{Codec} rd ms es ids : ms ⊆ rd -> Forall2 (decoded rd) es ids ->
  Forall2 (decoded rd) (Consume.parse_batch ms es ids).1 (Consume.parse_batch ms es ids).2.
Proof.
  revert es ids. induction ms as [|m ms IH]; intros es ids Hms Hall; cbn [Consume.parse_batch]; [done|].
  assert (ms ⊆ rd) by set_solver.
  destruct (Consume.parseMessage m) as [[[j|] id] [e|]] eqn:Ep; auto. apply IH; [done|].
  apply Forall2_app; [done|]. constructor; [|constructor]. exists m. split; [set_solver|done].
Qed.

Lemma tryReclaim_returns `{Codec} c fuel config workerID partitionID rd :
  returns_log reclaimed_jobs rd (tryReclaim c fuel config workerID partitionID).
Proof.
  assert (forall idle mb cur es ids rd, Forall2 (decoded rd) es ids ->
    returns_log (fun rd x => Forall2 (decoded rd) x.1.1 x.1.2) rd (Consume.reclaim_loop c fuel idle mb cur es ids)) as Hloop.
  { intros idle mb. induction fuel as [|fuel IH]; intros cur es ids rd0 Hall; cbn [Consume.reclaim_loop returns_log bind call]; [exact I|].
    intros b. set (rd1 := rd0 ++ _). assert (Forall2 (decoded rd1) es ids) as Hall1.
    { apply (Forall2_impl _ _ _ _ Hall). intros j id. apply decoded_mono. unfold rd1. set_solver. }
    destruct b as [[ms nx]|err]; [|destruct err; exact Hall1].
    assert (ms ⊆ rd1) as Hms by (unfold rd1; simpl; set_solver).
    pose proof (parse_batch_decoded _ _ _ _ Hms Hall1) as Hb. destruct (Consume.parse_batch ms es ids) as [es' ids'].
    case_bool_decide; [exact Hb|]. cbn [returns_log bind call].
    intros d. change (read_messages (Ev CtxDone d)) with (@nil XMessage). rewrite app_nil_r.
    destruct d as [e|]; [exact Hb|]. by apply IH. }
  unfold tryReclaim. cbn [returns_log bind call]. intros [[]|]; [|constructor|exact I].
  eapply returns_log_bind; [apply Hloop; constructor|]. intros rd' [[es ids] [e|]] Hx; [exact I|exact Hx].
Qed.

(** The processors of the worker process. *)
Lemma worker_processor_never_acks ttl j : never_acks (DeduplicatingProcessor DefaultProcessor ttl j).
Proof.
  unfold DeduplicatingProcessor, dedup_Process, DefaultProcessor, deref. destruct (Data j); no_acks.
Qed.

(** ** Reasons to acknowledge *)
Section Delivery.
Context {W : Type} `{World W} `{Codec}.
Context (oob : float64 -> Z) (config : WorkerConfig.t) (workerID : string) (partitionID : Z).
Context (c : Consumer) (process : Processor).

(** The processor only processes: it does not acknowledge. *)
Hypothesis Hprocess : forall j, never_acks (process j).

(** The next attempt of a job that failed with [e]. *)
Definition attempt_of (j : JobEnvelope) (e : error) : JobEnvelope :=
  set_LastError (Error e) (set_RetryCount (wrap64 (RetryCount j + 1)) j).

(** What must have happened in the calls [l] of [processMessage] since the
    processor returned [r]: nothing more after a success; after a failure, the
    retries are used up, or the next attempt was appended to the stream. *)
Definition reason (j : JobEnvelope) (r : option error) (l : list event) : Prop :=
  match r with
  | None => True
  | Some e =>
      MaxRetries j <= wrap64 (RetryCount j + 1) \/
      exists args n id, buildXAddArgs (c_streamName c) 0 (attempt_of j e) = Ok (args, n) /\ Ev (XAdd args) (Ok id) ∈ l
  end.

Lemma Ack_path id l q ack :
  path (Consume.Ack c id) l q -> next_ack q = Some ack -> ack = (c_streamName c, c_consumerGroup c, id).
Proof.
  unfold Consume.Ack. cbn [bind call path]. intros [[_ ->]|(b & l' & _ & Hp)] Hq; [by injection Hq as <-|].
  destruct b; simpl in Hp; destruct Hp as [_ ->]; done.
Qed.

Lemma Retry_path j id e l q ack :
  path (Consume.Retry c j id e) l q -> next_ack q = Some ack ->
  ack = (c_streamName c, c_consumerGroup c, id) /\ reason j (Some e) l.
Proof.
  unfold Consume.Retry. fold (attempt_of j e). intros Hp Hq.
  change (MaxRetries (attempt_of j e)) with (MaxRetries j) in Hp.
  change (RetryCount (attempt_of j e)) with (wrap64 (RetryCount j + 1)) in Hp.
  destruct (Z.leb_spec (MaxRetries j) (wrap64 (RetryCount j + 1))) as [Hle|Hlt].
  - apply path_bind_ack with (ack := ack) in Hp as (u & l1 & l2 & -> & _ & Hp); [|clear Hp|done].
    + apply path_bind_head with (ack := ack) in Hp as (p' & Hp & Hq'); [|done|done].
      split; [by eapply Ack_path|]. by left.
    + destruct (c_dlq c) as [d|]; [|exact I]. unfold never_acks. cbn [all_calls bind call]. split; [reflexivity|]. intros b.
      apply all_calls_bind; [apply Send_never_acks|done].
  - destruct (buildXAddArgs (c_streamName c) 0 (attempt_of j e)) as [[args n]|err] eqn:Hb.
    2: { simpl in Hp. by destruct Hp as [_ ->]. }
    cbn [bind call path] in Hp. destruct Hp as [[_ ->]|(b & l' & -> & Hp)]; [done|].
    destruct b as [mid|err]; [|simpl in Hp; by destruct Hp as [_ ->]].
    apply path_bind_head with (ack := ack) in Hp as (p' & Hp & Hq'); [|done|done].
    split; [by eapply Ack_path|]. right. exists args, n, mid. split; [done|]. by left.
Qed.

(** A goroutine with the calls [l] behind it and [q] to do: if it is about to
    acknowledge, it names its message, the processor has returned, and what it did
    since then is a reason. *)
Definition justified (j : JobEnvelope) (id : string) (l : list event) (q : prog unit) : Prop :=
  forall ack, next_ack q = Some ack -> ack = (c_streamName c, c_consumerGroup c, id) /\
    exists l1 l2 r, l = l1 ++ l2 /\ path (process j) l1 (Return r) /\ reason j r l2.

Lemma processMessage_justified j id l q : path (processMessage c process j id) l q -> justified j id l q.
Proof.
  intros Hpath ack Hq. pose proof Hpath as Hp. unfold processMessage in Hp.
  apply path_bind_ack with (ack := ack) in Hp as (r & l1 & l2 & -> & Hl1 & Hl2); [|apply Hprocess|done].
  destruct r as [e|]; apply path_bind_head with (ack := ack) in Hl2 as (p' & Hp & Hq'); try done.
  - apply Retry_path with (ack := ack) in Hp as [-> Hr]; [|done]. split; [done|]. by exists l1, l2, (Some e).
  - apply Ack_path with (ack := ack) in Hp as ->; [|done]. split; [done|]. by exists l1, l2, None.
Qed.

(** *** Every reachable state *)

Definition poll_ok (rd : list XMessage) (p : poll_state) : Prop :=
  match p with
  | PConsume p => reader (c_streamName c) p /\ returns_log taken rd p
  | PBackoff p => never_acks p
  | PSleep p => never_acks p
  | PAcquire j id => decoded rd j id
  | _ => True
  end.

Definition reclaim_ok (rd : list XMessage) (r : reclaim_state) : Prop :=
  match r with
  | RTry p => reader (c_streamName c) p /\ returns_log reclaimed_jobs rd p
  | RSpawn _ envelopes ids => Forall2 (decoded rd) envelopes ids
  | _ => True
  end.

Definition goroutine_ok (rd : list XMessage) (g : goroutine) : Prop :=
  match g with
  | GNew j id | GRelease j id => decoded rd j id
  | GRun j id l q => decoded rd j id /\ path (processMessage c process j id) l q
  end.

Record dinv (s : wstate W) : Prop := {
  d_poll : poll_ok (w_read s) (w_poll s);
  d_reclaim : reclaim_ok (w_read s) (w_reclaim s);
  d_registry : match w_registry s with HBeat p => never_acks p | _ => True end;
  d_jobs : Forall (goroutine_ok (w_read s)) (w_jobs s);
}.

(** More messages handed out do no harm. *)
Lemma poll_ok_mono rd rd' p : rd ⊆ rd' -> poll_ok rd p -> poll_ok rd' p.
Proof.
  intros Hs. destruct p; simpl; try done; [|by apply decoded_mono]. intros [? Hr]. split; [done|].
  eapply returns_log_mono; [|exact Hs|exact Hr]. intros r r' [[[j|] id] [e|]] Hsub; simpl; auto. by apply decoded_mono.
Qed.

Lemma reclaim_ok_mono rd rd' r : rd ⊆ rd' -> reclaim_ok rd r -> reclaim_ok rd' r.
Proof.
  intros Hs. assert (forall r r' es ids, r ⊆ r' -> Forall2 (decoded r) es ids -> Forall2 (decoded r') es ids) as Hm.
  { intros r0 r' es ids Hsub Hall. apply (Forall2_impl _ _ _ _ Hall). intros j id. by apply decoded_mono. }
  destruct r; simpl; try done; [|by apply Hm]. intros [? Hr]. split; [done|].
  eapply returns_log_mono; [|exact Hs|exact Hr]. intros r r' [[es ids]|e] Hsub; simpl; [by apply Hm|done].
Qed.

Lemma goroutines_ok_mono rd rd' js : rd ⊆ rd' -> Forall (goroutine_ok rd) js -> Forall (goroutine_ok rd') js.
Proof.
  intros Hs Hj. apply (Forall_impl _ _ _ Hj). intros [j id|j id l q|j id]; simpl; [..|by apply decoded_mono].
  - by apply decoded_mono.
  - intros [? ?]. split; [by eapply decoded_mono|done].
Qed.

Local Abbreviation wstep := (wstep oob config workerID partitionID c process).

(** A loop that reads: one call more. *)
Lemma reader_step {A} P rd (p p' : prog A) (w w' : W) e :
  reader (c_streamName c) p /\ returns_log P rd p -> stepe p w = Some (w', e, p') ->
  reader (c_streamName c) p' /\ returns_log P (rd ++ read_messages e) p'.
Proof.
  intros [Hp Hr] Hs. split; [|by eapply returns_log_step]. eapply all_calls_step; [exact Hp|by eapply stepe_step].
Qed.

Lemma wstep_dinv s s' : wstep s s' -> dinv s -> dinv s'.
Proof.
  clear Hprocess. destruct 1; intros [Hp Hr Hh Hj]; cbn [w_poll w_reclaim w_registry w_jobs w_read] in *; constructor;
    cbn [w_poll w_reclaim w_registry w_jobs w_read]; try assumption; try exact I;
    try (eapply poll_ok_mono; [|eassumption]; set_solver); try (eapply reclaim_ok_mono; [|eassumption]; set_solver);
    try (eapply goroutines_ok_mono; [|eassumption]; set_solver);
    cbn [poll_ok reclaim_ok] in *; rewrite ?Forall_app, ?Forall_cons in *; cbn [goroutine_ok] in *.
  all: try (split; [apply Consume_reader|apply Consume_returns]).
  all: try (split; [apply tryReclaim_reader|apply tryReclaim_returns]).
  all: try first [apply Next_never_acks|apply Heartbeat_never_acks|by eapply all_calls_step|by eapply reader_step].
  all: try first [exact (proj2 Hp)|exact (proj2 Hr)|by split].
  all: try (split; [done|by constructor]).
  - split; [done|]. constructor; [|constructor]. cbn [goroutine_ok].
    by eapply (Forall2_lookup_lr _ _ _ _ _ _ Hr).
  - destruct Hj as (? & ? & ?). split; [done|]. split; [|done]. split; [done|]. apply path_refl.
  - destruct Hj as (? & [? Hl] & ?). split; [done|]. split; [|done]. split; [done|]. by eapply path_stepe.
  - by destruct Hj as (? & [? _] & ?).
  - by destruct Hj as (? & _ & ?).
Qed.

Lemma start_dinv fuel w : dinv (wstart config workerID partitionID c fuel w).
Proof.
  constructor; cbn [wstart w_poll w_reclaim w_registry w_jobs w_read]; [done| |apply Heartbeat_never_acks|done].
  split; [apply tryReclaim_reader|apply tryReclaim_returns].
Qed.

Lemma reachable_dinv s : reachable oob config workerID partitionID c process s -> dinv s.
Proof.
  intros (fuel & w & Hr). pose proof (start_dinv fuel w) as Hstart.
  induction Hr as [|s1 s2 s3 Hs _ IH]; [done|]. apply IH. by eapply wstep_dinv.
Qed.

(** C2: the worker never acknowledges a message without a reason.  In every
    state it can reach, whatever Redis answers and however its goroutines
    interleave: the poll, reclaim and registry loops are never about to
    acknowledge anything; the loop that starts reclaimed jobs finds an id for each
    of them; and a job goroutine runs the job of one of the messages that Redis
    handed to this worker, under the id of that very message, and when it is about
    to acknowledge, it names this id, in its own stream and group; the calls
    it has behind it are those of the processor, which has returned, followed, if
    it returned an error, by calls among which Redis confirmed that the next
    attempt of the job was appended to the stream, unless the retries are used
    up. *)
Theorem acks_justified s :
  reachable oob config workerID partitionID c process s ->
  (forall p, w_poll s = PConsume p -> next_ack p = None) /\
  (forall p, w_reclaim s = RTry p -> next_ack p = None) /\
  (forall p, w_registry s = HBeat p -> next_ack p = None) /\
  (forall i envelopes ids, w_reclaim s = RSpawn i envelopes ids -> length ids = length envelopes) /\
  (forall j id l q, GRun j id l q ∈ w_jobs s ->
     (exists m txt, m ∈ w_read s /\ ID m = id /\ Values m !! "job" = Some txt /\ unmarshal_job txt = Ok j) /\
     justified j id l q).
Proof.
  intros [Hp Hr Hh Hj]%reachable_dinv. split; [|split; [|split; [|split]]].
  - intros p E. rewrite E in Hp. by eapply never_acks_next, reader_never_acks, (proj1 Hp).
  - intros p E. rewrite E in Hr. by eapply never_acks_next, reader_never_acks, (proj1 Hr).
  - intros p E. rewrite E in Hh. by apply never_acks_next.
  - intros i es ids E. rewrite E in Hr. symmetry. by eapply Forall2_length.
  - intros j id l q Hin. rewrite Forall_forall in Hj. destruct (Hj _ Hin) as [Hd Hl].
    split; [by apply decoded_message|]. by apply processMessage_justified.
Qed.

End Delivery.
