(* ===== verification/System.v ===== *)
(** * Several workers and their stream: the abstract queue they implement

    The workers of a consumer group share a Redis stream with the producers and
    with every other client.  This file states what they implement together, an
    abstract queue whose messages are undelivered, pending, done or lost, and
    shows that every step of every worker, in every interleaving and for every
    answer of Redis, is a sequence of steps of that queue (a forward simulation
    with labels), in which a message becomes done only when a worker acknowledges
    it with a reason. *)
From S2P Require Import Prelude Utf8 GoStd GoFloat Config World Trace Queue Dlq Consumer Registry Worker Delivery.
Import Errors.

(** ** The abstract queue *)
Module Abstract.

(** The ids of the entries that are stored, of the messages to deliver (oldest
    first), delivered but not acknowledged, acknowledged, and removed by the
    length limit of the stream before they were acknowledged. *)
Record Q := mkQ {
  q_log : list string;
  q_new : list string;
  q_pel : gset string;
  q_done : gset string;
  q_lost : gset string;
}.

Inductive label :=
| LAdd (id : string)
| LTrim (limit : Z) (n : nat)
| LDeliver (id : string)
| LAck (id : string)
| LForget (ids : gset string).

Inductive qstep : label -> Q -> Q -> Prop :=
(** a message with an id that is not in use *)
| q_add id log nw pel dn ls : id ∉ log -> id ∉ nw -> id ∉ pel ->
    qstep (LAdd id) (mkQ log nw pel dn ls)
      (mkQ (log ++ [id]) (nw ++ [id]) pel (dn ∖ {[id]}) (ls ∖ {[id]}))
(** the oldest entries go when the stream is longer than its limit *)
| q_trim limit n log nw pel dn ls :
    0 < limit -> limit <= Z.of_nat (length (drop n log)) ->
    qstep (LTrim limit n) (mkQ log nw pel dn ls)
      (mkQ (drop n log) (filter (fun i => i ∉ take n log) nw) pel dn
         (ls ∪ list_to_set (filter (fun i => i ∈ take n log) nw)))
(** the oldest undelivered message goes to a consumer *)
| q_deliver id log nw pel dn ls :
    qstep (LDeliver id) (mkQ log (id :: nw) pel dn ls) (mkQ log nw ({[id]} ∪ pel) dn ls)
(** a pending message is acknowledged *)
| q_ack id log nw pel dn ls : id ∈ pel ->
    qstep (LAck id) (mkQ log nw pel dn ls) (mkQ log nw (pel ∖ {[id]}) ({[id]} ∪ dn) ls)
(** pending messages whose entry is no longer stored are dropped *)
| q_forget ids log nw pel dn ls : ids ⊆ pel -> (forall id, id ∈ ids -> id ∉ log) ->
    qstep (LForget ids) (mkQ log nw pel dn ls) (mkQ log nw (pel ∖ ids) dn (ls ∪ ids)).

Inductive qsteps : list label -> Q -> Q -> Prop :=
| qs_nil q : qsteps [] q q
| qs_cons l ls q q1 q2 : qstep l q q1 -> qsteps ls q1 q2 -> qsteps (l :: ls) q q2.

(** The messages the queue can account for. *)
Definition known (q : Q) : gset string := list_to_set (q_new q) ∪ q_pel q ∪ q_done q ∪ q_lost q.

(** Every message is in one place. *)
Record q_wf (q : Q) : Prop := {
  wf_nodup : NoDup (q_new q);
  wf_new_pel : list_to_set (q_new q) ## q_pel q;
  wf_new : list_to_set (q_new q) ## q_done q ∪ q_lost q;
  wf_pel : q_pel q ## q_done q ∪ q_lost q;
  wf_done : q_done q ## q_lost q;
}.

Lemma qsteps_app l1 l2 q q1 q2 : qsteps l1 q q1 -> qsteps l2 q1 q2 -> qsteps (l1 ++ l2) q q2.
Proof. induction 1; simpl; [done|]. intros. econstructor; eauto. Qed.

Lemma qsteps_one l q q' : qstep l q q' -> qsteps [l] q q'.
Proof. intros. econstructor; [done|constructor]. Qed.

(** No message leaves the account. *)
Lemma qstep_known l q q' : qstep l q q' -> known q ⊆ known q'.
Proof.
  destruct 1; unfold known; simpl; rewrite ?list_to_set_app_L; try set_solver.
  - intros x. rewrite !elem_of_union, !elem_of_list_to_set, !elem_of_difference.
    destruct (decide (x = id)) as [->|]; set_solver.
  - intros x. rewrite !elem_of_union, !elem_of_list_to_set, !list_elem_of_filter.
    destruct (decide (x ∈ take n log)); tauto.
  - intros x. rewrite !elem_of_union, !elem_of_list_to_set, !elem_of_difference.
    destruct (decide (x = id)); set_solver.
  - intros x. rewrite !elem_of_union, !elem_of_list_to_set, !elem_of_difference.
    destruct (decide (x ∈ ids)); tauto.
Qed.

Lemma qsteps_known ls q q' : qsteps ls q q' ->
  known q ⊆ known q' /\ forall id, LAdd id ∈ ls -> id ∈ known q'.
Proof.
  induction 1 as [q|l ls q q1 q2 Hs _ [IH1 IH2]]; [set_solver|].
  pose proof (qstep_known _ _ _ Hs) as Hk. split; [set_solver|].
  intros id [Heq|Hin]%elem_of_cons; [|by apply IH2]. subst l. apply IH1.
  inversion Hs; subst. unfold known. simpl. set_solver.
Qed.

(** Done means acknowledged. *)
Lemma qsteps_done ls q q' : qsteps ls q q' -> forall id, id ∈ q_done q' -> id ∈ q_done q \/ LAck id ∈ ls.
Proof.
  induction 1 as [q|l ls q q1 q2 Hs _ IH]; [auto|]. intros id Hin.
  destruct (IH id Hin) as [Hd|]; [|right; by right]. destruct Hs; simpl in *; set_solver.
Qed.

Lemma qstep_wf l q q' : qstep l q q' -> q_wf q -> q_wf q'.
Proof.
  destruct 1; intros [Hn Hnp Hnw Hp Hd]; constructor; simpl in *; rewrite ?list_to_set_app_L; try set_solver.
  1: apply NoDup_app; split; [done|]; split; [set_solver|apply NoDup_singleton].
  1: by apply NoDup_filter.
  1: intros x; rewrite elem_of_list_to_set, list_elem_of_filter; set_solver.
  1-3: intros x; rewrite !elem_of_union, !elem_of_list_to_set, !list_elem_of_filter; set_solver.
  1: by apply NoDup_cons in Hn as [_ ?].
  apply NoDup_cons in Hn as [Hni _]. set_solver.
Qed.

Lemma qsteps_wf ls q q' : qsteps ls q q' -> q_wf q -> q_wf q'.
Proof. induction 1; eauto using qstep_wf. Qed.

End Abstract.

(** ** The stream implements the queue *)
Import Abstract.

Section Simulation.
Context (s g : string).

(** The group [g] of the stream [s] as a queue; what is done or lost has left it. *)
Definition refines (d : Db) (q : Q) : Prop :=
  exists gr, get_group d s g = Some gr /\ q_log q = ID <$> entries (get_stream d s) /\
    q_new q = g_new gr /\ q_pel q = dom (g_pel gr).

(** The calls of other clients: anything that does not acknowledge for this
    group, delete entries of the stream or the stream, or fall outside of what is
    known about the server. *)
Definition safe (d : Db) {B} (c : cmd B) : Prop :=
  match c with
  | XAck s' g' _ => (s', g') <> (s, g)
  | XDel s' _ => s' <> s
  | Del k => k <> s
  | Expire k _ => streams d !! k = None /\ hashes d !! k = None
  | XReadGroup _ _ _ count _ => count = 1
  | XGroupCreateMkStream _ _ start => start = "0"
  | _ => True
  end.

Definition quiet (ls : list label) : Prop := forall id, LAck id ∉ ls.

(** The queue can follow a change of the data without an acknowledgement. *)
Definition sim (d d' : Db) : Prop := forall q, refines d q ->
  exists ls q', qsteps ls q q' /\ refines d' q' /\ quiet ls.

#[local] Instance sim_refl : Reflexive sim.
Proof. intros d q Hq. exists [], q. split; [constructor|]. split; [done|]. intros id. set_solver. Qed.

#[local] Instance sim_trans : Transitive sim.
Proof.
  intros d1 d2 d3 H12 H23 q Hq. destruct (H12 q Hq) as (l1 & q1 & Hs1 & Hr1 & Hq1).
  destruct (H23 q1 Hr1) as (l2 & q2 & Hs2 & Hr2 & Hq2). exists (l1 ++ l2), q2.
  split; [by eapply qsteps_app|]. split; [done|]. intros id. specialize (Hq1 id). specialize (Hq2 id). set_solver.
Qed.

(** Changes that the queue does not see. *)
Lemma sim_unseen d d' : get_group d' s g = get_group d s g ->
  entries (get_stream d' s) = entries (get_stream d s) -> sim d d'.
Proof.
  intros Hg He q (gr & Hgr & Hl & Hn & Hp). exists [], q. split; [constructor|].
  split; [|intros id; set_solver]. exists gr. rewrite Hg, He. auto.
Qed.

Lemma sim_stream d d' : get_stream d' s = get_stream d s -> sim d d'.
Proof. intros Hs. apply sim_unseen; unfold get_group; by rewrite Hs. Qed.

Lemma sim_streams d d' : streams d' = streams d -> sim d d'.
Proof. intros Hs. apply sim_stream. unfold get_stream. by rewrite Hs. Qed.

(** An appended entry is a new message, then the oldest entries may go. *)
Lemma xadd_steps a id d d' q : xadd_ok a id d d' -> xa_Stream a = s -> refines d q ->
  exists ls q', qsteps ls q q' /\ refines d' q' /\ quiet ls /\ LAdd id ∈ ls.
Proof.
  intros (n & -> & (_ & Hf1 & Hf2) & Hn0 & Hlen) Hs (gr & Hgr & Hl & Hn & Hp). destruct q as [log nw pel dn lst].
  simpl in *. subst log nw pel. rewrite <-Hs in *.
  assert (forall i, id_ltb i id = true -> i <> id) as Hirr by (intros i Hi ->; by rewrite id_ltb_irrefl in Hi).
  set (log := ID <$> entries (get_stream d (xa_Stream a))).
  assert (qstep (LAdd id) (mkQ log (g_new gr) (dom (g_pel gr)) dn lst)
    (mkQ (log ++ [id]) (g_new gr ++ [id]) (dom (g_pel gr)) (dn ∖ {[id]}) (lst ∖ {[id]}))) as Hadd.
  { constructor.
    - intros (m & Heq & Hm)%list_elem_of_fmap. by apply (Hirr (ID m)); [apply Hf1|].
    - intros Hin. apply (Hirr id); [|done]. apply (Hf2 g gr Hgr). by left.
    - intros Hin%elem_of_dom. apply (Hirr id); [|done]. apply (Hf2 g gr Hgr). by right. }
  assert (ID <$> (entries (get_stream d (xa_Stream a)) ++ [mkMsg id (xa_Values a)]) = log ++ [id]) as Hall
    by (by rewrite fmap_app).
  assert (forall q', q_log q' = drop n (log ++ [id]) ->
    q_new q' = filter (fun i => i ∉ take n (log ++ [id])) (g_new gr ++ [id]) -> q_pel q' = dom (g_pel gr) ->
    refines (xadd_db a id n d) q') as Href.
  { intros q' Hl Hw Hp. unfold refines, get_group, xadd_db in *. rewrite <-Hs, get_set_stream. simpl.
    rewrite lookup_fmap, Hgr. eexists. split; [reflexivity|]. simpl. rewrite fmap_drop, fmap_take, Hall. auto. }
  destruct n as [|n].
  - eexists [LAdd id], _. split; [by apply qsteps_one|].
    split; [|split; [intros i; set_solver|set_solver]]. apply Href; [done| |done]. simpl.
    symmetry. apply list_filter_all. set_solver.
  - eexists [LAdd id; LTrim (xa_MaxLen a) (S n)], _. split; [|split; [|split; [intros i; set_solver|set_solver]]].
    + econstructor; [exact Hadd|]. apply qsteps_one. constructor.
      * destruct (Z_le_gt_dec (xa_MaxLen a) 0) as [Hm|]; [|lia]. by specialize (Hn0 Hm).
      * specialize (Hlen ltac:(lia)). unfold xadd_db in Hlen. rewrite get_set_stream in Hlen.
        cbn [entries] in Hlen. by rewrite <-(length_fmap ID), fmap_drop, Hall in Hlen.
    + by apply Href.
Qed.

Lemma xadd_sim a id d d' : xadd_ok a id d d' -> sim d d'.
Proof.
  intros Hx. destruct (decide (xa_Stream a = s)) as [Hs|Hne].
  - intros q Hq. destruct (xadd_steps _ _ _ _ _ Hx Hs Hq) as (ls & q' & ? & ? & ? & _). eauto.
  - apply sim_stream. by apply (xadd_other _ _ _ _ Hx).
Qed.

Lemma deliver_sim s' g' c m t d d' : deliver_ok s' g' c m t d d' -> sim d d'.
Proof.
  intros (gr' & rest & Hgr' & Hnew & _ & ->). destruct (decide ((s', g') = (s, g))) as [[= -> ->]|Hne].
  - intros q (gr & Hgr & Hl & Hn & Hp). destruct q as [log nw pel dn ls]. simpl in *.
    rewrite Hgr in Hgr'. injection Hgr' as <-. subst log nw pel.
    exists [LDeliver (ID m)], (mkQ (ID <$> entries (get_stream d s)) rest ({[ID m]} ∪ dom (g_pel gr)) dn ls).
    split; [apply qsteps_one; rewrite Hnew; constructor|]. split; [|intros id; set_solver].
    exists (mkGroup rest (<[ID m := mkPel c t]> (g_pel gr))). rewrite get_set_group, entries_set_group. simpl.
    rewrite dom_insert_L. auto.
  - apply sim_unseen; [by apply get_set_group_ne|apply entries_set_group].
Qed.

Lemma dom_claim_all c t ms (pel : gmap string PelEntry) :
  dom (claim_all c t ms pel) = list_to_set (ID <$> ms) ∪ dom pel.
Proof.
  induction ms as [|m ms IH]; simpl; [set_solver|]. unfold claim_one. rewrite dom_insert_L, IH. set_solver.
Qed.

Lemma autoclaim_sim s' g' c mi t start n ms next d d' :
  autoclaim_ok s' g' c mi t start n ms next d d' -> sim d d'.
Proof.
  intros (gr' & X & Hgr' & _ & _ & Hms & HX & -> & _). destruct (decide ((s', g') = (s, g))) as [[= -> ->]|Hne].
  2: { apply sim_unseen; [|apply entries_set_pel]. unfold set_pel. rewrite Hgr'. by apply get_set_group_ne. }
  intros q (gr & Hgr & Hl & Hn & Hp). rewrite Hgr in Hgr'. injection Hgr' as <-.
  destruct q as [log nw pel dn ls]. simpl in *. subst log nw pel.
  eexists [LForget (X ∩ dom (g_pel gr))], _.
  split; [apply qsteps_one; constructor; [set_solver|]|split; [|intros id; set_solver]].
  { intros id [Hid _]%elem_of_intersection. by apply HX. }
  eexists. split; [by apply get_set_pel|]. simpl. rewrite entries_set_pel.
  split; [done|]. split; [done|]. rewrite dom_claim_all. apply set_eq. intros i.
  rewrite elem_of_union, elem_of_list_to_set, elem_of_difference, elem_of_intersection, !elem_of_dom.
  assert (is_Some (filter (fun p : string * PelEntry => p.1 ∉ X) (g_pel gr) !! i) <->
          i ∉ X /\ is_Some (g_pel gr !! i)) as ->.
  { unfold is_Some. setoid_rewrite map_lookup_filter_Some. simpl. naive_solver. }
  split; [naive_solver|]. intros [(m & -> & Hm)%list_elem_of_fmap|?]; [|naive_solver].
  destruct (Hms m Hm) as (Hin & _ & _ & pe & Hpe & _). split; [eauto|]. intros [HinX _].
  apply (HX _ HinX). by apply list_elem_of_fmap_2.
Qed.

Lemma xgroup_sim s' g' d : get_group d s' g' = None -> sim d (xgroup_db s' g' d).
Proof.
  intros Hno q Hq. assert ((s', g') <> (s, g)) as Hne.
  { intros [= -> ->]. destruct Hq as (gr & Hgr & _). congruence. }
  revert q Hq. change (sim d (xgroup_db s' g' d)). unfold xgroup_db.
  apply sim_unseen; [by apply get_set_group_ne|apply entries_set_group].
Qed.

Lemma pipe_some_sim l d d' : pipe_some l d d' -> sim d d'.
Proof.
  induction 1 as [d| |a l id d d1 d2 Hx _ IH]; [done|done|].
  etrans; [by eapply xadd_sim|done].
Qed.

Lemma pipe_ok_sim l ids d d' : pipe_ok l ids d d' -> sim d d'.
Proof. induction 1; [done|]. etrans; [by eapply xadd_sim|done]. Qed.

(** One execution of a safe call. *)
Lemma server_sim {B} (c : cmd B) t d b d' : safe d c -> server_ok c t d b d' -> sim d d'.
Proof.
  intros Hsafe Hs. destruct (is_read c) eqn:Hread.
  { by apply (server_read _ _ _ _ _ Hread) in Hs as ->. }
  destruct c; try discriminate; simpl in Hsafe, Hs.
  - destruct b as [id|e]; [by eapply xadd_sim|by destruct Hs as [-> _]].
  - destruct b; [by eapply pipe_ok_sim|by eapply pipe_some_sim].
  - specialize (Hs Hsafe). destruct b as [l|e]; [|by subst].
    destruct Hs as [[-> _]|(m & _ & Hd)]; [done|by eapply deliver_sim].
  - destruct b; subst; [|done]. apply sim_unseen; [|apply entries_xack]. unfold xack_db, set_pel.
    destruct (get_group d stream group); [by apply get_set_group_ne|done].
  - destruct b as [[ms next]|e]; [by eapply autoclaim_sim|by destruct Hs as [-> _]].
  - destruct b; [|by subst]. destruct Hs as [-> _]. apply sim_stream. unfold xdel_db. by apply get_set_stream_ne.
  - specialize (Hs Hsafe). destruct b; destruct Hs as [Hs Hd]; [subst d'; by apply xgroup_sim|by subst].
  - destruct b as [[]|]; [destruct Hs as [_ ->]|destruct Hs as [_ ->]|by subst]; by apply sim_streams.
  - destruct Hsafe as [H1 H2]. specialize (Hs H1 H2). destruct b, (live d t key); try destruct Hs as [_ ->];
      subst; by apply sim_streams.
  - destruct b; [|by subst]. subst d'. apply sim_stream. unfold get_stream. simpl. by rewrite lookup_delete_ne.
  - destruct b; subst; by apply sim_streams.
Qed.

Lemma safe_kept {B} (c : cmd B) t d b d' : safe d c -> server_ok c t d b d' -> safe d' c.
Proof.
  destruct c; try done. simpl. intros [H1 H2] Hs. specialize (Hs H1 H2).
  destruct b, (live d t key); try destruct Hs as [_ ->]; by subst.
Qed.

Lemma lost_sim {B} (c : cmd B) t t' d d' : safe d c -> lost c t t' d d' -> sim d d' /\ safe d' c.
Proof.
  intros Hsafe Hl. revert Hsafe. induction Hl as [|t t1 t' d b d1 d' _ Hs _ IH]; intros Hsafe; [done|].
  destruct (IH (safe_kept _ _ _ _ _ Hsafe Hs)) as [Hsim Hsafe']. split; [|done].
  etrans; [by eapply server_sim|done].
Qed.

Context {W : Type} `{RedisLaws W}.

(** One call of a client, with the executions the client did not see. *)
Lemma exec_steps {B} (c : cmd B) (w w' : W) b q : safe (db w) c -> exec c w = (w', b) -> refines (db w) q ->
  exists ls q', qsteps ls q q' /\ refines (db w') q' /\ quiet ls /\
    forall id, added_by (Ev c b) = Some (s, id) -> LAdd id ∈ ls.
Proof.
  intros Hsafe E Hq. apply law_exec in E as (d1 & Hl & Hs). destruct (lost_sim _ _ _ _ _ Hsafe Hl) as [Hsim Hsafe'].
  destruct (Hsim q Hq) as (l1 & q1 & Hs1 & Hr1 & Hq1).
  assert (exists ls q', qsteps ls q1 q' /\ refines (db w') q' /\ quiet ls /\
    forall id, added_by (Ev c b) = Some (s, id) -> LAdd id ∈ ls) as (l2 & q2 & Hs2 & Hr2 & Hq2 & Ha).
  { destruct (added_by (Ev c b)) as [[s' id]|] eqn:Ha; [destruct (decide (s' = s)) as [->|Hne]|].
    - destruct c; try done. simpl in Ha. destruct b as [i|]; [|done]. injection Ha as Hst <-.
      destruct (xadd_steps _ _ _ _ _ Hs Hst Hr1) as (ls & q' & ? & ? & ? & ?). exists ls, q'. naive_solver.
    - destruct (server_sim _ _ _ _ _ Hsafe' Hs q1 Hr1) as (ls & q' & ? & ? & ?). exists ls, q'. naive_solver.
    - destruct (server_sim _ _ _ _ _ Hsafe' Hs q1 Hr1) as (ls & q' & ? & ? & ?). exists ls, q'. naive_solver. }
  exists (l1 ++ l2), q2. split; [by eapply qsteps_app|]. split; [done|]. split.
  - intros id. specialize (Hq1 id). specialize (Hq2 id). set_solver.
  - intros id Hid. specialize (Ha id Hid). set_solver.
Qed.

(** An acknowledgement: of a pending message, or without effect. *)
Lemma exec_ack_steps id (w w' : W) b q : exec (XAck s g id) w = (w', b) -> refines (db w) q ->
  exists ls q', qsteps ls q q' /\ refines (db w') q' /\ forall i, LAck i ∈ ls -> i = id.
Proof.
  intros E Hq. assert (db w' = db w \/ db w' = xack_db s g id (db w)) as [->| ->].
  { destruct b; [right; by eapply law_xack|by eapply law_xack_err]. }
  { exists [], q. split; [constructor|]. split; [done|set_solver]. }
  destruct Hq as (gr & Hgr & Hl & Hn & Hp). destruct q as [log nw pel dn ls]. simpl in *. subst log nw pel.
  assert (forall dn' ls', refines (xack_db s g id (db w))
    (mkQ (ID <$> entries (get_stream (db w) s)) (g_new gr) (dom (g_pel gr) ∖ {[id]}) dn' ls')) as Href.
  { intros dn' ls'. eexists. split; [by apply get_set_pel|]. rewrite entries_xack. simpl.
    unfold get_pel. rewrite Hgr. simpl. by rewrite dom_delete_L. }
  destruct (decide (id ∈ dom (g_pel gr))) as [Hin|Hni].
  - eexists [LAck id], _. split; [apply qsteps_one; by constructor|]. split; [apply Href|]. set_solver.
  - eexists [], _. split; [constructor|]. split; [|set_solver].
    assert (dom (g_pel gr) = dom (g_pel gr) ∖ {[id]}) as -> by set_solver. apply Href.
Qed.

End Simulation.

(** ** The workers of a group *)

(** What tells one worker process from another. *)
Record worker := mkWorker {
  k_oob : float64 -> Z;
  k_config : WorkerConfig.t;
  k_workerID : string;
  k_partitionID : Z;
  k_consumer : Consumer;
  k_process : Processor;
}.

Section System.
Context {W : Type} `{RedisLaws W} `{Codec}.
Context (s g : string).

(** A worker of the group [g] of the stream [s] whose processor only processes. *)
Definition member (k : worker) : Prop :=
  c_streamName (k_consumer k) = s /\ c_consumerGroup (k_consumer k) = g /\
  forall j, never_acks (k_process k j).

Definition set_world (w : W) (st : wstate W) : wstate W :=
  mkW w (w_poll st) (w_reclaim st) (w_registry st) (w_jobs st) (w_held st) (w_active st)
    (w_backoff st) (w_cancelled st) (w_server st) (w_read st).

(** The world they share, and the workers that are running. *)
Definition system : Type := W * list (worker * wstate W).

Definition kstep (k : worker) : wstate W -> wstate W -> Prop :=
  wstep (k_oob k) (k_config k) (k_workerID k) (k_partitionID k) (k_consumer k) (k_process k).

Definition kstart (k : worker) : nat -> W -> wstate W :=
  wstart (k_config k) (k_workerID k) (k_partitionID k) (k_consumer k).

(** A worker process starts, takes a step or dies in the middle of whatever it
    was doing; or some other client (a producer, an operator, another service)
    makes a call. *)
Inductive sstep : system -> system -> Prop :=
| sys_start w ks k fuel : member k -> sstep (w, ks) (w, ks ++ [(k, kstart k fuel w)])
| sys_worker w l1 k st st' l2 : kstep k (set_world w st) st' ->
    sstep (w, l1 ++ (k, st) :: l2) (w_world st', l1 ++ (k, st') :: l2)
| sys_crash w l1 k st l2 : sstep (w, l1 ++ (k, st) :: l2) (w, l1 ++ l2)
| sys_client w B (c : cmd B) w' b ks : safe s g (db w) c -> exec c w = (w', b) -> sstep (w, ks) (w', ks).

(** *** One step of a worker, seen from outside *)

(** The calls of a job: those of a well-behaved client, and its acknowledgement. *)
Lemma processMessage_calls c process j id : (forall j, never_acks (process j)) ->
  all_calls (fun B x => tame x = true \/ ack_of x = Some (c_streamName c, c_consumerGroup c, id))
    (processMessage c process j id).
Proof.
  intros Hp. set (P := fun B (x : cmd B) => _).
  assert (forall A (p : prog A), never_acks p -> all_calls P p) as Hw.
  { intros A p. apply all_calls_impl. by left. }
  assert (all_calls P (Consume.Ack c id)) as Hack.
  { unfold Consume.Ack. cbn [all_calls bind call]. split; [by right|]. intros []; exact I. }
  unfold processMessage. apply all_calls_bind; [apply Hw, Hp|]. intros [e|].
  2: by apply all_calls_bind.
  apply all_calls_bind; [|done]. unfold Consume.Retry. case_match.
  - apply all_calls_bind; [|intros; by apply all_calls_bind]. destruct (c_dlq c); [|done].
    cbn [all_calls bind call]. split; [by left|]. intros t.
    apply all_calls_bind; [apply Hw, Send_never_acks|done].
  - case_match; [case_match|done]. cbn [all_calls bind call]. split; [by left|]. intros [i|]; [|done].
    by apply all_calls_bind.
Qed.

Definition kinv (x : worker * wstate W) : Prop := member x.1 /\ dinv (k_consumer x.1) (k_process x.1) x.2.

(** A step makes no call, or one of a loop, or one of a job; only the calls of the
    poll loop and of the reclaim loop read messages. *)
Lemma kstep_cases k st st' : kinv (k, st) -> kstep k st st' ->
  (w_world st' = w_world st /\ w_read st' = w_read st /\
     forall j id l p, GRun j id l p ∈ w_jobs st' -> GRun j id l p ∈ w_jobs st \/ l = []) \/
  (w_jobs st' = w_jobs st /\ exists B (c : cmd B) b, exec c (w_world st) = (w_world st', b) /\ tame c = true /\
     (w_read st' = w_read st \/ (w_read st' = w_read st ++ read_messages (Ev c b) /\ reads_from s c))) \/
  (exists js1 js2 j id l p e p', w_jobs st = js1 ++ GRun j id l p :: js2 /\ w_read st' = w_read st /\
     w_jobs st' = js1 ++ GRun j id (l ++ [e]) p' :: js2 /\ stepe p (w_world st) = Some (w_world st', e, p')).
Proof.
  intros [(Hks & _ & _) [Hp Hr Hh Hj]] Hs. cbn [fst snd] in *.
  destruct Hs; cbn [w_world w_poll w_reclaim w_registry w_jobs w_read] in *.
  all: try (left; split; [done|]; split; [done|]; intros ???? Hin;
    rewrite ?elem_of_app, ?elem_of_cons, ?elem_of_nil in *; naive_solver).
  all: try (right; left; split; [done|]).
  - destruct (stepe_exec _ _ _ _ _ _ (proj1 Hp) ltac:(eassumption)) as (B & x & b & -> & E & Ht & Hf).
    rewrite Hks in Hf. exists B, x, b. auto.
  - destruct (step_exec _ _ _ _ _ Hp ltac:(eassumption)) as (B & x & b & E & Ht). exists B, x, b. auto.
  - destruct (step_exec _ _ _ _ _ Hp ltac:(eassumption)) as (B & x & b & E & Ht). exists B, x, b. auto.
  - destruct (stepe_exec _ _ _ _ _ _ (proj1 Hr) ltac:(eassumption)) as (B & x & b & -> & E & Ht & Hf).
    rewrite Hks in Hf. exists B, x, b. auto.
  - destruct (step_exec _ _ _ _ _ Hh ltac:(eassumption)) as (B & x & b & E & Ht). exists B, x, b. auto.
  - right; right. by exists js1, js2, j, id, l, q, e, q'.
Qed.

(** The entries a job appended are in the account of the queue. *)
Definition logged (ks : list (worker * wstate W)) (q : Q) : Prop :=
  forall k st j id l p e i, (k, st) ∈ ks -> GRun j id l p ∈ w_jobs st -> e ∈ l ->
    added_by e = Some (s, i) -> i ∈ known q.

(** The queue [q] describes the system. *)
Record related (σ : system) (q : Q) : Prop := {
  r_refines : refines s g (db σ.1) q;
  r_workers : Forall kinv σ.2;
  r_logged : logged σ.2 q;
}.

(** The worker [k] is about to acknowledge the message [id], in a goroutine whose
    job [j] was decoded from the message with this id that it was handed: the
    processor has returned [r] for the job in the calls [l1], and [l2] is what it
    did since. *)
Definition at_ack (σ : system) (id : string) (k : worker) (j : JobEnvelope) (r : option error)
    (l1 l2 : list event) : Prop :=
  exists st p, (k, st) ∈ σ.2 /\ decoded (w_read st) j id /\ GRun j id (l1 ++ l2) p ∈ w_jobs st /\
    next_ack p = Some (s, g, id) /\ path (k_process k j) l1 (Return r).

(** Some worker is about to acknowledge the message [id] and has a reason. *)
Definition about_to_ack (σ : system) (id : string) : Prop :=
  exists k j r l1 l2, at_ack σ id k j r l1 l2 /\ reason (k_consumer k) j r l2.

(** At some state of the run from [σ0] to [σ], the stream has an entry with the id
    [id] whose payload is the job [j]. *)
Definition job_of (σ0 σ : system) (j : JobEnvelope) (id : string) : Prop :=
  exists σ1 m txt, rtc sstep σ0 σ1 /\ rtc sstep σ1 σ /\ m ∈ entries (get_stream (db σ1.1) s) /\
    ID m = id /\ Values m !! "job" = Some txt /\ unmarshal_job txt = Ok j.

(** In the run from [σ0] to [σ], some worker is about to acknowledge the message
    [id], the job of the goroutine is the payload of this message, and it has a
    reason. *)
Definition acking (σ0 σ : system) (id : string) : Prop :=
  exists k j r l1 l2, at_ack σ id k j r l1 l2 /\ job_of σ0 σ j id /\ reason (k_consumer k) j r l2.

Lemma kinv_set_world k st w : kinv (k, st) -> kinv (k, set_world w st).
Proof. intros [Hk [Hp Hr Hh Hj]]. split; [done|]. by constructor. Qed.

Lemma kinv_step k st st' : kinv (k, st) -> kstep k st st' -> kinv (k, st').
Proof. intros [Hk Hd] Hs. split; [done|]. by eapply wstep_dinv. Qed.

Lemma kinv_start k fuel w : member k -> kinv (k, kstart k fuel w).
Proof. intros Hk. split; [done|]. apply start_dinv. Qed.

(** *** What the workers read was in the stream *)

(** A message that a call hands out is an entry of the stream. *)
Lemma read_stored {B} (c : cmd B) (w w' : W) b m : tame c = true -> reads_from s c -> exec c w = (w', b) ->
  m ∈ read_messages (Ev c b) -> m ∈ entries (get_stream (db w') s).
Proof.
  destruct c; simpl; intros Ht Hf E Hm; try (by apply elem_of_nil in Hm).
  - subst. apply Z.eqb_eq in Ht as ->. destruct b as [l|]; [|by apply elem_of_nil in Hm].
    apply law_xread in E as (d1 & _ & [[_ [-> | ->]]|(m' & -> & Hd)]); cbn in Hm; [by apply elem_of_nil in Hm..|]. apply list_elem_of_singleton in Hm as ->.
    destruct Hd as (gr & rest & _ & _ & Hin & ->). by rewrite entries_set_group.
  - subst. destruct b as [[ms next]|]; [|by apply elem_of_nil in Hm].
    apply law_exec in E as (d1 & _ & gr & lost & _ & _ & _ & Hms & _ & -> & _).
    rewrite entries_set_pel. by apply Hms.
Qed.

Definition was_stored (σ0 σ : system) (m : XMessage) : Prop :=
  exists σ1, rtc sstep σ0 σ1 /\ rtc sstep σ1 σ /\ m ∈ entries (get_stream (db σ1.1) s).

Definition reads_stored (σ0 σ : system) : Prop :=
  forall k st m, (k, st) ∈ σ.2 -> m ∈ w_read st -> was_stored σ0 σ m.

Lemma was_stored_step σ0 σ σ' m : sstep σ σ' -> was_stored σ0 σ m -> was_stored σ0 σ' m.
Proof. intros Hs (σ1 & Hr1 & Hr2 & Hm). exists σ1. split; [done|]. split; [by eapply rtc_r|done]. Qed.

Lemma sstep_reads σ0 σ σ' : rtc sstep σ0 σ -> sstep σ σ' ->
  Forall kinv σ.2 /\ reads_stored σ0 σ -> Forall kinv σ'.2 /\ reads_stored σ0 σ'.
Proof.
  intros Hrun Hstep [Hk Hrd]. assert (forall k st m, (k, st) ∈ σ.2 -> m ∈ w_read st -> was_stored σ0 σ' m) as Hold.
  { intros k st m Hin Hm. by eapply was_stored_step, Hrd. }
  pose proof Hstep as Hstep0.
  destruct Hstep as [w ks k fuel Hmem|w l1 k st st' l2 Hs|w l1 k st l2|w B c w' b ks Hsafe E]; cbn [fst snd] in *.
  - split; [rewrite Forall_app, Forall_singleton; split; [done|by apply kinv_start]|].
    intros k' st' m [Hin|[= -> ->]%list_elem_of_singleton]%elem_of_app; [by eapply Hold|]. simpl. set_solver.
  - rewrite Forall_app, Forall_cons in Hk. destruct Hk as (Hk1 & Hk & Hk2).
    pose proof (kinv_set_world _ _ w Hk) as Hkw. split.
    { rewrite Forall_app, Forall_cons. split; [done|]. split; [by eapply kinv_step|done]. }
    assert (forall m, m ∈ w_read st -> was_stored σ0 (w_world st', l1 ++ (k, st') :: l2) m) as Hst.
    { intros m. apply (Hold k st). set_solver. }
    intros k' st1 m Hin Hm. cbn [snd] in Hin.
    assert ((k', st1) ∈ l1 ++ (k, st) :: l2 \/ st1 = st') as [Hin'| ->] by set_solver; [by eapply Hold|].
    destruct (kstep_cases _ _ _ Hkw Hs) as [(_ & Hr & _)|[(_ & B & c & b & E & Ht & [Hr|[Hr Hf]])|
      (js1 & js2 & j & id & l & p & e & p' & _ & Hr & _)]]; cbn [set_world w_read w_world] in *;
      rewrite Hr in Hm; auto.
    apply elem_of_app in Hm as [Hm|Hm]; [by apply Hst|].
    exists (w_world st', l1 ++ (k, st') :: l2). split; [by eapply rtc_r|]. split; [done|]. by eapply read_stored.
  - rewrite Forall_app, Forall_cons in Hk. split; [rewrite Forall_app; naive_solver|].
    intros k' st' m Hin. cbn [snd] in Hin. apply (Hold k' st'). set_solver.
  - split; [done|]. intros k st m Hin. by apply (Hold k st).
Qed.

Lemma run_reads w σ : rtc sstep (w, []) σ -> Forall kinv σ.2 /\ reads_stored (w, []) σ.
Proof.
  apply (rtc_ind_r (fun σ => Forall kinv σ.2 /\ reads_stored (w, []) σ)).
  - split; [done|]. intros k st m Hin. cbn [snd] in Hin. by apply elem_of_nil in Hin.
  - intros σ1 σ2 Hr Hs. by apply sstep_reads.
Qed.

(** The job of a goroutine that is about to acknowledge is that of its message. *)
Lemma at_ack_job w σ id k j r l1 l2 : rtc sstep (w, []) σ -> at_ack σ id k j r l1 l2 -> job_of (w, []) σ j id.
Proof.
  intros Hr (st & p & Hin & (m & txt & Hm & Hid & Hv & Hu)%decoded_message & _).
  destruct (run_reads _ _ Hr) as [_ Hrd]. destruct (Hrd _ _ _ Hin Hm) as (σ1 & Hr1 & Hr2 & He).
  by exists σ1, m, txt.
Qed.

Lemma about_to_ack_acking w σ id : rtc sstep (w, []) σ -> about_to_ack σ id -> acking (w, []) σ id.
Proof. intros Hr (k & j & r & l1 & l2 & Hat & Hre). exists k, j, r, l1, l2. eauto using at_ack_job. Qed.

Lemma logged_known ks q q' : known q ⊆ known q' -> logged ks q -> logged ks q'.
Proof. unfold logged. intros Hk Hl. naive_solver. Qed.

Lemma logged_app ks1 ks2 q : logged (ks1 ++ ks2) q <-> logged ks1 q /\ logged ks2 q.
Proof. unfold logged. setoid_rewrite elem_of_app. naive_solver. Qed.

Lemma logged_cons k st ks q : logged ((k, st) :: ks) q <-> logged [(k, st)] q /\ logged ks q.
Proof. apply (logged_app [(k, st)]). Qed.

Lemma logged_one k st q : logged [(k, st)] q <->
  forall j id l p e i, GRun j id l p ∈ w_jobs st -> e ∈ l -> added_by e = Some (s, i) -> i ∈ known q.
Proof. unfold logged. setoid_rewrite list_elem_of_singleton. naive_solver. Qed.

Lemma justified_acking w l1 k st l2 js1 js2 j id l p :
  kinv (k, st) -> w_jobs st = js1 ++ GRun j id l p :: js2 -> next_ack p = Some (s, g, id) ->
  about_to_ack (w, l1 ++ (k, st) :: l2) id.
Proof.
  intros [(Hks & Hkg & Hkp) [_ _ _ Hj]] Hjs Hn. cbn [fst snd] in *. rewrite Hjs, Forall_app, Forall_cons in Hj.
  destruct Hj as (_ & [Hd Hpath] & _). apply processMessage_justified in Hpath; [|done].
  destruct (Hpath _ Hn) as (_ & m1 & m2 & r & -> & Hr & Hreason).
  exists k, j, r, m1, m2. split; [|done]. exists st, p. rewrite Hjs. cbn [snd]. repeat split; try done; set_solver.
Qed.

Lemma tame_safe d {B} (c : cmd B) : tame c = true -> safe s g d c.
Proof. destruct c; simpl; try done. apply Z.eqb_eq. Qed.

(** One call of a job. *)
Lemma job_steps k st js1 js2 j id l p e p' (w w' : W) q :
  kinv (k, st) -> w_jobs st = js1 ++ GRun j id l p :: js2 -> stepe p w = Some (w', e, p') ->
  refines s g (db w) q ->
  exists ls q', qsteps ls q q' /\ refines s g (db w') q' /\
    (forall i, LAck i ∈ ls -> i = id /\ next_ack p = Some (s, g, id)) /\
    forall i, added_by e = Some (s, i) -> i ∈ known q'.
Proof.
  intros [(Hks & Hkg & Hkp) [_ _ _ Hj]] Hjs Hs Hq. cbn [fst snd] in *. rewrite Hjs, Forall_app, Forall_cons in Hj.
  destruct Hj as (_ & [_ Hpath] & _).
  apply (all_calls_path _ _ _ _ (processMessage_calls (k_consumer k) (k_process k) j id Hkp)) in Hpath.
  destruct p as [|B c f| |]; try done. destruct Hpath as [Hc _]. simpl in Hs.
  destruct (exec c w) as [w1 b] eqn:E. injection Hs as -> <- <-. destruct Hc as [Hc|Hc].
  - destruct (exec_steps s g c w w' b q (tame_safe _ _ Hc) E Hq) as (ls & q' & Hls & Hr & Hqt & Ha).
    exists ls, q'. split; [done|]. split; [done|]. split; [intros i Hi; by destruct (Hqt i)|].
    intros i Hi. destruct (qsteps_known _ _ _ Hls) as [_ Hk]. auto.
  - rewrite Hks, Hkg in Hc. destruct c; try done. simpl in Hc. injection Hc as -> -> ->.
    destruct (exec_ack_steps s g id w w' b q E Hq) as (ls & q' & Hls & Hr & Ha).
    exists ls, q'. split; [done|]. split; [done|]. split; [|done]. intros i Hi. by split; [apply Ha|].
Qed.

(** The producers are such clients. *)
Lemma Enqueue_safe d config ev : all_calls (fun _ c => safe s g d c) (Producer.Enqueue config ev).
Proof.
  apply (all_calls_impl (fun _ c => tame c = true)); [intros; by apply tame_safe|].
  unfold Producer.Enqueue, Producer.streamNameFor, Producer.partitionFor. case_match; [done|]. no_acks.
Qed.

Lemma EnqueueBatch_safe d config evs : all_calls (fun _ c => safe s g d c) (Producer.EnqueueBatch config evs).
Proof.
  apply (all_calls_impl (fun _ c => tame c = true)); [intros; by apply tame_safe|].
  unfold Producer.EnqueueBatch. destruct evs as [|ev evs]; [done|].
  apply all_calls_bind; [|intros [l|]; cbn [all_calls bind call]; [split; [done|]; by intros []|done]].
  generalize (ev :: evs). clear ev evs. intros evs.
  induction evs as [|ev evs IH]; cbn [Producer.batch_args]; [done|].
  unfold Producer.streamNameFor, Producer.partitionFor. case_match; [done|]. no_acks.
  apply all_calls_bind; [exact IH|done].
Qed.

Definition follows (σ σ' : system) (q : Q) : Prop :=
  exists ls q', qsteps ls q q' /\ related σ' q' /\ forall id, LAck id ∈ ls -> about_to_ack σ id.

Lemma worker_follows w l1 k st st' l2 q :
  kstep k (set_world w st) st' -> related (w, l1 ++ (k, st) :: l2) q ->
  follows (w, l1 ++ (k, st) :: l2) (w_world st', l1 ++ (k, st') :: l2) q.
Proof.
  intros Hs [Hq Hk Hl]. cbn [fst snd] in *. rewrite Forall_app, Forall_cons in Hk. destruct Hk as (Hk1 & Hk & Hk2).
  pose proof (kinv_set_world _ _ w Hk) as Hkw.
  assert (Forall kinv (l1 ++ (k, st') :: l2)) as Hk'.
  { rewrite Forall_app, Forall_cons. split; [done|]. split; [by eapply kinv_step|done]. }
  rewrite logged_app, logged_cons, logged_one in Hl. destruct Hl as (Hl1 & Hlk & Hl2).
  assert (forall q', known q ⊆ known q' -> logged [(k, st')] q' -> logged (l1 ++ (k, st') :: l2) q') as Hlog.
  { intros q' Hkn Hst. rewrite logged_app, logged_cons. eauto using logged_known. }
  destruct (kstep_cases _ _ _ Hkw Hs) as [(Hw & _ & Hj)|[(Hj & B & c & b & E & Ht & _)|
    (js1 & js2 & j & id & l & p & e & p' & Hj & _ & Hj' & He)]]; cbn [set_world w_world w_jobs] in *.
  - exists [], q. split; [constructor|]. split; [|set_solver]. split; [by rewrite Hw|done|].
    apply Hlog; [done|]. rewrite logged_one. intros j id l p e i Hin Hel Ha.
    destruct (Hj _ _ _ _ Hin) as [Hin'| ->]; [by eapply Hlk|set_solver].
  - destruct (exec_steps s g c w _ b q (tame_safe _ _ Ht) E Hq) as (ls & q' & Hls & Hr & Hqt & _).
    destruct (qsteps_known _ _ _ Hls) as [Hkn _]. exists ls, q'. split; [done|].
    split; [|intros id Hid; by destruct (Hqt id)]. split; [done|done|].
    apply Hlog; [done|]. rewrite logged_one, Hj. eauto.
  - destruct (job_steps _ _ _ _ _ _ _ _ _ _ _ _ q Hk Hj He Hq) as (ls & q' & Hls & Hr & Hack & Ha).
    destruct (qsteps_known _ _ _ Hls) as [Hkn _]. exists ls, q'. split; [done|]. split.
    + split; [done|done|]. apply Hlog; [done|]. rewrite logged_one, Hj'. intros j0 id0 l0 p0 e0 i Hin Hel Ha0.
      rewrite Hj in Hlk. rewrite elem_of_app, elem_of_cons in Hin.
      assert (GRun j0 id0 l0 p0 ∈ js1 ++ GRun j id l p :: js2 \/ l0 = l ++ [e]) as [Hin'| ->] by set_solver.
      { apply Hkn. by eapply Hlk. }
      apply elem_of_app in Hel as [Hel|Hel%list_elem_of_singleton]; [|subst e0; by apply Ha].
      apply Hkn. eapply (Hlk j id l p); [set_solver|done|done].
    + intros i Hi. destruct (Hack i Hi) as [-> Hn]. by eapply justified_acking.
Qed.

Lemma sstep_follows σ σ' q : sstep σ σ' -> related σ q -> follows σ σ' q.
Proof.
  destruct 1 as [w ks k fuel Hm|w l1 k st st' l2 Hs|w l1 k st l2|w B c w' b ks Hsafe E]; intros Hrel.
  - exists [], q. split; [constructor|]. split; [|set_solver]. destruct Hrel as [Hq Hk Hl]. cbn [fst snd] in *.
    split; cbn [fst snd]; [done| |].
    + rewrite Forall_app, Forall_singleton. split; [done|by apply kinv_start].
    + rewrite logged_app, logged_one. split; [done|]. cbn [kstart wstart w_jobs]. set_solver.
  - by apply worker_follows.
  - exists [], q. split; [constructor|]. split; [|set_solver]. destruct Hrel as [Hq Hk Hl]. cbn [fst snd] in *.
    rewrite Forall_app, Forall_cons in Hk. rewrite logged_app, logged_cons in Hl.
    split; cbn [fst snd]; [done| |]; rewrite ?Forall_app, ?logged_app; naive_solver.
  - destruct Hrel as [Hq Hk Hl]. cbn [fst snd] in *.
    destruct (exec_steps s g c w w' b q Hsafe E Hq) as (ls & q' & Hls & Hr & Hqt & _).
    destruct (qsteps_known _ _ _ Hls) as [Hkn _]. exists ls, q'. split; [done|].
    split; [|intros id Hid; by destruct (Hqt id)]. split; [done|done|]. by eapply logged_known.
Qed.

(** The queue of a group as it is found: nothing done, nothing lost. *)
Definition queue_at (d : Db) (gr : Group) : Q :=
  mkQ (ID <$> entries (get_stream d s)) (g_new gr) (dom (g_pel gr)) ∅ ∅.

Lemma related_at w gr : get_group (db w) s g = Some gr -> related (w, []) (queue_at (db w) gr).
Proof. intros Hgr. split; [by exists gr|done|]. intros k st. cbn [snd]. set_solver. Qed.

(** The simulation along a run. *)
Lemma rtc_follows σ σ' q : rtc sstep σ σ' -> related σ q ->
  exists ls q', qsteps ls q q' /\ related σ' q' /\ forall id, LAck id ∈ ls ->
    exists σ1 q1, rtc sstep σ σ1 /\ rtc sstep σ1 σ' /\ about_to_ack σ1 id /\ related σ1 q1 /\ known q1 ⊆ known q'.
Proof.
  intros Hr. revert q. induction Hr as [σ|σ σ1 σ' Hs Hr IH]; intros q Hrel.
  - exists [], q. split; [constructor|]. split; [done|set_solver].
  - destruct (sstep_follows _ _ _ Hs Hrel) as (l1 & q1 & Hl1 & Hrel1 & Hack1).
    destruct (IH _ Hrel1) as (l2 & q2 & Hl2 & Hrel2 & Hack2). exists (l1 ++ l2), q2.
    split; [by eapply qsteps_app|]. split; [done|]. intros id [Hid|Hid]%elem_of_app.
    + exists σ, q. split; [done|]. split; [by eapply rtc_l|]. split; [by apply Hack1|]. split; [done|].
      destruct (qsteps_known _ _ _ Hl1) as [? _], (qsteps_known _ _ _ Hl2) as [? _]. set_solver.
    + destruct (Hack2 _ Hid) as (σ2 & q3 & ? & ? & ? & ? & ?). exists σ2, q3. split; [by eapply rtc_l|]. auto.
Qed.

(** C3: the workers of a group, started and killed at any time, interleaved in
    any way with each other and with producers and other clients, implement a
    queue.  Every run is a run of the abstract queue: messages are added at its
    end with ids not in use, delivered from its front, acknowledged only while
    pending, and removed otherwise only when a length limit pushed their entries
    out of the stream.  And every acknowledgement of that run is one that some
    worker makes, at a state of the run, in a goroutine whose job is the payload
    that the entry of the stream with this very id had at an earlier state of the
    run, whose processor has returned for that job, and which has, after a failure,
    appended the next attempt or used up the retries. *)
Theorem system_refines_queue w gr σ :
  get_group (db w) s g = Some gr -> rtc sstep (w, []) σ ->
  exists ls q, qsteps ls (queue_at (db w) gr) q /\ refines s g (db σ.1) q /\
    (q_wf (queue_at (db w) gr) -> q_wf q) /\
    forall id, LAck id ∈ ls -> exists σ1, rtc sstep (w, []) σ1 /\ rtc sstep σ1 σ /\ acking (w, []) σ1 id.
Proof.
  intros Hgr Hr. destruct (rtc_follows _ _ _ Hr (related_at _ _ Hgr)) as (ls & q & Hls & Hrel & Hack).
  exists ls, q. split; [done|]. split; [apply Hrel|]. split; [by eapply qsteps_wf|]. intros id Hid.
  destruct (Hack id Hid) as (σ1 & q1 & Hr1 & Hr2 & Ha & _). exists σ1. eauto using about_to_ack_acking.
Qed.

(** What became of an acknowledged message of the run from [σ0] to [σ]: at some
    state of the run a worker was about to acknowledge it, with its processor
    returned for the job of this message; if that was an error, the retries were
    used up or the next attempt is a message that the queue [q] accounts for. *)
Definition settled (σ0 σ : system) (q : Q) (id : string) : Prop :=
  exists σ1 k j r l1 l2, rtc sstep σ0 σ1 /\ rtc sstep σ1 σ /\ at_ack σ1 id k j r l1 l2 /\ job_of σ0 σ1 j id /\
    match r with
    | None => True
    | Some e => MaxRetries j <= wrap64 (RetryCount j + 1) \/
        exists args n id', buildXAddArgs s 0 (attempt_of j e) = Ok (args, n) /\
          Ev (XAdd args) (Ok id') ∈ l2 /\ id' ∈ known q
    end.

Lemma buildXAddArgs_stream st n j args sz : buildXAddArgs st n j = Ok (args, sz) -> xa_Stream args = st.
Proof. unfold buildXAddArgs. case_match; [|done]. by intros [= <- _]. Qed.

Lemma acking_settled w σ1 σ q1 q id : rtc sstep (w, []) σ1 -> rtc sstep σ1 σ -> related σ1 q1 ->
  known q1 ⊆ known q -> about_to_ack σ1 id -> settled (w, []) σ q id.
Proof.
  intros Hrun1 Hrun [_ Hk Hl] Hkn (k & j & r & l1 & l2 & Hat & Hr).
  exists σ1, k, j, r, l1, l2. split; [done|]. split; [done|]. split; [done|]. split; [by eapply at_ack_job|].
  destruct Hat as (st & p & Hin & _ & Hjob & _). destruct r as [e|]; [|done].
  rewrite Forall_forall in Hk. destruct (Hk _ Hin) as [(Hks & _ & _) _]. cbn [fst] in *.
  destruct Hr as [Hr|(args & n & i & Hb & Hev)]; [by left|right]. rewrite Hks in Hb. exists args, n, i.
  split; [done|]. split; [done|]. apply Hkn.
  eapply (Hl _ _ _ _ _ _ _ i Hin Hjob); [apply elem_of_app; right; exact Hev|]. simpl.
  by rewrite (buildXAddArgs_stream _ _ _ _ _ Hb).
Qed.

(** C4: no message of the group is lost.  Take any run of the workers and
    clients: every message that was undelivered or pending at its start, and every
    message added since, is at its end still undelivered or still pending, or was
    pushed out of the stream by its length limit, or is done; and it is done only
    if a worker's processor returned for the job that its entry carried and, where that
    was a failure with retries left, the next attempt of the job is itself a
    message that is accounted for in the same way. *)
Theorem at_least_once w gr σ :
  get_group (db w) s g = Some gr -> rtc sstep (w, []) σ ->
  exists ls q, qsteps ls (queue_at (db w) gr) q /\ refines s g (db σ.1) q /\
    forall id, id ∈ g_new gr \/ is_Some (g_pel gr !! id) \/ LAdd id ∈ ls ->
      id ∈ q_new q \/ id ∈ q_pel q \/ id ∈ q_lost q \/ (id ∈ q_done q /\ settled (w, []) σ q id).
Proof.
  intros Hgr Hr. destruct (rtc_follows _ _ _ Hr (related_at _ _ Hgr)) as (ls & q & Hls & Hrel & Hack).
  exists ls, q. split; [done|]. split; [apply Hrel|]. intros id Hid.
  assert (id ∈ known q) as Hk.
  { destruct (qsteps_known _ _ _ Hls) as [Hk Ha]. destruct Hid as [Hid|[Hid|Hid]]; [..|by apply Ha];
      apply Hk; unfold known, queue_at; simpl; rewrite <-?elem_of_dom in Hid; set_solver. }
  unfold known in Hk. rewrite !elem_of_union, elem_of_list_to_set in Hk.
  destruct Hk as [[[?|?]|Hdone]|?]; auto. right; right; right. split; [done|].
  destruct (qsteps_done _ _ _ Hls id Hdone) as [Hd|Hd]; [simpl in Hd; set_solver|].
  destruct (Hack _ Hd) as (σ1 & q1 & Hrun1 & Hrun & Hak & Hrel1 & Hkn).
  by eapply acking_settled.
Qed.

End System.
