(* ===== verification/Throttler.v ===== *)
(** * Adaptive throttling: [internal/ingestion/adpative_throttler.go], [throttler.go] *)
From S2P Require Import Prelude GoStd GoFloat Config Validator World Trace Queue Dlq Consumer.
Import Errors.

Inductive ThrottleDecision := ThrottleAllow | ThrottleRateLimit | ThrottleCircuitOpen.

(** [ThrottlerMetrics]: four independent atomics.  A reader can see some of
    them before and some after an update: nothing below assumes that the four
    values belong together. *)
Record ThrottlerMetrics := mkMetrics {
  streamDepth : Z;
  pendingCount : Z;
  oldestMessageAge : Z;
  lastUpdated : Z;
}.

Definition zero_metrics : ThrottlerMetrics := mkMetrics 0 0 0 0.

Module Throttler.
Section Throttler.
Context `{Codec}.
Context (oob : float64 -> Z) (config : ThrottlerConfig.t) (queue : QueueConfig.t).
(** A nil consumer has no pending metrics. *)
Context (consumer : option Consumer).

(** [max] of the package: not the float maximum of the language. *)
Definition fmax (a b : float64) : float64 := if F64.gtb a b then a else b.

Definition getPendingMetrics : prog (Z * Z * option error) :=
  match consumer with
  | Some c => Consume.GetPendingInfo c
  | None => Return (0, 0, None)
  end.

(** The first half of [updateMetrics]: the depth, the pending count and the age
    to store; [None] when it returns early. *)
Definition fetch : prog (option (Z * Z * Z)) :=
  r <- Producer.StreamLength queue ;;
  match r with
  | Err _ => Return None
  | Ok depth =>
      x <- getPendingMetrics ;;
      let '(pending, oldestAge, err) := x in
      let '(pending, oldestAge) := match err with Some _ => (0, 0) | None => (pending, oldestAge) end in
      Return (Some (depth, pending, oldestAge))
  end.

(** [updateMetrics]: the metrics after its four stores, the old ones when it
    returns early. *)
Definition updateMetrics (m : ThrottlerMetrics) : prog ThrottlerMetrics :=
  x <- fetch ;;
  match x with
  | None => Return m
  | Some (depth, pending, oldestAge) =>
      now <- call Now ;;
      Return (mkMetrics depth pending oldestAge (now / Time.Second))
  end.

Definition computeRetryAfter (m : ThrottlerMetrics) (depth oldestAge : Z) : Z :=
  let drainRate := ThrottlerConfig.EstimatedDrainRate config in
  if F64.leb drainRate (F64.of_Z 0) then ThrottlerConfig.MinRetryAfter config
  else
    let backlog := F64.of_Z (wrap64 (depth + pendingCount m)) in
    let retrySeconds := F64.div backlog drainRate in
    let retrySeconds :=
      if ThrottlerConfig.MaxMessageAge config <? oldestAge
      then F64.mul retrySeconds
             (F64.div (F64.of_Z oldestAge) (F64.of_Z (ThrottlerConfig.MaxMessageAge config)))
      else retrySeconds in
    let retryAfter := wrap64 (F64.to_int64 oob retrySeconds * Time.Second) in
    let retryAfter := if retryAfter <? ThrottlerConfig.MinRetryAfter config
                      then ThrottlerConfig.MinRetryAfter config else retryAfter in
    if ThrottlerConfig.MaxRetryAfter config <? retryAfter
    then ThrottlerConfig.MaxRetryAfter config else retryAfter.

(** The overload score of a depth and an age. *)
Definition overload (depth oldestAge : Z) : float64 :=
  fmax (F64.div (F64.of_Z depth) (F64.of_Z (ThrottlerConfig.SoftDepthLimit config)))
       (F64.div (F64.of_Z oldestAge) (F64.of_Z (ThrottlerConfig.MaxMessageAge config))).

Definition Decision (m : ThrottlerMetrics) : prog (ThrottleDecision * Z) :=
  if negb (ThrottlerConfig.Enabled config) then Return (ThrottleAllow, 0)
  else
    now <- call Now ;;
    let staleness := Time.Sub now (lastUpdated m * Time.Second) in
    let maxStaleness := wrap64 (2 * ThrottlerConfig.MetricsUpdateInterval config) in
    if maxStaleness <? staleness then Return (ThrottleAllow, 0)
    else
      let depth := streamDepth m in
      let oldestAge := wrap64 (oldestMessageAge m * Time.Second) in
      let overloadScore := overload depth oldestAge in
      if F64.gtb overloadScore (ThrottlerConfig.CircuitOpenScore config)
      then Return (ThrottleCircuitOpen, 0)
      else if F64.gtb overloadScore (ThrottlerConfig.RateLimitScore config)
      then Return (ThrottleRateLimit, computeRetryAfter m depth oldestAge)
      else Return (ThrottleAllow, 0).

Definition GetMetrics (m : ThrottlerMetrics) : Z * Z * Z :=
  (streamDepth m, pendingCount m, oldestMessageAge m).

End Throttler.
End Throttler.

(** [ThrottlerInterface]: what the service asks of a throttler.  [NoopThrottler]
    allows everything. *)
Definition ThrottlerInterface := prog (ThrottleDecision * Z).

Definition NoopThrottler : ThrottlerInterface := Return (ThrottleAllow, 0).

(** ** What the throttler guarantees *)
Section ThrottlerTheorems.
Context {W : Type} `{RedisLaws W} `{Codec}.
Context (oob : float64 -> Z) (config : ThrottlerConfig.t) (queue : QueueConfig.t) (consumer : option Consumer).
Import Throttler.

Lemma retry_after_bounds m depth age :
  ThrottlerConfig.MinRetryAfter config <= ThrottlerConfig.MaxRetryAfter config ->
  ThrottlerConfig.MinRetryAfter config <= computeRetryAfter oob config m depth age <=
    ThrottlerConfig.MaxRetryAfter config.
Proof.
  intros Hmm. unfold computeRetryAfter. case_match; [lia|]. cbv zeta.
  generalize (wrap64 (F64.to_int64 oob (if ThrottlerConfig.MaxMessageAge config <? age then
    F64.mul (F64.div (F64.of_Z (wrap64 (depth + pendingCount m))) (ThrottlerConfig.EstimatedDrainRate config))
      (F64.div (F64.of_Z age) (F64.of_Z (ThrottlerConfig.MaxMessageAge config)))
    else F64.div (F64.of_Z (wrap64 (depth + pendingCount m))) (ThrottlerConfig.EstimatedDrainRate config)) *
    Time.Second)). intros x.
  destruct (Z.ltb_spec x (ThrottlerConfig.MinRetryAfter config));
    [destruct (Z.ltb_spec (ThrottlerConfig.MaxRetryAfter config) (ThrottlerConfig.MinRetryAfter config))|
     destruct (Z.ltb_spec (ThrottlerConfig.MaxRetryAfter config) x)]; lia.
Qed.

(** C23: the retry delay a client is told is always between the configured
    minimum and maximum: for every depth, age and pending count, also when the
    float computation overflows, is infinite or NaN, or when the conversion to a
    duration wraps around. *)
Theorem computeRetryAfter_bounds m depth age :
  ThrottlerConfig.MinRetryAfter config <= ThrottlerConfig.MaxRetryAfter config ->
  ThrottlerConfig.MinRetryAfter config <= computeRetryAfter oob config m depth age <=
    ThrottlerConfig.MaxRetryAfter config.
Proof. apply retry_after_bounds. Qed.

Lemma run_Decision m w :
  ThrottlerConfig.MinRetryAfter config <= ThrottlerConfig.MaxRetryAfter config ->
  exists w' d after, run (Decision oob config m) w = (w', Val (d, after)) /\ db w' = db w /\
    let score := overload config (streamDepth m) (wrap64 (oldestMessageAge m * Time.Second)) in
    let fresh := ThrottlerConfig.Enabled config = true /\ exists now,
      clocks (trace (Decision oob config m) w) = [now] /\
      Time.Sub now (lastUpdated m * Time.Second) <= wrap64 (2 * ThrottlerConfig.MetricsUpdateInterval config) in
    match d with
    | ThrottleAllow => after = 0 /\ (fresh ->
        F64.gtb score (ThrottlerConfig.CircuitOpenScore config) = false /\
        F64.gtb score (ThrottlerConfig.RateLimitScore config) = false)
    | ThrottleRateLimit => fresh /\ F64.gtb score (ThrottlerConfig.CircuitOpenScore config) = false /\
        F64.gtb score (ThrottlerConfig.RateLimitScore config) = true /\
        ThrottlerConfig.MinRetryAfter config <= after <= ThrottlerConfig.MaxRetryAfter config
    | ThrottleCircuitOpen => fresh /\ after = 0 /\
        F64.gtb score (ThrottlerConfig.CircuitOpenScore config) = true
    end.
Proof.
  intros Hmm. unfold Decision. destruct (ThrottlerConfig.Enabled config) eqn:He; cbn [negb].
  2: { exists w, ThrottleAllow, 0. split; [reflexivity|]. split; [done|]. split; [done|]. by intros [? _]. }
  cbn [run trace bind call]. destruct (exec Now w) as [w' now] eqn:E. pose proof (law_now _ _ _ E) as [D Hnow].
  destruct (Z.ltb_spec (wrap64 (2 * ThrottlerConfig.MetricsUpdateInterval config))
    (Time.Sub now (lastUpdated m * Time.Second))) as [Hst|Hfr].
  { exists w', ThrottleAllow, 0. split; [reflexivity|]. split; [done|]. split; [done|].
    intros (_ & now' & [= <-] & Hle). lia. }
  destruct (F64.gtb _ (ThrottlerConfig.CircuitOpenScore config)) eqn:Hc; cbn [run].
  { exists w', ThrottleCircuitOpen, 0. split_and!; eauto. }
  destruct (F64.gtb _ (ThrottlerConfig.RateLimitScore config)) eqn:Hr; cbn [run].
  - eexists w', ThrottleRateLimit, _. split; [reflexivity|]. split; [done|].
    split; [eauto|]. split; [done|]. split; [done|]. by apply retry_after_bounds.
  - exists w', ThrottleAllow, 0. done.
Qed.

(** C22: [Decision] fails open and refuses only on evidence.  It never panics
    and changes nothing.  A disabled throttler allows; metrics older than twice
    the update interval by the one reading of the clock that the run makes (so
    also metrics that were never fetched) allow; a
    request is refused only on fresh metrics whose overload score exceeds a
    threshold: the circuit threshold for an open circuit, the rate-limit
    threshold for a rate limit, which comes with a delay within the configured
    bounds. *)
Theorem Decision_fail_open m w :
  ThrottlerConfig.MinRetryAfter config <= ThrottlerConfig.MaxRetryAfter config ->
  exists w' d after, run (Decision oob config m) w = (w', Val (d, after)) /\ db w' = db w /\
    let score := overload config (streamDepth m) (wrap64 (oldestMessageAge m * Time.Second)) in
    let fresh := ThrottlerConfig.Enabled config = true /\ exists now,
      clocks (trace (Decision oob config m) w) = [now] /\
      Time.Sub now (lastUpdated m * Time.Second) <= wrap64 (2 * ThrottlerConfig.MetricsUpdateInterval config) in
    match d with
    | ThrottleAllow => after = 0 /\ (fresh ->
        F64.gtb score (ThrottlerConfig.CircuitOpenScore config) = false /\
        F64.gtb score (ThrottlerConfig.RateLimitScore config) = false)
    | ThrottleRateLimit => fresh /\ F64.gtb score (ThrottlerConfig.CircuitOpenScore config) = false /\
        F64.gtb score (ThrottlerConfig.RateLimitScore config) = true /\
        ThrottlerConfig.MinRetryAfter config <= after <= ThrottlerConfig.MaxRetryAfter config
    | ThrottleCircuitOpen => fresh /\ after = 0 /\
        F64.gtb score (ThrottlerConfig.CircuitOpenScore config) = true
    end.
Proof. apply run_Decision. Qed.

(** The pending metrics [p] and [a] are what [GetPendingInfo] reported, or zero
    without a consumer and when [XPENDING] failed. *)
Definition pending_fetched (l : list event) (d : Db) (p a : Z) : Prop :=
  (p = 0 /\ a = 0 /\ (consumer = None \/ failed_xpending l)) \/
  exists (c : Consumer) (w1 w2 : W), consumer = Some c /\ db w1 = d /\ p = Z.of_nat (size (pending c d)) /\
    run (Consume.GetPendingInfo c) w1 = (w2, Val (p, a, None)).

Lemma run_fetch w :
  queue_depth queue (db w) <= max_int64 ->
  exists w' r, run (fetch queue consumer) w = (w', Val r) /\ db w' = db w /\
    match r with
    | None => failed_xlen (trace (fetch queue consumer) w)
    | Some (depth, p, a) => depth = queue_depth queue (db w) /\
        pending_fetched (trace (fetch queue consumer) w) (db w) p a
    end.
Proof.
  intros Hb. unfold fetch. rewrite trace_bind, run_bind.
  destruct (run_StreamLength queue w Hb) as (w1 & r & -> & D1 & Hlen).
  destruct r as [depth|e].
  2: { cbn [run trace]. eexists _, _. split; [reflexivity|]. split; [done|]. by rewrite app_nil_r. }
  rewrite trace_bind, run_bind. unfold getPendingMetrics. destruct consumer as [c|] eqn:Hc.
  - destruct (run_GetPendingInfo c w1) as (w2 & n & age & err & Hrun & D2 & _ & Hn & Hf). rewrite Hrun.
    destruct err as [e|]; cbn [run]; eexists _, _; (split; [reflexivity|]; split; [congruence|]; split; [done|]).
    + left. split; [done|]. split; [done|]. right. eapply failed_xpending_mono; [|by apply Hf].
      intros x. rewrite !elem_of_app. tauto.
    + right. exists c, w1, w2. rewrite Hc. split; [done|]. split; [done|]. split; [|done]. rewrite <-D1. by apply Hn.
  - cbn [run]. eexists _, _. split; [reflexivity|]. split; [done|]. split; [done|]. left. auto.
Qed.

Lemma run_updateMetrics m w :
  queue_depth queue (db w) <= max_int64 ->
  exists w' m', run (updateMetrics queue consumer m) w = (w', Val m') /\ db w' = db w /\
    let l := trace (updateMetrics queue consumer m) w in
    ((m' = m /\ failed_xlen l) \/
     (streamDepth m' = queue_depth queue (db w) /\
      (exists now, last (clocks l) = Some now /\ lastUpdated m' = now / Time.Second) /\
      pending_fetched l (db w) (pendingCount m') (oldestMessageAge m'))).
Proof.
  intros Hb. unfold updateMetrics. rewrite trace_bind, run_bind.
  destruct (run_fetch w Hb) as (w1 & r & -> & D1 & Hr).
  destruct r as [[[depth p] a]|]; cbn [run trace bind call].
  - destruct (exec Now w1) as [w2 now] eqn:E. pose proof (law_now _ _ _ E) as [D2 _]. cbn [run trace].
    destruct Hr as [-> Hp]. eexists _, _. split; [reflexivity|]. split; [congruence|]. right. split; [done|].
    split; [exists now; split; [|done]; by rewrite clocks_snoc, last_snoc|].
    destruct Hp as [(? & ? & [?|Hf])|Hp]; [left; auto| |by right].
    left. split; [done|]. split; [done|]. right. eapply failed_xpending_mono; [|done]. set_solver.
  - eexists _, _. split; [reflexivity|]. split; [done|]. left. split; [done|]. by rewrite app_nil_r.
Qed.

(** C24: a metrics update is all or nothing in what it fetches.  Nothing is stored
    only when an [XLEN] failed, so that the metrics go stale and [Decision] starts
    to allow everything; otherwise the depth stored is the number of entries of all
    partitions, the stamp is the second of the last clock reading, and the pending
    count and age are those [GetPendingInfo] reports, zero only without a consumer
    or when [XPENDING] failed. *)
Theorem updateMetrics_correct m w :
  queue_depth queue (db w) <= max_int64 ->
  exists w' m', run (updateMetrics queue consumer m) w = (w', Val m') /\ db w' = db w /\
    let l := trace (updateMetrics queue consumer m) w in
    ((m' = m /\ failed_xlen l) \/
     (streamDepth m' = queue_depth queue (db w) /\
      (exists now, last (clocks l) = Some now /\ lastUpdated m' = now / Time.Second) /\
      pending_fetched l (db w) (pendingCount m') (oldestMessageAge m'))).
Proof. apply run_updateMetrics. Qed.

Lemma depth_from_entries i n d d' :
  (forall s, entries (get_stream d' s) = entries (get_stream d s)) ->
  depth_from queue d' i n = depth_from queue d i n.
Proof.
  intros He. revert i. induction n as [|n IH]; intros i; [done|]. cbn [depth_from]. by rewrite He, IH.
Qed.

(** C38: the depth the throttler acts on does not go down when jobs are done.
    The metrics update that follows an acknowledgement, successful or not, stores
    the depth there was before it (or nothing, when an [XLEN] fails):
    only trimming by new events lowers it.  So the circuit that opens on a depth
    does not close because the workers catch up. *)
Theorem depth_ignores_acks c id m w :
  queue_depth queue (db w) <= max_int64 ->
  exists w1 r w2 m', run (Consume.Ack c id) w = (w1, Val r) /\
    run (updateMetrics queue consumer m) w1 = (w2, Val m') /\
    ((m' = m /\ failed_xlen (trace (updateMetrics queue consumer m) w1)) \/
     streamDepth m' = queue_depth queue (db w)).
Proof.
  intros Hb. destruct (run_Ack c id w) as (w1 & r & -> & Hd & _).
  assert (queue_depth queue (db w1) = queue_depth queue (db w)) as Heq.
  { apply depth_from_entries. intros s. destruct Hd as [->| ->]; [done|apply entries_xack]. }
  destruct (run_updateMetrics m w1) as (w2 & m' & Hu & _ & Hm); [by rewrite Heq|].
  exists w1, r, w2, m'. split; [done|]. split; [done|]. rewrite Heq in Hm. naive_solver.
Qed.

End ThrottlerTheorems.
