(* ===== verification/ThrottlerLoop.v ===== *)
(** * The background updater of the throttler: [adpative_throttler.go]

    [NewThrottler], [Start], [Stop] and the goroutine [metricsUpdater] as a step
    relation.  The goroutine fetches the metrics call by call and then stores
    the four atomics one by one, while requests read them; [Stop] cancels the
    context and waits for the goroutine. *)
From S2P Require Import Prelude GoStd GoFloat Config World Trace Queue Dlq Consumer Throttler.
Import Errors.

(** Where the goroutine is: not started, fetching, before each of its stores
    (with the values still to store), reading the clock for the last of them,
    in its [select], or returned. *)
Inductive updater :=
| UNone
| UFetch (p : prog (option (Z * Z * Z)))
| UDepth (depth pending age : Z)
| UPending (pending age : Z)
| UAge (age : Z)
| UStamp (p : prog Z)
| UWait
| UDone.

(** [stopOnce]: not called, in [wg.Wait()], or returned. *)
Inductive stopping := SRunning | SWaiting | SStopped.

(** The throttler and the world.  [t_started] is [t.cancel != nil]; [t_done] says
    that [t.ctx] is done.  The last two fields are the history: what was fetched
    and the values stored in [lastUpdated], the initial zeros first. *)
Record tstate (W : Type) := mkT {
  t_world : W;
  t_metrics : ThrottlerMetrics;
  t_updater : updater;
  t_started : bool;
  t_done : bool;
  t_stop : stopping;
  t_fetched : list (Z * Z * Z);
  t_stamps : list Z;
}.
Arguments mkT {W}.
Arguments t_world {W}.
Arguments t_metrics {W}.
Arguments t_updater {W}.
Arguments t_started {W}.
Arguments t_done {W}.
Arguments t_stop {W}.
Arguments t_fetched {W}.
Arguments t_stamps {W}.

(** The stores of the four atomics. *)
Definition set_streamDepth (v : Z) (m : ThrottlerMetrics) : ThrottlerMetrics :=
  mkMetrics v (pendingCount m) (oldestMessageAge m) (lastUpdated m).

Definition set_pendingCount (v : Z) (m : ThrottlerMetrics) : ThrottlerMetrics :=
  mkMetrics (streamDepth m) v (oldestMessageAge m) (lastUpdated m).

Definition set_oldestMessageAge (v : Z) (m : ThrottlerMetrics) : ThrottlerMetrics :=
  mkMetrics (streamDepth m) (pendingCount m) v (lastUpdated m).

Definition set_lastUpdated (v : Z) (m : ThrottlerMetrics) : ThrottlerMetrics :=
  mkMetrics (streamDepth m) (pendingCount m) (oldestMessageAge m) v.

Section Loop.
Context {W : Type} `{World W}.
Context (config : ThrottlerConfig.t) (queue : QueueConfig.t) (consumer : option Consumer).

Definition NewThrottler (w : W) : tstate W :=
  mkT w zero_metrics UNone false false SRunning [(0, 0, 0)] [0].

(** [Start]; [SetupThrottler] calls it once, before anything else has the
    throttler. *)
Definition Start (t : tstate W) : tstate W :=
  if negb (ThrottlerConfig.Enabled config) then t
  else mkT (t_world t) (t_metrics t) (UFetch (Throttler.fetch queue consumer)) true (t_done t) (t_stop t)
         (t_fetched t) (t_stamps t).

(** [Stop] up to its wait. *)
Definition Stop_begin (t : tstate W) : tstate W :=
  mkT (t_world t) (t_metrics t) (t_updater t) (t_started t) (t_done t || t_started t) SWaiting
    (t_fetched t) (t_stamps t).

(** The wait group counts the goroutine. *)
Definition wg_zero (u : updater) : bool := match u with UNone | UDone => true | _ => false end.

(** The goroutine by itself: the fetch, the stores in order, and the exit of
    [metricsUpdater] once its context is done. *)
Inductive ustep : tstate W -> tstate W -> Prop :=
(** [updateMetrics]: the fetch *)
| t_fetch w w' m p p' sd dn st fs ss : step p w = Some (w', p') ->
    ustep (mkT w m (UFetch p) sd dn st fs ss) (mkT w' m (UFetch p') sd dn st fs ss)
| t_fetch_failed w m sd dn st fs ss :
    ustep (mkT w m (UFetch (Return None)) sd dn st fs ss) (mkT w m UWait sd dn st fs ss)
| t_fetch_done w m d p a sd dn st fs ss :
    ustep (mkT w m (UFetch (Return (Some (d, p, a)))) sd dn st fs ss)
          (mkT w m (UDepth d p a) sd dn st (fs ++ [(d, p, a)]) ss)
(** the stores, in order *)
| t_store_depth w m d p a sd dn st fs ss :
    ustep (mkT w m (UDepth d p a) sd dn st fs ss) (mkT w (set_streamDepth d m) (UPending p a) sd dn st fs ss)
| t_store_pending w m p a sd dn st fs ss :
    ustep (mkT w m (UPending p a) sd dn st fs ss) (mkT w (set_pendingCount p m) (UAge a) sd dn st fs ss)
| t_store_age w m a sd dn st fs ss :
    ustep (mkT w m (UAge a) sd dn st fs ss)
          (mkT w (set_oldestMessageAge a m) (UStamp (call Now)) sd dn st fs ss)
| t_clock w w' m p p' sd dn st fs ss : step p w = Some (w', p') ->
    ustep (mkT w m (UStamp p) sd dn st fs ss) (mkT w' m (UStamp p') sd dn st fs ss)
| t_store_stamp w m now sd dn st fs ss :
    ustep (mkT w m (UStamp (Return now)) sd dn st fs ss)
          (mkT w (set_lastUpdated (now / Time.Second) m) UWait sd dn st fs (ss ++ [now / Time.Second]))
(** the [select] of [metricsUpdater] *)
| t_exit w m sd st fs ss :
    ustep (mkT w m UWait sd true st fs ss) (mkT w m UDone sd true st fs ss).

(** A step of the throttler and of what surrounds it. *)
Inductive tstep : tstate W -> tstate W -> Prop :=
(** everything else in the world *)
| t_other w w' m u sd dn st fs ss :
    tstep (mkT w m u sd dn st fs ss) (mkT w' m u sd dn st fs ss)
(** the parent context is cancelled *)
| t_parent w m u dn st fs ss :
    tstep (mkT w m u true dn st fs ss) (mkT w m u true true st fs ss)
(** [Stop] *)
| t_stop_begin t : t_stop t = SRunning -> tstep t (Stop_begin t)
| t_stop_end w m u sd dn fs ss : wg_zero u = true ->
    tstep (mkT w m u sd dn SWaiting fs ss) (mkT w m u sd dn SStopped fs ss)
(** the goroutine *)
| t_updater_step t t' : ustep t t' -> tstep t t'
(** the ticker of the goroutine *)
| t_tick w m sd dn st fs ss :
    tstep (mkT w m UWait sd dn st fs ss) (mkT w m (UFetch (Throttler.fetch queue consumer)) sd dn st fs ss).

Definition treachable (t : tstate W) : Prop := exists w, rtc tstep (Start (NewThrottler w)) t.

(** The measurement that the time stamp belongs to. *)
Definition stamped (t : tstate W) : nat := pred (length (t_stamps t)).

(** The cells hold measurements number [d], [p] and [a]. *)
Definition cells (fs : list (Z * Z * Z)) (m : ThrottlerMetrics) (d p a : nat) : Prop :=
  exists x y z, fs !! d = Some x /\ fs !! p = Some y /\ fs !! a = Some z /\
    streamDepth m = x.1.1 /\ pendingCount m = y.1.2 /\ oldestMessageAge m = z.2.

(** What they hold while measurement number [n] is the one stamped: that one, or
    the next one in the cells already stored in the update that is going on. *)
Definition layout (u : updater) (fs : list (Z * Z * Z)) (m : ThrottlerMetrics) (n : nat) : Prop :=
  match u with
  | UDepth d p a => fs !! S n = Some (d, p, a) /\ length fs = S (S n) /\ cells fs m n n n
  | UPending p a => (exists d, fs !! S n = Some (d, p, a)) /\ length fs = S (S n) /\ cells fs m (S n) n n
  | UAge a => (exists d p, fs !! S n = Some (d, p, a)) /\ length fs = S (S n) /\ cells fs m (S n) (S n) n
  | UStamp _ => length fs = S (S n) /\ cells fs m (S n) (S n) (S n)
  | _ => length fs = S n /\ cells fs m n n n
  end.

Record tinv (t : tstate W) : Prop := {
  ti_stamps : (0 < length (t_stamps t))%nat;
  ti_last : t_stamps t !! stamped t = Some (lastUpdated (t_metrics t));
  ti_cells : layout (t_updater t) (t_fetched t) (t_metrics t) (stamped t);
}.

(** The control part: [Stop] is not over while the goroutine runs, and the
    goroutine can always go on. *)
Record tctl (t : tstate W) : Prop := {
  ti_stop : t_stop t <> SRunning -> t_done t = true \/ t_updater t = UNone;
  ti_stopped : t_stop t = SStopped -> wg_zero (t_updater t) = true;
  ti_idle : t_started t = false -> t_updater t = UNone;
  ti_total : match t_updater t with UFetch p => total p | UStamp p => total p | _ => True end;
}.

Lemma total_fetch : total (Throttler.fetch queue consumer).
Proof.
  apply total_bind.
  - unfold Producer.StreamLength. generalize 0 at 2. generalize 0.
    induction (Z.to_nat (QueueConfig.PartitionCount queue)) as [|n IH]; intros i t; simpl; [done|].
    intros []; [apply IH|done].
  - intros [depth|e]; [|done]. apply total_bind; [|intros [[p a] [e|]]; done].
    unfold Throttler.getPendingMetrics. destruct consumer as [c|]; [|done]. unfold Consume.GetPendingInfo.
    cbn [total bind call]. intros []; repeat case_match; cbn [total bind call]; try done; intros; repeat case_match; done.
Qed.

Lemma cells_app fs m x d p a : cells fs m d p a -> cells (fs ++ [x]) m d p a.
Proof.
  intros (x1 & x2 & x3 & H1 & H2 & H3 & ?). exists x1, x2, x3.
  by repeat (split; [by apply lookup_app_l_Some|]).
Qed.

Lemma tstep_inv t t' : tstep t t' -> tinv t -> tinv t'.
Proof.
  intros Hs; destruct Hs as [| | | |? ? Hs|]; [..|destruct Hs|]; intros [Hs Hl Hc]; constructor; unfold stamped in *;
    cbn [Stop_begin t_metrics t_updater t_fetched t_stamps layout] in *; try assumption.
  - destruct Hc as [Hlen Hc]. split; [by rewrite lookup_app_r, Hlen, Nat.sub_diag by lia|].
    split; [rewrite length_app; simpl; lia|by apply cells_app].
  - destruct Hc as (Hf & Hlen & x & y & z & ? & ? & ? & ? & ? & ?). split; [eauto|]. split; [done|].
    by exists (d, p, a), y, z.
  - destruct Hc as ([d Hf] & Hlen & x & y & z & ? & ? & ? & ? & ? & ?). split; [eauto|]. split; [done|].
    by exists x, (d, p, a), z.
  - destruct Hc as ((d & p & Hf) & Hlen & x & y & z & ? & ? & ? & ? & ? & ?). split; [done|].
    by exists x, y, (d, p, a).
  - rewrite length_app. simpl. lia.
  - rewrite length_app. simpl. by rewrite lookup_app_r, Nat.add_comm, Nat.sub_diag by lia.
  - rewrite length_app. simpl. rewrite Nat.add_comm. simpl. destruct Hc as [Hlen Hc].
    rewrite Nat.succ_pred_pos in * by lia. done.
Qed.

Lemma tstep_ctl t t' : tstep t t' -> tctl t -> tctl t'.
Proof.
  intros Hs; destruct Hs as [| | | |? ? Hs|]; [..|destruct Hs|]; intros [Hst Hsd Hi Ht]; constructor;
    cbn [Stop_begin t_started t_done t_stop t_updater] in *; try assumption; try done; try apply total_fetch.
  all: try (intros Hn; destruct (Hst Hn) as [?|?]; [by left|discriminate]).
  all: try (intros Hn; specialize (Hsd Hn); discriminate).
  all: try (intros Hn; specialize (Hi Hn); discriminate).
  all: try (by eapply total_step).
  - by left.
  - intros _. destruct (t_started t) eqn:E; [left; by rewrite orb_true_r|right; by apply Hi].
  - intros _. by apply Hst.
Qed.

Lemma treachable_inv t : treachable t -> tinv t /\ tctl t.
Proof.
  intros [w Hr]. assert (tinv (Start (NewThrottler w)) /\ tctl (Start (NewThrottler w))) as H0'.
  { unfold Start. pose proof total_fetch as Ht.
    destruct (ThrottlerConfig.Enabled config); (split; constructor; simpl; try done; try lia);
      (split; [done|]; by exists (0, 0, 0), (0, 0, 0), (0, 0, 0)). }
  induction Hr as [|t1 t2 t3 Hs _ IH]; [done|]. apply IH. destruct H0'.
  split; [by eapply tstep_inv|by eapply tstep_ctl].
Qed.

Lemma treachable_trans t t' : treachable t -> rtc tstep t t' -> treachable t'.
Proof. intros [w Hw] Hr. exists w. by etrans. Qed.

(** The history only grows. *)
Lemma tstep_grows t t' : tstep t t' -> t_fetched t `prefix_of` t_fetched t' /\ t_stamps t `prefix_of` t_stamps t'.
Proof. intros Hs; destruct Hs as [| | | |? ? Hs|]; [..|destruct Hs|]; cbn [Stop_begin t_fetched t_stamps]; split; try done; by apply prefix_app_r. Qed.

Lemma rtc_grows t t' : rtc tstep t t' ->
  t_fetched t `prefix_of` t_fetched t' /\ (stamped t <= stamped t')%nat.
Proof.
  induction 1 as [|t1 t2 t3 Hs _ [IH1 IH2]]; [split; [done|lia]|]. apply tstep_grows in Hs as [Hf Hp].
  split; [by etrans|]. apply prefix_length in Hp. unfold stamped in *. lia.
Qed.

(** A cell read now holds a measurement at least as recent as the one stamped. *)
Lemma cell_recent t : tinv t -> exists i j k x y z,
  ((stamped t <= i)%nat /\ t_fetched t !! i = Some x /\ streamDepth (t_metrics t) = x.1.1) /\
  ((stamped t <= j)%nat /\ t_fetched t !! j = Some y /\ pendingCount (t_metrics t) = y.1.2) /\
  ((stamped t <= k)%nat /\ t_fetched t !! k = Some z /\ oldestMessageAge (t_metrics t) = z.2).
Proof.
  intros [_ _ Hc]. assert (exists i j k, (stamped t <= i)%nat /\ (stamped t <= j)%nat /\ (stamped t <= k)%nat /\
    cells (t_fetched t) (t_metrics t) i j k) as (i & j & k & ? & ? & ? & x & y & z & ?).
  { unfold layout in Hc. destruct (t_updater t); destruct_and?;
      match goal with Hcells : cells _ _ _ _ _ |- _ => eexists _, _, _; repeat split; [..|exact Hcells]; lia end. }
  exists i, j, k, x, y, z. naive_solver.
Qed.

(** C34: a request never decides on metrics older than their time stamp.  The
    updater stores the stamp last and [Decision] loads it first: whatever the
    interleaving, when a request loads [lastUpdated] in a state [t1], then the
    depth, the age and the pending count in later states, each of the three values
    belongs to a measurement at least as recent as the one the stamp was taken
    for (they need not belong to the same one), and that stamp was the last one
    taken, after its measurement was fetched. *)
Theorem reads_not_older_than_stamp t1 t2 t3 t4 :
  treachable t1 -> rtc tstep t1 t2 -> rtc tstep t2 t3 -> rtc tstep t3 t4 ->
  t_stamps t1 !! stamped t1 = Some (lastUpdated (t_metrics t1)) /\
  (stamped t1 < length (t_fetched t1))%nat /\
  exists i j k x y z,
    ((stamped t1 <= i)%nat /\ t_fetched t4 !! i = Some x /\ streamDepth (t_metrics t2) = x.1.1) /\
    ((stamped t1 <= j)%nat /\ t_fetched t4 !! j = Some y /\ oldestMessageAge (t_metrics t3) = y.2) /\
    ((stamped t1 <= k)%nat /\ t_fetched t4 !! k = Some z /\ pendingCount (t_metrics t4) = z.1.2).
Proof.
  intros Hr1 H12 H23 H34. pose proof (treachable_trans _ _ Hr1 H12) as Hr2.
  pose proof (treachable_trans _ _ Hr2 H23) as Hr3. pose proof (treachable_trans _ _ Hr3 H34) as Hr4.
  destruct (treachable_inv _ Hr1) as [Hi1 _], (treachable_inv _ Hr2) as [Hi2 _],
    (treachable_inv _ Hr3) as [Hi3 _], (treachable_inv _ Hr4) as [Hi4 _].
  destruct (rtc_grows _ _ H12) as [P12 S12], (rtc_grows _ _ H23) as [P23 S23], (rtc_grows _ _ H34) as [P34 S34].
  split; [apply Hi1|]. destruct (cell_recent _ Hi1) as (i1 & _ & _ & x1 & _ & _ & (Hle1 & Hx1 & _) & _).
  split; [apply lookup_lt_Some in Hx1; lia|].
  destruct (cell_recent _ Hi2) as (i & _ & _ & x & _ & _ & (Hi & Hx & Hd) & _).
  destruct (cell_recent _ Hi3) as (_ & _ & j & _ & _ & y & _ & _ & (Hj & Hy & Ha)).
  destruct (cell_recent _ Hi4) as (_ & k & _ & _ & z & _ & _ & (Hk & Hz & Hp) & _).
  exists i, j, k, x, y, z. split; [|split]; (split; [lia|split; [|done]]).
  - do 2 (eapply prefix_lookup_Some; [|done]). done.
  - eapply prefix_lookup_Some; done.
  - done.
Qed.

Lemma tstep_stopped t t' : tstep t t' -> tctl t -> t_stop t = SStopped ->
  t_stop t' = SStopped /\ t_metrics t' = t_metrics t /\ t_updater t' = t_updater t.
Proof.
  intros Hs; destruct Hs as [| | | |? ? Hs|]; [..|destruct Hs|]; intros [_ Hsd _ _] Heq; cbn [Stop_begin t_stop t_metrics t_updater wg_zero] in *;
    try (specialize (Hsd Heq); discriminate); try done. congruence.
Qed.

(** C35: after [Stop] has returned the throttler is silent: the updater has
    returned (or was never started), no later step of anything changes the
    metrics, and none of the updater's calls reaches Redis, which the process may
    by then have disconnected from. *)
Theorem Stop_quiesces t t' :
  treachable t -> t_stop t = SStopped -> rtc tstep t t' ->
  t_metrics t' = t_metrics t /\ t_updater t' = t_updater t /\ wg_zero (t_updater t') = true.
Proof.
  intros Hr Hst Hs. assert (t_stop t' = SStopped /\ t_metrics t' = t_metrics t /\ t_updater t' = t_updater t) as (H1 & H2 & H3).
  { revert Hr Hst. induction Hs as [|t1 t2 t3 H12 _ IH]; [done|]. intros Hr Hst.
    destruct (tstep_stopped _ _ H12 (proj2 (treachable_inv _ Hr)) Hst) as (E1 & E2 & E3).
    rewrite <-E2, <-E3. apply IH; [|done]. eapply treachable_trans; [done|by apply rtc_once]. }
  split; [done|]. split; [done|]. by apply (treachable_inv t'); [eapply treachable_trans|].
Qed.

(** The goroutine gets to its [select] by itself. *)
Definition to_select (t : tstate W) : Prop :=
  exists t', rtc ustep t t' /\ t_updater t' = UWait /\ t_stop t' = t_stop t /\ t_done t' = t_done t.

Lemma to_select_l t t1 : ustep t t1 -> t_stop t1 = t_stop t -> t_done t1 = t_done t -> to_select t1 -> to_select t.
Proof.
  intros Hs E1 E2 (t' & Hr & ? & ? & ?). exists t'. split; [by eapply rtc_l|]. split; [done|]. split; congruence.
Qed.

Lemma select_wait w m sd dn st fs ss : to_select (mkT w m UWait sd dn st fs ss).
Proof. by eexists. Qed.

Lemma select_stamp p w m sd dn st fs ss : total p -> to_select (mkT w m (UStamp p) sd dn st fs ss).
Proof.
  revert w. induction p as [r|B c k IH|e|]; intros w Ht; [| |done|done].
  - eapply to_select_l; [apply t_store_stamp|done|done|apply select_wait].
  - destruct (exec c w) as [w1 b] eqn:E.
    eapply to_select_l; [eapply t_clock; simpl; by rewrite E|done|done|apply IH, Ht].
Qed.

Lemma select_store d p a w m sd dn st fs ss : to_select (mkT w m (UDepth d p a) sd dn st fs ss) /\
  to_select (mkT w m (UPending p a) sd dn st fs ss) /\ to_select (mkT w m (UAge a) sd dn st fs ss).
Proof.
  assert (forall m, to_select (mkT w m (UAge a) sd dn st fs ss)) as Ha.
  { intros m'. eapply to_select_l; [apply t_store_age|done|done|by apply select_stamp]. }
  assert (forall m, to_select (mkT w m (UPending p a) sd dn st fs ss)) as Hp.
  { intros m'. eapply to_select_l; [apply t_store_pending|done|done|apply Ha]. }
  split; [|auto]. eapply to_select_l; [apply t_store_depth|done|done|apply Hp].
Qed.

Lemma select_fetch p w m sd dn st fs ss : total p -> to_select (mkT w m (UFetch p) sd dn st fs ss).
Proof.
  revert w. induction p as [[[[d q] a]|]|B c k IH|e|]; intros w Ht; [| | |done|done].
  - eapply to_select_l; [apply t_fetch_done|done|done|apply select_store].
  - eapply to_select_l; [apply t_fetch_failed|done|done|apply select_wait].
  - destruct (exec c w) as [w1 b] eqn:E.
    eapply to_select_l; [eapply t_fetch; simpl; by rewrite E|done|done|apply IH, Ht].
Qed.

Lemma reach_select t : tctl t -> wg_zero (t_updater t) = false -> to_select t.
Proof.
  destruct t as [w m u sd dn st fs ss]. intros [_ _ _ Ht]. cbn [t_updater] in *.
  destruct u as [|p|d p a|p a|a|p| |]; intros Hz; try discriminate Hz;
    auto using select_fetch, select_stamp, select_wait; [..|]; by eapply select_store.
  Unshelve. all: exact 0.
Qed.

Lemma ustep_deterministic t t1 t2 : ustep t t1 -> ustep t t2 -> t1 = t2.
Proof. destruct 1; inversion 1; subst; try done; simpl in *; congruence. Qed.

(** C36: [Stop] is never stuck.  Whatever the updater is doing when [Stop] waits
    for it, and whatever Redis answers to the calls it still makes, finitely many
    steps of the updater alone, without a tick, a cancellation from outside or a
    step of anything else, bring it to its [select], where it finds its context
    done, and to its end; and then the wait of [Stop] can end.  Nothing else is open
    to the updater on the way: its steps are determined. *)
Theorem Stop_returns t :
  treachable t -> t_stop t = SWaiting ->
  (exists t1 t2, rtc ustep t t1 /\ wg_zero (t_updater t1) = true /\ tstep t1 t2 /\ t_stop t2 = SStopped) /\
  (forall t1 t2, ustep t t1 -> ustep t t2 -> t1 = t2).
Proof.
  intros [_ Hc]%treachable_inv Est. split; [|apply ustep_deterministic].
  destruct (wg_zero (t_updater t)) eqn:Ez.
  - destruct t as [w m u sd dn st fs ss]. cbn [t_stop t_updater] in *. subst st.
    eexists _, _. split; [done|]. split; [done|]. split; [by apply t_stop_end|done].
  - destruct (reach_select t Hc Ez) as ([w m u sd dn st fs ss] & Hr & Hu & Hst & Hdn).
    cbn [t_stop t_updater t_done] in *. subst u. rewrite Est in Hst. subst st.
    destruct (ti_stop t Hc) as [Hd|Hd]; [congruence| |rewrite Hd in Ez; discriminate]. rewrite Hd in Hdn. subst dn.
    eexists _, _. split; [etrans; [exact Hr|]; apply rtc_once, t_exit|]. split; [done|].
    split; [by apply t_stop_end|done].
Qed.

End Loop.
