(* ===== verification/Ingestion.v ===== *)
(** * The ingestion service: [internal/ingestion] (service, handler, response,
      middleware, router)

    A request is a method, a path and a body; a response is a status, headers
    and a body.  The handlers run with the JSON codec of [Json.v]. *)
From S2P Require Import Prelude Utf8 GoStd GoFloat GoTime Config Validator World Queue JsonSyntax Json Throttler.
Import Errors.

(** ** service.go *)
Section Service.
Context (config : QueueConfig.t) (throttler : ThrottlerInterface).

(** [validateLogEvent]; [None] is a nil event. *)
Definition validateLogEvent (logEvent : option LogEvent) : option error :=
  match logEvent with
  | None => Some (ErrorString "log event is nil")
  | Some ev =>
      if bool_decide (Level ev = "") then Some (ErrorString "log level is required")
      else if bool_decide (Message ev = "") then Some (ErrorString "log message is required")
      else None
  end.

(** [IngestLog]: throttle, validate, enqueue. *)
Definition IngestLog (logEvent : LogEvent) : prog (res error string) :=
  d <- throttler ;;
  let '(decision, retryAfter) := d in
  match decision with
  | ThrottleCircuitOpen => Return (Err ErrCircuitOpen)
  | ThrottleRateLimit => Return (Err (ErrRateLimited retryAfter))
  | ThrottleAllow =>
      match validateLogEvent (Some logEvent) with
      | Some _ => Return (Err ErrValidationFailed)
      | None =>
          r <- Producer.Enqueue config logEvent ;;
          match r with
          | Err err => Return (Err (Wrapf "enqueue failed" err))
          | Ok messageID => Return (Ok messageID)
          end
      end
  end.

End Service.

(** ** response.go *)

Record Response := mkResponse { r_status : Z; r_headers : list (string * string); r_body : string }.

Definition header (name : string) (r : Response) : option string :=
  snd <$> head (filter (fun h => h.1 = name) (r_headers r)).

(** [json.Encoder.Encode] writes the value and a newline. *)
Definition encode_line (v : jv) : string := print v (String "010" "").

(** [respondJSON] with the headers set before. *)
Definition respondJSON (headers : list (string * string)) (status : Z) (data : jv) : Response :=
  let headers' := match filter (fun h => h.1 = "Content-Type") headers with
                  | [] => headers ++ [("Content-Type", "application/json")]
                  | _ => headers
                  end in
  mkResponse status headers' (encode_line data).

(** [ErrorResponse] and [IngestResponse]. *)
Definition error_json (message : string) : jv := VObj [("error", VStr (escape message))].

Definition ingest_json (accepted : bool) (id : string) : jv :=
  VObj (("accepted", VBool accepted) :: (if bool_decide (id = "") then [] else [("id", VStr (escape id))])).

Definition respondError (headers : list (string * string)) (status : Z) (message : string) : Response :=
  respondJSON headers status (error_json message).

(** ** net/http as the services set it up *)

(** A pattern given to [mux.HandleFunc], and its handler. *)
Record Route := mkRoute { rt_method : string; rt_path : string; rt_handler : string -> prog Response }.

(** [GET] patterns also serve [HEAD]. *)
Definition serves (rt : Route) (method : string) : bool :=
  bool_decide (method = rt_method rt) || (bool_decide (rt_method rt = "GET") && bool_decide (method = "HEAD")).

Definition allowed (rt : Route) : string := if bool_decide (rt_method rt = "GET") then "GET, HEAD" else rt_method rt.

(** [http.ServeMux] for patterns with exact paths: the handler, a 405 when only
    the method differs, else a 404. *)
Definition mux (routes : list Route) (method path body : string) : prog Response :=
  match filter (fun rt => rt_path rt = path) routes with
  | [] => Return (mkResponse 404 [] "404 page not found")
  | at_path =>
      match filter (fun rt => serves rt method = true) at_path with
      | rt :: _ => rt_handler rt body
      | [] => Return (mkResponse 405 [("Allow", String.concat ", " (allowed <$> at_path))] "Method Not Allowed")
      end
  end.

(** [health.RegisterRoutes], for the handlers of [Health.v]. *)
Definition RegisterRoutes (live ready : prog Response) : list Route :=
  [mkRoute "GET" "/health/live" (fun _ => live); mkRoute "GET" "/health/ready" (fun _ => ready)].

(** [http.Server]: the fields the services set. *)
Record HttpServer (Handler : Type) := mkHttpServer {
  hs_Addr : string;
  hs_Handler : Handler;
  hs_ReadTimeout : Z;
  hs_WriteTimeout : Z;
  hs_IdleTimeout : Z;
}.
Arguments mkHttpServer {Handler}.
Arguments hs_Addr {Handler}.
Arguments hs_Handler {Handler}.
Arguments hs_ReadTimeout {Handler}.
Arguments hs_WriteTimeout {Handler}.
Arguments hs_IdleTimeout {Handler}.

(** [buildHTTPServer] *)
Definition buildHTTPServer {H} (cfg : Config.t) (handler : H) : HttpServer H :=
  mkHttpServer (ServerAddr cfg) handler (ServerConfig.ReadTimeout (Config.Server cfg))
    (ServerConfig.WriteTimeout (Config.Server cfg)) (ServerConfig.IdleTimeout (Config.Server cfg)).

(** [Server.Addr] *)
Definition Addr {H} (s : HttpServer H) : string := hs_Addr s.

(** How [ListenAndServe] ends: with [http.ErrServerClosed] after a shutdown, or
    with another error. *)
Inductive listen_end := ErrServerClosed | ListenFailed (err : error).

(** ** handler.go *)

(** [int(d.Seconds())] *)
Definition seconds_int (oob : float64 -> Z) (d : Z) : Z :=
  F64.to_int64 oob (F64.add (F64.of_Z (Z.quot d Time.Second))
                            (F64.div (F64.of_Z (Z.rem d Time.Second)) (F64.of_Z 1000000000))).

Section Handler.
Context (oob : float64 -> Z) (config : QueueConfig.t) (throttler : ThrottlerInterface).

(** [json.NewDecoder(body).Decode(&logEvent)]: the first value of the body;
    what follows it is not read. *)
Definition decode_body (body : string) : option LogEvent :=
  match parse_prefix body with
  | Some (v, _) => dec_event v zero_event
  | None => None
  end.

(** How an error of [IngestLog] is answered. *)
Definition error_response (err : error) : Response :=
  match AsRateLimited err with
  | Some d =>
      let s := Strconv.Itoa (seconds_int oob d) in
      respondError [("Retry-After", s)] 429 ("rate limited - retry after " +:+ s +:+ " seconds")
  | None =>
      if Is err ErrCircuitOpen then respondError [] 503 "system overloaded - try again later"
      else if Is err ErrValidationFailed then respondError [] 400 "invalid log event"
      else respondError [] 500 "failed to process log"
  end.

Definition HandleLogs (body : string) : prog Response :=
  match decode_body body with
  | None => Return (respondError [] 400 "invalid request body")
  | Some logEvent =>
      ev <- (if IsZero (Timestamp logEvent) then
               now <- call Now ;;
               Return (mkLogEvent (instant_of_ns now) (Level logEvent) (Service logEvent) (Message logEvent)
                         (Metadata logEvent) (TraceID logEvent))
             else Return logEvent) ;;
      r <- IngestLog config throttler ev ;;
      match r with
      | Err err => Return (error_response err)
      | Ok messageID => Return (respondJSON [] 202 (ingest_json true messageID))
      end
  end.

Definition HandleTestFailure : prog Response :=
  now <- call Now ;;
  let testLog := mkLogEvent (instant_of_ns now) "INFO" "test-service"
    "Hardcoded test log event from ingestion" (Some [("force_failure", JBool true)]) "trace-test-456" in
  r <- IngestLog config throttler testLog ;;
  match r with
  | Err _ => Return (respondError [] 500 "failed to ingest log")
  | Ok messageID => Return (respondJSON [] 202 (ingest_json true messageID))
  end.

(** ** router.go and middleware.go *)

(** The health handlers are those of [Health.v]. *)
Context (live ready : prog Response).

(** [NewRouter] before the middleware. *)
Definition serve : string -> string -> string -> prog Response :=
  mux (RegisterRoutes live ready ++
       [mkRoute "POST" "/api/v1/logs" HandleLogs;
        mkRoute "POST" "/api/v1/test/failure" (fun _ => HandleTestFailure)]).

(** What [loggingMiddleware] logs: method, path, captured status, bytes. *)
Record AccessLog := mkAccessLog { a_method : string; a_path : string; a_status : Z; a_bytes : Z }.

(** [responseWriter]: it starts at 200 and keeps the last code and the number of
    bytes written through it. *)
Record responseWriter := mkWriter { statusCode : Z; bytesWritten : Z }.

Definition WriteHeader (code : Z) (rw : responseWriter) : responseWriter := mkWriter code (bytesWritten rw).

Definition Write (b : string) (rw : responseWriter) : responseWriter :=
  mkWriter (statusCode rw) (wrap64 (bytesWritten rw + Z.of_nat (String.length b))).

Definition loggingMiddleware (next : string -> string -> string -> prog Response) (method path body : string)
    : prog (Response * AccessLog) :=
  call Now ;;;
  r <- next method path body ;;
  let rw := Write (r_body r) (WriteHeader (r_status r) (mkWriter 200 0)) in
  call Now ;;;
  Return (r, mkAccessLog method path (statusCode rw) (bytesWritten rw)).

End Handler.

(** ** What the ingestion service guarantees *)

(** The instants of a 64-bit clock have a text. *)
Lemma instant_of_ns_ok ns : is_int64 ns -> instant_ok (instant_of_ns ns) = true.
Proof.
  intros Hns. unfold instant_ok, instant_of_ns. cbn [t_nsec t_off t_sec].
  assert (0 <= ns mod Time.Second < Time.Second) as Hm by (apply Z.mod_pos_bound; done).
  rewrite (proj2 (Z.leb_le _ _)), (proj2 (Z.ltb_lt _ _)) by lia. simpl.
  rewrite bool_decide_eq_true_2; [done|]. unfold format_time. cbn [t_sec t_off]. rewrite Z.add_0_r.
  set (z := ns / Time.Second / 86400).
  assert (-106752 <= z <= 106751) as Hz.
  { unfold z, Time.Second, Time.Millisecond, Time.Microsecond, Time.Nanosecond.
    unfold is_int64, min_int64, max_int64 in Hns. Z.to_euclidean_division_equations. lia. }
  unfold civil_of_days.
  assert (4 <= (z + 719468) / 146097 <= 5) as Hera by (Z.to_euclidean_division_equations; lia).
  assert (0 <= (z + 719468) mod 146097 < 146097) as Hdoe by (apply Z.mod_pos_bound; lia).
  destruct (yoe_spec _ Hdoe) as [Hyoe _]. destruct (month_day _) as [mp d].
  rewrite (proj2 (Z.leb_le 0 _)), (proj2 (Z.leb_le _ 9999)) by (repeat case_match; lia). simpl. eauto.
Qed.

Section IngestionTheorems.
Context {W : Type} `{RedisLaws W}.
Context (oob : float64 -> Z) (config : QueueConfig.t) (throttler : ThrottlerInterface).
Hypothesis Hqueue : valid_queue config.
Hypothesis Hretries : is_int64 (QueueConfig.RedisMaxRetries config).

(** A throttler decides without touching the data. *)
Hypothesis Hthrottler : forall w : W, exists w' d after, run throttler w = (w', Val (d, after)) /\ db w' = db w.

(** The answer of [IngestLog], branch by branch. *)
Lemma run_IngestLog ev w : event_okb ev = true ->
  exists w' w1 r d after, run (IngestLog config throttler ev) w = (w', Val r) /\
    run throttler w = (w1, Val (d, after)) /\
    match d with
    | ThrottleCircuitOpen => r = Err ErrCircuitOpen /\ db w' = db w
    | ThrottleRateLimit => r = Err (ErrRateLimited after) /\ db w' = db w
    | ThrottleAllow =>
        if bool_decide (Level ev = "" \/ Message ev = "") then r = Err ErrValidationFailed /\ db w' = db w
        else match r with
             | Ok id => stored config ev (db w) (db w') (fun args => appended args id (db w'))
             | Err e => foreign e = true
             end
    end.
Proof.
  intros Hev. destruct (Hthrottler w) as (w1 & d & after & Ht & D1). unfold IngestLog.
  setoid_rewrite run_bind. setoid_rewrite Ht. destruct d; cbn [run].
  2,3: eexists _, w1, _, _, _; (split; [reflexivity|]; split; [reflexivity|]); done.
  unfold validateLogEvent. destruct (bool_decide (Level ev = "")) eqn:Hl.
  { cbn [run]. eexists _, w1, _, _, _. split; [reflexivity|]. split; [reflexivity|]. cbn iota beta.
    rewrite bool_decide_eq_true_2 by (left; by apply bool_decide_eq_true in Hl). done. }
  destruct (bool_decide (Message ev = "")) eqn:Hm.
  { cbn [run]. eexists _, w1, _, _, _. split; [reflexivity|]. split; [reflexivity|]. cbn iota beta.
    rewrite bool_decide_eq_true_2 by (right; by apply bool_decide_eq_true in Hm). done. }
  rewrite run_bind. assert (event_ok ev) as Hok by exact Hev.
  destruct (run_Enqueue config ev w1 Hqueue Hok Hretries) as (_ & w2 & r & -> & Hfor & Hst).
  apply bool_decide_eq_false in Hl, Hm.
  destruct r as [id|e]; cbn [run]; eexists _, w1, _, _, _; (split; [reflexivity|]; split; [reflexivity|]);
    cbn iota beta; rewrite (bool_decide_eq_false_2 (Level ev = "" \/ Message ev = "")) by tauto; [|exact (Hfor e eq_refl)].
  destruct Hst as (j & txt & Hj & Hu & HP & Hg). exists j, txt. rewrite <-D1. auto.
Qed.

(** The event a request becomes: its own timestamp, or the clock's. *)
Definition stamped (ev ev' : LogEvent) : Prop :=
  ev' = ev \/ (IsZero (Timestamp ev) = true /\ exists now, is_int64 now /\
    ev' = mkLogEvent (instant_of_ns now) (Level ev) (Service ev) (Message ev) (Metadata ev) (TraceID ev)).

Lemma run_HandleLogs body ev w :
  decode_body body = Some ev -> event_okb ev = true ->
  exists w' resp ev', run (HandleLogs oob config throttler body) w = (w', Val resp) /\ stamped ev ev' /\
    exists w0 w1 d after, db w0 = db w /\ run throttler w0 = (w1, Val (d, after)) /\
    match d with
    | ThrottleCircuitOpen => r_status resp = 503 /\ db w' = db w
    | ThrottleRateLimit => r_status resp = 429 /\ db w' = db w /\
        header "Retry-After" resp = Some (Strconv.Itoa (seconds_int oob after))
    | ThrottleAllow =>
        if bool_decide (Level ev = "" \/ Message ev = "") then r_status resp = 400 /\ db w' = db w
        else r_status resp = 500 \/
          (r_status resp = 202 /\ exists id, r_body resp = encode_line (ingest_json true id) /\
             stored config ev' (db w) (db w') (fun args => appended args id (db w')))
    end.
Proof.
  intros Hbody Hev. unfold HandleLogs. rewrite Hbody, run_bind.
  assert (exists w0 ev', run (if IsZero (Timestamp ev) then
       now <- call Now ;;
       Return (mkLogEvent (instant_of_ns now) (Level ev) (Service ev) (Message ev) (Metadata ev) (TraceID ev))
     else Return ev) w = (w0, Val ev') /\ db w0 = db w /\ stamped ev ev' /\ event_okb ev' = true /\
     Level ev' = Level ev /\ Message ev' = Message ev) as (w0 & ev' & -> & D0 & Hs & Hev' & Hl & Hm).
  { unfold stamped. destruct (IsZero (Timestamp ev)) eqn:Hz.
    - cbn [run bind call]. destruct (exec Now w) as [w0 now] eqn:E. apply law_now in E as [D Hn]. cbn [run].
      eexists _, _. split; [reflexivity|]. split; [done|]. split; [right; eauto|]. split; [|done].
      unfold event_okb in *. cbn [Timestamp Level Service Message Metadata TraceID].
      rewrite instant_of_ns_ok by done. rewrite !andb_true_iff in *. naive_solver.
    - eexists _, _. split; [reflexivity|]. split; [done|]. split; [by left|]. done. }
  rewrite run_bind. destruct (run_IngestLog ev' w0 Hev') as (w2 & w1 & r & d & after & -> & Ht & Hr).
  rewrite Hl, Hm, D0 in Hr. exists w2.
  destruct d; [destruct (bool_decide (Level ev = "" \/ Message ev = "")) eqn:Hb|..].
  1,3,4: destruct Hr as [-> D]; cbn [run]; eexists _, ev'; (split; [reflexivity|]; split; [done|]);
    exists w0, w1; eexists _, after; (split; [done|]; split; [exact Ht|]); cbn iota beta; rewrite ?Hb; done.
  destruct r as [id|e]; cbn [run]; eexists _, ev'; (split; [reflexivity|]; split; [done|]);
    exists w0, w1, ThrottleAllow, after; (split; [done|]; split; [exact Ht|]); rewrite ?Hb.
  - right. split; [done|]. exists id. by split.
  - left. apply foreign_spec in Hr as (H1 & H2 & H3). unfold error_response. by rewrite H1, H2, H3.
Qed.

(** The status of [POST /api/v1/logs] tells what happened to the log.  For a
    body that decodes to an event, the handler never panics and answers 202, 400,
    429, 500 or 503.  202 carries the id of the message that now ends the stream
    of the event's partition, which every consumer group of the stream has to
    deliver and which decodes to a fresh job for that event, stamped with the
    current time if it had none; 503 and 429 are exactly the throttler's
    open circuit and rate limit, and 429 names the delay in whole seconds in its
    Retry-After header; 400 means that level or message is empty; after 400, 429
    and 503 nothing has been stored. *)
Theorem HandleLogs_correct body ev w :
  decode_body body = Some ev -> event_okb ev = true ->
  exists w' resp ev', run (HandleLogs oob config throttler body) w = (w', Val resp) /\ stamped ev ev' /\
    exists w0 w1 d after, db w0 = db w /\ run throttler w0 = (w1, Val (d, after)) /\
    match d with
    | ThrottleCircuitOpen => r_status resp = 503 /\ db w' = db w
    | ThrottleRateLimit => r_status resp = 429 /\ db w' = db w /\
        header "Retry-After" resp = Some (Strconv.Itoa (seconds_int oob after))
    | ThrottleAllow =>
        if bool_decide (Level ev = "" \/ Message ev = "") then r_status resp = 400 /\ db w' = db w
        else r_status resp = 500 \/
          (r_status resp = 202 /\ exists id, r_body resp = encode_line (ingest_json true id) /\
             stored config ev' (db w) (db w') (fun args => appended args id (db w')))
    end.
Proof. apply run_HandleLogs. Qed.

(** A body that is not a JSON log event is refused with 400 before anything
    else happens: no call is made, so neither the throttler nor Redis is asked. *)
Theorem HandleLogs_bad_body body w :
  decode_body body = None ->
  exists resp, run (HandleLogs oob config throttler body) w = (w, Val resp) /\ r_status resp = 400.
Proof. intros Hb. unfold HandleLogs. rewrite Hb. cbn [run]. by eexists. Qed.

(** The middleware, for a handler that returns. *)
Lemma run_middleware next method path body w w1 w2 t resp :
  exec Now w = (w1, t) -> run (next method path body) w1 = (w2, Val resp) ->
  exists w3, run (loggingMiddleware next method path body) w =
    (w3, Val (resp, mkAccessLog method path (r_status resp) (wrap64 (Z.of_nat (String.length (r_body resp)))))) /\
    db w3 = db w2.
Proof.
  intros E Hrun. unfold loggingMiddleware. cbn [run bind call]. rewrite E, run_bind, Hrun. cbn [run bind call].
  destruct (exec Now w2) as [w3 t3] eqn:E3. apply law_now in E3 as [D _]. cbn [run]. by exists w3.
Qed.

(** The logging middleware is transparent and truthful: the client gets the
    handler's response unchanged, and what is logged is the status and the
    number of body bytes of that response. *)
Theorem middleware_transparent next method path body w w1 w2 t resp :
  exec Now w = (w1, t) -> run (next method path body) w1 = (w2, Val resp) ->
  Z.of_nat (String.length (r_body resp)) <= max_int64 ->
  exists w3, run (loggingMiddleware next method path body) w =
    (w3, Val (resp, mkAccessLog method path (r_status resp) (Z.of_nat (String.length (r_body resp))))) /\
    db w3 = db w2.
Proof.
  intros E Hrun Hlen. destruct (run_middleware next method path body w w1 w2 t resp E Hrun) as (w3 & Hr & D).
  exists w3. by rewrite wrap64_id in Hr by int64.
Qed.

End IngestionTheorems.
