(* ===== verification/Health.v ===== *)
(** * Health checks: [internal/health] *)
From S2P Require Import Prelude GoStd GoFloat Config World JsonSyntax Json Ingestion.
Import Errors.

(** [recover]: a panic of [p] becomes a value. *)
Fixpoint recover {A} (p : prog A) (h : string -> prog A) : prog A :=
  match p with
  | Return a => Return a
  | Call c k => Call c (fun b => recover (k b) h)
  | Panic m => h m
  | OutOfFuel => OutOfFuel
  end.

(** [HealthChecker]: a name and a check. *)
Record HealthChecker := mkChecker { Name : string; Check : prog (option error) }.

(** [CheckResult] and [AggregatedHealth]. *)
Record CheckResult := mkResult { c_Name : string; Healthy : bool; c_Message : string; Duration : Z }.

Record AggregatedHealth := mkHealth { Status : string; Checks : list CheckResult; Overall : bool }.

(** [RedisChecker] *)
Definition RedisChecker : HealthChecker :=
  mkChecker "redis"
    (r <- call Ping ;;
     Return (match r with Err err => Some (Wrapf "redis ping failed" err) | Ok _ => None end)).

(** [PostgresChecker]: [pool.Ping] of the pgx library is a parameter. *)
Definition PostgresChecker (ping : prog (option error)) : HealthChecker :=
  mkChecker "postgres"
    (err <- ping ;;
     Return (match err with Some e => Some (Wrapf "postgres ping failed" e) | None => None end)).

Module Aggregator.

(** [Aggregator], [NewAggregator] and [Register]. *)
Record t := mk { checkers : list HealthChecker; timeout : Z }.

Definition NewAggregator (timeout : Z) : t := mk [] timeout.

Definition Register (checker : HealthChecker) (a : t) : t := mk (checkers a ++ [checker]) (timeout a).

(** The goroutine of [runCheckSafe]: the check, with panics recovered. *)
Definition guarded (checker : HealthChecker) (start : Z) : prog CheckResult :=
  recover
    (err <- Check checker ;;
     now <- call Now ;;
     Return (mkResult (Name checker) (match err with None => true | Some _ => false end)
               (match err with None => "" | Some e => Error e end) (Time.Sub now start)))
    (fun r => now <- call Now ;;
       Return (mkResult (Name checker) false ("health check panicked: " +:+ r) (Time.Sub now start))).

(** [runCheckSafe]: the result of the check, or a timeout when the context of
    the check ends first (the check then still runs to its end). *)
Definition runCheckSafe (checker : HealthChecker) : prog CheckResult :=
  start <- call Now ;;
  result <- guarded checker start ;;
  s <- call (Select [0]) ;;
  match s with
  | Some _ => Return result
  | None => now <- call Now ;;
      Return (mkResult (Name checker) false "health check timeout" (Time.Sub now start))
  end.

Fixpoint run_checks (cs : list HealthChecker) : prog (list CheckResult) :=
  match cs with
  | [] => Return []
  | c :: rest => r <- runCheckSafe c ;; rs <- run_checks rest ;; Return (r :: rs)
  end.

Fixpoint checkOverallHealth (results : list CheckResult) : bool :=
  match results with
  | [] => true
  | r :: rest => if negb (Healthy r) then false else checkOverallHealth rest
  end.

Fixpoint countFailedChecks (results : list CheckResult) : Z :=
  match results with
  | [] => 0
  | r :: rest => (if negb (Healthy r) then 1 else 0) + countFailedChecks rest
  end.

(** [CheckAll].  The checks run concurrently and each writes its own slot of
    the results: here one after the other, in the order of registration; their
    interleavings are those of [HealthLoop.v]. *)
Definition aggregate (results : list CheckResult) : AggregatedHealth :=
  let overallHealthy := checkOverallHealth results in
  mkHealth (if negb overallHealthy then "unhealthy" else "healthy") results overallHealthy.

Definition CheckAll (a : t) : prog AggregatedHealth :=
  results <- run_checks (checkers a) ;;
  Return (aggregate results).

Definition CheckLiveness : AggregatedHealth := mkHealth "healthy" [] true.

Definition CheckReadiness (a : t) : prog AggregatedHealth := CheckAll a.

End Aggregator.

(** ** http.go *)

Definition result_json (r : CheckResult) : jv :=
  VObj [("name", VStr (escape (c_Name r))); ("healthy", VBool (Healthy r));
        ("message", VStr (escape (c_Message r))); ("duration", VNum (Strconv.Itoa (Duration r)))].

Definition health_json (h : AggregatedHealth) : jv :=
  VObj [("status", VStr (escape (Status h))); ("checks", VArr (result_json <$> Checks h));
        ("overall", VBool (Overall h))].

Definition HandleLive : prog Response :=
  Return (respondJSON [] 200 (health_json Aggregator.CheckLiveness)).

(** The response of [HandleReady] to a result. *)
Definition ready_response (result : AggregatedHealth) : Response :=
  let status := if negb (Overall result) then 503 else 200 in
  respondJSON [] status (health_json result).

Definition HandleReady (a : Aggregator.t) : prog Response :=
  result <- Aggregator.CheckReadiness a ;;
  Return (ready_response result).

(** ** The health server of the worker: [internal/worker/server.go] *)

(** [NewHealthServer] *)
Definition NewHealthServer (cfg : Config.t) (healthAgg : Aggregator.t)
    : HttpServer (string -> string -> string -> prog Response) :=
  mkHttpServer (":" +:+ WorkerConfig.HealthPort (Config.Worker cfg))
    (mux (RegisterRoutes HandleLive (HandleReady healthAgg)))
    (5 * Time.Second) (5 * Time.Second) (60 * Time.Second).

(** ** What the health endpoints guarantee *)
Section HealthTheorems.
Context {W : Type} `{RedisLaws W}.
Import Aggregator.

Lemma run_recover {A} (p : prog A) h w :
  run (recover p h) w = match run p w with
                        | (w', Panicked m) => run (h m) w'
                        | x => x
                        end.
Proof.
  revert w. induction p as [a|B c k IH|m|]; intros w; cbn [recover run]; try done.
  destruct (exec c w) as [w' b]. apply IH.
Qed.

(** A check that ends (it may panic). *)
Definition ends (checker : HealthChecker) : Prop := forall w : W, (run (Check checker) w).2 <> NoFuel.

(** The result a check deserves: healthy only if it returned no error. *)
Lemma runCheckSafe_spec checker w : ends checker ->
  exists w' r w0, run (runCheckSafe checker) w = (w', Val r) /\ c_Name r = Name checker /\
    (Healthy r = true -> (run (Check checker) w0).2 = Val None).
Proof.
  intros He. unfold runCheckSafe. cbn [run bind call]. destruct (exec Now w) as [w0 start] eqn:E0.
  rewrite run_bind. unfold guarded. rewrite run_recover, run_bind. specialize (He w0).
  destruct (run (Check checker) w0) as [w1 [err|m|]] eqn:Ec; simpl in He; [| |done].
  - cbn [run bind call]. destruct (exec Now w1) as [w2 now]. cbn [run bind call].
    destruct (exec (Select [0]) w2) as [w3 [i|]]; cbn [run bind call].
    + eexists _, _, w0. split; [reflexivity|]. split; [done|]. rewrite Ec. simpl. by destruct err.
    + destruct (exec Now w3) as [w4 now']. cbn [run]. by eexists _, _, w0.
  - cbn [run bind call]. destruct (exec Now w1) as [w2 now]. cbn [run bind call].
    destruct (exec (Select [0]) w2) as [w3 [i|]]; cbn [run bind call].
    + by eexists _, _, w0.
    + destruct (exec Now w3) as [w4 now']. cbn [run]. by eexists _, _, w0.
Qed.

Lemma overall_spec results : checkOverallHealth results = true <-> Forall (fun r => Healthy r = true) results.
Proof.
  induction results as [|r rs IH]; cbn [checkOverallHealth]; [by rewrite Forall_nil|].
  rewrite Forall_cons. destruct (Healthy r); cbn [negb]; [rewrite IH; naive_solver|naive_solver].
Qed.

(** The readiness probe answers 200 only if every dependency is up, and
    never crashes.  Whatever the registered checks do, return errors, panic or
    outlast their context, [HandleReady] returns a response; one result per check
    in the order of registration; status 200 exactly when all of them are
    healthy, else 503; and a healthy result means that its check ran and
    returned no error. *)
Theorem HandleReady_correct a w :
  Forall ends (checkers a) ->
  exists w' resp results, run (HandleReady a) w = (w', Val resp) /\
    (c_Name <$> results) = (Name <$> checkers a) /\
    (r_status resp = 200 <-> Forall (fun r => Healthy r = true) results) /\
    (r_status resp = 200 \/ r_status resp = 503) /\
    Forall2 (fun c r => Healthy r = true -> exists w0 : W, (run (Check c) w0).2 = Val None) (checkers a) results.
Proof.
  intros He. unfold HandleReady, CheckReadiness, CheckAll. rewrite !run_bind.
  assert (exists w' results, run (run_checks (checkers a)) w = (w', Val results) /\
    (c_Name <$> results) = (Name <$> checkers a) /\
    Forall2 (fun c r => Healthy r = true -> exists w0 : W, (run (Check c) w0).2 = Val None) (checkers a) results)
    as (w' & results & -> & Hn & H2).
  { revert w. induction He as [|c cs Hc _ IH]; intros w; [by eexists _, []|].
    cbn [run_checks]. rewrite run_bind. destruct (runCheckSafe_spec c w Hc) as (w1 & r & w0 & -> & Hr & Hh).
    rewrite run_bind. destruct (IH w1) as (w2 & rs & -> & Hrs & HF). cbn [run]. eexists _, _.
    split; [reflexivity|]. rewrite !fmap_cons, Hr, Hrs. split; [done|]. constructor; eauto. }
  cbn [run]. eexists _, _, results. split; [reflexivity|]. split; [done|]. unfold ready_response, aggregate. cbn [Overall].
  rewrite <-overall_spec. destruct (checkOverallHealth results); cbn [negb]; (split; [|split]); try done; auto.
Qed.

(** The number of failed checks that is logged is the number of results
    that are not healthy, so it is zero exactly when the overall health is good. *)
Theorem countFailedChecks_correct results :
  countFailedChecks results = Z.of_nat (length (filter (fun r => Healthy r = false) results)) /\
  (countFailedChecks results = 0 <-> checkOverallHealth results = true).
Proof.
  induction results as [|r rs [IH1 IH2]]; [done|]. cbn [countFailedChecks checkOverallHealth].
  rewrite filter_cons. destruct (Healthy r); cbn [negb].
  - rewrite decide_False by done. rewrite IH1. split; [lia|]. rewrite Z.add_0_l, <-IH1. done.
  - rewrite decide_True by done. simpl. rewrite IH1. split; [lia|]. split; [lia|done].
Qed.

End HealthTheorems.
