(* ===== verification/HealthLoop.v ===== *)
(** * [CheckAll] as it runs: concurrent checks with a timeout

    [Aggregator.CheckAll] starts one goroutine per checker; each starts the check
    in a goroutine of its own and waits for its result or for the context.  Here
    all of them interleave call by call on one world, and the context may end at
    any moment.  The sequential [run_checks] of Health.v is one schedule. *)
From S2P Require Import Prelude GoStd GoFloat Config World Trace JsonSyntax Json Ingestion Health.
Import Errors Aggregator.

(** [runCheckSafe] for one checker: reading the start time, waiting in the
    [select], making the timeout result, or returned. *)
Inductive waiter :=
| VStart (p : prog Z)
| VWait (start : Z)
| VTimeout (start : Z) (p : prog Z)
| VDone (r : CheckResult).

(** The goroutine it starts: not started, running the check (the flag says that
    a panic was recovered, whose result is sent unconditionally), or returned. *)
Inductive runner :=
| KNone
| KRun (p : prog (bool * CheckResult))
| KDone.

(** One checker with its waiter, its runner and the buffered channel. *)
Record slot := mkSlot {
  s_checker : HealthChecker;
  s_waiter : waiter;
  s_runner : runner;
  s_chan : option CheckResult;
}.

(** The world, whether the context is done, and the slots. *)
Record cstate (W : Type) := mkC { h_world : W; h_done : bool; h_slots : list slot }.
Arguments mkC {W}.
Arguments h_world {W}.
Arguments h_done {W}.
Arguments h_slots {W}.

(** The inner goroutine. *)
Definition check_goroutine (checker : HealthChecker) (start : Z) : prog (bool * CheckResult) :=
  recover
    (err <- Check checker ;;
     now <- call Now ;;
     Return (false, mkResult (Name checker) (match err with None => true | Some _ => false end)
               (match err with None => "" | Some e => Error e end) (Time.Sub now start)))
    (fun r => now <- call Now ;;
       Return (true, mkResult (Name checker) false ("health check panicked: " +:+ r) (Time.Sub now start))).

Section Checks.
Context {W : Type} `{World W}.

(** One step of the waiter of a slot, the context being done or not. *)
Inductive waiter_step (dn : bool) : W -> slot -> W -> slot -> Prop :=
| k_clock w w' c p p' k ch : step p w = Some (w', p') ->
    waiter_step dn w (mkSlot c (VStart p) k ch) w' (mkSlot c (VStart p') k ch)
| k_spawn w c start ch :
    waiter_step dn w (mkSlot c (VStart (Return start)) KNone ch)
      w (mkSlot c (VWait start) (KRun (check_goroutine c start)) ch)
| k_receive w c start k r :
    waiter_step dn w (mkSlot c (VWait start) k (Some r)) w (mkSlot c (VDone r) k None)
| k_timeout w c start k ch : dn = true ->
    waiter_step dn w (mkSlot c (VWait start) k ch) w (mkSlot c (VTimeout start (call Now)) k ch)
| k_timeout_clock w w' c start p p' k ch : step p w = Some (w', p') ->
    waiter_step dn w (mkSlot c (VTimeout start p) k ch) w' (mkSlot c (VTimeout start p') k ch)
| k_timeout_done w c start now k ch :
    waiter_step dn w (mkSlot c (VTimeout start (Return now)) k ch)
      w (mkSlot c (VDone (mkResult (Name c) false "health check timeout" (Time.Sub now start))) k ch).

(** One step of its runner. *)
Inductive runner_step (dn : bool) : W -> slot -> W -> slot -> Prop :=
| k_check w w' c v p p' ch : step p w = Some (w', p') ->
    runner_step dn w (mkSlot c v (KRun p) ch) w' (mkSlot c v (KRun p') ch)
| k_send w c v panicked r ch :
    runner_step dn w (mkSlot c v (KRun (Return (panicked, r))) ch) w (mkSlot c v KDone (Some r))
(** the context is done: the [select] of the goroutine may drop the result *)
| k_drop w c v r ch : dn = true ->
    runner_step dn w (mkSlot c v (KRun (Return (false, r))) ch) w (mkSlot c v KDone ch).

Inductive cstep : cstate W -> cstate W -> Prop :=
(** the timeout of [CheckAll], or the end of the request *)
| c_done w dn l : cstep (mkC w dn l) (mkC w true l)
(** everything else in the world *)
| c_other w w' dn l : cstep (mkC w dn l) (mkC w' dn l)
| c_waiter w w' dn l1 s s' l2 : waiter_step dn w s w' s' ->
    cstep (mkC w dn (l1 ++ s :: l2)) (mkC w' dn (l1 ++ s' :: l2))
| c_runner w w' dn l1 s s' l2 : runner_step dn w s w' s' ->
    cstep (mkC w dn (l1 ++ s :: l2)) (mkC w' dn (l1 ++ s' :: l2)).

(** The waiters alone. *)
Inductive cstep_waiters : cstate W -> cstate W -> Prop :=
| cw_waiter w w' dn l1 s s' l2 : waiter_step dn w s w' s' ->
    cstep_waiters (mkC w dn (l1 ++ s :: l2)) (mkC w' dn (l1 ++ s' :: l2)).

Definition cstart (a : Aggregator.t) (w : W) : cstate W :=
  mkC w false ((fun c => mkSlot c (VStart (call Now)) KNone None) <$> checkers a).

Definition creachable (a : Aggregator.t) (t : cstate W) : Prop := exists w, rtc cstep (cstart a w) t.

(** The slot of the results that the goroutine writes. *)
Definition slot_result (s : slot) : option CheckResult :=
  match s_waiter s with VDone r => Some r | _ => None end.

(** [g.Wait()] returns: every goroutine of the group has written its result. *)
Definition waited (t : cstate W) (results : list CheckResult) : Prop :=
  slot_result <$> h_slots t = Some <$> results.

(** *** What a result means *)

(** A result of the checker [c]: it carries its name, and healthy means that the
    check ran to its end and returned no error. *)
Definition sound (c : HealthChecker) (r : CheckResult) : Prop :=
  c_Name r = Name c /\ (Healthy r = true -> exists l, path (Check c) l (Return None)).

Record slot_inv (s : slot) : Prop := {
  si_waiter : match s_waiter s with VDone r => sound (s_checker s) r | _ => True end;
  si_runner : match s_runner s with KRun p => returns (fun x => sound (s_checker s) x.2) p | _ => True end;
  si_chan : match s_chan s with Some r => sound (s_checker s) r | None => True end;
  si_start : match s_waiter s with VStart p => s_runner s = KNone /\ total p | VTimeout _ p => total p | _ => True end;
}.

Lemma returns_recover {A} (P : A -> Prop) (p : prog A) h :
  returns P p -> (forall m, returns P (h m)) -> returns P (recover p h).
Proof. intros Hp Hh. induction p as [a|B c k IH|m|]; cbn [recover returns] in *; auto. Qed.

Lemma check_goroutine_sound c start : returns (fun x => sound c x.2) (check_goroutine c start).
Proof.
  apply returns_recover; [|intros m; cbn [bind call returns]; intros now; split; done].
  eapply (returns_bind (fun err => exists l, path (Check c) l (Return err))).
  { apply returns_path. eauto. }
  intros err [l Hl]. cbn [bind call returns]. intros now. split; [done|]. cbn [snd Healthy].
  destruct err; [done|]. eauto.
Qed.

Lemma waiter_step_inv dn w s w' s' : waiter_step dn w s w' s' -> slot_inv s ->
  slot_inv s' /\ s_checker s' = s_checker s.
Proof.
  destruct 1; intros [Hv Hk Hc Hs]; cbn [s_checker s_waiter s_runner s_chan] in *; (split; [|done]); constructor;
    cbn [s_checker s_waiter s_runner s_chan]; try done.
  - destruct Hs. split; [done|by eapply total_step].
  - apply check_goroutine_sound.
  - by eapply total_step.
Qed.

Lemma runner_step_inv dn w s w' s' : runner_step dn w s w' s' -> slot_inv s ->
  slot_inv s' /\ s_checker s' = s_checker s.
Proof.
  destruct 1; intros [Hv Hk Hc Hs]; cbn [s_checker s_waiter s_runner s_chan] in *; (split; [|done]); constructor;
    cbn [s_checker s_waiter s_runner s_chan]; try done.
  all: try by eapply returns_step.
  all: destruct v; try done; by destruct Hs.
Qed.

Definition cinv (a : Aggregator.t) (t : cstate W) : Prop :=
  Forall slot_inv (h_slots t) /\ s_checker <$> h_slots t = checkers a.

Lemma cinv_slot a w w' dn dn' l1 s s' l2 : slot_inv s' /\ s_checker s' = s_checker s ->
  cinv a (mkC w dn (l1 ++ s :: l2)) -> cinv a (mkC w' dn' (l1 ++ s' :: l2)).
Proof.
  intros [Hs Hc] [Hf Hl]. unfold cinv in *. cbn [h_slots] in *. rewrite fmap_app, fmap_cons in *.
  rewrite Forall_app, Forall_cons in *. rewrite Hc. naive_solver.
Qed.

Lemma cstep_inv a t t' : cstep t t' -> cinv a t -> cinv a t'.
Proof.
  destruct 1 as [| |w w' dn l1 s s' l2 Hs|w w' dn l1 s s' l2 Hs]; intros Hi; try done;
    (eapply cinv_slot; [|exact Hi]); destruct Hi as [Hf _]; cbn [h_slots] in Hf;
    rewrite Forall_app, Forall_cons in Hf; destruct Hf as (_ & Hf & _).
  - by eapply waiter_step_inv.
  - by eapply runner_step_inv.
Qed.

Lemma creachable_inv a t : creachable a t -> cinv a t.
Proof.
  intros [w Hr]. assert (cinv a (cstart a w)) as Hi.
  { split; cbn [cstart h_slots].
    - apply Forall_fmap, Forall_true. intros c. by constructor.
    - rewrite <-list_fmap_compose. apply list_fmap_id. }
  induction Hr as [|t1 t2 t3 Hs _ IH]; [done|]. apply IH. by eapply cstep_inv.
Qed.

(** C32: the readiness probe under concurrency.  However the checks, their
    waiters, the timeout and the rest of the world interleave, when the wait of
    [CheckAll] returns there is one result per registered check, in the order of
    registration and under its name; a result is healthy only if that check ran to
    its end and returned no error (not after a timeout, a panic or an error); and
    the probe answers 200 exactly when all results are healthy, else 503. *)
Theorem CheckAll_correct a t results :
  creachable a t -> waited t results ->
  (c_Name <$> results) = (Name <$> checkers a) /\
  Forall2 (fun c r => Healthy r = true -> exists l, path (Check c) l (Return None)) (checkers a) results /\
  (r_status (ready_response (aggregate results)) = 200 <-> Forall (fun r => Healthy r = true) results) /\
  (r_status (ready_response (aggregate results)) = 200 \/ r_status (ready_response (aggregate results)) = 503).
Proof.
  intros [Hf Hl]%creachable_inv Hw. assert (Forall2 sound (checkers a) results) as H2.
  { rewrite <-Hl. unfold waited in Hw. clear Hl. revert results Hw. induction Hf as [|s l Hs _ IH]; intros [|r rs] Hw; try done.
    rewrite !fmap_cons in Hw. injection Hw as Hr Hw. rewrite fmap_cons. constructor; [|by apply IH].
    destruct Hs as [Hv _ _ _]. unfold slot_result in Hr. destruct (s_waiter s) as [| | |r0]; try discriminate Hr.
    injection Hr as <-. exact Hv. }
  split; [|split; [|]].
  - clear -H2. induction H2 as [|c r cs rs [Hn _] _ IH]; [done|]. by rewrite !fmap_cons, Hn, IH.
  - eapply Forall2_impl; [exact H2|]. by intros c r [_ ?].
  - unfold ready_response, aggregate. cbn [Overall]. rewrite <-overall_spec.
    destruct (checkOverallHealth results); cbn [negb]; (split; [|]); try done; auto.
Qed.

(** *** The wait ends *)

Lemma waiter_run dn w s : dn = true -> slot_inv s ->
  exists w' s' r, slot_result s' = Some r /\ forall l1 l2,
    rtc cstep_waiters (mkC w dn (l1 ++ s :: l2)) (mkC w' dn (l1 ++ s' :: l2)).
Proof.
  intros -> [_ _ _ Hs]. destruct s as [c v k ch]. cbn [s_waiter s_runner] in Hs.
  assert (forall w start (p : prog Z) k, total p -> exists w' s' r, slot_result s' = Some r /\ forall l1 l2,
    rtc cstep_waiters (mkC w true (l1 ++ mkSlot c (VTimeout start p) k ch :: l2)) (mkC w' true (l1 ++ s' :: l2))) as Hto.
  { clear. intros w start p k. revert w. induction p as [now|B x f IH|m|]; intros w Ht; try done.
    - eexists _, _, _. split; [|intros l1 l2; apply rtc_once; constructor; apply k_timeout_done]. done.
    - destruct (exec x w) as [w1 b] eqn:E. destruct (IH b w1 (Ht b)) as (w' & s' & r & Hr & Hrun).
      exists w', s', r. split; [done|]. intros l1 l2. eapply rtc_l; [|apply Hrun].
      constructor. apply k_timeout_clock. simpl. by rewrite E. }
  assert (forall w start k, exists w' s' r, slot_result s' = Some r /\ forall l1 l2,
    rtc cstep_waiters (mkC w true (l1 ++ mkSlot c (VWait start) k ch :: l2)) (mkC w' true (l1 ++ s' :: l2))) as Hwait.
  { intros w0 start k0. destruct (Hto w0 start (call Now) k0) as (w' & s' & r & Hr & Hrun); [done|].
    exists w', s', r. split; [done|]. intros l1 l2. eapply rtc_l; [|apply Hrun]. constructor. by apply k_timeout. }
  destruct v as [p|start|start p|r]; [|apply Hwait|by apply Hto|by exists w, (mkSlot c (VDone r) k ch), r].
  destruct Hs as [-> Ht]. revert w. induction p as [now|B x f IH|m|]; intros w; try done.
  - destruct (Hwait w now (KRun (check_goroutine c now))) as (w' & s' & r & Hr & Hrun).
    exists w', s', r. split; [done|]. intros l1 l2. eapply rtc_l; [|apply Hrun]. constructor. apply k_spawn.
  - destruct (exec x w) as [w1 b] eqn:E. destruct (IH b (Ht b) w1) as (w' & s' & r & Hr & Hrun).
    exists w', s', r. split; [done|]. intros l1 l2. eapply rtc_l; [|apply Hrun]. constructor. apply k_clock. simpl. by rewrite E.
Qed.

(** C33: no check can hold up the probe.  Once the context of [CheckAll] is done,
    which its timeout brings about, the waiters finish by themselves, without any
    further step of a check: whatever the checks do, and even if none of them ever
    returns, every slot gets its result and the wait of [CheckAll] ends. *)
Theorem CheckAll_returns a t :
  creachable a t -> h_done t = true ->
  exists t' results, rtc cstep_waiters t t' /\ waited t' results /\ length results = length (checkers a).
Proof.
  intros [Hf Hl]%creachable_inv Hd. destruct t as [w dn slots]. cbn [h_slots h_done] in *. subst dn.
  assert (forall l2 l1 w, Forall slot_inv l2 -> exists w' l2' results, slot_result <$> l2' = Some <$> results /\
    rtc cstep_waiters (mkC w true (l1 ++ l2)) (mkC w' true (l1 ++ l2'))) as Hgo.
  { clear. intros l2. induction l2 as [|s l2 IH]; intros l1 w Hf; [by exists w, [], []|].
    apply Forall_cons in Hf as [Hs Hf]. destruct (waiter_run true w s eq_refl Hs) as (w1 & s' & r & Hr & Hrun).
    destruct (IH (l1 ++ [s']) w1 Hf) as (w' & l2' & rs & Hrs & Hrun').
    exists w', (s' :: l2'), (r :: rs). rewrite !fmap_cons, Hr, Hrs. split; [done|].
    etrans; [apply Hrun|]. by rewrite <-!app_assoc in Hrun'. }
  destruct (Hgo slots [] w Hf) as (w' & l2' & rs & Hrs & Hrun). eexists _, rs. split; [exact Hrun|]. split; [done|].
  assert (length l2' = length slots) as Hlen.
  { assert (forall t1 t2, rtc cstep_waiters t1 t2 -> length (h_slots t2) = length (h_slots t1)) as Hk.
    { clear. intros t1 t2. induction 1 as [|t1 t2 t3 Hs _ IH]; [done|]. rewrite IH. destruct Hs.
      cbn [h_slots]. by rewrite !length_app. }
    by apply (Hk _ _ Hrun). }
  apply (f_equal length) in Hrs. apply (f_equal length) in Hl. rewrite !length_fmap in *. congruence.
Qed.

End Checks.
