(* ===== verification/Logger.v ===== *)
(** * Structured logging: [internal/observability/logger.go]

    A logger is its [slog] handler (format, threshold, source locations) with the
    attributes added by [With]; logging gives the record that is written, or
    nothing below the threshold.  [slog]'s text and JSON rendering of a record is
    not modelled. *)
From S2P Require Import Prelude GoStd GoFloat Config Validator.
Import Errors.

(** [slog.Level]: [LevelDebug], [LevelInfo], [LevelWarn], [LevelError]. *)
Definition LevelDebug : Z := -4.
Definition LevelInfo : Z := 0.
Definition LevelWarn : Z := 4.
Definition LevelError : Z := 8.

(** The kinds of attribute values the code logs. *)
Inductive attr_value :=
| AString (s : string)
| AInt (n : Z)
| ADuration (d : Z).

Definition attr : Type := string * attr_value.

Inductive format := JSONHandler | TextHandler.

Record Logger := mkLogger {
  l_format : format;
  l_level : Z;
  l_addSource : bool;
  l_attrs : list attr;
  serviceName : string;
}.

Record LogRecord := mkRecord { rec_level : Z; rec_message : string; rec_attrs : list attr }.

Definition parseLogLevel (level : string) : Z :=
  if bool_decide (level = "debug") then LevelDebug
  else if bool_decide (level = "info") then LevelInfo
  else if bool_decide (level = "warn") then LevelWarn
  else if bool_decide (level = "error") then LevelError
  else LevelInfo.

Definition getEnv (getenv : string -> string) (key defaultValue : string) : string :=
  if bool_decide (getenv key <> "") then getenv key else defaultValue.

Definition NewLogger (getenv : string -> string) (cfg : ObservabilityConfig.t) (service : string) : Logger := {|
  l_format :=
    if bool_decide (ObservabilityConfig.LogFormat cfg = "json") then JSONHandler
    else if bool_decide (ObservabilityConfig.LogFormat cfg = "text") then TextHandler
    else JSONHandler;
  l_level := parseLogLevel (ObservabilityConfig.LogLevel cfg);
  l_addSource := parseLogLevel (ObservabilityConfig.LogLevel cfg) <=? LevelDebug;
  l_attrs := [("service", AString service);
              ("environment", AString (getEnv getenv "ENVIRONMENT" "development"))];
  serviceName := service;
|}.

(** [With]: a new logger with more attributes; the receiver does not change. *)
Definition With (l : Logger) (attrs : list attr) : Logger :=
  mkLogger (l_format l) (l_level l) (l_addSource l) (l_attrs l ++ attrs) (serviceName l).

(** The three keys of a context; a value that is missing or not a string is [None]. *)
Record LogContext := mkCtx {
  RequestIDKey : option string;
  TraceIDKey : option string;
  UserIDKey : option string;
}.

(** One [if id, ok := ctx.Value(key).(string); ok && id != ""] of [WithContext]. *)
Definition with_id (key : string) (v : option string) (l : Logger) : Logger :=
  match v with
  | Some s => if bool_decide (s <> "") then With l [(key, AString s)] else l
  | None => l
  end.

Definition WithContext (ctx : LogContext) (l : Logger) : Logger :=
  with_id "user_id" (UserIDKey ctx)
    (with_id "trace_id" (TraceIDKey ctx)
      (with_id "request_id" (RequestIDKey ctx) l)).

Definition WithError (err : option error) (l : Logger) : Logger :=
  match err with
  | None => l
  | Some e => With l [("error", AString (Error e))]
  end.

(** [WithFields]; [fields] in the order the map is ranged over. *)
Definition WithFields (fields : list attr) (l : Logger) : Logger := With l fields.

(** [l.Info], [l.Error], [l.Debug]: the record written, if any. *)
Definition log (level : Z) (msg : string) (attrs : list attr) (l : Logger) : option LogRecord :=
  if l_level l <=? level then Some (mkRecord level msg (l_attrs l ++ attrs)) else None.

Definition LogHTTPRequest (method path : string) (statusCode duration size : Z) : Logger -> option LogRecord :=
  log LevelInfo "http request"
    [("method", AString method); ("path", AString path); ("status", AInt statusCode);
     ("duration", ADuration duration); ("size", AInt size)].

Definition LogHTTPError (method path : string) (statusCode : Z) (err : error) : Logger -> option LogRecord :=
  log LevelError "http error"
    [("method", AString method); ("path", AString path); ("status", AInt statusCode);
     ("error", AString (Error err))].

Definition LogQueueEnqueue (streamName messageID : string) (payloadSize : Z) : Logger -> option LogRecord :=
  log LevelDebug "enqueued message"
    [("stream", AString streamName); ("message_id", AString messageID); ("payload_size", AInt payloadSize)].

Definition LogQueueDequeue (streamName messageID jobID : string) (retryCount : Z) : Logger -> option LogRecord :=
  log LevelDebug "dequeued message"
    [("stream", AString streamName); ("message_id", AString messageID); ("job_id", AString jobID);
     ("retry_count", AInt retryCount)].

Definition LogQueueError (operation : string) (err : error) : Logger -> option LogRecord :=
  log LevelError "queue error" [("operation", AString operation); ("error", AString (Error err))].

Definition LogDBQuery (query : string) (duration rowsAffected : Z) : Logger -> option LogRecord :=
  log LevelDebug "db query"
    [("query", AString query); ("duration", ADuration duration); ("rows_affected", AInt rowsAffected)].

Definition LogDBError (operation : string) (err : error) : Logger -> option LogRecord :=
  log LevelError "db error" [("operation", AString operation); ("error", AString (Error err))].

(** ** What the logger guarantees *)

(** The ids a context carries, in the order they are logged. *)
Definition context_attrs (ctx : LogContext) : list attr :=
  omap (fun '(k, v) => match v with Some "" | None => None | Some s => Some (k, AString s) end)
    [("request_id", RequestIDKey ctx); ("trace_id", TraceIDKey ctx); ("user_id", UserIDKey ctx)].

Lemma with_id_attrs k v l :
  with_id k v l = With l (match v with Some "" | None => [] | Some s => [(k, AString s)] end).
Proof.
  destruct l, v as [[|c s]|]; unfold With; simpl; by rewrite ?app_nil_r.
Qed.

Lemma With_With l a b : With (With l a) b = With l (a ++ b).
Proof. unfold With. simpl. by rewrite (assoc (++)). Qed.

Lemma WithContext_attrs ctx l : WithContext ctx l = With l (context_attrs ctx).
Proof.
  unfold WithContext. rewrite !with_id_attrs, !With_With. f_equal. unfold context_attrs. simpl.
  destruct (RequestIDKey ctx) as [[|]|], (TraceIDKey ctx) as [[|]|], (UserIDKey ctx) as [[|]|]; done.
Qed.

(** C40: an error logged through a context reaches the log with its ids.  A
    logger, whatever its configured level, extended with a context writes every queue error, with the service
    name and the environment, then exactly the non-empty ids of the context in
    order, then the operation and the error text; and it writes the debug record
    of an enqueue exactly when its level is spelled [debug]. *)
Theorem context_logged getenv cfg service ctx op err stream id size :
  let l := WithContext ctx (NewLogger getenv cfg service) in
  LogQueueError op err l =
    Some (mkRecord LevelError "queue error"
      ([("service", AString service); ("environment", AString (getEnv getenv "ENVIRONMENT" "development"))] ++
       context_attrs ctx ++ [("operation", AString op); ("error", AString (Error err))])) /\
  (is_Some (LogQueueEnqueue stream id size l) <-> ObservabilityConfig.LogLevel cfg = "debug").
Proof.
  cbv zeta. rewrite WithContext_attrs. unfold LogQueueError, LogQueueEnqueue, log. cbn [With l_level l_attrs NewLogger].
  unfold parseLogLevel. split.
  - repeat case_bool_decide; rewrite (proj2 (Z.leb_le _ _)) by (vm_compute; discriminate);
      by rewrite <-(assoc (++)).
  - repeat case_bool_decide; simplify_eq; split; try done; try (intros _; by eexists); intros [x Hx]; done.
Qed.

(** The spellings that validation accepts in any case, but of which the logger
    only knows the lower case: [LOG_LEVEL=DEBUG] starts a service that logs at
    level info, and [LOG_FORMAT=TEXT] one that logs JSON. *)
Theorem log_level_case_mismatch :
  let env k := if bool_decide (k = "LOG_LEVEL") then "DEBUG"
               else if bool_decide (k = "LOG_FORMAT") then "TEXT" else "" in
  exists cfg, Load env = Ok cfg /\
    ObservabilityConfig.LogLevel (Config.Observability cfg) = "DEBUG" /\
    l_level (NewLogger env (Config.Observability cfg) "worker-service") = LevelInfo /\
    l_format (NewLogger env (Config.Observability cfg) "worker-service") = JSONHandler.
Proof. cbv zeta. eexists. split; [vm_compute; reflexivity|]. split; [reflexivity|]. split; reflexivity. Qed.
