(* ===== verification/Bootstrap.v ===== *)
(** * Wiring: [internal/bootstrap]

    How the processes build their parts from the configuration: stream and
    group names, consumer groups, consumer, dead letter queue, throttler. *)
From S2P Require Import Prelude GoStd GoFloat Config Validator World Queue Dlq Consumer Throttler Health.
Import Errors.

(** ** partitions.go *)

Definition PartitionStreamName (baseStream : string) (partitionID : Z) : string :=
  baseStream +:+ ":partition:" +:+ Strconv.Itoa partitionID.

Definition PartitionGroupName (baseGroup : string) (partitionID : Z) : string :=
  baseGroup +:+ "-" +:+ Strconv.Itoa partitionID.

(** The loop of [SetupPartitions] from [i] on, [n] partitions left. *)
Fixpoint setup_from (cfg : Config.t) (i : Z) (n : nat) : prog (option error) :=
  match n with
  | O => Return None
  | S n' =>
      let streamName := PartitionStreamName (QueueConfig.BaseStreamName (Config.Queue cfg)) i in
      let groupName := PartitionGroupName (QueueConfig.BaseConsumerGroup (Config.Queue cfg)) i in
      r <- call (XGroupCreateMkStream streamName groupName "0") ;;
      match r with
      | Err err =>
          if negb (Strings.Contains (Error err) "BUSYGROUP")
          then Return (Some (Wrapf ("failed to create partition " +:+ Strconv.Itoa i +:+ " (stream=" +:+ streamName +:+
                 " group=" +:+ groupName +:+ ")") err))
          else setup_from cfg (i + 1) n'
      | Ok _ => setup_from cfg (i + 1) n'
      end
  end.

Definition SetupPartitions (cfg : Config.t) : prog (option error) :=
  setup_from cfg 0 (Z.to_nat (QueueConfig.PartitionCount (Config.Queue cfg))).

(** ** redis.go, dlq.go, consumer.go, throttler.go, health.go *)

(** [SetupRedis]: the connection is verified with a ping. *)
Definition SetupRedis : prog (option error) :=
  r <- call Ping ;;
  match r with
  | Err err => Return (Some (Wrapf "redis connection failed" err))
  | Ok _ => Return None
  end.

Definition SetupDLQ (cfg : Config.t) : DLQ :=
  mkDLQ (QueueConfig.DLQStreamName (Config.Queue cfg)) (QueueConfig.DLQMaxLen (Config.Queue cfg)).

Definition SetupConsumer (cfg : Config.t) (dlq : option DLQ) (workerID : string) : Consumer :=
  mkConsumer
    (PartitionStreamName (QueueConfig.BaseStreamName (Config.Queue cfg)) (QueueConfig.PartitionID (Config.Queue cfg)))
    (PartitionGroupName (QueueConfig.BaseConsumerGroup (Config.Queue cfg)) (QueueConfig.PartitionID (Config.Queue cfg)))
    workerID dlq.

(** [SetupThrottler]: the decision procedure over the metrics the updater
    maintains; disabled, it allows everything. *)
Definition SetupThrottler (oob : float64 -> Z) (cfg : Config.t) (m : ThrottlerMetrics) : ThrottlerInterface :=
  let tc := IngestionConfig.Throttler (Config.Ingestion cfg) in
  if negb (ThrottlerConfig.Enabled tc) then NoopThrottler else Throttler.Decision oob tc m.

Definition SetupHealthChecks (cfg : Config.t) : Aggregator.t :=
  Aggregator.Register RedisChecker
    (Aggregator.NewAggregator (ObservabilityConfig.HealthCheckTimeout (Config.Observability cfg))).

(** ** What the wiring guarantees *)
Section BootstrapTheorems.
Context {W : Type} `{RedisLaws W}.
Context (cfg : Config.t).

Local Abbreviation stream_of i := (PartitionStreamName (QueueConfig.BaseStreamName (Config.Queue cfg)) i).
Local Abbreviation group_of i := (PartitionGroupName (QueueConfig.BaseConsumerGroup (Config.Queue cfg)) i).

Lemma stream_of_inj i j : stream_of i = stream_of j -> i = j.
Proof.
  unfold PartitionStreamName. intros Heq. do 2 apply (inj (String.append _)) in Heq. by apply (inj Strconv.Itoa).
Qed.

(** Producer and consumer agree.  The stream a worker of partition [i]
    consumes is the one the producer appends the events of partition [i] to, and
    different partitions have different streams. *)
Theorem partition_names_agree i j :
  stream_of i = Producer.stream_name (Config.Queue cfg) i /\
  c_streamName (SetupConsumer cfg (Some (SetupDLQ cfg)) "w") =
    Producer.stream_name (Config.Queue cfg) (QueueConfig.PartitionID (Config.Queue cfg)) /\
  (stream_of i = stream_of j <-> i = j).
Proof. split; [done|]. split; [done|]. split; [apply stream_of_inj|by intros ->]. Qed.

(** Group creation: the group exists, and existing groups are untouched. *)
Definition groups_kept (d d' : Db) : Prop :=
  forall s g gr, get_group d s g = Some gr -> get_group d' s g = Some gr.

Lemma xgroup_kept s g d : get_group d s g = None -> groups_kept d (xgroup_db s g d).
Proof.
  intros Hn s' g' gr Hg. unfold xgroup_db. rewrite get_set_group_ne; [done|]. intros [= -> ->]. congruence.
Qed.

Definition created (s g : string) (d d' : Db) : Prop :=
  groups_kept d d' /\ forall s', entries (get_stream d' s') = entries (get_stream d s').

#[local] Instance created_refl s g : Reflexive (created s g).
Proof. intros d. split; [by intros ???|done]. Qed.

#[local] Instance created_trans s g : Transitive (created s g).
Proof. intros d1 d2 d3 [H1 E1] [H2 E2]. split; [intros s0 g0 gr Hg; auto|congruence]. Qed.

Lemma server_xgroup s g t b d d' : server_ok (XGroupCreateMkStream s g "0") t d b d' ->
  created s g d d' /\ match b with Ok _ => is_Some (get_group d' s g)
                              | Err e => Strings.Contains (Error e) "BUSYGROUP" = true -> is_Some (get_group d' s g) end.
Proof.
  intros Hs. specialize (Hs eq_refl). destruct b as [u|e].
  - destruct Hs as [Hn ->]. split; [split; [by apply xgroup_kept|intros s'; apply entries_set_group]|].
    unfold xgroup_db. rewrite get_set_group. eauto.
  - destruct Hs as [-> Hb]. split; [done|]. done.
Qed.

Lemma law_xgroup s g w w' b : exec (XGroupCreateMkStream s g "0") w = (w', b) ->
  created s g (db w) (db w') /\
  match b with Ok _ => is_Some (get_group (db w') s g)
             | Err e => Strings.Contains (Error e) "BUSYGROUP" = true -> is_Some (get_group (db w') s g) end.
Proof.
  intros E. apply law_exec in E as (d1 & Hl & Hs). apply server_xgroup in Hs as [Hc Hb]. split; [|done].
  etrans; [|exact Hc]. eapply (lost_rel _ (created s g)); [|exact Hl].
  intros t1 b1 d0 d0' _ Hs. by apply server_xgroup in Hs as [? _].
Qed.

Lemma run_SetupPartitions w :
  exists w' r, run (SetupPartitions cfg) w = (w', Val r) /\ groups_kept (db w) (db w') /\
    (forall s, entries (get_stream (db w') s) = entries (get_stream (db w) s)) /\
    (r = None -> forall i, 0 <= i < QueueConfig.PartitionCount (Config.Queue cfg) ->
       is_Some (get_group (db w') (stream_of i) (group_of i))).
Proof.
  unfold SetupPartitions.
  assert (forall n i w, exists w' r, run (setup_from cfg i n) w = (w', Val r) /\ groups_kept (db w) (db w') /\
    (forall s, entries (get_stream (db w') s) = entries (get_stream (db w) s)) /\
    (r = None -> forall k, i <= k < i + Z.of_nat n -> is_Some (get_group (db w') (stream_of k) (group_of k)))) as Hloop.
  { intros n. induction n as [|n IH]; intros i w0.
    { eexists _, _. split; [reflexivity|]. split; [by intros ???|]. split; [done|]. intros _ k Hk. lia. }
    cbn [setup_from run bind call].
    destruct (exec (XGroupCreateMkStream (stream_of i) (group_of i) "0") w0) as [w1 b] eqn:E.
    apply law_xgroup in E as [[Hk He] Hb].
    assert (is_Some (get_group (db w1) (stream_of i) (group_of i)) ->
      exists w' r, run (setup_from cfg (i + 1) n) w1 = (w', Val r) /\ groups_kept (db w0) (db w') /\
      (forall s, entries (get_stream (db w') s) = entries (get_stream (db w0) s)) /\
      (r = None -> forall k, i <= k < i + Z.of_nat (S n) -> is_Some (get_group (db w') (stream_of k) (group_of k)))) as Hgo.
    { intros [gr Hgr]. destruct (IH (i + 1) w1) as (w' & r & Hrun & Hk' & He' & Hr).
      exists w', r. split; [done|]. split; [intros s g gr0 Hg; auto|]. split; [congruence|].
      intros Hn k Hik. destruct (Z.eq_dec k i) as [->|Hne]; [rewrite (Hk' _ _ _ Hgr); eauto|]. apply Hr; [done|lia]. }
    destruct b as [u|e]; [by apply Hgo|].
    destruct (Strings.Contains (Error e) "BUSYGROUP") eqn:Ebusy; cbn [negb]; [by apply Hgo; auto|].
    eexists _, _. split; [reflexivity|]. split; [done|]. split; [done|]. done. }
  destruct (Hloop (Z.to_nat (QueueConfig.PartitionCount (Config.Queue cfg))) 0 w) as (w' & r & Hrun & Hk & He & Hr).
  exists w', r. split; [done|]. split; [done|]. split; [done|]. intros Hn i Hi. apply Hr; [done|lia].
Qed.

(** C21: after [SetupPartitions] succeeded, every partition has its consumer
    group, so no worker reads from a missing group; groups that existed keep
    their undelivered and pending messages (it is safe to run at every start),
    and no stream entry is touched. *)
Theorem SetupPartitions_correct w :
  exists w' r, run (SetupPartitions cfg) w = (w', Val r) /\ groups_kept (db w) (db w') /\
    (forall s, entries (get_stream (db w') s) = entries (get_stream (db w) s)) /\
    (r = None -> forall i, 0 <= i < QueueConfig.PartitionCount (Config.Queue cfg) ->
       is_Some (get_group (db w') (stream_of i) (group_of i))).
Proof. apply run_SetupPartitions. Qed.

End BootstrapTheorems.
