(* ===== verification/Main.v ===== *)
(** * The processes: [cmd/worker], [cmd/ingestion], [cmd/control_plane], and the
      HTTP server life cycle of [internal/ingestion/server.go]

    The [run] functions compose the configuration, the wiring and the services.
    The environment, the host name and the process id are arguments. *)
From S2P Require Import Prelude Utf8 GoStd GoFloat GoTime Config Validator World Queue JsonSyntax Json JsonTypes Dlq Consumer Registry Worker Throttler Ingestion Health Bootstrap.
Import Errors.

(** ** cmd/worker *)

Definition workerID_of (hostname : string) (pid : Z) : string :=
  "worker-" +:+ hostname +:+ "-" +:+ Strconv.Itoa pid.

(** [run] up to the point where the worker is built: its configuration, its id
    and its consumer. *)
Definition worker_boot (getenv : string -> string) (hostname : string) (pid : Z)
    : prog (res error (Config.t * string * Consumer)) :=
  match Load getenv with
  | Err err => Return (Err (Wrapf "failed to load config" err))
  | Ok cfg =>
      let workerID := workerID_of hostname pid in
      redis <- SetupRedis ;;
      match redis with
      | Some err => Return (Err err)
      | None =>
          partitions <- SetupPartitions cfg ;;
          match partitions with
          | Some err => Return (Err (Wrapf "failed to setup partitions" err))
          | None =>
              let consumer := SetupConsumer cfg (Some (SetupDLQ cfg)) workerID in
              registered <- Registry.Register workerID ;;
              match registered with
              | Some err => Return (Err (Wrapf "failed to register worker" err))
              | None => Return (Ok (cfg, workerID, consumer))
              end
          end
      end
  end.

(** The processor [run] builds. *)
Definition worker_processor (cfg : Config.t) : Processor :=
  DeduplicatingProcessor DefaultProcessor (WorkerConfig.DedupTTL (Config.Worker cfg)).

(** The state in which the loops of the worker start. *)
Definition worker_start {W} (cfg : Config.t) (workerID : string) (consumer : Consumer) (fuel : nat) (w : W) : wstate W :=
  wstart (Config.Worker cfg) workerID (QueueConfig.PartitionID (Config.Queue cfg)) consumer fuel w.

(** [run] after [Start] returned [err]: the deferred [Deregister] runs in any
    case, its error is dropped. *)
Definition worker_exit (workerID : string) (err : option error) : prog (option error) :=
  Registry.Deregister workerID ;;;
  Return (match err with Some e => Some (Wrapf "worker failed" e) | None => None end).

(** ** cmd/control_plane *)

(** [NewControlPlane] names the instance after its host and process. *)
Definition control_plane_id (hostname : string) (pid : Z) : string :=
  "controlplane-" +:+ hostname +:+ "-" +:+ Strconv.Itoa pid.

Definition control_plane_run (getenv : string -> string) (hostname : string) (pid : Z) (fuel : nat)
    : prog (option error) :=
  match Load getenv with
  | Err err => Return (Some (Wrapf "failed to load config" err))
  | Ok cfg =>
      redis <- SetupRedis ;;
      match redis with
      | Some err => Return (Some (Wrapf "failed to connect to Redis" err))
      | None =>
          r <- ControlPlane.Start (Config.Registry cfg) (control_plane_id hostname pid) fuel ;;
          match r with
          | Some err => Return (Some (Wrapf "control plane exited with error" err))
          | None => Return None
          end
      end
  end.

(** ** cmd/ingestion *)

Definition ingestion_boot (getenv : string -> string) : prog (res error Config.t) :=
  match Load getenv with
  | Err err => Return (Err (Wrapf "failed to load config" err))
  | Ok cfg =>
      redis <- SetupRedis ;;
      match redis with Some err => Return (Err err) | None => Return (Ok cfg) end
  end.

(** The handler of [NewServer], with the metrics the throttler holds when the
    request comes. *)
Definition ingestion_handler (oob : float64 -> Z) (cfg : Config.t) (m : ThrottlerMetrics) (method path body : string)
    : prog (Response * AccessLog) :=
  loggingMiddleware
    (serve oob (Config.Queue cfg) (SetupThrottler oob cfg m) HandleLive (HandleReady (SetupHealthChecks cfg)))
    method path body.

(** [NewServer]: the server with that handler. *)
Definition NewServer (oob : float64 -> Z) (cfg : Config.t) (m : ThrottlerMetrics)
    : HttpServer (string -> string -> string -> prog (Response * AccessLog)) :=
  buildHTTPServer cfg (ingestion_handler oob cfg m).

(** [Server.Start].  [net/http] is seen through what it returns: what ends the
    wait (the context, or the channel of the goroutine that listens, which
    carries an error or is closed), and the result of the graceful shutdown. *)
Inductive server_event := CtxEnded | ServerErr (err : option error).

(** What the listening goroutine sends on the channel before it closes it. *)
Definition listened (r : listen_end) : server_event :=
  match r with ErrServerClosed => ServerErr None | ListenFailed err => ServerErr (Some err) end.

Definition Server_Start (ev : server_event) (shutdown : option error) : option error :=
  match ev with
  | ServerErr (Some err) => Some err
  | ServerErr None => None
  | CtxEnded => match shutdown with Some err => Some (Wrapf "shutdown failed" err) | None => None end
  end.

Definition ingestion_exit (ev : server_event) (shutdown : option error) : option error :=
  match Server_Start ev shutdown with
  | Some err => Some (Wrapf "server stopped with error" err)
  | None => None
  end.

(** [run] of the ingestion process; the deferred [throttler.Stop] is that of
    [ThrottlerLoop.v]. *)
Definition ingestion_run (getenv : string -> string) (ev : server_event) (shutdown : option error)
    : prog (option error) :=
  r <- ingestion_boot getenv ;;
  match r with
  | Err err => Return (Some err)
  | Ok _ => Return (ingestion_exit ev shutdown)
  end.

(** [errorLogWriter.Write]: what it logs (one trailing newline removed) and the
    count it returns. *)
Definition errorLogWriter_Write (p : string) : string * Z :=
  let n := String.length p in
  (match String.get (n - 1) p with
   | Some "010"%char => String.substring 0 (n - 1) p
   | _ => p
   end, Z.of_nat n).

(** ** What the processes guarantee *)

Lemma GetIntEnv_range getenv key d : is_int64 d -> is_int64 (GetIntEnv getenv key d).
Proof.
  intros Hd. unfold GetIntEnv. case_bool_decide; [done|].
  destruct (Strconv.Atoi (getenv key)) eqn:E; [|done]. by eapply Strconv.ParseInt_range.
Qed.

(** What every process knows of the configuration it loaded. *)
Lemma Load_ok getenv cfg : Load getenv = Ok cfg ->
  valid_config cfg /\ is_int64 (QueueConfig.RedisMaxRetries (Config.Queue cfg)).
Proof.
  unfold Load, Validate. destruct (validation_errors (loadFrom getenv GetDefaults)) eqn:HE; [|done].
  intros [= <-]. split; [by apply validation_errors_nil|]. apply GetIntEnv_range. vm_compute. intuition discriminate.
Qed.

(** An ordinary event from a request body can be stored. *)
Lemma decode_body_okb body ev : decode_body body = Some ev -> ordinary ev = true -> event_okb ev = true.
Proof. unfold decode_body. destruct (parse_prefix body) as [[v r]|]; [|done]. apply decoded_okb. Qed.

Section MainTheorems.
Context {W : Type} `{RedisLaws W}.
Context (oob : float64 -> Z) (getenv : string -> string) (cfg : Config.t).

Lemma run_SetupRedis w : exists w' r, run SetupRedis w = (w', Val r) /\ db w' = db w.
Proof.
  unfold SetupRedis. cbn [run bind call]. destruct (exec Ping w) as [w' [u|e]] eqn:E;
    apply law_read in E as [D _]; try reflexivity; cbn [run]; eauto.
Qed.

Lemma run_Register workerID w : exists w' r, run (Registry.Register workerID) w = (w', Val r) /\
  (r = None -> streams (db w') = streams (db w) /\ Registry.field (record (db w') workerID) "worker_id" = workerID).
Proof.
  unfold Registry.Register. cbn [run bind call].
  destruct (exec Now w) as [w0 ns] eqn:E0. apply law_now in E0 as [D0 _].
  destruct (exec (HSet _ _) w0) as [w1 [n|err]] eqn:E1; cbn [run]; eexists _, _; (split; [reflexivity|]); [|done].
  intros _. apply law_hset in E1. split; [rewrite E1; simpl; congruence|].
  destruct (record_hset (Registry.workerKey workerID)
    [("worker_id", workerID); ("last_seen", Strconv.Itoa (ns / Time.Second));
     ("started_at", Strconv.Itoa (ns / Time.Second))] (db w0) workerID eq_refl) as [Hrec _].
  rewrite <-E1 in Hrec. rewrite Hrec. unfold Registry.field. by erewrite lookup_union_Some_l by reflexivity.
Qed.

(** C15: a worker polls only when everything it needs is there.  The start-up of
    the worker process never panics; when it gets as far as building the worker,
    the configuration is what [Load] returns and is valid, its registry record
    carries its id, and the consumer group its consumer will read from exists on
    the stream the producer fills for its partition, with the groups that existed
    before untouched and no stream entry lost. *)
Theorem worker_boot_ready hostname pid w :
  exists w' r, run (worker_boot getenv hostname pid) w = (w', Val r) /\
    forall cfg workerID c, r = Ok (cfg, workerID, c) ->
      Load getenv = Ok cfg /\ valid_config cfg /\ workerID = workerID_of hostname pid /\
      Registry.field (record (db w') workerID) "worker_id" = workerID /\
      c_streamName c = Producer.stream_name (Config.Queue cfg) (QueueConfig.PartitionID (Config.Queue cfg)) /\
      is_Some (get_group (db w') (c_streamName c) (c_consumerGroup c)) /\
      groups_kept (db w) (db w') /\
      (forall s, entries (get_stream (db w') s) = entries (get_stream (db w) s)).
Proof.
  unfold worker_boot. destruct (Load getenv) as [cfg0|e] eqn:HL; [|by eexists _, _].
  destruct (Load_ok _ _ HL) as [Hv _]. rewrite run_bind. destruct (run_SetupRedis w) as (w1 & r1 & -> & D1).
  destruct r1 as [e|]; [by eexists _, _|]. rewrite run_bind.
  destruct (run_SetupPartitions cfg0 w1) as (w2 & r2 & -> & Hk & He & Hg).
  destruct r2 as [e|]; [by eexists _, _|]. rewrite run_bind.
  destruct (run_Register (workerID_of hostname pid) w2) as (w3 & r3 & -> & Hr).
  destruct r3 as [e|]; cbn [run]; [by eexists _, _|]. specialize (Hr eq_refl) as [Hs Hrec].
  eexists _, _. split; [reflexivity|]. intros cfg' wid c [= <- <- <-].
  assert (forall s, get_stream (db w3) s = get_stream (db w2) s) as Hst.
  { intros s. unfold get_stream. by rewrite Hs. }
  split; [done|]. split; [done|]. split; [done|]. split; [done|]. split; [done|]. split; [|split].
  - unfold get_group. rewrite Hst. apply (Hg eq_refl). apply (vc_queue _ Hv).
  - intros s g gr Hgr. unfold get_group in *. rewrite Hst. apply Hk. by rewrite D1.
  - intros s. by rewrite Hst, He, D1.
Qed.

(** The throttler of the process: it decides without touching the data, and a
    rate limit comes with a delay within the configured bounds. *)
Lemma run_SetupThrottler m w : valid_config cfg ->
  exists w' d after, run (SetupThrottler oob cfg m) w = (w', Val (d, after)) /\ db w' = db w /\
    let tc := IngestionConfig.Throttler (Config.Ingestion cfg) in
    (d = ThrottleRateLimit -> ThrottlerConfig.MinRetryAfter tc <= after <= ThrottlerConfig.MaxRetryAfter tc).
Proof.
  intros Hv. unfold SetupThrottler. destruct (ThrottlerConfig.Enabled _) eqn:He; cbn [negb].
  2: { by exists w, ThrottleAllow, 0. }
  pose proof (vc_throttler _ Hv He) as Ht.
  destruct (run_Decision oob (IngestionConfig.Throttler (Config.Ingestion cfg)) m w)
    as (w' & d & after & Hrun & D & Hd); [lia|].
  exists w', d, after. split; [done|]. split; [done|]. cbv zeta. intros ->. apply Hd.
Qed.

(** C1: the ingestion service, end to end.  For every environment it starts
    with, and whatever metrics its throttler holds, a [POST /api/v1/logs] whose
    body decodes to an ordinary event ([JsonTypes.ordinary]: no offset of a day or
    more, no empty or too deep metadata) gets an answer 202, 400, 429, 500 or 503
    (never a panic), and that status is what is logged.  202 means the event is
    the last entry of its partition's stream, to be delivered to every consumer
    group there; after 400, 429 and 503 nothing has been stored; and 429 comes
    with a Retry-After of a delay between the configured minimum and maximum. *)
Theorem ingestion_end_to_end m body ev w :
  Load getenv = Ok cfg -> decode_body body = Some ev -> ordinary ev = true ->
  let tc := IngestionConfig.Throttler (Config.Ingestion cfg) in
  exists w' resp log, run (ingestion_handler oob cfg m "POST" "/api/v1/logs" body) w = (w', Val (resp, log)) /\
    a_status log = r_status resp /\ r_status resp ∈ [202; 400; 429; 500; 503] /\
    (r_status resp = 202 -> exists ev' id, stamped ev ev' /\ r_body resp = encode_line (ingest_json true id) /\
       stored (Config.Queue cfg) ev' (db w) (db w') (fun args => appended args id (db w'))) /\
    (r_status resp ∈ [400; 429; 503] -> db w' = db w) /\
    (r_status resp = 429 -> exists after, header "Retry-After" resp = Some (Strconv.Itoa (seconds_int oob after)) /\
       ThrottlerConfig.MinRetryAfter tc <= after <= ThrottlerConfig.MaxRetryAfter tc).
Proof.
  intros HL Hb Hord tc. pose proof (decode_body_okb _ _ Hb Hord) as Hev. destruct (Load_ok _ _ HL) as [Hv Hm]. unfold ingestion_handler.
  destruct (exec Now w) as [w0 t] eqn:E. pose proof (law_now _ _ _ E) as [D0 _].
  destruct (run_HandleLogs oob (Config.Queue cfg) (SetupThrottler oob cfg m) (vc_queue _ Hv) Hm)
    with (body := body) (ev := ev) (w := w0) as (w1 & resp & ev' & Hrun & Hst & v0 & v1 & d & after & Dv & Ht & Hd);
    [|done|done|].
  { intros v. destruct (run_SetupThrottler m v Hv) as (v' & d & a & Hr & D & _). eauto. }
  destruct (run_middleware (serve oob (Config.Queue cfg) (SetupThrottler oob cfg m) HandleLive
    (HandleReady (SetupHealthChecks cfg))) "POST" "/api/v1/logs" body w w0 w1 t resp E Hrun) as (w2 & -> & D2).
  destruct (run_SetupThrottler m v0 Hv) as (v' & d' & a' & Hr & _ & Hbound). rewrite Hr in Ht.
  injection Ht as -> -> ->. rewrite D0 in *. eexists w2, resp, _. split; [reflexivity|]. split; [done|].
  rewrite D2. destruct d; [case_bool_decide|..].
  - destruct Hd as [-> ->]. split; [set_solver|]. split; [done|]. by split.
  - destruct Hd as [->|(-> & id & Hbody & Hs)].
    + split; [set_solver|]. split; [done|]. split; [|done]. set_solver.
    + split; [set_solver|]. split; [eauto 10|]. split; [|done]. set_solver.
  - destruct Hd as (-> & -> & Hh). split; [set_solver|]. split; [done|]. split; [done|]. intros _.
    exists after. auto.
  - destruct Hd as [-> ->]. split; [set_solver|]. split; [done|]. by split.
Qed.

End MainTheorems.
