(* ===== verification/Witnesses.v ===== *)
(** * Witnesses

    Every theorem of the development that has hypotheses, applied to concrete
    data: the default configuration, the executable world of [RefWorld.v] (which
    satisfies [RedisLaws]) and the JSON of [Json.v] (which satisfies
    [CodecLaws]).  The last section runs the code on scripts of failures, of
    interleavings and on unusual bodies that show defects. *)
From S2P Require Import Prelude Utf8 GoStd GoFloat GoTime Config Validator World Trace RefWorld Queue JsonSyntax Json JsonTypes Dlq Consumer Registry Worker Delivery System Throttler ThrottlerLoop Ingestion Health HealthLoop Logger Bootstrap Main.

(** ** Data *)

Definition cfg0 : Config.t := GetDefaults.
Definition q0 : QueueConfig.t := Config.Queue cfg0.
Definition dlq0 : DLQ := SetupDLQ cfg0.
Definition c0 : Consumer := SetupConsumer cfg0 (Some dlq0) "worker-1".

Definition ev0 : LogEvent := mkLogEvent (mkInstant 1700000000 5 0) "INFO" "svc" "hello" None "".
Definition job0 : JobEnvelope := mkJob "uuid-0" (Some ev0) 1700000000 0 3 "log_event" "".
Definition boom : error := Errors.ErrorString "boom".
Definition letter0 : DLQEntry :=
  mkDLQEntry "1700000000000-0" (Some (next_attempt (set_RetryCount 2 job0) boom)) "boom" 1700000001.

Definition text {A} (r : res A string) : string := match r with Ok s => s | Err _ => "" end.

(** Worlds at one instant, with given data and a script of failures. *)
Definition world (d : Db) (fates : list fate) : RW :=
  mkRW d 1700000000000 1700000000000000000 0 0 [] None fates.

Definition w0 : RW := world (mkDb ∅ ∅ ∅) [].

(** A message of the partition stream, not delivered yet. *)
Definition msg0 : XMessage := mkMsg "1699999999000-0" {["job" := text (marshal_job job0)]}.

Definition stream_db (g : Group) : Db :=
  mkDb {[c_streamName c0 := mkStream [msg0] {[c_consumerGroup c0 := g]}]} ∅ ∅.

Definition w_new : RW := world (stream_db (mkGroup [ID msg0] ∅)) [].

(** The message delivered to a worker that died a minute ago. *)
Definition w_stale : RW := world (stream_db (mkGroup [] {[ID msg0 := mkPel "worker-0" 1699999940000]})) [].

(** Dead letters. *)
Definition letter_db (e : DLQEntry) : Db :=
  mkDb {[dlq_streamName dlq0 := mkStream [mkMsg "1699999999000-1" {["entry" := text (marshal_dlq e)]}] ∅]} ∅ ∅.

(** A key that is set and does not expire. *)
Definition w_key (k v : string) : RW := world (mkDb ∅ {[k := (v, None)]} ∅) [].

Definition oob0 (_ : float64) : Z := 0.

Lemma q0_valid : valid_queue q0.
Proof. vm_compute. intuition discriminate. Qed.

Lemma q0_retries : is_int64 (QueueConfig.RedisMaxRetries q0).
Proof. vm_compute. intuition discriminate. Qed.

Lemma ev0_ok : event_ok ev0.
Proof. vm_compute. reflexivity. Qed.

Lemma job0_ok : job_ok job0.
Proof. vm_compute. reflexivity. Qed.

(** ** JSON and the producer *)

Lemma job_json_roundtrip_witness :
  job_okb job0 = true /\ exists s, marshal_job job0 = Ok s /\ unmarshal_job s = Ok job0.
Proof.
  assert (job_okb job0 = true) as Hok by (vm_compute; reflexivity).
  split; [exact Hok|]. exact (job_json_roundtrip job0 Hok).
Defined.

Lemma Enqueue_correct_witness :
  exists w' r, run (Producer.Enqueue q0 ev0) w0 = (w', Val r) /\
    stored q0 ev0 (db w0) (db w') (fun args => forall id, r = Ok id -> appended args id (db w')).
Proof.
  destruct (Enqueue_correct q0 ev0 w0 q0_valid ev0_ok q0_retries) as (_ & w' & r & Hrun & _ & Hs).
  exists w', r. split; [exact Hrun|exact Hs].
Defined.

Lemma EnqueueBatch_correct_witness :
  exists w' r args, run (Producer.EnqueueBatch q0 [ev0; ev0]) w0 = (w', Val r) /\
    Forall2 (event_args q0) [ev0; ev0] args.
Proof.
  destruct (EnqueueBatch_correct q0 [ev0; ev0] w0 q0_valid) as (w' & r & args & Hrun & Hargs & _).
  - repeat constructor; exact ev0_ok.
  - exact q0_retries.
  - exists w', r, args. split; [exact Hrun|exact Hargs].
Defined.

Lemma StreamLength_correct_witness :
  exists w' r, run (Producer.StreamLength q0) w_new = (w', Val r) /\ db w' = db w_new /\
    match r with
    | Ok len => len = queue_depth q0 (db w_new)
    | Err _ => failed_xlen (trace (Producer.StreamLength q0) w_new)
    end.
Proof. apply (StreamLength_correct q0 w_new). vm_compute. discriminate. Defined.

(** ** Dead letters *)

Lemma Send_Get_witness :
  exists w1 r, run (Dlq.Send dlq0 letter0) w0 = (w1, Val r) /\
    forall id, r = Ok id -> exists w2 r2, run (Dlq.Get dlq0 id) w1 = (w2, Val r2) /\
      (r2 = Ok letter0 \/ exists err, r2 = Err (Errors.Wrapf "failed to get DLQ entry" err)).
Proof.
  destruct (Send_Get dlq0 letter0 w0) as (w1 & r & Hrun & _ & Hget).
  - vm_compute. reflexivity.
  - vm_compute. eauto.
  - exists w1, r. split; [exact Hrun|]. intros id Hid.
    destruct (Hget id Hid) as (w2 & r2 & Hr & _ & Hor). exists w2, r2. split; [exact Hr|exact Hor].
Defined.

Lemma Requeue_no_loss_witness :
  let main := c_streamName c0 in
  exists w' r, run (Dlq.Requeue dlq0 "1699999999000-1" main 10000) (world (letter_db letter0) [Pass; TimesOut]) =
      (w', Val r) /\
    (r = None -> holds_job (db w') main (set_RetryCount 0 job0)).
Proof.
  intros main.
  destruct (Requeue_no_loss dlq0 "1699999999000-1" main 10000
    (mkMsg "1699999999000-1" {["entry" := text (marshal_dlq letter0)]}) "1700000000000-0"
    (next_attempt (set_RetryCount 2 job0) boom) "boom" 1700000001 (world (letter_db letter0) [Pass; TimesOut]))
    as (w' & r & Hrun & _ & Hres & _).
  - vm_compute. discriminate.
  - vm_compute. reflexivity.
  - vm_compute. reflexivity.
  - vm_compute. reflexivity.
  - exists w', r. split; [exact Hrun|exact Hres].
Defined.

Lemma Requeue_nil_panics_witness :
  exists w1 msg, run (Dlq.Requeue dlq0 "1699999999000-1" (c_streamName c0) 10000)
    (world (letter_db (mkDLQEntry "1-0" None "boom" 0)) []) = (w1, Panicked msg).
Proof.
  eexists. eapply (Requeue_nil_panics dlq0 "1699999999000-1" (c_streamName c0) 10000 _ "1-0" "boom" 0).
  - cbn [exec RefWorld]. vm_compute. reflexivity.
  - vm_compute. reflexivity.
Defined.

(** ** The consumer *)

Lemma Consume_correct_witness :
  exists w' o id err, run (Consume.Consume c0 1000) w_new = (w', Val (o, id, err)) /\
    forall s, entries (get_stream (db w') s) = entries (get_stream (db w_new) s).
Proof.
  destruct (Consume_correct c0 1000 w_new) as (w' & o & id & err & Hrun & He & _).
  exists w', o, id, err. split; [exact Hrun|exact He].
Defined.

Lemma Retry_requeue_witness :
  exists w' r, run (Consume.Retry c0 job0 (ID msg0) boom) w_stale = (w', Val (next_attempt job0 boom, r)) /\
    (r = None -> pending c0 (db w') !! ID msg0 = None /\
       holds_job (db w') (c_streamName c0) (next_attempt job0 boom)).
Proof.
  destruct (Retry_requeue c0 job0 (ID msg0) boom w_stale) as (w' & r & Hrun & _ & Hr & _);
    [exact job0_ok|reflexivity|simpl; lia|vm_compute; intuition discriminate|simpl; lia|].
  exists w', r. split; [exact Hrun|exact Hr].
Defined.

Lemma Retry_dead_witness :
  exists w' r w1 (sent : res error string), run (Consume.Retry c0 (set_RetryCount 2 job0) (ID msg0) boom) w_stale =
      (w', Val (next_attempt (set_RetryCount 2 job0) boom, r)) /\
    run (Consume.Ack c0 (ID msg0)) w1 = (w', Val r) /\
    (is_ok sent = true -> exists ns, holds_letter (db w') (dlq_streamName dlq0)
       (mkDLQEntry (ID msg0) (Some (next_attempt (set_RetryCount 2 job0) boom)) (Errors.Error boom) (ns / Time.Second))) /\
    (r = None -> pending c0 (db w') !! ID msg0 = None).
Proof.
  destruct (Retry_dead c0 dlq0 (set_RetryCount 2 job0) (ID msg0) boom w_stale)
    as (w' & r & _ & w1 & ns & sent & Hrun & _ & _ & Hack & Hsent & Hr & _);
    [reflexivity|vm_compute; discriminate|vm_compute; reflexivity|reflexivity|reflexivity
    |simpl; lia|vm_compute; reflexivity|simpl; lia|].
  exists w', r, w1, sent. split; [exact Hrun|]. split; [exact Hack|]. split; [|exact Hr].
  intros Hs. exists ns. exact (Hsent Hs).
Defined.

Lemma ReclaimStale_correct_witness :
  exists w' envelopes ids err,
    run (Consume.ReclaimStale c0 2 (30 * Time.Second) 10) w_stale = (w', Val (envelopes, ids, err)) /\
    length ids = length envelopes /\
    (err = None -> owned c0 1700000000000 (db w') (ID msg0)).
Proof.
  destruct (ReclaimStale_correct c0 (30 * Time.Second) 10 2 w_stale) 
    as (w' & envelopes & ids & err & Hrun & _ & Hlen & _ & _ & Hall).
  - vm_compute. lia.
  - exists w', envelopes, ids, err. split; [exact Hrun|]. split; [exact Hlen|]. intros He.
    apply (Hall He msg0 (mkPel "worker-0" 1699999940000)).
    + apply (bool_decide_eq_true_1 _). vm_compute. reflexivity.
    + vm_compute. reflexivity.
    + vm_compute. discriminate.
Defined.

Lemma GetPendingInfo_correct_witness :
  exists w' n age err, run (Consume.GetPendingInfo c0) w_stale = (w', Val (n, age, err)) /\
    (err = None -> n = 1) /\ (err <> None -> failed_xpending (trace (Consume.GetPendingInfo c0) w_stale)).
Proof.
  destruct (GetPendingInfo_correct c0 w_stale) as (w' & n & age & err & Hrun & _ & _ & Hn & Hf).
  exists w', n, age, err. split; [exact Hrun|]. split; [|exact Hf].
  intros He. rewrite (proj1 (Hn He)). vm_compute. reflexivity.
Defined.

(** ** Registry and control plane *)

Lemma Register_GetWorker_witness :
  exists w1 r, run (Registry.Register "worker-1") w0 = (w1, Val r) /\
    (r = None -> forall other, other <> "worker-1" -> record (db w1) other = record (db w0) other).
Proof.
  destruct (Register_GetWorker "worker-1" w0) as (w1 & r & Hrun & _ & Hr); [discriminate|].
  exists w1, r. split; [exact Hrun|]. intros Hn. exact (proj1 (Hr Hn)).
Defined.

Definition w_worker : RW :=
  world (mkDb ∅ ∅ {[Registry.workerKey "worker-1" :=
    list_to_map [("worker_id", "worker-1"); ("last_seen", "1699999000"); ("started_at", "1699990000")]]}) [].

Lemma Heartbeat_refreshes_witness :
  exists w1 r, run (Registry.Heartbeat "worker-1") w_worker = (w1, Val r) /\
    (r = None -> exists now, Registry.parseWorkerInfo (record (db w1) "worker-1") =
       Ok (mkWorkerInfo "worker-1" now 1699990000)).
Proof.
  destruct (Heartbeat_refreshes "worker-1" (mkWorkerInfo "worker-1" 1699999000 1699990000) w_worker)
    as (w1 & r & Hrun & Hr); [vm_compute; reflexivity|].
  exists w1, r. split; [exact Hrun|]. intros Hn. destruct (Hr Hn) as (now & _ & Hp & _). exists now. exact Hp.
Defined.


Lemma acquireLock_exclusive_witness :
  exists w' r, run (ControlPlane.acquireLock (Config.Registry cfg0) "me") (w_key controlPlaneLockKey "other") =
    (w', Val r) /\ r <> Ok true.
Proof.
  eexists _, _. split; [vm_compute; reflexivity|].
  eapply (acquireLock_exclusive (Config.Registry cfg0) "me" "other" (w_key controlPlaneLockKey "other"));
    [vm_compute; reflexivity|vm_compute; reflexivity].
Defined.

Lemma standby_never_leads_witness :
  exists w3, run (ControlPlane.waitForLock (Config.Registry cfg0) "me" 3) w0 =
    run (ControlPlane.waitForLock (Config.Registry cfg0) "me" 1) w3.
Proof.
  eexists.
  refine (standby_never_leads (Config.Registry cfg0) "me" 1 0 w0 _ _ _ (Ok false) _ _ _ _ _);
    [vm_compute; discriminate|vm_compute; reflexivity|vm_compute; reflexivity|vm_compute; reflexivity
    |vm_compute; reflexivity].
Defined.

(** ** The worker *)

Definition wc0 : WorkerConfig.t := Config.Worker cfg0.

Lemma concurrency_bound_witness :
  exists s, reachable oob0 wc0 "worker-1" 0 c0 DefaultProcessor s /\ w_active s = 1 /\
    w_active s <= WorkerConfig.Concurrency wc0 /\ Z.of_nat (length (w_jobs s)) <= WorkerConfig.Concurrency wc0.
Proof.
  eexists. match goal with |- ?R /\ _ => assert R as Hr end.
  { exists 5%nat, w_new. unfold wstart.
    eapply rtc_l; [apply s_poll_consume|].
    eapply rtc_l; [eapply s_poll_call, stepe_call; vm_compute; reflexivity|].
    eapply rtc_l; [apply s_poll_message|].
    eapply rtc_l; [apply s_acquire; reflexivity|].
    eapply rtc_l; [apply (s_job_begin oob0 wc0 "worker-1" 0 c0 DefaultProcessor _ _ _ _ [] [])|].
    apply rtc_refl. }
  split; [exact Hr|]. split; [reflexivity|].
  destruct (concurrency_bound oob0 wc0 "worker-1" 0 c0 DefaultProcessor _ Hr) as (_ & [_ Ha] & Hl);
    [vm_compute; reflexivity|]. split; [exact Ha|exact Hl].
Defined.

(** A worker whose health server cannot listen. *)
Ltac run_to_end :=
  exists 5%nat, (world (mkDb ∅ ∅ ∅) [TimesOut; TimesOut]); unfold wstart;
  eapply rtc_l; [apply (s_server_fails oob0 wc0 "worker-1" 0 c0 DefaultProcessor boom)|];
  eapply rtc_l; [apply s_poll_exit|];
  eapply rtc_l; [eapply s_reclaim_call, stepe_call; vm_compute; reflexivity|];
  eapply rtc_l; [apply s_reclaim_error|];
  eapply rtc_l; [apply s_reclaim_exit|];
  eapply rtc_l; [apply s_beat_call; cbn [step bind call Registry.Heartbeat]; reflexivity|];
  eapply rtc_l; [apply s_beat_call; vm_compute; reflexivity|];
  eapply rtc_l; [apply s_beat_done|];
  eapply rtc_l; [apply s_beat_exit|];
  apply rtc_refl.

Lemma drained_witness :
  exists s, reachable oob0 wc0 "worker-1" 0 c0 DefaultProcessor s /\ finished s /\ w_held s = 0 /\ w_active s = 0.
Proof.
  eexists. match goal with |- ?R /\ _ => assert R as Hr end; [run_to_end|].
  split; [exact Hr|].
  match goal with |- ?F /\ _ => assert F as Hf by (repeat split; eexists; reflexivity) end.
  split; [exact Hf|]. exact (proj1 (drained oob0 wc0 "worker-1" 0 c0 DefaultProcessor _ Hr) Hf).
Defined.

Lemma Start_never_fails_witness :
  exists s, reachable oob0 wc0 "worker-1" 0 c0 DefaultProcessor s /\ finished s /\
    group_error s = Some (Errors.Wrapf "health server failed" boom) /\
    Start_result s = None /\ w_cancelled s = true.
Proof.
  eexists. match goal with |- ?R /\ _ => assert R as Hr end; [run_to_end|].
  split; [exact Hr|].
  match goal with |- ?F /\ _ => assert F as Hf by (repeat split; eexists; reflexivity) end.
  split; [exact Hf|]. split; [reflexivity|].
  exact (Start_never_fails oob0 wc0 "worker-1" 0 c0 DefaultProcessor _ Hr Hf).
Defined.

(** A goroutine of the worker process that is about to acknowledge. *)
Lemma acks_justified_witness :
  exists s j id l q, reachable oob0 wc0 "worker-1" 0 c0 (worker_processor cfg0) s /\ w_jobs s = [GRun j id l q] /\
    next_ack q = Some (c_streamName c0, c_consumerGroup c0, ID msg0) /\ id = ID msg0 /\
    (exists m txt, m ∈ w_read s /\ ID m = id /\ Values m !! "job" = Some txt /\ unmarshal_job txt = Ok j) /\
    justified c0 (worker_processor cfg0) j id l q.
Proof.
  eexists _, _, _, _, _. match goal with |- ?R /\ _ => assert R as Hr end.
  { exists 5%nat, w_new. unfold wstart.
    eapply rtc_l; [apply s_poll_consume|].
    eapply rtc_l; [eapply s_poll_call, stepe_call; vm_compute; reflexivity|].
    eapply rtc_l; [apply s_poll_message|].
    eapply rtc_l; [apply s_acquire; reflexivity|].
    eapply rtc_l; [apply (s_job_begin oob0 wc0 "worker-1" 0 c0 (worker_processor cfg0) _ _ _ _ [] [])|].
    eapply rtc_l; [eapply (s_job_call oob0 wc0 "worker-1" 0 c0 (worker_processor cfg0) _ _ _ _ _ [] []); eapply stepe_call; vm_compute; reflexivity|].
    eapply rtc_l; [eapply (s_job_call oob0 wc0 "worker-1" 0 c0 (worker_processor cfg0) _ _ _ _ _ [] []); eapply stepe_call; vm_compute; reflexivity|].
    apply rtc_refl. }
  split; [exact Hr|]. split; [reflexivity|]. split; [vm_compute; reflexivity|]. split; [reflexivity|].
  destruct (acks_justified oob0 wc0 "worker-1" 0 c0 (worker_processor cfg0) (worker_processor_never_acks _) _ Hr)
    as (_ & _ & _ & _ & Hj).
  apply Hj. left.
Defined.

(** ** A group of one worker, which acknowledges its message and dies *)

Definition gr0 : Group := mkGroup [ID msg0] ∅.

Lemma gr0_found : get_group (db w_new) (c_streamName c0) (c_consumerGroup c0) = Some gr0.
Proof. vm_compute. reflexivity. Qed.

Definition k0 : worker := mkWorker oob0 wc0 "worker-1" 0 c0 (worker_processor cfg0).

Lemma k0_member : member (c_streamName c0) (c_consumerGroup c0) k0.
Proof. split; [reflexivity|]. split; [reflexivity|]. intros j. apply worker_processor_never_acks. Qed.

Ltac k0_step tac :=
  eapply rtc_l; [eapply (sys_worker (c_streamName c0) (c_consumerGroup c0) _ [] k0 _ _ []);
    unfold kstep, set_world, kstart, wstart;
    cbn [w_poll w_reclaim w_registry w_jobs w_held w_active w_backoff w_cancelled w_server w_read]; tac|
    cbn [w_world app]].

(** The run: it takes the message, processes it, acknowledges it and dies. *)
Lemma k0_run : exists σ : system (W := RW), rtc (sstep (c_streamName c0) (c_consumerGroup c0)) (w_new, []) σ /\
  g_new <$> get_group (db σ.1) (c_streamName c0) (c_consumerGroup c0) = Some [] /\
  get_pel (db σ.1) (c_streamName c0) (c_consumerGroup c0) !! ID msg0 = None.
Proof.
  eexists. split.
  { eapply rtc_l; [apply (sys_start _ _ _ [] k0 5%nat); exact k0_member|]. cbn [app].
    k0_step ltac:(apply s_poll_consume).
    k0_step ltac:(eapply s_poll_call, stepe_call; vm_compute; reflexivity).
    k0_step ltac:(apply s_poll_message).
    k0_step ltac:(apply s_acquire; reflexivity).
    k0_step ltac:(apply (s_job_begin oob0 wc0 "worker-1" 0 c0 (worker_processor cfg0) _ _ _ _ [] [])).
    do 3 k0_step ltac:(eapply (s_job_call oob0 wc0 "worker-1" 0 c0 (worker_processor cfg0) _ _ _ _ _ [] []); eapply stepe_call; vm_compute; reflexivity).
    eapply rtc_l; [apply (sys_crash _ _ _ [] k0 _ [])|]. cbn [app].
    apply rtc_refl. }
  split; vm_compute; reflexivity.
Qed.

Lemma system_refines_queue_witness :
  exists σ : system (W := RW), rtc (sstep (c_streamName c0) (c_consumerGroup c0)) (w_new, []) σ /\
    get_pel (db σ.1) (c_streamName c0) (c_consumerGroup c0) !! ID msg0 = None /\
    exists ls q, Abstract.qsteps ls (queue_at (c_streamName c0) (db w_new) gr0) q /\
      refines (c_streamName c0) (c_consumerGroup c0) (db σ.1) q /\
      forall id, Abstract.LAck id ∈ ls -> exists σ1, rtc (sstep (c_streamName c0) (c_consumerGroup c0)) σ1 σ /\
        acking (c_streamName c0) (c_consumerGroup c0) (w_new, []) σ1 id.
Proof.
  destruct k0_run as (σ & Hr & _ & Hp). exists σ. split; [exact Hr|]. split; [exact Hp|].
  destruct (system_refines_queue (c_streamName c0) (c_consumerGroup c0) w_new gr0 _ gr0_found Hr)
    as (ls & q & Hls & Href & _ & Hack).
  exists ls, q. split; [exact Hls|]. split; [exact Href|]. intros id Hid.
  destruct (Hack id Hid) as (σ1 & _ & H2 & H3). exists σ1. split; [exact H2|exact H3].
Defined.

(** The message is neither undelivered nor pending any more: it is done, or the
    length limit took it. *)
Lemma at_least_once_witness :
  exists σ : system (W := RW), rtc (sstep (c_streamName c0) (c_consumerGroup c0)) (w_new, []) σ /\
    exists q, refines (c_streamName c0) (c_consumerGroup c0) (db σ.1) q /\
      (ID msg0 ∈ Abstract.q_lost q \/
       (ID msg0 ∈ Abstract.q_done q /\ settled (c_streamName c0) (c_consumerGroup c0) (w_new, []) σ q (ID msg0))).
Proof.
  destruct k0_run as (σ & Hr & Hnew & Hpel). exists σ. split; [exact Hr|].
  destruct (at_least_once (c_streamName c0) (c_consumerGroup c0) w_new gr0 _ gr0_found Hr)
    as (ls & q & _ & Href & Hid).
  exists q. split; [exact Href|]. destruct Href as (gr & Hgr & _ & Hn & Hp).
  unfold get_pel in Hpel. rewrite Hgr in Hnew, Hpel. injection Hnew as Hnew. simpl in Hpel.
  destruct (Hid (ID msg0)) as [H|[H|[H|H]]]; [left; constructor| | |left; exact H|right; exact H].
  - rewrite Hn, Hnew in H. inversion H.
  - rewrite Hp in H. apply elem_of_dom in H. destruct H as [x Hx]. simpl in Hx. congruence.
Defined.

Lemma backoff_capped_witness :
  exists w' eb' d, run (Backoff.Next oob0 (Backoff.newExponentialBackoff (100 * Time.Millisecond) Time.Second)) w0 =
    (w', Val (eb', d)) /\ Backoff.current eb' <= Time.Second.
Proof.
  destruct (backoff_capped oob0 (Backoff.newExponentialBackoff (100 * Time.Millisecond) Time.Second) w0)
    as (w' & eb' & d & Hrun & _ & Hc & _).
  exists w', eb', d. split; [exact Hrun|exact Hc].
Defined.

Definition fail_always : Processor := fun _ => Return (Some boom).

Lemma processMessage_no_loss_witness :
  exists w', run (processMessage c0 fail_always job0 (ID msg0)) w_stale = (w', Val tt) /\
    (pending c0 (db w') !! ID msg0 = pending c0 (db w_stale) !! ID msg0 \/
     holds_job (db w') (c_streamName c0) (next_attempt job0 boom)).
Proof.
  destruct (processMessage_no_loss c0 fail_always job0 (ID msg0) w_stale) as (w' & w1 & r & Hrun & Hp & Hr).
  - exists w_stale, (Some boom). split; [reflexivity|]. split; [reflexivity|]. intros e [= <-]. reflexivity.
  - exact job0_ok.
  - reflexivity.
  - vm_compute. discriminate.
  - vm_compute. reflexivity.
  - vm_compute. intuition discriminate.
  - exists w'. split; [exact Hrun|]. injection Hp as <- <-. destruct Hr as [Hge|Hr]; [|exact Hr].
    exfalso. vm_compute in Hge. by apply Hge.
Defined.

Lemma dedup_skips_duplicate_witness :
  exists w1, run (dedup_Process fail_always Time.Second 0 job0) (w_key (dedup_key job0) "1") = (w1, Val (1, None)).
Proof.
  eexists.
  refine (proj1 (dedup_skips_duplicate fail_always Time.Second 0 job0 "1" (w_key (dedup_key job0) "1") _ (Ok false) _ _));
    [vm_compute; reflexivity|vm_compute; reflexivity].
Defined.

Lemma reclaim_exclusive_witness :
  exists w1, run (tryReclaim c0 5 wc0 "worker-1" 0) (w_key (reclaim_lock_key 0) "worker-2") = (w1, Val (Ok ([], []))).
Proof.
  eexists.
  refine (proj1 (reclaim_exclusive c0 5 wc0 "worker-1" 0 "worker-2" (w_key (reclaim_lock_key 0) "worker-2") _ (Ok false) _ _));
    [vm_compute; reflexivity|vm_compute; reflexivity].
Defined.

(** ** Throttler, ingestion, health, wiring *)

Definition tc0 : ThrottlerConfig.t := IngestionConfig.Throttler (Config.Ingestion cfg0).

Lemma computeRetryAfter_bounds_witness :
  ThrottlerConfig.MinRetryAfter tc0 <= Throttler.computeRetryAfter oob0 tc0 zero_metrics max_int64 0 <=
    ThrottlerConfig.MaxRetryAfter tc0.
Proof. apply (computeRetryAfter_bounds oob0 tc0 zero_metrics max_int64 0). vm_compute. discriminate. Defined.

Lemma Decision_fail_open_witness :
  exists w' d after, run (Throttler.Decision oob0 tc0 zero_metrics) w0 = (w', Val (d, after)) /\ db w' = db w0.
Proof.
  destruct (Decision_fail_open oob0 tc0 zero_metrics w0) as (w' & d & after & Hrun & D & _).
  - vm_compute. discriminate.
  - exists w', d, after. split; [exact Hrun|exact D].
Defined.

(** The updater of a process whose Redis does not answer: its first fetch fails;
    it is stopped in its [select]. *)
Definition w_down : RW := world (mkDb ∅ ∅ ∅) [TimesOut].

Lemma updater_select : exists t : tstate RW,
  rtc (tstep q0 (Some c0)) (Start tc0 q0 (Some c0) (NewThrottler w_down)) t /\
  t_updater t = UWait /\ t_stop t = SRunning /\ t_started t = true /\ t_metrics t = zero_metrics.
Proof.
  eexists. split.
  { unfold Start. cbn [tc0 cfg0 GetDefaults]. cbn -[Throttler.fetch NewThrottler].
    eapply rtc_l; [apply t_updater_step, t_fetch; vm_compute; reflexivity|].
    eapply rtc_l; [apply t_updater_step, t_fetch_failed|]. apply rtc_refl. }
  repeat split.
Qed.

Lemma updater_stopped : exists t : tstate RW, treachable tc0 q0 (Some c0) t /\ t_stop t = SStopped.
Proof.
  destruct updater_select as ([w m u sd dn st fs ss] & Hr & Hu & Hst & Hsd & _). simpl in *. subst.
  eexists. split.
  { exists w_down. etrans; [exact Hr|]. eapply rtc_l; [apply t_stop_begin; reflexivity|]. unfold Stop_begin. simpl.
    rewrite orb_true_r. eapply rtc_l; [apply t_updater_step, t_exit|]. apply rtc_once. apply t_stop_end. reflexivity. }
  reflexivity.
Qed.

Lemma Stop_quiesces_witness :
  exists t t' : tstate RW, treachable tc0 q0 (Some c0) t /\ rtc (tstep q0 (Some c0)) t t' /\
    t_world t' = w0 /\ t_metrics t' = t_metrics t /\ wg_zero (t_updater t') = true.
Proof.
  destruct updater_stopped as (t & Hr & Hst). destruct t as [w m u sd dn st fs ss].
  eexists _, _. split; [exact Hr|]. match goal with |- ?R /\ _ => assert R as Hs end.
  { apply rtc_once. apply (t_other q0 (Some c0) w w0). }
  split; [exact Hs|]. split; [reflexivity|].
  destruct (Stop_quiesces tc0 q0 (Some c0) _ _ Hr Hst Hs) as (H1 & _ & H3). split; [exact H1|exact H3].
Defined.

Lemma Stop_returns_witness :
  exists t t1 t2 : tstate RW, treachable tc0 q0 (Some c0) t /\ t_stop t = SWaiting /\
    rtc ustep t t1 /\ tstep q0 (Some c0) t1 t2 /\ t_stop t2 = SStopped.
Proof.
  match goal with |- exists t, _ => pose (t := Stop_begin (Start tc0 q0 (Some c0) (NewThrottler w0))) end.
  assert (treachable tc0 q0 (Some c0) t) as Hr.
  { exists w0. apply rtc_once. apply t_stop_begin. reflexivity. }
  destruct (Stop_returns tc0 q0 (Some c0) t Hr) as ((t1 & t2 & Hs & _ & Ht & Hst) & _); [reflexivity|].
  exists t, t1, t2. split; [exact Hr|]. split; [reflexivity|]. split; [exact Hs|]. split; [exact Ht|exact Hst].
Defined.

(** A request that loads the stamp before the first update and the rest after it
    failed. *)
Lemma reads_not_older_than_stamp_witness :
  exists t1 t2 : tstate RW, treachable tc0 q0 (Some c0) t1 /\ rtc (tstep q0 (Some c0)) t1 t2 /\
    (exists p, t_updater t1 = UFetch p) /\ t_updater t2 = UWait /\
    exists i x, (ThrottlerLoop.stamped t1 <= i)%nat /\ t_fetched t2 !! i = Some x /\ streamDepth (t_metrics t2) = x.1.1.
Proof.
  destruct updater_select as (t2 & Hr & Hu & _).
  exists (Start tc0 q0 (Some c0) (NewThrottler w_down)), t2.
  match goal with |- ?R /\ _ => assert R as Hr1 by (exists w_down; apply rtc_refl) end.
  split; [exact Hr1|]. split; [exact Hr|]. split; [eexists; reflexivity|]. split; [exact Hu|].
  destruct (reads_not_older_than_stamp tc0 q0 (Some c0) _ _ _ _ Hr1 Hr (rtc_refl _ _) (rtc_refl _ _))
    as (_ & _ & i & _ & _ & x & _ & _ & H & _).
  exists i, x. exact H.
Defined.

Lemma updateMetrics_correct_witness :
  exists w' m', run (Throttler.updateMetrics q0 (Some c0) zero_metrics) w_stale = (w', Val m') /\
    db w' = db w_stale /\
    let l := trace (Throttler.updateMetrics q0 (Some c0) zero_metrics) w_stale in
    ((m' = zero_metrics /\ failed_xlen l) \/
     (streamDepth m' = queue_depth q0 (db w_stale) /\
      (exists now, last (clocks l) = Some now /\ lastUpdated m' = now / Time.Second) /\
      Throttler.pending_fetched (Some c0) l (db w_stale) (pendingCount m') (oldestMessageAge m'))).
Proof. apply (updateMetrics_correct q0 (Some c0) zero_metrics w_stale). vm_compute. discriminate. Defined.

Lemma depth_ignores_acks_witness :
  exists w1 r w2 m', run (Consume.Ack c0 (ID msg0)) w_stale = (w1, Val r) /\
    run (Throttler.updateMetrics q0 (Some c0) zero_metrics) w1 = (w2, Val m') /\
    ((m' = zero_metrics /\ failed_xlen (trace (Throttler.updateMetrics q0 (Some c0) zero_metrics) w1)) \/
     streamDepth m' = queue_depth q0 (db w_stale)).
Proof. apply (depth_ignores_acks q0 (Some c0) c0 (ID msg0) zero_metrics w_stale). vm_compute. discriminate. Defined.

(** [{"level":"INFO","service":"svc","message":"hello"}], with no timestamp. *)
Definition body0 : string :=
  let q := String dquote "" in
  "{" +:+ q +:+ "level" +:+ q +:+ ":" +:+ q +:+ "INFO" +:+ q +:+ "," +:+ q +:+ "service" +:+ q +:+ ":" +:+ q +:+
  "svc" +:+ q +:+ "," +:+ q +:+ "message" +:+ q +:+ ":" +:+ q +:+ "hello" +:+ q +:+ "}".

Definition body_event : LogEvent := mkLogEvent zero_time "INFO" "svc" "hello" None "".

Lemma HandleLogs_correct_witness :
  exists w' resp, run (HandleLogs oob0 q0 NoopThrottler body0) w0 = (w', Val resp) /\
    (r_status resp = 500 \/ r_status resp = 202).
Proof.
  destruct (HandleLogs_correct oob0 q0 NoopThrottler q0_valid q0_retries) with (body := body0) (ev := body_event) (w := w0)
    as (w' & resp & ev' & Hrun & _ & v0 & v1 & d & after & _ & Ht & Hd).
  - intros w. exists w, ThrottleAllow, 0. split; reflexivity.
  - vm_compute. reflexivity.
  - vm_compute. reflexivity.
  - exists w', resp. split; [exact Hrun|]. injection Ht as _ <- _. destruct Hd as [H500|[H202 _]]; auto.
Defined.

Lemma middleware_transparent_witness :
  exists w3 log, run (loggingMiddleware (fun _ _ body => HandleLogs oob0 q0 NoopThrottler body) "POST" "/api/v1/logs" "x") w0 =
    (w3, Val log) /\ a_status (snd log) = 400.
Proof.
  edestruct (middleware_transparent (fun _ _ body => HandleLogs oob0 q0 NoopThrottler body) "POST" "/api/v1/logs" "x" w0)
    as (w3 & Hrun & _).
  - reflexivity.
  - vm_compute. reflexivity.
  - vm_compute. discriminate.
  - exists w3. eexists. split; [exact Hrun|reflexivity].
Defined.

Definition panicking : HealthChecker := mkChecker "bad" (Panic "nil map").

Lemma HandleReady_correct_witness :
  exists w' resp results, run (HandleReady (Aggregator.mk [RedisChecker; panicking] Time.Second)) w0 = (w', Val resp) /\
    (c_Name <$> results) = ["redis"; "bad"] /\
    (r_status resp = 200 \/ r_status resp = 503).
Proof.
  destruct (HandleReady_correct (Aggregator.mk [RedisChecker; panicking] Time.Second) w0) as (w' & resp & results & Hrun & Hn & _ & Hs & _).
  - repeat constructor; intros w.
    + unfold Check, RedisChecker. cbn [run bind call]. destruct (exec Ping w) as [w1 [u|e]]; discriminate.
    + discriminate.
  - exists w', resp, results. split; [exact Hrun|]. split; [exact Hn|exact Hs].
Defined.

(** The Redis check in its goroutine, to the end of the wait. *)
Definition agg0 : Aggregator.t := Aggregator.mk [RedisChecker] Time.Second.

Ltac waiter_moves tac := eapply rtc_l; [eapply (c_waiter _ _ false [] _ _ []); tac|]; cbn [app].
Ltac runner_moves tac := eapply rtc_l; [eapply (c_runner _ _ false [] _ _ []); tac|]; cbn [app].

Lemma CheckAll_correct_witness :
  exists (t : cstate RW) results, creachable agg0 t /\ waited t results /\ Healthy <$> results = [true] /\
    r_status (ready_response (Aggregator.aggregate results)) = 200 /\
    Forall2 (fun c r => Healthy r = true -> exists l, path (Check c) l (Return None)) (Aggregator.checkers agg0) results.
Proof.
  eexists _, _. match goal with |- ?R /\ _ => assert R as Hr end.
  { exists w0. unfold cstart. cbn [agg0 Aggregator.checkers fmap list_fmap].
    waiter_moves ltac:(apply k_clock; vm_compute; reflexivity).
    waiter_moves ltac:(apply k_spawn).
    runner_moves ltac:(eapply k_check, step_call; vm_compute; reflexivity).
    runner_moves ltac:(eapply k_check, step_call; vm_compute; reflexivity).
    runner_moves ltac:(apply k_send).
    waiter_moves ltac:(apply k_receive).
    apply rtc_refl. }
  split; [exact Hr|]. match goal with |- ?R /\ _ => assert R as Hw end.
  { unfold waited. cbn [h_slots fmap list_fmap slot_result s_waiter]. match goal with |- [Some ?r] = _ => exact (eq_refl (Some <$> [r])) end. }
  split; [exact Hw|]. split; [reflexivity|].
  destruct (CheckAll_correct agg0 _ _ Hr Hw) as (_ & H2 & H3 & _). split; [|exact H2].
  apply H3. constructor; [reflexivity|constructor].
Defined.

(** The context ends before the panicking check is even started. *)
Lemma CheckAll_returns_witness :
  exists (t t' : cstate RW) results, creachable (Aggregator.mk [RedisChecker; panicking] Time.Second) t /\
    rtc cstep_waiters t t' /\ waited t' results /\ length results = 2%nat.
Proof.
  set (a := Aggregator.mk [RedisChecker; panicking] Time.Second).
  assert (creachable a (mkC w0 true (h_slots (cstart a w0)))) as Hr.
  { exists w0. apply rtc_once. apply c_done. }
  destruct (CheckAll_returns a _ Hr eq_refl) as (t' & results & H1 & H2 & H3).
  eexists _, t', results. split; [exact Hr|]. split; [exact H1|]. split; [exact H2|exact H3].
Defined.

Lemma SetupPartitions_correct_witness :
  exists w' r, run (SetupPartitions cfg0) w_stale = (w', Val r) /\ groups_kept (db w_stale) (db w').
Proof.
  destruct (SetupPartitions_correct cfg0 w_stale) as (w' & r & Hrun & Hk & _).
  exists w', r. split; [exact Hrun|exact Hk].
Defined.

(** ** The processes *)

Definition no_env (_ : string) : string := "".

Lemma worker_boot_ready_witness :
  exists w' r, run (worker_boot no_env "host" 42) w_new = (w', Val r) /\
    forall cfg workerID c, r = Ok (cfg, workerID, c) -> valid_config cfg /\ groups_kept (db w_new) (db w').
Proof.
  destruct (worker_boot_ready no_env "host" 42 w_new) as (w' & r & Hrun & Hr).
  exists w', r. split; [exact Hrun|]. intros cfg workerID c He.
  destruct (Hr cfg workerID c He) as (_ & Hv & _ & _ & _ & _ & Hk & _). split; [exact Hv|exact Hk].
Defined.

Lemma ingestion_end_to_end_witness :
  exists w' resp log, run (ingestion_handler oob0 cfg0 zero_metrics "POST" "/api/v1/logs" body0) w_new =
      (w', Val (resp, log)) /\ r_status resp ∈ [202; 400; 429; 500; 503].
Proof.
  destruct (ingestion_end_to_end oob0 no_env cfg0 zero_metrics body0 body_event w_new)
    as (w' & resp & log & Hrun & _ & Hs & _).
  - exact load_defaults.
  - vm_compute. reflexivity.
  - vm_compute. reflexivity.
  - exists w', resp, log. split; [exact Hrun|exact Hs].
Defined.

(** ** Defects, shown on runs *)

(** Time passes, for the server and for the client. *)
Definition later (ms : Z) (w : RW) : RW :=
  mkRW (r_db w) (r_ms w + ms) (r_ns w + ms * Time.Millisecond) (r_seq w) (r_uuid w) (r_rand w) (r_ctx w) (r_fail w).

Definition c_other : Consumer := SetupConsumer cfg0 (Some dlq0) "worker-2".

(** The message pending for the first worker; its second Redis command will time out. *)
Definition w_pending : RW :=
  world (stream_db (mkGroup [] {[ID msg0 := mkPel "worker-1" 1700000000000]})) [Pass; TimesOut].

Definition dedup0 : Processor := DeduplicatingProcessor fail_always (WorkerConfig.DedupTTL wc0).


(** Deduplication loses a job that was never processed, on one run.  The
    deduplication key is set before the job is processed and is not removed when
    processing fails: here the first worker fails to process a job, and the
    append of its next attempt times out, so the message stays pending with its
    old retry count.  A minute later a second worker reclaims the message, finds
    the key, takes the job for a duplicate and acknowledges it: the job is then
    neither pending nor undelivered, no next attempt is in the stream and no
    dead letter exists. *)
Theorem dedup_loses_job :
  exists w1 w2 w3,
    run (processMessage c0 dedup0 job0 (ID msg0)) w_pending = (w1, Val tt) /\
    run (Consume.ReclaimStale c_other 2 (WorkerConfig.ReclaimIdleTime wc0) (WorkerConfig.ReclaimBatchSize wc0))
      (later 60000 w1) = (w2, Val ([job0], [ID msg0], None)) /\
    run (processMessage c_other dedup0 job0 (ID msg0)) w2 = (w3, Val tt) /\
    get_group (db w3) (c_streamName c0) (c_consumerGroup c0) = Some (mkGroup [] ∅) /\
    entries (get_stream (db w3) (c_streamName c0)) = [msg0] /\
    entries (get_stream (db w3) (dlq_streamName dlq0)) = [].
Proof.
  eexists _, _, _. split; [vm_compute; reflexivity|]. split; [vm_compute; reflexivity|].
  split; [vm_compute; reflexivity|]. split; [vm_compute; reflexivity|]. split; vm_compute; reflexivity.
Qed.

(** A missing consumer group is reported as an error.  [GetPendingInfo]
    means to treat it as an empty backlog, but compares the whole text of the
    error with the error code: the text Redis sends goes on after the code. *)
Theorem pending_nogroup_is_error :
  exists w' e, run (Consume.GetPendingInfo c0) w0 = (w', Val (0, 0, Some e)) /\
    Strings.Contains (Errors.Error e) "NOGROUP" = true.
Proof. eexists _, _. split; [vm_compute; reflexivity|vm_compute; reflexivity]. Qed.

(** Texts for the two bodies below. *)
Definition quoted (s : string) : string := String dquote (s +:+ String dquote "").

Definition fields (service : string) : string :=
  quoted "level" +:+ ":" +:+ quoted "INFO" +:+ "," +:+ quoted "service" +:+ ":" +:+ quoted service +:+ "," +:+
  quoted "message" +:+ ":" +:+ quoted "hello".

(** A time whose offset is a day, which [time.Time] reads but does not write. *)
Definition body_day : string :=
  "{" +:+ quoted "timestamp" +:+ ":" +:+ quoted "2024-02-29T12:30:45+24:00" +:+ "," +:+ fields "svc" +:+ "}".

(** An event that the decoder accepts and the encoder does not is a client's
    mistake that is answered as a failure of the server: 500, with nothing stored. *)
Theorem offset_day_accepted :
  exists ev w' resp, decode_body body_day = Some ev /\ validateLogEvent (Some ev) = None /\
    run (HandleLogs oob0 q0 NoopThrottler body_day) w0 = (w', Val resp) /\ r_status resp = 500 /\ db w' = db w0.
Proof.
  eexists _, _, _. split; [vm_compute; reflexivity|]. split; [vm_compute; reflexivity|].
  split; [vm_compute; reflexivity|]. split; vm_compute; reflexivity.
Qed.

(** Metadata [{"a":[[...]]}] with [n] nested arrays. *)
Definition body_deep (n : nat) : string :=
  "{" +:+ fields "a" +:+ "," +:+ quoted "metadata" +:+ ":{" +:+ quoted "a" +:+ ":" +:+
  Nat.iter n (String "[") (Nat.iter n (String "]") "}}").

(** A body is posted, a worker of its partition reads the stream, and a minute
    later the stale messages are reclaimed: the status of the response, the job
    read and whether its decoding failed, the jobs reclaimed, and the ids that are
    pending at the end. *)
Definition posted_and_read (body : string) :
    option (Z * option JobEnvelope * bool * list (JobEnvelope * string) * list string) :=
  match run (HandleLogs oob0 q0 NoopThrottler body) (world (stream_db (mkGroup [] ∅)) []) with
  | (w1, Val resp) =>
      match run (Consume.Consume c0 (WorkerConfig.PollInterval wc0)) w1 with
      | (w2, Val (envelope, _, err)) =>
          match run (Consume.ReclaimStale c_other 2 (WorkerConfig.ReclaimIdleTime wc0) (WorkerConfig.ReclaimBatchSize wc0))
                  (later 60000 w2) with
          | (w3, Val (jobs, ids, None)) =>
              Some (r_status resp, envelope, bool_decide (is_Some err), zip jobs ids,
                match get_group (db w3) (c_streamName c0) (c_consumerGroup c0) with
                | Some gr => (map_to_list (g_pel gr)).*1
                | None => []
                end)
          | _ => None
          end
      | _ => None
      end
  | _ => None
  end.

(** An accepted event that no worker can ever read.  The job is nested one level
    deeper than the event in it, so the deepest event that the handler decodes
    becomes a job that the worker does not decode: it is answered with 202, stays
    pending, is claimed again whenever it is idle, and never reaches a processor or
    the dead letter stream. *)
Theorem nested_job_poison :
  posted_and_read (body_deep 9998) = Some (202, None, true, [], ["1700000000000-0"]).
Proof. vm_compute. reflexivity. Qed.

(** The control plane lock of [cp-1], which has a second to live. *)
Definition rc0 : RegistryConfig.t := Config.Registry cfg0.
Definition w_lock : RW := world (mkDb ∅ {[controlPlaneLockKey := ("cp-1", Some 1700000001000)]} ∅) [].

(** [renewLock] reads the owner and extends the expiry in two commands.  When the
    lock expires between them and another instance takes it, the first instance
    extends the lock of the other and is told that it still leads: two leaders. *)
Theorem renew_race_two_leaders :
  exists w1 rest w2 w3,
    step (ControlPlane.renewLock rc0 "cp-1") w_lock = Some (w1, rest) /\
    run (ControlPlane.acquireLock rc0 "cp-2") (later 1000 w1) = (w2, Val (Ok true)) /\
    run rest w2 = (w3, Val None) /\ live (db w3) (server_ms w3) controlPlaneLockKey = Some "cp-2".
Proof.
  eexists _, _, _, _. split; [apply step_call; vm_compute; reflexivity|].
  split; [vm_compute; reflexivity|]. split; vm_compute; reflexivity.
Qed.

(** The same in [releaseLock]: an instance that shuts down deletes the lock that
    another instance has just taken. *)
Theorem release_race_deletes_other :
  exists w1 rest w2 w3,
    step (ControlPlane.releaseLock "cp-1") w_lock = Some (w1, rest) /\
    run (ControlPlane.acquireLock rc0 "cp-2") (later 1000 w1) = (w2, Val (Ok true)) /\
    run rest w2 = (w3, Val tt) /\ live (db w3) (server_ms w3) controlPlaneLockKey = None.
Proof.
  eexists _, _, _, _. split; [apply step_call; vm_compute; reflexivity|].
  split; [vm_compute; reflexivity|]. split; vm_compute; reflexivity.
Qed.
